(** * The raw YUV coder (coders/yuv.c): a shallow embedding

    The two entry points of the coder, [ReadYUVImage] and [WriteYUVImage],
    are embedded as functions over an explicit state (the open blob, the
    scanline buffer, the pixel rows) in a small state-and-exception monad.
    Pixel rows are flat arrays of quantums, [GetPixelChannels] quantums per
    pixel, exactly as the [Quantum *] pointers of the source walk them;
    every access outside an array is reported as undefined behaviour.

    Everything the coder takes from MagickCore (quantum scaling, the pixel
    component map, geometry parsing, resizing, ...) is gathered in the
    class [MagickCore]; the theorems hold for every instance unless they
    say otherwise. *)

From stdpp Require Import base numbers list strings option.

Open Scope Z_scope.

(** ** Types of image.h, geometry.h and exception.h used by the coder *)

(** The interlace schemes the coder distinguishes. *)
Inductive InterlaceType : Set :=
| UndefinedInterlace
| NoInterlace
| PlaneInterlace
| PartitionInterlace.

Global Instance InterlaceType_eq_dec : EqDecision InterlaceType.
Proof. solve_decision. Defined.

Inductive ColorspaceType : Set :=
| RGBColorspace
| YCbCrColorspace.

Inductive ExceptionType : Set :=
| OptionError
| CorruptImageError
| ResourceLimitError.

(** A quantum is one channel sample; a byte is one unsigned char. *)
Abbreviation Quantum := Z (only parsing).

(** [GeometryInfo] after the [(ssize_t)] casts of the coder. *)
Record GeometryInfo : Set := { rho : Z; sigma : Z }.

(** One row of the pixel cache: [GetPixelChannels] quantums per pixel. *)
Abbreviation PixelRow := (list Quantum) (only parsing).

Record Image : Type := {
  columns : Z;
  rows : Z;
  depth : Z;
  scene : Z;
  interlace : InterlaceType;
  colorspace : ColorspaceType;
  filename : string;
  pixels : list PixelRow
}.

Record ImageInfo : Type := {
  info_columns : Z;
  info_rows : Z;
  info_depth : Z;
  info_offset : Z;
  info_interlace : InterlaceType;
  sampling_factor : option string;
  info_filename : string;
  adjoin : bool;
  ping : bool;
  info_scene : Z;
  number_scenes : Z
}.

(** The pixel component map of pixel-accessor.h: how many quantums a pixel
    has and where its red, green and blue samples sit. *)
Record PixelComponentMap : Set := {
  pixel_channels : nat;
  RedPixelComponent : nat;
  GreenPixelComponent : nat;
  BluePixelComponent : nat
}.

(** A component map is well formed when the three colour components are
    distinct slots of the pixel. *)
Definition component_map_wf (m : PixelComponentMap) : Prop :=
  (RedPixelComponent m < pixel_channels m)%nat ∧
  (GreenPixelComponent m < pixel_channels m)%nat ∧
  (BluePixelComponent m < pixel_channels m)%nat ∧
  RedPixelComponent m ≠ GreenPixelComponent m ∧
  RedPixelComponent m ≠ BluePixelComponent m ∧
  GreenPixelComponent m ≠ BluePixelComponent m.

(** ** What the coder takes from MagickCore

    None of these is defined in coders/yuv.c; they are parameters of the
    development. *)
Class MagickCore : Type := {
  (** MAGICKCORE_QUANTUM_DEPTH: the internal sample range is
      [0 .. 2^QuantumDepth - 1]. *)
  QuantumDepth : Z;
  (** Modelled from the spec: the internal representation is full-range,
      wide enough for every one-byte and two-byte sample. *)
  QuantumDepth_full_range : 16 ≤ QuantumDepth;
  (** the [SigmaValue] bit of the geometry flags *)
  SigmaValue : Z;
  (** the component map shared by an image and its clones *)
  component_map : PixelComponentMap;
  (** what freshly acquired memory holds before it is written: a quantum
      of a new pixel cache, a byte of a new scanline *)
  fresh_quantum : Quantum;
  fresh_byte : Z;
  (** geometry.c *)
  ParseGeometry : string → Z * GeometryInfo;
  (** utility.c *)
  AppendImageFormat : string → string → string;
  (** resize.c; [None] is the NULL result *)
  ResizeImage : Image → Z → Z → option Image;
  (** colorspace.c *)
  TransformImageColorspace : Image → ColorspaceType → Image
}.

(** ** Integer conversions *)

(** [size_t] is 64 bits wide; a [ssize_t] operand of a mixed expression is
    converted to it. *)
Definition size_t_bits : Z := 64.
Definition to_size_t (z : Z) : Z := z mod 2 ^ size_t_bits.

(** [a / b] at type [size_t]; division by zero has no result. *)
Definition size_t_div (a b : Z) : option Z :=
  if decide (to_size_t b = 0) then None
  else Some (to_size_t a / to_size_t b).

(** [a & b] at type [size_t]. *)
Definition size_t_and (a b : Z) : Z := Z.land (to_size_t a) (to_size_t b).

(** ** Sample scaling (quantum.h) *)

Section Scaling.
Context `{MagickCore}.

(** Modelled from the spec: quantum.h is not among the sources.  The
    largest value of the internal sample range. *)
Definition QuantumRange : Z := 2 ^ QuantumDepth - 1.

(** [value * to / from], rounded to the nearest integer. *)
Definition rescale (value from to : Z) : Z :=
  (2 * value * to + from) / (2 * from).

(** Modelled from the spec: quantum.h is not among the sources.  A
    one-byte sample is linearly rescaled between 0..255 and the internal
    range. *)
Definition ScaleCharToQuantum (value : Z) : Quantum :=
  rescale value 255 QuantumRange.

(** Modelled from the spec: quantum.h is not among the sources. *)
Definition ScaleQuantumToChar (quantum : Quantum) : Z :=
  rescale quantum QuantumRange 255.

(** Modelled from the spec: quantum.h is not among the sources.  A
    two-byte sample is linearly rescaled between 0..65535 and the
    internal range. *)
Definition ScaleShortToQuantum (value : Z) : Quantum :=
  rescale value 65535 QuantumRange.

(** Modelled from the spec: quantum.h is not among the sources. *)
Definition ScaleQuantumToShort (quantum : Quantum) : Z :=
  rescale quantum QuantumRange 65535.
End Scaling.

(** Modelled from the spec: blob.c is not among the sources.  The bytes
    WriteBlobByte sends to the blob: the value as one unsigned char. *)
Definition WriteBlobByte (value : Z) : list Z := [value mod 256].

(** Modelled from the spec: blob.c is not among the sources.  The bytes
    WriteBlobShort sends to the blob: two bytes, most significant first. *)
Definition WriteBlobShort (value : Z) : list Z :=
  [Z.land (Z.shiftr value 8) 255; Z.land value 255].

(** The two-byte sample at the scanline pointer: the byte under the
    pointer shifted left by 8, or-ed with the next byte, passed as an
    unsigned short. *)
Definition short_of_bytes (b0 b1 : Z) : Z :=
  Z.lor (Z.shiftl b0 8) b1 mod 65536.

(** ** The preamble shared by the reader and the writer *)

Section Preamble.
Context `{MagickCore}.

(** Lines 149-167 of the reader, 589-607 of the writer (the same text):
    the sampling factors, or [None] when the coder throws
    CorruptImageError/UnexpectedSamplingFactor. *)
Definition sampling_factors (sf : option string) : option (Z * Z) :=
  match sf with
  | None => Some (2, 2)
  | Some s =>
      let '(flags, geometry_info) := ParseGeometry s in
      let horizontal_factor := rho geometry_info in
      let vertical_factor := sigma geometry_info in
      let vertical_factor :=
        if decide (Z.land flags SigmaValue = 0) then horizontal_factor
        else vertical_factor in
      if decide (horizontal_factor ≠ 1 ∧ horizontal_factor ≠ 2 ∧
                 vertical_factor ≠ 1 ∧ vertical_factor ≠ 2)
      then None
      else Some (horizontal_factor, vertical_factor)
  end.

(** Lines 168-174 of the reader, 608-614 of the writer. *)
Definition effective_interlace (declared : InterlaceType)
    (vertical_factor : Z) : InterlaceType :=
  if decide (declared = UndefinedInterlace ∨
             (declared = NoInterlace ∧ vertical_factor = 2))
  then
    if decide (vertical_factor = 2) then PlaneInterlace else NoInterlace
  else declared.

(** [quantum=image->depth <= 8 ? 1 : 2] *)
Definition sample_width (depth : Z) : Z :=
  if decide (depth ≤ 8) then 1 else 2.

(** Lines 193-198: the number of bytes of the scanline buffer. *)
Definition scanline_extent (interlace : InterlaceType)
    (image_columns quantum : Z) : Z :=
  if decide (interlace = NoInterlace)
  then (2 * image_columns + 2) * quantum
  else image_columns * quantum.
End Preamble.

(** ** Pixel accessors (pixel-accessor.h) over flat rows

    A [Quantum *] into a row is the row together with an offset.  A store
    outside the row, or a load outside it, is undefined behaviour: [None]. *)

Section Accessors.
Context `{MagickCore}.

Definition GetPixelChannels : nat := pixel_channels component_map.

Definition store (row : PixelRow) (i : nat) (value : Quantum)
    : option PixelRow :=
  if decide (i < length row)%nat then Some (<[i:=value]> row) else None.

Definition SetPixelRed (value : Quantum) (row : PixelRow) (pixel : nat) :=
  store row (pixel + RedPixelComponent component_map) value.
Definition SetPixelGreen (value : Quantum) (row : PixelRow) (pixel : nat) :=
  store row (pixel + GreenPixelComponent component_map) value.
Definition SetPixelBlue (value : Quantum) (row : PixelRow) (pixel : nat) :=
  store row (pixel + BluePixelComponent component_map) value.

Definition GetPixelRed (row : PixelRow) (pixel : nat) : option Quantum :=
  row !! (pixel + RedPixelComponent component_map)%nat.
Definition GetPixelGreen (row : PixelRow) (pixel : nat) : option Quantum :=
  row !! (pixel + GreenPixelComponent component_map)%nat.
Definition GetPixelBlue (row : PixelRow) (pixel : nat) : option Quantum :=
  row !! (pixel + BluePixelComponent component_map)%nat.

(** The sample under the scanline pointer [p] and the advanced pointer:
    one byte through [ScaleCharToQuantum] when [quantum] is 1, two bytes
    through [ScaleShortToQuantum] otherwise. *)
Definition next_sample (quantum : Z) (scanline : list Z) (p : nat)
    : option (Quantum * nat) :=
  if decide (quantum = 1) then
    b ← scanline !! p;
    Some (ScaleCharToQuantum b, S p)
  else
    b0 ← scanline !! p;
    b1 ← scanline !! S p;
    Some (ScaleShortToQuantum (short_of_bytes b0 b1), S (S p)).
End Accessors.

(** ** Counting loops

    [for (x=x0; x < limit; x+=step) body], the body in the option monad.
    The fuel is the distance to the limit, which a loop with a positive
    step never exhausts; a loop cut short by the fuel has no result. *)

Fixpoint for_fuel {St : Type} (fuel : nat) (x limit step : Z)
    (body : Z → St → option St) (s : St) : option St :=
  if decide (x < limit) then
    match fuel with
    | O => None
    | S fuel' =>
        s' ← body x s;
        for_fuel fuel' (x + step) limit step body s'
    end
  else Some s.

Definition for_loop {St : Type} (limit step : Z)
    (body : Z → St → option St) (s : St) : option St :=
  for_fuel (Z.to_nat limit) 0 limit step body s.

(** ** The scanline decoders of ReadYUVImage *)

Section Decoders.
Context `{MagickCore}.

(** The pointers of the non-interlaced inner loop and the two rows they
    walk. *)
Record DecodeCursor : Type := {
  dc_p : nat;
  dc_q : nat;
  dc_chroma_pixels : nat;
  dc_row : PixelRow;
  dc_chroma_row : PixelRow
}.

(** Lines 242-279: one turn of the non-interlaced inner loop. *)
Definition decode_pair (quantum : Z) (scanline : list Z)
    (c : DecodeCursor) : option DecodeCursor :=
  let p := dc_p c in
  let q := dc_q c in
  let chroma_pixels := dc_chroma_pixels c in
  chroma ← SetPixelRed 0 (dc_chroma_row c) chroma_pixels;
  '(u, p) ← next_sample quantum scanline p;
  chroma ← SetPixelGreen u chroma chroma_pixels;
  '(y0, p) ← next_sample quantum scanline p;
  row ← SetPixelRed y0 (dc_row c) q;
  row ← SetPixelGreen 0 row q;
  row ← SetPixelBlue 0 row q;
  let q := (q + GetPixelChannels)%nat in
  row ← SetPixelGreen 0 row q;
  row ← SetPixelBlue 0 row q;
  '(v, p) ← next_sample quantum scanline p;
  chroma ← SetPixelBlue v chroma chroma_pixels;
  '(y1, p) ← next_sample quantum scanline p;
  row ← SetPixelRed y1 row q;
  let chroma_pixels := S chroma_pixels in
  let q := (q + GetPixelChannels)%nat in
  Some {| dc_p := p; dc_q := q; dc_chroma_pixels := chroma_pixels;
          dc_row := row; dc_chroma_row := chroma |}.

(** Lines 232-280: a non-interlaced scanline into the queued luma row
    and the queued chroma row. *)
Definition decode_noninterlaced_row (quantum image_columns : Z)
    (scanline : list Z) (row chroma_row : PixelRow)
    : option (PixelRow * PixelRow) :=
  c ← for_loop image_columns 2 (λ _, decode_pair quantum scanline)
        {| dc_p := 0; dc_q := 0; dc_chroma_pixels := 0;
           dc_row := row; dc_chroma_row := chroma_row |};
  Some (dc_row c, dc_chroma_row c).

(** The pointers of the plane loops: the scanline pointer [p], the
    pixel pointer [q] and the row under [q]. *)
Record PlaneCursor : Type := {
  pc_p : nat;
  pc_q : nat;
  pc_row : PixelRow
}.

(** Lines 292-301: one luma sample of a plane scanline. *)
Definition decode_luma (quantum : Z) (scanline : list Z)
    (c : PlaneCursor) : option PlaneCursor :=
  '(y0, p) ← next_sample quantum scanline (pc_p c);
  row ← SetPixelRed y0 (pc_row c) (pc_q c);
  row ← SetPixelGreen 0 row (pc_q c);
  row ← SetPixelBlue 0 row (pc_q c);
  Some {| pc_p := p; pc_q := (pc_q c + GetPixelChannels)%nat;
          pc_row := row |}.

(** Lines 340-350: one U sample of the U plane. *)
Definition decode_u (quantum : Z) (scanline : list Z)
    (c : PlaneCursor) : option PlaneCursor :=
  row ← SetPixelRed 0 (pc_row c) (pc_q c);
  '(u, p) ← next_sample quantum scanline (pc_p c);
  row ← SetPixelGreen u row (pc_q c);
  row ← SetPixelBlue 0 row (pc_q c);
  Some {| pc_p := p; pc_q := (pc_q c + GetPixelChannels)%nat;
          pc_row := row |}.

(** Lines 376-384: one V sample of the V plane. *)
Definition decode_v (quantum : Z) (scanline : list Z)
    (c : PlaneCursor) : option PlaneCursor :=
  '(v, p) ← next_sample quantum scanline (pc_p c);
  row ← SetPixelBlue v (pc_row c) (pc_q c);
  Some {| pc_p := p; pc_q := (pc_q c + GetPixelChannels)%nat;
          pc_row := row |}.

(** A plane scanline into one row, sample by sample. *)
Definition decode_plane_row
    (sample : Z → list Z → PlaneCursor → option PlaneCursor)
    (quantum row_columns : Z) (scanline : list Z) (row : PixelRow)
    : option PixelRow :=
  c ← for_loop row_columns 1 (λ _, sample quantum scanline)
        {| pc_p := 0; pc_q := 0; pc_row := row |};
  Some (pc_row c).

(** The pointers of the merge loop: [chroma_pixels] into the row of the
    resized chroma image, [q] into the row of the image. *)
Record MergeCursor : Type := {
  mc_chroma_pixels : nat;
  mc_q : nat;
  mc_row : PixelRow
}.

(** Lines 408-411: one turn of the merge loop. *)
Definition merge_pixel (chroma_row : PixelRow) (c : MergeCursor)
    : option MergeCursor :=
  g ← GetPixelGreen chroma_row (mc_chroma_pixels c);
  row ← SetPixelGreen g (mc_row c) (mc_q c);
  b ← GetPixelBlue chroma_row (mc_chroma_pixels c);
  row ← SetPixelBlue b row (mc_q c);
  Some {| mc_chroma_pixels := S (mc_chroma_pixels c);
          mc_q := (mc_q c + GetPixelChannels)%nat;
          mc_row := row |}.

(** Lines 406-412: the chroma of one resized row into one image row. *)
Definition merge_row (image_columns : Z) (chroma_row row : PixelRow)
    : option PixelRow :=
  c ← for_loop image_columns 1 (λ _, merge_pixel chroma_row)
        {| mc_chroma_pixels := 0; mc_q := 0; mc_row := row |};
  Some (mc_row c).
End Decoders.

(** ** The monad of the two entry points

    A computation runs on a state and ends normally, by a thrown exception
    (ThrowReaderException, ThrowWriterException), by the early return
    after a failed OpenBlob, or in undefined behaviour.  The state reached
    is kept in every case, so that what happened before a failure can be
    observed.  A loop cut short by its fuel ends in [OutOfFuel]. *)

Inductive Result (A : Type) : Type :=
| Ok (a : A)
| Thrown (severity : ExceptionType) (reason : string)
| OpenFailed
| Undefined
| OutOfFuel.
Arguments Ok {A} a.
Arguments Thrown {A} severity reason.
Arguments OpenFailed {A}.
Arguments Undefined {A}.
Arguments OutOfFuel {A}.

Definition M (St A : Type) : Type := St → Result A * St.

Global Instance M_ret {St} : MRet (M St) := λ A a st, (Ok a, st).
Global Instance M_bind {St} : MBind (M St) := λ A B f m st,
  match m st with
  | (Ok a, st') => f a st'
  | (Thrown severity reason, st') => (Thrown severity reason, st')
  | (OpenFailed, st') => (OpenFailed, st')
  | (Undefined, st') => (Undefined, st')
  | (OutOfFuel, st') => (OutOfFuel, st')
  end.

(** The return that ends a throw macro: the exception and no result. *)
Definition throw {St A} (severity : ExceptionType) (reason : string)
    : M St A := λ st, (Thrown severity reason, st).
Definition open_failed {St A} : M St A := λ st, (OpenFailed, st).
Definition undefined {St A} : M St A := λ st, (Undefined, st).
Definition out_of_fuel {St A} : M St A := λ st, (OutOfFuel, st).
Definition get {St} : M St St := λ st, (Ok st, st).
Definition gets {St A} (f : St → A) : M St A := λ st, (Ok (f st), st).
Definition modify {St} (f : St → St) : M St unit := λ st, (Ok (), f st).

(** An access outside an array, found by a row-level function. *)
Definition defined {St A} (o : option A) : M St A :=
  match o with Some a => mret a | None => undefined end.

(** [for (y=0; y < limit; y++) body]; the body answers [false] when it
    leaves the loop by [break]. *)
Fixpoint rows_fuel {St : Type} (fuel : nat) (y limit : Z)
    (body : Z → M St bool) : M St unit :=
  if decide (y < limit) then
    match fuel with
    | O => out_of_fuel
    | S fuel' =>
        continue ← body y;
        if continue : bool then rows_fuel fuel' (y + 1) limit body
        else mret ()
    end
  else mret ().

Definition for_rows {St : Type} (limit : Z) (body : Z → M St bool)
    : M St unit :=
  rows_fuel (Z.to_nat limit) 0 limit body.

(** [do frame while (condition)]: a frame answers [false] when it leaves
    the loop by [break], and the condition is read in the state the frame
    ends in. *)
Fixpoint do_while {St : Type} (fuel : nat) (frame : M St bool)
    (condition : St → bool) : M St unit :=
  match fuel with
  | O => out_of_fuel
  | S fuel' =>
      continue ← frame;
      st ← get;
      if continue && condition st then do_while fuel' frame condition
      else mret ()
  end.

(** What the coder does to blobs, in order. *)
Inductive BlobEvent : Type :=
| OpenBlobEvent (name : string)
| CloseBlobEvent
| ReadBlobEvent (requested : Z) (bytes : list Z)
| WriteBlobEvent (bytes : list Z).

(** ** The scanline encoders of WriteYUVImage *)

Section Encoders.
Context `{MagickCore}.

(** The pointer [p] into the row of [yuv_image], the pointer [s] into
    the row of [chroma_image], and the bytes written so far. *)
Record EncodeCursor : Type := {
  ec_p : nat;
  ec_s : nat;
  ec_bytes : list Z
}.

(** Lines 670-696: one turn of the non-interlaced inner loop.  The turn
    ends with [x++], and the loop header adds another. *)
Definition encode_pair (quantum : Z) (yuv_row chroma_row : PixelRow)
    (c : EncodeCursor) : option EncodeCursor :=
  let p := ec_p c in
  let s := ec_s c in
  if decide (quantum = 1) then
    u ← GetPixelGreen chroma_row s;
    y0 ← GetPixelRed yuv_row p;
    let p := (p + GetPixelChannels)%nat in
    v ← GetPixelBlue chroma_row s;
    y1 ← GetPixelRed yuv_row p;
    Some {| ec_p := (p + GetPixelChannels)%nat; ec_s := S s;
            ec_bytes := ec_bytes c
              ++ WriteBlobByte (ScaleQuantumToChar u)
              ++ WriteBlobByte (ScaleQuantumToChar y0)
              ++ WriteBlobByte (ScaleQuantumToChar v)
              ++ WriteBlobByte (ScaleQuantumToChar y1) |}
  else
    u ← GetPixelGreen chroma_row s;
    y0 ← GetPixelRed yuv_row p;
    let p := (p + GetPixelChannels)%nat in
    v ← GetPixelBlue chroma_row s;
    y1 ← GetPixelRed yuv_row p;
    Some {| ec_p := (p + GetPixelChannels)%nat; ec_s := S s;
            ec_bytes := ec_bytes c
              ++ WriteBlobByte (ScaleQuantumToChar u)
              ++ WriteBlobShort (ScaleQuantumToShort y0)
              ++ WriteBlobByte (ScaleQuantumToChar v)
              ++ WriteBlobShort (ScaleQuantumToShort y1) |}.

(** Lines 668-697: the bytes of one non-interlaced scanline. *)
Definition encode_noninterlaced_row (quantum yuv_columns : Z)
    (yuv_row chroma_row : PixelRow) : option (list Z) :=
  c ← for_loop yuv_columns 2 (λ _, encode_pair quantum yuv_row chroma_row)
        {| ec_p := 0; ec_s := 0; ec_bytes := [] |};
  Some (ec_bytes c).

(** The pointer [p] of the plane loops and the bytes written so far. *)
Record PlaneEncodeCursor : Type := {
  pe_p : nat;
  pe_bytes : list Z
}.

(** Lines 721-727, 764-770 and 799-805: one sample of a plane, read
    through [component] ([GetPixelRed], [GetPixelGreen] or
    [GetPixelBlue]). *)
Definition sample_bytes (quantum : Z) (value : Quantum) : list Z :=
  if decide (quantum = 1)
  then WriteBlobByte (ScaleQuantumToChar value)
  else WriteBlobShort (ScaleQuantumToShort value).

Definition encode_sample (component : PixelRow → nat → option Quantum)
    (quantum : Z) (row : PixelRow) (c : PlaneEncodeCursor)
    : option PlaneEncodeCursor :=
  value ← component row (pe_p c);
  Some {| pe_p := (pe_p c + GetPixelChannels)%nat;
          pe_bytes := pe_bytes c ++ sample_bytes quantum value |}.

(** The bytes of one scanline of a plane. *)
Definition encode_plane_row (component : PixelRow → nat → option Quantum)
    (quantum row_columns : Z) (row : PixelRow) : option (list Z) :=
  c ← for_loop row_columns 1 (λ _, encode_sample component quantum row)
        {| pe_p := 0; pe_bytes := [] |};
  Some (pe_bytes c).
End Encoders.

(** ** WriteYUVImage *)

(** Field updates of an image. *)
Definition set_depth (d : Z) (i : Image) : Image :=
  {| columns := columns i; rows := rows i; depth := d; scene := scene i;
     interlace := interlace i; colorspace := colorspace i;
     filename := filename i; pixels := pixels i |}.
Definition set_filename (name : string) (i : Image) : Image :=
  {| columns := columns i; rows := rows i; depth := depth i; scene := scene i;
     interlace := interlace i; colorspace := colorspace i;
     filename := name; pixels := pixels i |}.
Definition set_colorspace (c : ColorspaceType) (i : Image) : Image :=
  {| columns := columns i; rows := rows i; depth := depth i; scene := scene i;
     interlace := interlace i; colorspace := c;
     filename := filename i; pixels := pixels i |}.
Definition set_pixels (rs : list PixelRow) (i : Image) : Image :=
  {| columns := columns i; rows := rows i; depth := depth i; scene := scene i;
     interlace := interlace i; colorspace := colorspace i;
     filename := filename i; pixels := rs |}.

(** The state of an encode: the caller's image list (the coder assigns to
    fields of its images), the position of [image] in it, the stream the
    blob shared by the list is open on, and the blob events so far.
    [ws_writable] tells which streams OpenBlob can open. *)
Record WriterState : Type := {
  ws_writable : string → bool;
  ws_images : list Image;
  ws_image : nat;
  ws_blob : option string;
  ws_trace : list BlobEvent
}.

Section Writer.
Context `{MagickCore}.

Definition ws_update (images : list Image) (position : nat)
    (blob : option string) (trace : list BlobEvent) (st : WriterState)
    : WriterState :=
  {| ws_writable := ws_writable st; ws_images := images;
     ws_image := position; ws_blob := blob; ws_trace := trace |}.

(** The image [image] points to. *)
Definition current_image : M WriterState Image := λ st,
  match ws_images st !! ws_image st with
  | Some image => (Ok image, st)
  | None => (Undefined, st)
  end.

(** An assignment to a field of the image [image] points to. *)
Definition assign (f : Image → Image) : M WriterState unit :=
  modify (λ st, ws_update (alter f (ws_image st) (ws_images st))
                  (ws_image st) (ws_blob st) (ws_trace st) st).

Definition log (e : BlobEvent) : M WriterState unit :=
  modify (λ st, ws_update (ws_images st) (ws_image st) (ws_blob st)
                  (ws_trace st ++ [e]) st).

(** OpenBlob in WriteBinaryBlobMode, on the file name of the image. *)
Definition OpenBlob_write : M WriterState unit :=
  image ← current_image;
  st ← get;
  if ws_writable st (filename image) then
    modify (λ st, ws_update (ws_images st) (ws_image st)
                    (Some (filename image))
                    (ws_trace st ++ [OpenBlobEvent (filename image)]) st)
  else open_failed.

Definition CloseBlob_write : M WriterState unit :=
  modify (λ st, ws_update (ws_images st) (ws_image st) None
                  (ws_trace st ++ [CloseBlobEvent]) st).

(** GetVirtualPixels of one whole row; a row outside the image is not
    modelled and reads as NULL. *)
Definition GetVirtualPixels (image : Image) (y : Z) : option PixelRow :=
  pixels image !! Z.to_nat y.

(** Close the blob, rename the image and reopen: lines 749-754 and
    784-789. *)
Definition next_partition (format : string) : M WriterState unit :=
  CloseBlob_write;;
  assign (λ i, set_filename (AppendImageFormat format (filename i)) i);;
  OpenBlob_write.

(** One plane of the plane and partition layouts, row by row. *)
Definition write_plane (component : PixelRow → nat → option Quantum)
    (quantum : Z) (source : Image) : M WriterState unit :=
  for_rows (rows source) (λ y,
    match GetVirtualPixels source y with
    | None => mret false
    | Some p =>
        bytes ← defined
          (encode_plane_row component quantum (columns source) p);
        log (WriteBlobEvent bytes);;
        mret true
    end).

(** Modelled from the spec: ThrowWriterException is a macro of
    MagickCore that is not among the sources.  The spec has a failed
    encode return its failure status with no file left open: the macro
    closes the blob, which changes nothing when no stream is open, and
    returns MagickFalse.  With adjoin set the macro first moves [image]
    back to the head of the list, whose blob all images share. *)
Definition ThrowWriterException {A : Type} (image_info : ImageInfo)
    (severity : ExceptionType) (reason : string) : M WriterState A :=
  (if adjoin image_info then
     modify (λ st, ws_update (ws_images st) 0 (ws_blob st) (ws_trace st) st)
   else mret ());;
  st ← get;
  (if ws_blob st is Some _ then CloseBlob_write else mret ());;
  throw severity reason.

(** Lines 634-825: the body of the frame loop; [false] when the loop is
    left by [break].  No progress monitor is installed, so
    SetImageProgress answers MagickTrue. *)
Definition write_frame (image_info : ImageInfo) (quantum : Z)
    (interlace : InterlaceType) (horizontal_factor vertical_factor : Z)
    : M WriterState bool :=
  assign (set_depth (if decide (quantum = 1) then 8 else 16));;
  image ← current_image;
  let width := to_size_t
    (columns image + size_t_and (columns image) (horizontal_factor - 1)) in
  let height := to_size_t
    (rows image + size_t_and (rows image) (vertical_factor - 1)) in
  match ResizeImage image width height with
  | None => ThrowWriterException image_info ResourceLimitError "ResizeImage"
      (* the reason thrown is the one ResizeImage left in the image *)
  | Some yuv_image =>
    let yuv_image := TransformImageColorspace yuv_image YCbCrColorspace in
    chroma_columns ← defined (size_t_div width horizontal_factor);
    chroma_rows ← defined (size_t_div height vertical_factor);
    match ResizeImage image chroma_columns chroma_rows with
    | None =>
        ThrowWriterException image_info ResourceLimitError "ResizeImage"
    | Some chroma_image =>
      let chroma_image :=
        TransformImageColorspace chroma_image YCbCrColorspace in
      (if decide (interlace = NoInterlace) then
         for_rows (rows yuv_image) (λ y,
           match GetVirtualPixels yuv_image y with
           | None => mret false
           | Some p =>
             match GetVirtualPixels chroma_image y with
             | None => mret false
             | Some s =>
                 bytes ← defined (encode_noninterlaced_row quantum
                                    (columns yuv_image) p s);
                 log (WriteBlobEvent bytes);;
                 mret true
             end
           end)
       else
         write_plane GetPixelRed quantum yuv_image;;
         (if decide (interlace = PartitionInterlace)
          then next_partition "U" else mret ());;
         write_plane GetPixelGreen quantum chroma_image;;
         (if decide (interlace = PartitionInterlace)
          then next_partition "V" else mret ());;
         write_plane GetPixelBlue quantum chroma_image);;
      (if decide (interlace = PartitionInterlace)
       then assign (set_filename (info_filename image_info))
       else mret ());;
      st ← get;
      if decide (S (ws_image st) < length (ws_images st))%nat then
        (* image=SyncNextImageInList(image) *)
        modify (λ st, ws_update (ws_images st) (S (ws_image st))
                        (ws_blob st) (ws_trace st) st);;
        mret true
      else mret false
    end
  end.

(** WriteYUVImage: [true] is MagickTrue.  The frame loop advances
    through the image list, so the length of the list is fuel enough. *)
Definition WriteYUVImage (image_info : ImageInfo) : M WriterState bool :=
  image ← current_image;
  let quantum := sample_width (depth image) in
  let interlace := interlace image in
  match sampling_factors (sampling_factor image_info) with
  | None =>
      ThrowWriterException image_info
        CorruptImageError "UnexpectedSamplingFactor"
  | Some (horizontal_factor, vertical_factor) =>
      let interlace := effective_interlace interlace vertical_factor in
      (if decide (interlace ≠ PartitionInterlace) then OpenBlob_write
       else
         assign (λ i, set_filename (AppendImageFormat "Y" (filename i)) i);;
         OpenBlob_write);;
      st ← get;
      do_while (length (ws_images st))
        (write_frame image_info quantum interlace
           horizontal_factor vertical_factor)
        (λ _, adjoin image_info);;
      CloseBlob_write;;
      mret true
  end.

(** The state WriteYUVImage is entered in: nothing is open, [image] is
    the head of the list. *)
Definition writer_entry (writable : string → bool) (images : list Image)
    : WriterState :=
  {| ws_writable := writable; ws_images := images; ws_image := 0;
     ws_blob := None; ws_trace := [] |}.
End Writer.
Global Arguments ThrowWriterException : simpl never.

(** ** ReadYUVImage *)

(** The state of a decode: the streams that can be opened, the unread
    bytes of the open blob and its end-of-file mark, the scanline buffer,
    the last byte count, the frames before [image], the image and chroma
    image under construction, the exceptions recorded by
    ThrowFileException, and the blob events so far. *)
Record ReaderState : Type := {
  rs_files : string → option (list Z);
  rs_blob : option (list Z);
  rs_eof : bool;
  rs_scanline : list Z;
  rs_count : Z;
  rs_previous : list Image;
  rs_image : Image;
  rs_chroma_image : Image;
  rs_exceptions : list (ExceptionType * string);
  rs_trace : list BlobEvent
}.

Definition rs_set_blob (blob : option (list Z)) (eof : bool)
    (e : BlobEvent) (st : ReaderState) : ReaderState :=
  {| rs_files := rs_files st; rs_blob := blob; rs_eof := eof;
     rs_scanline := rs_scanline st; rs_count := rs_count st;
     rs_previous := rs_previous st; rs_image := rs_image st;
     rs_chroma_image := rs_chroma_image st;
     rs_exceptions := rs_exceptions st; rs_trace := rs_trace st ++ [e] |}.
Definition rs_set_scanline (scanline : list Z) (count : Z)
    (st : ReaderState) : ReaderState :=
  {| rs_files := rs_files st; rs_blob := rs_blob st; rs_eof := rs_eof st;
     rs_scanline := scanline; rs_count := count;
     rs_previous := rs_previous st; rs_image := rs_image st;
     rs_chroma_image := rs_chroma_image st;
     rs_exceptions := rs_exceptions st; rs_trace := rs_trace st |}.
Definition rs_set_images (previous : list Image) (image chroma_image : Image)
    (st : ReaderState) : ReaderState :=
  {| rs_files := rs_files st; rs_blob := rs_blob st; rs_eof := rs_eof st;
     rs_scanline := rs_scanline st; rs_count := rs_count st;
     rs_previous := previous; rs_image := image;
     rs_chroma_image := chroma_image;
     rs_exceptions := rs_exceptions st; rs_trace := rs_trace st |}.
Definition rs_record (e : ExceptionType * string) (st : ReaderState)
    : ReaderState :=
  {| rs_files := rs_files st; rs_blob := rs_blob st; rs_eof := rs_eof st;
     rs_scanline := rs_scanline st; rs_count := rs_count st;
     rs_previous := rs_previous st; rs_image := rs_image st;
     rs_chroma_image := rs_chroma_image st;
     rs_exceptions := rs_exceptions st ++ [e]; rs_trace := rs_trace st |}.

Section Reader.
Context `{MagickCore}.

(** A pixel cache of the given geometry that nothing has written yet. *)
Definition fresh_pixels (image_columns image_rows : Z) : list PixelRow :=
  replicate (Z.to_nat image_rows)
    (replicate (Z.to_nat image_columns * GetPixelChannels) fresh_quantum).

(** Modelled from the spec: image.c is not among the sources.  The image
    AcquireImage builds has the declared geometry, depth, scene and file
    name, and a pixel cache not yet written. *)
Definition AcquireImage (image_info : ImageInfo) : Image :=
  {| columns := info_columns image_info; rows := info_rows image_info;
     depth := info_depth image_info; scene := info_scene image_info;
     interlace := info_interlace image_info; colorspace := RGBColorspace;
     filename := info_filename image_info;
     pixels := fresh_pixels (info_columns image_info)
                 (info_rows image_info) |}.

(** Modelled from the spec: image.c is not among the sources.  A chroma
    plane is a clone of the image with the geometry asked for and a
    pixel cache of its own, not yet written. *)
Definition CloneImage (image : Image) (clone_columns clone_rows : Z)
    : Image :=
  {| columns := clone_columns; rows := clone_rows;
     depth := depth image; scene := scene image;
     interlace := interlace image; colorspace := colorspace image;
     filename := filename image;
     pixels := fresh_pixels clone_columns clone_rows |}.

(** Modelled from the spec: image.c is not among the sources.  The next
    image of the list: as acquired, with the file name of its
    predecessor and the next scene number. *)
Definition AcquireNextImage (image_info : ImageInfo) (image : Image)
    : Image :=
  {| columns := info_columns image_info; rows := info_rows image_info;
     depth := info_depth image_info; scene := scene image + 1;
     interlace := info_interlace image_info; colorspace := RGBColorspace;
     filename := filename image;
     pixels := fresh_pixels (info_columns image_info)
                 (info_rows image_info) |}.

Definition set_image (f : Image → Image) : M ReaderState unit :=
  modify (λ st, rs_set_images (rs_previous st) (f (rs_image st))
                  (rs_chroma_image st) st).
Definition set_chroma_image (f : Image → Image) : M ReaderState unit :=
  modify (λ st, rs_set_images (rs_previous st) (rs_image st)
                  (f (rs_chroma_image st)) st).

(** SyncAuthenticPixels of one whole row. *)
Definition sync_row (y : Z) (row : PixelRow) (image : Image) : Image :=
  set_pixels (<[Z.to_nat y := row]> (pixels image)) image.

(** Modelled from the spec: blob.c is not among the sources.  OpenBlob in
    ReadBinaryBlobMode, on the file name of the image. *)
Definition OpenBlob_read : M ReaderState unit :=
  st ← get;
  match rs_files st (filename (rs_image st)) with
  | Some bytes =>
      modify (rs_set_blob (Some bytes) false
                (OpenBlobEvent (filename (rs_image st))))
  | None => open_failed
  end.

Definition CloseBlob_read : M ReaderState unit :=
  modify (λ st, rs_set_blob None (rs_eof st) CloseBlobEvent st).

(** Modelled from the spec: ThrowReaderException is a macro of
    MagickCore that is not among the sources.  The spec has a fatal
    error leave the stream closed before the decode returns: the macro
    closes the blob, which changes nothing when no stream is open, and
    returns without an image list. *)
Definition ThrowReaderException {A : Type} (severity : ExceptionType)
    (reason : string) : M ReaderState A :=
  st ← get;
  (if rs_blob st is Some _ then CloseBlob_read else mret ());;
  throw severity reason.

(** Modelled from the spec: blob.c is not among the sources.  ReadBlob
    moves up to [length] bytes from the blob to the front of the
    scanline and leaves their number in [count]; a short read marks the
    end of file. *)
Definition ReadBlob (length : Z) : M ReaderState unit :=
  st ← get;
  match rs_blob st with
  | None => undefined
  | Some unread =>
      let bytes := take (Z.to_nat length) unread in
      let count := List.length bytes in
      if decide (count ≤ List.length (rs_scanline st))%nat then
        modify (rs_set_blob (Some (drop count unread))
                  (rs_eof st || bool_decide (Z.of_nat count < length))
                  (ReadBlobEvent length bytes));;
        modify (rs_set_scanline (bytes ++ drop count (rs_scanline st))
                  (Z.of_nat count))
      else undefined
  end.

(** Modelled from the spec: blob.c is not among the sources.
    DiscardBlobBytes skips [length] bytes and answers whether they were
    all there. *)
Definition DiscardBlobBytes (length : Z) : M ReaderState bool :=
  st ← get;
  match rs_blob st with
  | None => undefined
  | Some unread =>
      let bytes := take (Z.to_nat length) unread in
      let count := List.length bytes in
      modify (rs_set_blob (Some (drop count unread))
                (rs_eof st || bool_decide (Z.of_nat count < length))
                (ReadBlobEvent length bytes));;
      mret (bool_decide (Z.of_nat count = Z.max 0 length))
  end.

(** [if ((y > 0) || (GetPreviousImageInList(image) == NULL)) ReadBlob] *)
Definition read_scanline (y length : Z) : M ReaderState unit :=
  st ← get;
  if decide (y > 0 ∨ rs_previous st = []) then ReadBlob length
  else mret ().

(** AppendImageFormat on the file name of the image, then OpenBlob. *)
Definition open_partition (format : string) : M ReaderState unit :=
  set_image (λ i, set_filename (AppendImageFormat format (filename i)) i);;
  OpenBlob_read.

(** [image->scene >= image_info->scene+image_info->number_scenes-1] *)
Definition last_scene (image_info : ImageInfo) (image : Image) : bool :=
  bool_decide (number_scenes image_info ≠ 0) &&
  bool_decide (info_scene image_info + number_scenes image_info - 1
               ≤ scene image).

(** Lines 223-316: the rows of the image. *)
Definition read_image_rows (quantum : Z) (interlace : InterlaceType)
    : M ReaderState unit :=
  st ← get;
  for_rows (rows (rs_image st)) (λ y,
    if decide (interlace = NoInterlace) then
      image ← gets rs_image;
      read_scanline y (2 * quantum * columns image);;
      st ← get;
      match pixels (rs_image st) !! Z.to_nat y with
      | None => mret false
      | Some q =>
        match pixels (rs_chroma_image st) !! Z.to_nat y with
        | None => mret false
        | Some chroma_pixels =>
            '(row, chroma_row) ← defined
              (decode_noninterlaced_row quantum (columns (rs_image st))
                 (rs_scanline st) q chroma_pixels);
            set_image (sync_row y row);;
            set_chroma_image (sync_row y chroma_row);;
            mret true
        end
      end
    else
      image ← gets rs_image;
      read_scanline y (quantum * columns image);;
      st ← get;
      match pixels (rs_image st) !! Z.to_nat y with
      | None => mret false
      | Some q =>
          row ← defined
            (decode_plane_row decode_luma quantum (columns (rs_image st))
               (rs_scanline st) q);
          set_image (sync_row y row);;
          mret true
      end).

(** Lines 330-354 and 366-388: the rows of one chroma plane. *)
Definition read_chroma_rows
    (sample : Z → list Z → PlaneCursor → option PlaneCursor)
    (quantum : Z) : M ReaderState unit :=
  st ← get;
  for_rows (rows (rs_chroma_image st)) (λ y,
    chroma_image ← gets rs_chroma_image;
    ReadBlob (quantum * columns chroma_image);;
    st ← get;
    match pixels (rs_chroma_image st) !! Z.to_nat y with
    | None => mret false
    | Some q =>
        row ← defined
          (decode_plane_row sample quantum (columns (rs_chroma_image st))
             (rs_scanline st) q);
        set_chroma_image (sync_row y row);;
        mret true
    end).

(** Lines 213-389: the planes of one frame, from the blob into the image
    and the chroma image. *)
Definition read_planes (quantum : Z) (interlace : InterlaceType)
    : M ReaderState unit :=
  (if decide (interlace = PartitionInterlace)
   then open_partition "Y" else mret ());;
  read_image_rows quantum interlace;;
  (if decide (interlace = PartitionInterlace)
   then CloseBlob_read;; open_partition "U" else mret ());;
  if decide (interlace ≠ NoInterlace) then
    read_chroma_rows decode_u quantum;;
    (if decide (interlace = PartitionInterlace)
     then CloseBlob_read;; open_partition "V" else mret ());;
    read_chroma_rows decode_v quantum
  else mret ().

(** Lines 393-417: the chroma image is resized to the geometry of the
    image and its chroma copied into the image. *)
Definition scale_and_merge : M ReaderState unit :=
  st ← get;
  match ResizeImage (rs_chroma_image st) (columns (rs_image st))
          (rows (rs_image st)) with
  | None => ThrowReaderException ResourceLimitError "MemoryAllocationFailed"
  | Some resize_image =>
      for_rows (rows (rs_image st)) (λ y,
        st ← get;
        match pixels (rs_image st) !! Z.to_nat y,
              pixels resize_image !! Z.to_nat y with
        | Some q, Some chroma_pixels =>
            row ← defined
              (merge_row (columns (rs_image st)) chroma_pixels q);
            set_image (sync_row y row);;
            mret true
        | _, _ => mret false
        end);;
      set_image (set_colorspace YCbCrColorspace)
  end.

(** Lines 203-204: the chroma image of a frame. *)
Definition acquire_chroma_image (horizontal_factor vertical_factor : Z)
    : M ReaderState unit :=
  image ← gets rs_image;
  chroma_columns ← defined (size_t_div (columns image) horizontal_factor);
  chroma_rows ← defined (size_t_div (rows image) vertical_factor);
  set_chroma_image (λ _, CloneImage image chroma_columns chroma_rows).

(** Lines 201-454: the body of the frame loop; [false] when the loop is
    left by [break]. *)
Definition read_frame (image_info : ImageInfo) (quantum : Z)
    (interlace : InterlaceType) (horizontal_factor vertical_factor : Z)
    : M ReaderState bool :=
  acquire_chroma_image horizontal_factor vertical_factor;;
  image ← gets rs_image;
  if ping image_info && last_scene image_info image then mret false
  else
    read_planes quantum interlace;;
    scale_and_merge;;
    (if decide (interlace = PartitionInterlace)
     then set_image (set_filename (info_filename image_info))
     else mret ());;
    st ← get;
    if rs_eof st then
      modify (rs_record (CorruptImageError, "UnexpectedEndOfFile"));;
      mret false
    else if last_scene image_info (rs_image st) then mret false
    else
      (if decide (interlace = NoInterlace)
       then ReadBlob (2 * quantum * columns (rs_image st))
       else ReadBlob (quantum * columns (rs_image st)));;
      st ← get;
      (if decide (rs_count st ≠ 0) then
         modify (λ st,
           rs_set_images (rs_previous st ++ [rs_image st])
             (AcquireNextImage image_info (rs_image st))
             (rs_chroma_image st) st)
       else mret ());;
      mret true.

(** The state ReadYUVImage is entered in. *)
Definition reader_entry (files : string → option (list Z))
    (image_info : ImageInfo) : ReaderState :=
  {| rs_files := files; rs_blob := None; rs_eof := false;
     rs_scanline := []; rs_count := 0; rs_previous := [];
     rs_image := AcquireImage image_info;
     rs_chroma_image := AcquireImage image_info;
     rs_exceptions := []; rs_trace := [] |}.

(** ReadYUVImage: the image list it returns.  [frames] bounds the turns
    of the frame loop. *)
Definition ReadYUVImage (frames : nat) (image_info : ImageInfo)
    : M ReaderState (list Image) :=
  image ← gets rs_image;
  if decide (columns image = 0 ∨ rows image = 0) then
    ThrowReaderException OptionError "MustSpecifyImageSize"
  else
    let quantum := sample_width (depth image) in
    let interlace := info_interlace image_info in
    match sampling_factors (sampling_factor image_info) with
    | None =>
        ThrowReaderException CorruptImageError "UnexpectedSamplingFactor"
    | Some (horizontal_factor, vertical_factor) =>
        let interlace := effective_interlace interlace vertical_factor in
        (if decide (interlace ≠ PartitionInterlace) then
           OpenBlob_read;;
           discarded ← DiscardBlobBytes (info_offset image_info);
           if discarded : bool then mret ()
           else modify (rs_record (CorruptImageError, "UnexpectedEndOfFile"))
         else mret ());;
        modify (rs_set_scanline
          (replicate
             (Z.to_nat (scanline_extent interlace (columns image) quantum))
             fresh_byte) 0);;
        do_while frames
          (read_frame image_info quantum interlace
             horizontal_factor vertical_factor)
          (λ st, bool_decide (rs_count st ≠ 0));;
        CloseBlob_read;;
        st ← get;
        mret (rs_previous st ++ [rs_image st])
    end.
End Reader.
Global Arguments ThrowReaderException : simpl never.

(** ** A reference build

    An instance of [MagickCore] on which the model runs: a 16-bit quantum,
    four quantums per pixel (red, green, blue, alpha), zeroed fresh memory,
    and small stand-ins for the MagickCore functions.  It serves the
    examples; no general theorem depends on it. *)

Module Reference.

(** The decimal number at the head of the text, and the rest. *)
Fixpoint digits (acc : Z) (read : bool) (text : list Ascii.ascii)
    : Z * bool * list Ascii.ascii :=
  match text with
  | c :: rest =>
      let n := Z.of_nat (Ascii.nat_of_ascii c) in
      if decide (48 ≤ n ≤ 57) then digits (10 * acc + (n - 48)) true rest
      else (acc, read, text)
  | [] => (acc, read, text)
  end.

Definition RhoValue : Z := 4.

(** Stand-in for ParseGeometry on texts of the form H, HxV or H:V. *)
Definition parse_geometry (text : string) : Z * GeometryInfo :=
  let '(h, read_h, rest) := digits 0 false (String.list_ascii_of_string text) in
  match rest with
  | _ :: rest' =>
      let '(v, read_v, _) := digits 0 false rest' in
      ((if read_h then RhoValue else 0) + (if read_v then 8 else 0),
       {| rho := h; sigma := v |})
  | [] =>
      ((if read_h then RhoValue else 0), {| rho := h; sigma := 0 |})
  end.

(** Modelled from the spec: utility.c is not among the sources.  The
    format is appended to the file name: frame.yuv becomes frame.yuvY. *)
Definition append_image_format (format filename : string) : string :=
  filename +:+ format.

(** The [n]-th pixel of a row, as its quantums. *)
Definition pixel_at (channels : nat) (row : PixelRow) (n : nat)
    : PixelRow :=
  take channels (drop (n * channels) row).

(** Stand-in for ResizeImage: the nearest source pixel, no filtering. *)
Definition point_sample (channels : nat) (image : Image)
    (new_columns new_rows : Z) : option Image :=
  if decide (0 < new_columns ∧ 0 < new_rows) then
    Some (set_pixels
      ((λ y, let source := default []
               (pixels image !! Z.to_nat (Z.of_nat y * rows image / new_rows)) in
             mjoin ((λ x, pixel_at channels source
                      (Z.to_nat (Z.of_nat x * columns image / new_columns)))
                    <$> seq 0 (Z.to_nat new_columns)))
       <$> seq 0 (Z.to_nat new_rows))
      {| columns := new_columns; rows := new_rows; depth := depth image;
         scene := scene image; interlace := interlace image;
         colorspace := colorspace image; filename := filename image;
         pixels := [] |})
  else None.

Definition Q16_full_range : 16 ≤ 16 := Z.le_refl 16.

(** The reference build around a given AppendImageFormat. *)
Definition Q16_with (append : string → string → string) : MagickCore := {|
  QuantumDepth := 16;
  QuantumDepth_full_range := Q16_full_range;
  SigmaValue := 8;
  component_map := {| pixel_channels := 4; RedPixelComponent := 0;
                      GreenPixelComponent := 1; BluePixelComponent := 2 |};
  fresh_quantum := 0;
  fresh_byte := 0;
  ParseGeometry := parse_geometry;
  AppendImageFormat := append;
  ResizeImage := point_sample 4;
  TransformImageColorspace := λ image c, set_colorspace c image
|}.

Global Instance Q16 : MagickCore := Q16_with append_image_format.

End Reference.

(** ** Notions the properties are stated with *)

(** A computation keeps a relation between the state it starts in and the
    state it ends in, however it ends. *)
Definition preserves {St A : Type} (R : relation St) (m : M St A) : Prop :=
  ∀ st, R st (m st).2.

Section Notions.
Context `{MagickCore}.

(** [row'] differs from [row] in green and blue samples only. *)
Definition chroma_only (row row' : PixelRow) : Prop :=
  length row' = length row ∧
  ∀ i, (i mod GetPixelChannels)%nat ≠ GreenPixelComponent component_map →
       (i mod GetPixelChannels)%nat ≠ BluePixelComponent component_map →
       row' !! i = row !! i.

(** Every row of the image differs in green and blue samples only. *)
Definition luma_kept (st st' : ReaderState) : Prop :=
  Forall2 chroma_only (pixels (rs_image st)) (pixels (rs_image st')).
End Notions.

(** A computation started under [P] that ends normally ends under [Q]. *)
Definition ensures {St A : Type} (P : St → Prop) (m : M St A)
    (Q : A → St → Prop) : Prop :=
  ∀ st a st', P st → m st = (Ok a, st') → Q a st'.

(** The computation never ends for lack of fuel. *)
Definition fueled {St A : Type} (m : M St A) : Prop :=
  ∀ st, (m st).1 ≠ OutOfFuel.

(** The images of the writer keep their depths and [image] its position. *)
Definition same_depths (st st' : WriterState) : Prop :=
  depth <$> ws_images st' = depth <$> ws_images st ∧
  ws_image st' = ws_image st.

(** With respect to [st], the state [s] has the depth [d] assigned to the
    image [image] pointed to in [st], and nothing else about depths or the
    position of [image] changed. *)
Definition frame_assigned (d : Z) (st s : WriterState) : Prop :=
  depth <$> ws_images s = <[ws_image st := d]> (depth <$> ws_images st) ∧
  ws_image s = ws_image st ∧
  (ws_image st < length (ws_images st))%nat.

(** The names of the streams opened, in order. *)
Definition opened (trace : list BlobEvent) : list string :=
  omap (λ e, match e with OpenBlobEvent name => Some name | _ => None end)
    trace.

(** The state differs by rows written to the open blob. *)
Definition wrote (st st' : WriterState) : Prop :=
  ∃ rows : list (list Z),
    st' = {| ws_writable := ws_writable st; ws_images := ws_images st;
             ws_image := ws_image st; ws_blob := ws_blob st;
             ws_trace := ws_trace st ++ (WriteBlobEvent <$> rows) |}.

(** ** Example inputs *)

Module Examples.
Import Reference.

(** A decode state between the planes and the merge: a 2x1 image whose
    luma is stored, and its 1x1 chroma image. *)
Definition merge_state : ReaderState :=
  {| rs_files := λ _, None; rs_blob := Some []; rs_eof := false;
     rs_scanline := [10; 20; 30; 40]; rs_count := 4; rs_previous := [];
     rs_image :=
       {| columns := 2; rows := 1; depth := 8; scene := 0;
          interlace := NoInterlace; colorspace := RGBColorspace;
          filename := "frame.yuv";
          pixels := [[5140; 0; 0; 0; 10280; 0; 0; 0]] |};
     rs_chroma_image :=
       {| columns := 1; rows := 1; depth := 8; scene := 0;
          interlace := NoInterlace; colorspace := RGBColorspace;
          filename := "frame.yuv";
          pixels := [[0; 2570; 7710; 0]] |};
     rs_exceptions := []; rs_trace := [] |}.

Definition yuv_info (interlace : InterlaceType) (columns rows depth : Z)
    (factors : string) (adjoin : bool) : ImageInfo :=
  {| info_columns := columns; info_rows := rows; info_depth := depth;
     info_offset := 0; info_interlace := interlace;
     sampling_factor := Some factors; info_filename := "frame.yuv";
     adjoin := adjoin; ping := false; info_scene := 0; number_scenes := 0 |}.

(** A file system with the one file frame.yuv. *)
Definition one_file (bytes : list Z) (name : string) : option (list Z) :=
  if decide (name = "frame.yuv") then Some bytes else None.

Definition frame (interlace : InterlaceType) (columns rows depth : Z)
    (pixels : list PixelRow) : Image :=
  {| columns := columns; rows := rows; depth := depth; scene := 0;
     interlace := interlace; colorspace := RGBColorspace;
     filename := "frame.yuv"; pixels := pixels |}.

(** Sampling factors 3x1: the horizontal axis is outside {1,2}. *)
Definition bad_axis_info : ImageInfo :=
  yuv_info UndefinedInterlace 6 1 8 "3x1" false.
Definition bad_axis_stream : list Z :=
  [10; 20; 30; 40; 50; 60; 70; 80; 11; 21; 31; 41].
Definition bad_axis_frame : Image :=
  frame UndefinedInterlace 6 1 8
    [[257; 514; 771; 0; 1028; 1285; 1542; 0; 257; 514; 771; 0;
      1028; 1285; 1542; 0; 257; 514; 771; 0; 1028; 1285; 1542; 0]].

(** Sampling factors 0x1: the horizontal factor is a divisor. *)
Definition zero_axis_info : ImageInfo :=
  yuv_info UndefinedInterlace 6 1 8 "0x1" false.

(** A 2x1 frame of depth 16 for the non-interlaced layout. *)
Definition deep_info : ImageInfo := yuv_info NoInterlace 2 1 16 "2x1" false.
Definition deep_frame : Image :=
  frame NoInterlace 2 1 16 [[257; 771; 1028; 0; 514; 771; 1028; 0]].

(** The 16-byte stream of a 4x2 non-interlaced frame of depth 8: each
    row is U0 Y0 V0 Y1 U1 Y2 V1 Y3. *)
Definition small_info : ImageInfo := yuv_info NoInterlace 4 2 8 "2x1" false.
Definition small_stream : list Z :=
  [10; 20; 30; 40; 50; 60; 70; 80; 11; 21; 31; 41; 51; 61; 71; 81].

(** Two 2x2 frames of depth 8 for the partition layout. *)
Definition partition_info : ImageInfo :=
  yuv_info PartitionInterlace 2 2 8 "2x2" true.
Definition partition_frame : Image :=
  frame PartitionInterlace 2 2 8
    [[257; 771; 1028; 0; 514; 771; 1028; 0];
     [1285; 1799; 2056; 0; 1542; 1799; 2056; 0]].

(** A frame of depth 12. *)
Definition twelve_bit_frame : Image :=
  frame NoInterlace 2 1 12 [[257; 771; 1028; 0; 514; 771; 1028; 0]].


(** Sampling factors 3x3: both axes are outside {1,2}. *)
Definition refused_info : ImageInfo :=
  yuv_info UndefinedInterlace 6 1 8 "3x3" false.

(** A decode state with a 4x4 image. *)
Definition square_state : ReaderState :=
  reader_entry (λ _, None) (yuv_info PlaneInterlace 4 4 8 "2x2" false).
End Examples.

Section SampleNotions.
Context `{MagickCore}.

(** The [n]-th sample of a scanline whose samples take [quantum] bytes
    each, read the way the scanline decoders read it. *)
Definition sample_at (quantum : Z) (scanline : list Z) (n : nat)
    : option Quantum :=
  fst <$> next_sample quantum scanline (n * Z.to_nat quantum).
End SampleNotions.

(** [image=SyncNextImageInList(image)]: the writer moves to the next image
    of the list. *)
Definition next_image (st : WriterState) : WriterState :=
  ws_update (ws_images st) (S (ws_image st)) (ws_blob st) (ws_trace st) st.

(** A computation that keeps a relation up to its last step, which may
    be the move to the next image. *)
Definition keeps_frame {A : Type} (R : relation WriterState)
    (m : M WriterState A) : Prop :=
  ∀ st, ∃ s, R st s ∧ ((m st).2 = s ∨ (m st).2 = next_image s).

(** A computation that works on the stream it is started with: it opens
    no stream and writes rows, and it closes the stream exactly when it
    ends by a throw.  The images and which of them [image] is may
    change. *)
Definition writes_only {A : Type} (m : M WriterState A) : Prop :=
  ∀ st,
    ws_writable (m st).2 = ws_writable st ∧
    ∃ rows : list (list Z),
      match (m st).1 with
      | Thrown _ _ =>
          ws_blob (m st).2 = None ∧
          ws_trace (m st).2
          = ws_trace st ++ (WriteBlobEvent <$> rows)
            ++ if ws_blob st is Some _ then [CloseBlobEvent] else []
      | _ =>
          ws_blob (m st).2 = ws_blob st ∧
          ws_trace (m st).2 = ws_trace st ++ (WriteBlobEvent <$> rows)
      end.

(** The image differs in its depth and file name at most. *)
Definition same_picture (i i' : Image) : Prop :=
  columns i' = columns i ∧ rows i' = rows i ∧ scene i' = scene i ∧
  interlace i' = interlace i ∧ colorspace i' = colorspace i ∧
  pixels i' = pixels i.

(** The images of the list differ in depth and file name at most. *)
Definition same_pictures (st st' : WriterState) : Prop :=
  Forall2 same_picture (ws_images st) (ws_images st').

(** [image] stays where it is, and no other image of the list changes. *)
Definition others_kept (st st' : WriterState) : Prop :=
  ws_image st' = ws_image st ∧
  ∀ k, k ≠ ws_image st → ws_images st' !! k = ws_images st !! k.

(** The state ThrowWriterException returns in. *)
Definition ws_thrown (image_info : ImageInfo) (st : WriterState)
    : WriterState :=
  {| ws_writable := ws_writable st; ws_images := ws_images st;
     ws_image := if adjoin image_info then 0%nat else ws_image st;
     ws_blob := None;
     ws_trace := ws_trace st
                 ++ if ws_blob st is Some _ then [CloseBlobEvent] else [] |}.

(** The state ThrowReaderException returns in. *)
Definition rs_thrown (st : ReaderState) : ReaderState :=
  {| rs_files := rs_files st; rs_blob := None; rs_eof := rs_eof st;
     rs_scanline := rs_scanline st; rs_count := rs_count st;
     rs_previous := rs_previous st; rs_image := rs_image st;
     rs_chroma_image := rs_chroma_image st;
     rs_exceptions := rs_exceptions st;
     rs_trace := rs_trace st
                 ++ if rs_blob st is Some _ then [CloseBlobEvent] else [] |}.

(** The exceptions a computation can end in. *)
Definition throws_only {St A : Type}
    (allowed : ExceptionType → string → Prop) (m : M St A) : Prop :=
  ∀ st severity reason,
    (m st).1 = Thrown severity reason → allowed severity reason.

Section Shapes.
Context `{MagickCore}.

(** The pixel cache of the image has the geometry of the image: [rows]
    rows of [columns] pixels each. *)
Definition shaped (image : Image) : Prop :=
  0 ≤ columns image ∧ 0 ≤ rows image ∧
  length (pixels image) = Z.to_nat (rows image) ∧
  Forall (λ row, length row
                 = (Z.to_nat (columns image) * GetPixelChannels)%nat)
    (pixels image).
End Shapes.

(** The state after the rows have been written to the open blob. *)
Definition written (rows : list (list Z)) (st : WriterState) : WriterState :=
  {| ws_writable := ws_writable st; ws_images := ws_images st;
     ws_image := ws_image st; ws_blob := ws_blob st;
     ws_trace := ws_trace st ++ (WriteBlobEvent <$> rows) |}.

Section ReaderNotions.
Context `{MagickCore}.

(** One row of a plane is read: one scanline of the [target] image is
    taken from the blob and decoded into row [y] of the target; the
    [other] image is not touched. *)
Definition reads_row (target other : ReaderState → Image)
    (sample : Z → list Z → PlaneCursor → option PlaneCursor)
    (quantum : Z) (y : nat) (st st' : ReaderState) : Prop :=
  let size := Z.to_nat (quantum * columns (target st)) in
  ∃ unread row row',
    rs_blob st = Some unread ∧
    rs_blob st' = Some (drop size unread) ∧
    rs_eof st' = rs_eof st || bool_decide (length unread < size)%nat ∧
    take size unread `prefix_of` rs_scanline st' ∧
    length (rs_scanline st') = length (rs_scanline st) ∧
    rs_files st' = rs_files st ∧
    rs_previous st' = rs_previous st ∧
    rs_exceptions st' = rs_exceptions st ∧
    other st' = other st ∧
    pixels (target st) !! y = Some row ∧
    decode_plane_row sample quantum (columns (target st))
      (rs_scanline st') row = Some row' ∧
    length row' = length row ∧
    target st' = set_pixels (<[y := row']> (pixels (target st))) (target st).

(** The first [finished] rows of a plane are read: each of them is
    decoded from its own scanline, the scanlines being [unread], what the
    plane loop has before it, taken one after the other; the other rows
    are as they were. *)
Definition reads_rows (target other : ReaderState → Image)
    (sample : Z → list Z → PlaneCursor → option PlaneCursor)
    (quantum : Z) (unread : list Z) (finished : nat)
    (st st' : ReaderState) : Prop :=
  let size := Z.to_nat (quantum * columns (target st)) in
  ∃ decoded,
    rs_blob st' = Some (drop (finished * size) unread) ∧
    rs_eof st'
    = rs_eof st || bool_decide (length unread < finished * size)%nat ∧
    length (rs_scanline st') = length (rs_scanline st) ∧
    rs_files st' = rs_files st ∧
    rs_previous st' = rs_previous st ∧
    rs_exceptions st' = rs_exceptions st ∧
    other st' = other st ∧
    target st' = set_pixels decoded (target st) ∧
    length decoded = length (pixels (target st)) ∧
    (∀ j : nat, (finished ≤ j)%nat →
       decoded !! j = pixels (target st) !! j) ∧
    (∀ (j : nat) row, (j < finished)%nat →
       pixels (target st) !! j = Some row →
       ∃ scanline row',
         decoded !! j = Some row' ∧
         decode_plane_row sample quantum (columns (target st)) scanline row
         = Some row' ∧
         length row' = length row ∧
         length scanline = length (rs_scanline st) ∧
         take size (drop (j * size) unread) `prefix_of` scanline).

(** The scanline the frame before has read ahead: a frame that is not
    the first one decodes its first row from the scanline buffer as it
    finds it. *)
Definition read_ahead (quantum : Z) (st : ReaderState) : list Z :=
  if decide (rs_previous st = []) then []
  else take (Z.to_nat (quantum * columns (rs_image st))) (rs_scanline st).

(** A plane is read: every row of the [target] image is decoded from its
    own scanline, the scanlines being [unread], what the plane loop has
    before it, taken one after the other. *)
Definition reads_plane (target other : ReaderState → Image)
    (sample : Z → list Z → PlaneCursor → option PlaneCursor)
    (quantum : Z) (unread : list Z) (st st' : ReaderState) : Prop :=
  let size := Z.to_nat (quantum * columns (target st)) in
  let height := Z.to_nat (rows (target st)) in
  ∃ decoded,
    rs_blob st' = Some (drop (height * size) unread) ∧
    rs_eof st'
    = rs_eof st || bool_decide (length unread < height * size)%nat ∧
    length (rs_scanline st') = length (rs_scanline st) ∧
    rs_files st' = rs_files st ∧
    rs_previous st' = rs_previous st ∧
    rs_exceptions st' = rs_exceptions st ∧
    other st' = other st ∧
    target st' = set_pixels decoded (target st) ∧
    length decoded = length (pixels (target st)) ∧
    ∀ (y : nat) row, pixels (target st) !! y = Some row →
      ∃ scanline row',
        decoded !! y = Some row' ∧
        decode_plane_row sample quantum (columns (target st)) scanline row
        = Some row' ∧
        length row' = length row ∧
        length scanline = length (rs_scanline st) ∧
        take size (drop (y * size) unread) `prefix_of` scanline.
End ReaderNotions.

Module FrameExamples.
Import Reference.

(** A 2x2 frame of depth 8 in the plane layout with 2x2 sampling: four
    luma bytes, one U byte and one V byte. *)
Definition plane_info : ImageInfo :=
  Examples.yuv_info PlaneInterlace 2 2 8 "2x2" false.
Definition plane_stream : list Z := [10; 20; 30; 40; 50; 60].

(** The decode state the planes of that frame are read in, the blob open
    on the frame and one byte more. *)
Definition plane_state : ReaderState :=
  {| rs_files := λ _, None; rs_blob := Some (plane_stream ++ [70]);
     rs_eof := false; rs_scanline := [0; 0]; rs_count := 0;
     rs_previous := [];
     rs_image := AcquireImage plane_info;
     rs_chroma_image := CloneImage (AcquireImage plane_info) 1 1;
     rs_exceptions := []; rs_trace := [] |}.

(** The decode state a non-interlaced 2x2 frame of depth 8 with 2x1
    sampling is read in: each row is U Y0 V Y1. *)
Definition row_info : ImageInfo :=
  Examples.yuv_info NoInterlace 2 2 8 "2x1" false.
Definition row_state : ReaderState :=
  {| rs_files := λ _, None;
     rs_blob := Some [10; 20; 30; 40; 50; 60; 70; 80];
     rs_eof := false; rs_scanline := [0; 0; 0; 0; 0; 0]; rs_count := 0;
     rs_previous := [];
     rs_image := AcquireImage row_info;
     rs_chroma_image := CloneImage (AcquireImage row_info) 1 2;
     rs_exceptions := []; rs_trace := [] |}.

(** The same frame, pinged for its one scene. *)
Definition ping_info : ImageInfo :=
  {| info_columns := 2; info_rows := 2; info_depth := 8; info_offset := 0;
     info_interlace := PlaneInterlace; sampling_factor := Some "2x2";
     info_filename := "frame.yuv"; adjoin := false; ping := true;
     info_scene := 0; number_scenes := 1 |}.

(** The three streams of that frame in the partition layout, under the
    names the reference build gives them. *)
Definition partition_files (name : string) : option (list Z) :=
  if decide (name = "frame.yuvY") then Some [10; 20; 30; 40]
  else if decide (name = "frame.yuvYU") then Some [50]
  else if decide (name = "frame.yuvYUV") then Some [60]
  else None.

(** The decode state the planes of that frame are read in, no blob open
    yet. *)
Definition partition_state : ReaderState :=
  {| rs_files := partition_files; rs_blob := None; rs_eof := false;
     rs_scanline := [0; 0]; rs_count := 0; rs_previous := [];
     rs_image := AcquireImage plane_info;
     rs_chroma_image := CloneImage (AcquireImage plane_info) 1 1;
     rs_exceptions := []; rs_trace := [] |}.
End FrameExamples.

(** * Properties *)

(** ** Sample scaling and the byte order of two-byte samples *)

Lemma rescale_round_trip (value from to : Z) :
  0 < from → from ≤ to → 0 ≤ value →
  rescale (rescale value from to) to from = value.
Proof.
  intros Hfrom Hle Hvalue. unfold rescale.
  destruct (decide (from = to)) as [->|Hne].
  - assert (E : (2 * value * to + to) / (2 * to) = value).
    { symmetry. apply (Z.div_unique_pos _ _ _ to); lia. }
    rewrite E. exact E.
  - set (x := (2 * value * to + from) / (2 * from)).
    assert (Hx : 2 * from * x ≤ 2 * value * to + from
                 < 2 * from * x + 2 * from).
    { pose proof (Z.div_mod (2 * value * to + from) (2 * from)).
      pose proof (Z.mod_pos_bound (2 * value * to + from) (2 * from)).
      subst x. lia. }
    symmetry.
    apply (Z.div_unique_pos _ _ _ (2 * x * from + to - 2 * to * value)); lia.
Qed.

Lemma byte_bits_disjoint (b0 b1 : Z) :
  0 ≤ b1 ≤ 255 → Z.land (b0 * 2 ^ 8) b1 = 0.
Proof.
  intros H1. apply Z.bits_inj'. intros n Hn.
  rewrite Z.land_spec, Z.bits_0.
  destruct (decide (n < 8)).
  - by rewrite Z.mul_pow2_bits_low by lia.
  - rewrite (Z.bits_above_log2 b1 n); [ by rewrite andb_false_r | lia | ].
    destruct (decide (b1 = 0)) as [->|]; [simpl; lia|].
    assert (Z.log2 b1 < 8); [ apply Z.log2_lt_pow2; lia | lia].
Qed.

Lemma short_of_bytes_split (b0 b1 : Z) :
  0 ≤ b0 ≤ 255 → 0 ≤ b1 ≤ 255 → short_of_bytes b0 b1 = 256 * b0 + b1.
Proof.
  intros H0 H1. unfold short_of_bytes.
  rewrite Z.shiftl_mul_pow2 by lia.
  replace (Z.lor (b0 * 2 ^ 8) b1) with (b0 * 2 ^ 8 + b1).
  - rewrite Z.mod_small; lia.
  - rewrite <- Z.lxor_lor by (by apply byte_bits_disjoint).
    apply Z.add_nocarry_lxor. by apply byte_bits_disjoint.
Qed.

Lemma WriteBlobShort_bytes (b0 b1 : Z) :
  0 ≤ b0 ≤ 255 → 0 ≤ b1 ≤ 255 → WriteBlobShort (256 * b0 + b1) = [b0; b1].
Proof.
  intros H0 H1. unfold WriteBlobShort.
  rewrite Z.shiftr_div_pow2 by lia.
  change 255 with (Z.ones 8). rewrite !Z.land_ones by lia.
  change (2 ^ 8) with 256.
  replace ((256 * b0 + b1) / 256) with b0
    by (apply (Z.div_unique_pos _ _ _ b1); lia).
  replace ((256 * b0 + b1) mod 256) with b1
    by (apply (Z.mod_unique_pos _ _ b0); lia).
  rewrite Z.mod_small by lia. done.
Qed.

Section ScalingProperties.
Context `{MagickCore}.

Lemma QuantumRange_full : 65535 ≤ QuantumRange.
Proof.
  unfold QuantumRange. pose proof QuantumDepth_full_range.
  assert (2 ^ 16 ≤ 2 ^ QuantumDepth) by (apply Z.pow_le_mono_r; lia).
  change (2 ^ 16) with 65536 in *. lia.
Qed.

(** C5.  A byte decoded at sample width 1 and encoded again at width 1
    is the same byte, and the two big-endian bytes of a 16-bit value
    decoded at width 2 and encoded again at width 2 are the same two
    bytes.  Decoding is [next_sample], the sample reader of every
    scanline decoder; encoding is [sample_bytes], the sample writer of
    the plane encoders. *)
Theorem sample_round_trip :
  (∀ b, 0 ≤ b ≤ 255 →
     next_sample 1 [b] 0 ≫= (λ '(sample, _), Some (sample_bytes 1 sample))
     = Some [b]) ∧
  (∀ v, 0 ≤ v ≤ 65535 →
     next_sample 2 [v / 256; v mod 256] 0
       ≫= (λ '(sample, _), Some (sample_bytes 2 sample))
     = Some [v / 256; v mod 256]).
Proof.
  pose proof QuantumRange_full as HR. split.
  - intros b Hb. unfold next_sample, sample_bytes. simpl.
    unfold ScaleQuantumToChar, ScaleCharToQuantum.
    rewrite rescale_round_trip by lia. unfold WriteBlobByte.
    by rewrite Z.mod_small by lia.
  - intros v Hv.
    assert (0 ≤ v / 256 ≤ 255).
    { pose proof (Z.div_lt_upper_bound v 256 256).
      pose proof (Z.div_pos v 256). lia. }
    assert (0 ≤ v mod 256 ≤ 255) by (pose proof (Z.mod_pos_bound v 256); lia).
    unfold next_sample, sample_bytes. simpl.
    unfold ScaleQuantumToShort, ScaleShortToQuantum.
    rewrite short_of_bytes_split by done.
    rewrite rescale_round_trip by lia.
    f_equal. by apply WriteBlobShort_bytes.
Qed.
End ScalingProperties.

Lemma sample_round_trip_witness :
  (0 ≤ 200 ≤ 255 ∧
   next_sample (H := Reference.Q16) 1 [200] 0
     ≫= (λ '(sample, _), Some (sample_bytes 1 sample)) = Some [200]) ∧
  (0 ≤ 43981 ≤ 65535 ∧
   next_sample (H := Reference.Q16) 2 [43981 / 256; 43981 mod 256] 0
     ≫= (λ '(sample, _), Some (sample_bytes 2 sample))
   = Some [43981 / 256; 43981 mod 256]).
Proof.
  split; (split; [lia|]).
  - apply (proj1 (sample_round_trip (H := Reference.Q16))). lia.
  - apply (proj2 (sample_round_trip (H := Reference.Q16))). lia.
Defined.

(** ** The preamble *)

Section PreambleProperties.
Context `{MagickCore}.

(** What the sampling-factor check does: with a sampling-factor string
    the coder throws exactly when both axes are outside {1,2}. *)
Lemma sampling_factors_throws (s : string) :
  let horizontal_factor := rho (ParseGeometry s).2 in
  let vertical_factor :=
    if decide (Z.land (ParseGeometry s).1 SigmaValue = 0)
    then horizontal_factor else sigma (ParseGeometry s).2 in
  sampling_factors (Some s) = None ↔
  (horizontal_factor ≠ 1 ∧ horizontal_factor ≠ 2) ∧
  (vertical_factor ≠ 1 ∧ vertical_factor ≠ 2).
Proof.
  unfold sampling_factors. destruct (ParseGeometry s) as [flags g]. simpl.
  repeat case_decide; split; intros; try done; try tauto.
Qed.

(** Without a sampling-factor string the factors are 2 and 2. *)
Lemma sampling_factors_default : sampling_factors None = Some (2, 2).
Proof. done. Qed.

(** Factors inside {1,2} are never refused. *)
Lemma sampling_factors_valid (s : string) (flags : Z) (g : GeometryInfo) :
  ParseGeometry s = (flags, g) →
  Z.land flags SigmaValue ≠ 0 →
  (rho g = 1 ∨ rho g = 2) → (sigma g = 1 ∨ sigma g = 2) →
  sampling_factors (Some s) = Some (rho g, sigma g).
Proof.
  intros Hs Hf Hh Hv. unfold sampling_factors. rewrite Hs.
  repeat case_decide; try done; lia.
Qed.
(** The two throw macros end in the exception they are given, in the
    state with the blob closed. *)
Lemma ThrowWriterException_run {A} (image_info : ImageInfo)
    (severity : ExceptionType) (reason : string) (st : WriterState) :
  ThrowWriterException (A := A) image_info severity reason st
  = (Thrown severity reason, ws_thrown image_info st).
Proof.
  unfold ThrowWriterException, ws_thrown, mbind, M_bind, modify, get,
    CloseBlob_write, throw.
  destruct st as [writable images position [name|] trace];
    destruct (adjoin image_info); simpl; by rewrite ?app_nil_r.
Qed.

Lemma ThrowReaderException_run {A} (severity : ExceptionType)
    (reason : string) (st : ReaderState) :
  ThrowReaderException (A := A) severity reason st
  = (Thrown severity reason, rs_thrown st).
Proof.
  unfold ThrowReaderException, rs_thrown, mbind, M_bind, modify, get,
    CloseBlob_read, throw.
  destruct st as [files [unread|] eof scanline count previous image
                    chroma_image exceptions trace];
    simpl; by rewrite ?app_nil_r.
Qed.

(** When the check refuses the factors, both entry points throw before
    they touch a blob: the state is the one they were entered in. *)
Lemma ReadYUVImage_sampling_error (frames : nat) (image_info : ImageInfo)
    (files : string → option (list Z)) :
  info_columns image_info ≠ 0 → info_rows image_info ≠ 0 →
  sampling_factors (sampling_factor image_info) = None →
  ReadYUVImage frames image_info (reader_entry files image_info)
    = (Thrown CorruptImageError "UnexpectedSamplingFactor",
       reader_entry files image_info).
Proof.
  intros Hcolumns Hrows Hfactors. unfold ReadYUVImage.
  unfold mbind, M_bind, gets. simpl.
  rewrite decide_False by tauto. by rewrite Hfactors.
Qed.

Lemma WriteYUVImage_sampling_error (image_info : ImageInfo)
    (writable : string → bool) (images : list Image) (head : Image) :
  images !! 0%nat = Some head →
  sampling_factors (sampling_factor image_info) = None →
  WriteYUVImage image_info (writer_entry writable images)
    = (Thrown CorruptImageError "UnexpectedSamplingFactor",
       writer_entry writable images).
Proof.
  intros Hhead Hfactors. unfold WriteYUVImage.
  unfold mbind, M_bind, current_image. simpl.
  rewrite Hhead, Hfactors, ThrowWriterException_run.
  unfold ws_thrown, writer_entry. simpl.
  by destruct (adjoin image_info).
Qed.
End PreambleProperties.

(** The layout for every declared scheme and every vertical factor. *)
Lemma effective_interlace_cases (declared : InterlaceType)
    (vertical_factor : Z) :
  effective_interlace declared vertical_factor
  = match declared with
    | UndefinedInterlace | NoInterlace =>
        if decide (vertical_factor = 2) then PlaneInterlace else NoInterlace
    | PlaneInterlace => PlaneInterlace
    | PartitionInterlace => PartitionInterlace
    end.
Proof.
  unfold effective_interlace.
  destruct declared; destruct (decide (vertical_factor = 2));
    case_decide; try done; intuition congruence.
Qed.

(** C3.  The layout table.  Declared Undefined becomes NoInterlace with
    vertical factor 1 and PlaneInterlace with vertical factor 2; declared
    NoInterlace stays with vertical factor 1 and becomes PlaneInterlace
    with vertical factor 2; PlaneInterlace and PartitionInterlace pass
    through.  [effective_interlace] is the one derivation both
    [ReadYUVImage] and [WriteYUVImage] apply. *)
Theorem effective_interlace_table :
  effective_interlace UndefinedInterlace 1 = NoInterlace ∧
  effective_interlace UndefinedInterlace 2 = PlaneInterlace ∧
  effective_interlace NoInterlace 1 = NoInterlace ∧
  effective_interlace NoInterlace 2 = PlaneInterlace ∧
  effective_interlace PlaneInterlace 1 = PlaneInterlace ∧
  effective_interlace PlaneInterlace 2 = PlaneInterlace ∧
  effective_interlace PartitionInterlace 1 = PartitionInterlace ∧
  effective_interlace PartitionInterlace 2 = PartitionInterlace.
Proof. repeat split. Qed.

(** C1.  The check refuses a sampling factor only when both axes are
    outside {1,2} ([sampling_factors_throws]).  With the factors 3x1, whose
    horizontal axis is outside {1,2}, the check lets the factors through:
    ReadYUVImage opens and reads the stream and returns an image, and
    WriteYUVImage opens and writes the stream and returns MagickTrue;
    neither throws UnexpectedSamplingFactor. *)
Theorem sampling_check_passes_one_invalid_axis :
  sampling_factors (H := Reference.Q16) (Some "3x1") = Some (3, 1) ∧
  (let run := ReadYUVImage (H := Reference.Q16) 1 Examples.bad_axis_info
                (reader_entry (H := Reference.Q16)
                   (Examples.one_file Examples.bad_axis_stream)
                   Examples.bad_axis_info) in
   (∃ image, run.1 = Ok [image]) ∧
   rs_trace run.2
     = [OpenBlobEvent "frame.yuv"; ReadBlobEvent 0 [];
        ReadBlobEvent 12 Examples.bad_axis_stream;
        ReadBlobEvent 12 []; CloseBlobEvent]) ∧
  (let run := WriteYUVImage (H := Reference.Q16) Examples.bad_axis_info
                (writer_entry (λ _, true) [Examples.bad_axis_frame]) in
   run.1 = Ok true ∧
   ws_trace run.2
     = [OpenBlobEvent "frame.yuv";
        WriteBlobEvent [2; 1; 3; 1; 3; 4; 0; 1; 0; 4; 4; 4; 4; 1; 5; 4];
        CloseBlobEvent]).
Proof.
  cbv zeta. split_and!.
  - reflexivity.
  - eexists. vm_compute. reflexivity.
  - vm_compute. reflexivity.
  - vm_compute. reflexivity.
  - vm_compute. reflexivity.
Qed.

(** The factors 0x1 pass the check as well, and the coder divides the
    columns by the horizontal factor. *)
Lemma sampling_check_passes_zero :
  sampling_factors (H := Reference.Q16) (Some "0x1") = Some (0, 1) ∧
  (ReadYUVImage (H := Reference.Q16) 1 Examples.zero_axis_info
     (reader_entry (H := Reference.Q16)
        (Examples.one_file Examples.bad_axis_stream)
        Examples.zero_axis_info)).1 = Undefined ∧
  (WriteYUVImage (H := Reference.Q16) Examples.zero_axis_info
     (writer_entry (λ _, true) [Examples.bad_axis_frame])).1 = Undefined.
Proof. split_and!; vm_compute; reflexivity. Qed.

(** ** Counting loops *)

(** An invariant of the body is an invariant of the loop. *)
Lemma for_fuel_invariant {St : Type} (Inv : St → Prop)
    (body : Z → St → option St) (limit step : Z) :
  (∀ x s s', Inv s → body x s = Some s' → Inv s') →
  ∀ fuel x s s', Inv s → for_fuel fuel x limit step body s = Some s' → Inv s'.
Proof.
  intros Hbody fuel. induction fuel as [|fuel IH]; intros x s s' Hs; simpl.
  - case_decide; [done|]. by intros [= <-].
  - case_decide; [|by intros [= <-]].
    destruct (body x s) as [s1|] eqn:E; simpl; [|done].
    apply IH. by eapply Hbody.
Qed.

(** A loop whose body succeeds under an invariant indexed by the counter
    runs to its end when the fuel covers the distance to the limit. *)
Lemma for_fuel_total {St : Type} (Inv : Z → St → Prop)
    (body : Z → St → option St) (limit step : Z) :
  0 < step →
  (∀ x s, Inv x s → x < limit →
     ∃ s', body x s = Some s' ∧ Inv (x + step) s') →
  ∀ fuel x s, Inv x s → (Z.to_nat (limit - x) ≤ fuel)%nat →
    ∃ x' s', for_fuel fuel x limit step body s = Some s' ∧
             limit ≤ x' ∧ Inv x' s'.
Proof.
  intros Hstep Hbody fuel.
  induction fuel as [|fuel IH]; intros x s Hs Hfuel; simpl.
  - rewrite decide_False by lia. exists x, s. split_and!; [done|lia|done].
  - case_decide; [|exists x, s; split_and!; [done|lia|done]].
    destruct (Hbody x s Hs) as (s1 & -> & Hs1); [done|]. simpl.
    apply IH; [done|lia].
Qed.

(** A loop whose last turn fails has no result. *)
Lemma for_fuel_fails {St : Type} (Inv : Z → St → Prop)
    (body : Z → St → option St) (limit step : Z) :
  (∀ x s s', Inv x s → x < limit → body x s = Some s' →
     x + step < limit ∧ Inv (x + step) s') →
  ∀ fuel x s, Inv x s → x < limit →
    for_fuel fuel x limit step body s = None.
Proof.
  intros Hbody fuel.
  induction fuel as [|fuel IH]; intros x s Hs Hx; simpl.
  - by rewrite decide_True.
  - rewrite decide_True by done.
    destruct (body x s) as [s1|] eqn:E; simpl; [|done].
    destruct (Hbody x s s1) as [? ?]; [done..|]. by apply IH.
Qed.

(** An invariant indexed by the counter holds, at the exit of the loop,
    for the first counter value past the limit. *)
Lemma for_fuel_invariant_indexed {St : Type} (Inv : Z → St → Prop)
    (body : Z → St → option St) (limit step : Z) :
  0 < step →
  (∀ x s s', Inv x s → x < limit → body x s = Some s' → Inv (x + step) s') →
  ∀ fuel x s s', Inv x s → for_fuel fuel x limit step body s = Some s' →
    ∃ x', limit ≤ x' ∧ (x' = x ∨ x' - step < limit) ∧ Inv x' s'.
Proof.
  intros Hstep Hbody fuel.
  induction fuel as [|fuel IH]; intros x s s' Hs; simpl.
  - case_decide; [done|]. intros [= <-]. exists x.
    split_and!; [lia|by left|done].
  - case_decide; [|intros [= <-]; exists x; split_and!; [lia|by left|done]].
    destruct (body x s) as [s1|] eqn:E; simpl; [|done].
    intros Hloop. apply IH in Hloop as (x' & Hx' & Hlast & Hinv);
      [|by eapply Hbody].
    exists x'. split_and!; [done| |done]. right. lia.
Qed.

(** ** Relations kept by monadic code *)

Section Preserves.
Context {St : Type} (R : relation St) `{!PreOrder R}.

Lemma preserves_ret {A} (a : A) : preserves R (mret a).
Proof. by intros st. Qed.

Lemma preserves_bind {A B} (m : M St A) (f : A → M St B) :
  preserves R m → (∀ a, preserves R (f a)) → preserves R (m ≫= f).
Proof.
  intros Hm Hf st. unfold mbind, M_bind. specialize (Hm st).
  destruct (m st) as [[a| | | |] st']; simpl in *; try done.
  etrans; [done|apply Hf].
Qed.

Lemma preserves_get : preserves R get.
Proof. by intros st. Qed.

Lemma preserves_gets {A} (f : St → A) : preserves R (gets f).
Proof. by intros st. Qed.

Lemma preserves_modify (f : St → St) :
  (∀ st, R st (f st)) → preserves R (modify f).
Proof. intros Hf st. apply Hf. Qed.

Lemma preserves_throw {A} severity reason :
  preserves R (throw (A := A) severity reason).
Proof. by intros st. Qed.

Lemma preserves_open_failed {A} : preserves R (open_failed (A := A)).
Proof. by intros st. Qed.

Lemma preserves_defined {A} (o : option A) : preserves R (defined o).
Proof. by destruct o; intros st. Qed.

Lemma preserves_rows_fuel (body : Z → M St bool) (limit : Z) :
  (∀ y, preserves R (body y)) →
  ∀ fuel y, preserves R (rows_fuel fuel y limit body).
Proof.
  intros Hbody fuel. induction fuel as [|fuel IH]; intros y; simpl.
  - by case_decide; intros st.
  - case_decide; [|by intros st].
    apply preserves_bind; [done|]. intros [|]; [apply IH|by intros st].
Qed.

Lemma preserves_for_rows (body : Z → M St bool) (limit : Z) :
  (∀ y, preserves R (body y)) → preserves R (for_rows limit body).
Proof. intros. by apply preserves_rows_fuel. Qed.

Lemma preserves_do_while (frame : M St bool) (condition : St → bool) :
  preserves R frame → ∀ fuel, preserves R (do_while fuel frame condition).
Proof.
  intros Hframe fuel. induction fuel as [|fuel IH]; simpl; [by intros st|].
  apply preserves_bind; [done|]. intros continue.
  apply preserves_bind; [apply preserves_get|]. intros st.
  destruct (continue && condition st); [done|by intros ?].
Qed.
End Preserves.

(** Apply a rule about [preserves] and find the preorder it needs. *)
Tactic Notation "keeps" uconstr(rule) := (apply rule; try apply _).

(** The throw macros keep what the close of the blob keeps. *)
Lemma preserves_ThrowWriterException {A} (R : relation WriterState)
    (image_info : ImageInfo) (severity : ExceptionType) (reason : string) :
  (∀ st, R st (ws_thrown image_info st)) →
  preserves R (ThrowWriterException (A := A) image_info severity reason).
Proof. intros HR st. by rewrite ThrowWriterException_run. Qed.

Lemma preserves_ThrowReaderException {A} (R : relation ReaderState)
    (severity : ExceptionType) (reason : string) :
  (∀ st, R st (rs_thrown st)) →
  preserves R (ThrowReaderException (A := A) severity reason).
Proof. intros HR st. by rewrite ThrowReaderException_run. Qed.

(** ** Postconditions of monadic code *)

Section Ensures.
Context {St : Type}.

Lemma ensures_ret {A} (P : St → Prop) (a : A) (Q : A → St → Prop) :
  (∀ st, P st → Q a st) → ensures P (mret a) Q.
Proof. intros HPQ st a' st' HP [= <- <-]. by apply HPQ. Qed.

Lemma ensures_bind {A B} (P : St → Prop) (m : M St A) (f : A → M St B)
    (Q : A → St → Prop) (R : B → St → Prop) :
  ensures P m Q → (∀ a, ensures (Q a) (f a) R) → ensures P (m ≫= f) R.
Proof.
  intros Hm Hf st b st' HP. unfold mbind, M_bind.
  destruct (m st) as [[a| | | |] st1] eqn:E; try done.
  intros Hfa. eapply Hf; [|done]. by eapply Hm.
Qed.

Lemma ensures_weaken {A} (P P' : St → Prop) (m : M St A)
    (Q Q' : A → St → Prop) :
  ensures P' m Q' → (∀ st, P st → P' st) → (∀ a st, Q' a st → Q a st) →
  ensures P m Q.
Proof. intros Hm HP HQ st a st' ? ?. eapply HQ, Hm; eauto. Qed.

Lemma ensures_fails {A} (P : St → Prop) (m : M St A) (Q : A → St → Prop) :
  (∀ st a st', m st ≠ (Ok a, st')) → ensures P m Q.
Proof. intros Hm st a st' _ E. by destruct (Hm st a st'). Qed.

(** A state relation kept by the computation carries a property of the
    start state that it transports to the end state. *)
Lemma ensures_preserves {A} (R : relation St) (P : St → Prop) (m : M St A) :
  preserves R m → (∀ st st', R st st' → P st → P st') →
  ensures P m (λ _, P).
Proof.
  intros Hm HP st a st' HPst E. apply (HP st); [|done].
  specialize (Hm st). by rewrite E in Hm.
Qed.

Lemma ensures_do_while (Inv Post : St → Prop) (frame : M St bool)
    (condition : St → bool) :
  ensures Inv frame (λ _ st, Inv st ∧ Post st) →
  ∀ fuel, ensures Inv (do_while fuel frame condition)
            (λ _ st, Inv st ∧ Post st).
Proof.
  intros Hframe fuel. induction fuel as [|fuel IH]; simpl.
  - by apply ensures_fails.
  - eapply ensures_bind; [done|]. intros continue. simpl.
    intros st a st' [HI HP]. unfold mbind, M_bind, get.
    destruct (continue && condition st).
    + by apply IH.
    + by intros [= <- <-].
Qed.
End Ensures.

(** The throw macros never end normally. *)
Lemma ensures_ThrowWriterException {A} (P : WriterState → Prop)
    (image_info : ImageInfo) (severity : ExceptionType) (reason : string)
    (Q : A → WriterState → Prop) :
  ensures P (ThrowWriterException image_info severity reason) Q.
Proof.
  apply ensures_fails. intros st a st'.
  by rewrite ThrowWriterException_run.
Qed.

(** ** Fuel *)

Section Fueled.
Context {St : Type}.

Lemma fueled_ret {A} (a : A) : fueled (mret a : M St A).
Proof. by intros st. Qed.

Lemma fueled_bind {A B} (m : M St A) (f : A → M St B) :
  fueled m → (∀ a, fueled (f a)) → fueled (m ≫= f).
Proof.
  intros Hm Hf st. unfold mbind, M_bind. specialize (Hm st).
  destruct (m st) as [[a| | | |] st']; simpl in *; try done. apply Hf.
Qed.

Lemma fueled_modify (f : St → St) : fueled (modify f).
Proof. by intros st. Qed.

Lemma fueled_get : fueled (get : M St St).
Proof. by intros st. Qed.

Lemma fueled_defined {A} (o : option A) : fueled (defined o : M St A).
Proof. by destruct o; intros st. Qed.

Lemma fueled_throw {A} severity reason :
  fueled (throw severity reason : M St A).
Proof. by intros st. Qed.

Lemma fueled_open_failed {A} : fueled (open_failed : M St A).
Proof. by intros st. Qed.

Lemma fueled_rows_fuel (body : Z → M St bool) (limit : Z) :
  (∀ y, fueled (body y)) →
  ∀ fuel y, (Z.to_nat (limit - y) ≤ fuel)%nat →
    fueled (rows_fuel fuel y limit body).
Proof.
  intros Hbody fuel. induction fuel as [|fuel IH]; intros y Hfuel; simpl.
  - rewrite decide_False by lia. apply fueled_ret.
  - case_decide; [|apply fueled_ret].
    apply fueled_bind; [done|]. intros [|]; [|apply fueled_ret].
    apply IH. lia.
Qed.

(** The fuel of a row loop is enough. *)
Lemma fueled_for_rows (body : Z → M St bool) (limit : Z) :
  (∀ y, fueled (body y)) → fueled (for_rows limit body).
Proof. intros. apply fueled_rows_fuel; [done|lia]. Qed.
End Fueled.

Lemma fueled_ThrowWriterException {A} (image_info : ImageInfo)
    (severity : ExceptionType) (reason : string) :
  fueled (ThrowWriterException (A := A) image_info severity reason).
Proof. intros st. by rewrite ThrowWriterException_run. Qed.

(** ** Stores into rows *)

Section Stores.
Context `{MagickCore}.

Lemma store_Some (row row' : PixelRow) (i : nat) (value : Quantum) :
  store row i value = Some row' →
  (i < length row)%nat ∧ row' = <[i:=value]> row.
Proof. unfold store. case_decide; [|done]. by intros [= <-]. Qed.

Lemma store_in_range (row : PixelRow) (i : nat) (value : Quantum) :
  (i < length row)%nat → store row i value = Some (<[i:=value]> row).
Proof. intros. unfold store. by rewrite decide_True. Qed.

Lemma store_out_of_range (row : PixelRow) (i : nat) (value : Quantum) :
  (length row ≤ i)%nat → store row i value = None.
Proof. intros. unfold store. rewrite decide_False; [done|lia]. Qed.

Global Instance chroma_only_preorder : PreOrder chroma_only.
Proof.
  split.
  - by intros row.
  - intros r1 r2 r3 [L12 E12] [L23 E23]. split; [congruence|].
    intros i Hg Hb. by rewrite E23, E12.
Qed.

Global Instance luma_kept_preorder : PreOrder luma_kept.
Proof.
  split.
  - intros st. unfold luma_kept. reflexivity.
  - intros s1 s2 s3 H12 H23. unfold luma_kept in *. by etrans.
Qed.

(** The component [c] of the [k]-th pixel sits in slot [c] of its
    pixel. *)
Lemma component_mod (k c : nat) :
  (c < GetPixelChannels)%nat →
  ((k * GetPixelChannels + c) mod GetPixelChannels)%nat = c.
Proof.
  intros Hc. rewrite Nat.add_comm, Nat.Div0.mod_add. by apply Nat.mod_small.
Qed.

Lemma store_green_chroma_only (row row' : PixelRow) (k : nat) value :
  component_map_wf component_map →
  SetPixelGreen value row (k * GetPixelChannels) = Some row' →
  chroma_only row row'.
Proof.
  intros (_ & Hg & _) [Hi ->]%store_Some.
  split; [by rewrite length_insert|].
  intros i Hig _. apply list_lookup_insert_ne. intros <-.
  by rewrite component_mod in Hig.
Qed.

Lemma store_blue_chroma_only (row row' : PixelRow) (k : nat) value :
  component_map_wf component_map →
  SetPixelBlue value row (k * GetPixelChannels) = Some row' →
  chroma_only row row'.
Proof.
  intros (_ & _ & Hb & _) [Hi ->]%store_Some.
  split; [by rewrite length_insert|].
  intros i _ Hib. apply list_lookup_insert_ne. intros <-.
  by rewrite component_mod in Hib.
Qed.
End Stores.

Lemma Q16_component_map_wf :
  component_map_wf (component_map (MagickCore := Reference.Q16)).
Proof. repeat split; simpl; lia. Qed.

(** ** The chroma image of a frame *)

Section ChromaGeometry.
Context `{MagickCore}.

(** C6.  The chroma image of a decoded frame has the columns of the
    image divided by the horizontal factor and its rows divided by the
    vertical factor (integer division), and a pixel cache of that many
    rows and pixels. *)
Theorem chroma_image_geometry (st : ReaderState)
    (horizontal_factor vertical_factor : Z) :
  0 < horizontal_factor < 2 ^ size_t_bits →
  0 < vertical_factor < 2 ^ size_t_bits →
  0 ≤ columns (rs_image st) < 2 ^ size_t_bits →
  0 ≤ rows (rs_image st) < 2 ^ size_t_bits →
  ∃ st',
    acquire_chroma_image horizontal_factor vertical_factor st
      = (Ok (), st') ∧
    columns (rs_chroma_image st')
      = columns (rs_image st) / horizontal_factor ∧
    rows (rs_chroma_image st') = rows (rs_image st) / vertical_factor ∧
    length (pixels (rs_chroma_image st'))
      = Z.to_nat (rows (rs_image st) / vertical_factor) ∧
    Forall (λ row, length row
              = (Z.to_nat (columns (rs_image st) / horizontal_factor)
                 * GetPixelChannels)%nat)
      (pixels (rs_chroma_image st')).
Proof.
  intros Hh Hv Hc Hr.
  unfold acquire_chroma_image, size_t_div, to_size_t.
  unfold mbind, M_bind, gets, defined, set_chroma_image, modify. simpl.
  rewrite (Z.mod_small horizontal_factor), (Z.mod_small vertical_factor),
    (Z.mod_small (columns _)), (Z.mod_small (rows _)) by lia.
  case_decide; [lia|]. simpl. case_decide; [lia|]. simpl.
  eexists. split; [done|]. simpl. unfold fresh_pixels.
  split_and!; [done|done|by rewrite length_replicate|].
  apply Forall_replicate. by rewrite length_replicate.
Qed.
End ChromaGeometry.

Lemma chroma_image_geometry_witness :
  (0 < 2 < 2 ^ size_t_bits ∧ 0 < 1 < 2 ^ size_t_bits ∧
   0 ≤ columns (rs_image Examples.square_state) < 2 ^ size_t_bits ∧
   0 ≤ rows (rs_image Examples.square_state) < 2 ^ size_t_bits) ∧
  (∃ st',
     acquire_chroma_image (H := Reference.Q16) 2 2 Examples.square_state
       = (Ok (), st') ∧
     columns (rs_chroma_image st') = 4 / 2 ∧
     rows (rs_chroma_image st') = 4 / 2 ∧
     length (pixels (rs_chroma_image st')) = Z.to_nat (4 / 2) ∧
     Forall (λ row, length row = (Z.to_nat (4 / 2) * 4)%nat)
       (pixels (rs_chroma_image st'))) ∧
  (∃ st',
     acquire_chroma_image (H := Reference.Q16) 2 1 Examples.square_state
       = (Ok (), st') ∧
     columns (rs_chroma_image st') = 4 / 2 ∧
     rows (rs_chroma_image st') = 4 / 1 ∧
     length (pixels (rs_chroma_image st')) = Z.to_nat (4 / 1) ∧
     Forall (λ row, length row = (Z.to_nat (4 / 2) * 4)%nat)
       (pixels (rs_chroma_image st'))).
Proof.
  assert (0 < 2 < 2 ^ size_t_bits) as H2 by (unfold size_t_bits; lia).
  assert (0 < 1 < 2 ^ size_t_bits) as H1 by (unfold size_t_bits; lia).
  assert (0 ≤ 4 < 2 ^ size_t_bits) as H4 by (unfold size_t_bits; lia).
  split_and!; [done..| |].
  - exact (chroma_image_geometry (H := Reference.Q16)
             Examples.square_state 2 2 H2 H2 H4 H4).
  - exact (chroma_image_geometry (H := Reference.Q16)
             Examples.square_state 2 1 H2 H1 H4 H4).
Defined.

(** ** The non-interlaced scanline decoder *)

(** Resolve the stores at the head of the goal that are inside their row. *)
Ltac stores :=
  repeat (rewrite store_in_range by (rewrite ?length_insert; lia); simpl).

Section NonInterlaced.
Context `{MagickCore}.

Lemma next_sample_in_range (quantum : Z) (scanline : list Z) (p : nat) :
  quantum = 1 ∨ quantum = 2 →
  (p + Z.to_nat quantum ≤ length scanline)%nat →
  ∃ value, next_sample quantum scanline p
           = Some (value, (p + Z.to_nat quantum)%nat).
Proof.
  intros [-> | ->] Hp; unfold next_sample; simpl.
  - destruct (lookup_lt_is_Some_2 scanline p) as [b ->]; [lia|].
    simpl. eexists. do 2 f_equal. lia.
  - destruct (lookup_lt_is_Some_2 scanline p) as [b0 ->]; [lia|].
    destruct (lookup_lt_is_Some_2 scanline (S p)) as [b1 ->]; [lia|].
    simpl. eexists. do 2 f_equal. lia.
Qed.

(** What a turn of the inner loop that stays inside its arrays has
    done to the pointers. *)
Lemma decode_pair_Some (quantum : Z) (scanline : list Z)
    (c c' : DecodeCursor) :
  decode_pair quantum scanline c = Some c' →
  dc_q c' = (dc_q c + 2 * GetPixelChannels)%nat ∧
  length (dc_row c') = length (dc_row c) ∧
  (dc_q c + GetPixelChannels + GreenPixelComponent component_map
     < length (dc_row c))%nat.
Proof.
  unfold decode_pair, SetPixelRed, SetPixelGreen, SetPixelBlue.
  destruct (store (dc_chroma_row c) _ _) as [ch1|]; simpl; [|done].
  destruct (next_sample _ _ _) as [[u p1]|]; simpl; [|done].
  destruct (store ch1 _ _) as [ch2|]; simpl; [|done].
  destruct (next_sample _ _ p1) as [[y0 p2]|]; simpl; [|done].
  destruct (store (dc_row c) _ _) as [r1|] eqn:E1; simpl; [|done].
  destruct (store r1 _ _) as [r2|] eqn:E2; simpl; [|done].
  destruct (store r2 _ _) as [r3|] eqn:E3; simpl; [|done].
  destruct (store r3 _ _) as [r4|] eqn:E4; simpl; [|done].
  destruct (store r4 _ _) as [r5|] eqn:E5; simpl; [|done].
  destruct (next_sample _ _ p2) as [[v p3]|]; simpl; [|done].
  destruct (store ch2 _ _) as [ch3|]; simpl; [|done].
  destruct (next_sample _ _ p3) as [[y1 p4]|]; simpl; [|done].
  destruct (store r5 _ _) as [r6|] eqn:E6; simpl; [|done].
  intros [= <-]. simpl.
  apply store_Some in E1 as [? ->], E2 as [? ->], E3 as [? ->],
    E4 as [? ->], E5 as [? ->], E6 as [? ->].
  rewrite !length_insert in *. split_and!; [lia|done|lia].
Qed.

(** A turn of the inner loop whose two pixels, chroma slot and four
    samples are inside the arrays succeeds. *)
Lemma decode_pair_in_range (quantum : Z) (scanline : list Z)
    (c : DecodeCursor) :
  component_map_wf component_map →
  quantum = 1 ∨ quantum = 2 →
  (dc_p c + 4 * Z.to_nat quantum ≤ length scanline)%nat →
  (dc_q c + 2 * GetPixelChannels ≤ length (dc_row c))%nat →
  (dc_chroma_pixels c + GetPixelChannels ≤ length (dc_chroma_row c))%nat →
  ∃ c', decode_pair quantum scanline c = Some c' ∧
    dc_p c' = (dc_p c + 4 * Z.to_nat quantum)%nat ∧
    dc_q c' = (dc_q c + 2 * GetPixelChannels)%nat ∧
    dc_chroma_pixels c' = S (dc_chroma_pixels c) ∧
    length (dc_row c') = length (dc_row c) ∧
    length (dc_chroma_row c') = length (dc_chroma_row c).
Proof.
  intros (Hr & Hg & Hb & _) Hquantum Hp Hq Hchroma.
  fold GetPixelChannels in Hr, Hg, Hb.
  unfold decode_pair, SetPixelRed, SetPixelGreen, SetPixelBlue.
  stores.
  destruct (next_sample_in_range quantum scanline (dc_p c)) as [u ->];
    [done|lia|]. simpl. stores.
  destruct (next_sample_in_range quantum scanline
              (dc_p c + Z.to_nat quantum)) as [y0 ->]; [done|lia|].
  simpl. stores.
  destruct (next_sample_in_range quantum scanline
              (dc_p c + Z.to_nat quantum + Z.to_nat quantum))
    as [v ->]; [done|lia|]. simpl. stores.
  destruct (next_sample_in_range quantum scanline
              (dc_p c + Z.to_nat quantum + Z.to_nat quantum
               + Z.to_nat quantum)) as [y1 ->]; [done|lia|]. simpl. stores.
  eexists. split; [done|]. simpl. rewrite !length_insert.
  split_and!; lia.
Qed.
End NonInterlaced.

Section NonInterlacedRow.
Context `{MagickCore}.

(** C10.  The non-interlaced inner loop of the decoder needs an even
    column count.  With even columns every turn stays inside its arrays:
    the stores into the row stay inside the [image_columns] pixels
    queued for it, and the [2 * quantum * image_columns] bytes of a row
    are all the scanline needs to hold.  With odd
    columns the last turn stores its second luma pixel outside the
    queued row, whatever the scanline holds.  The scanline buffer is
    [2 * quantum] bytes longer than what a row reads. *)
Theorem decode_noninterlaced_row_bounds (quantum image_columns : Z)
    (horizontal_factor : Z) (row chroma_row : PixelRow) :
  component_map_wf component_map →
  quantum = 1 ∨ quantum = 2 →
  horizontal_factor = 1 ∨ horizontal_factor = 2 →
  0 ≤ image_columns →
  length row = (Z.to_nat image_columns * GetPixelChannels)%nat →
  length chroma_row
    = (Z.to_nat (image_columns / horizontal_factor) * GetPixelChannels)%nat →
  (Z.even image_columns = true →
     ∀ scanline : list Z,
       (Z.to_nat (2 * quantum * image_columns) ≤ length scanline)%nat →
       ∃ row' chroma_row',
         decode_noninterlaced_row quantum image_columns scanline
           row chroma_row = Some (row', chroma_row') ∧
         length row' = length row ∧
         length chroma_row' = length chroma_row) ∧
  (Z.odd image_columns = true →
     ∀ scanline : list Z,
       decode_noninterlaced_row quantum image_columns scanline
         row chroma_row = None) ∧
  scanline_extent NoInterlace image_columns quantum
    = 2 * quantum * image_columns + 2 * quantum.
Proof.
  intros Hwf Hquantum Hfactor Hcolumns Hrow Hchroma.
  split_and!.
  - intros Heven scanline Hscanline.
    apply Zeven_bool_iff, Zeven_ex_iff in Heven as [n ->].
    unfold decode_noninterlaced_row, for_loop.
    edestruct (for_fuel_total
      (λ x c, ∃ k : nat, x = 2 * Z.of_nat k ∧
         dc_p c = (4 * Z.to_nat quantum * k)%nat ∧
         dc_q c = (2 * k * GetPixelChannels)%nat ∧
         dc_chroma_pixels c = k ∧
         length (dc_row c) = length row ∧
         length (dc_chroma_row c) = length chroma_row)
      (λ _, decode_pair quantum scanline)
      (2 * n) 2) as (x' & c' & -> & _ & k & _ & _ & _ & _ & Hr' & Hc');
      [lia| | |lia|].
    + intros x c (k & -> & Hp & Hq & Hcp & Hlr & Hlc) Hx.
      destruct (decode_pair_in_range quantum scanline c)
        as (c' & -> & Hp' & Hq' & Hcp' & Hlr' & Hlc'); [done..| | | |].
      * rewrite Hp. destruct Hquantum as [-> | ->]; lia.
      * rewrite Hq, Hlr, Hrow. nia.
      * rewrite Hcp, Hlc, Hchroma.
        destruct Hwf as (Hr & _). fold GetPixelChannels in Hr.
        assert (n ≤ 2 * n / horizontal_factor).
        { destruct Hfactor as [-> | ->].
          - rewrite Z.div_1_r. lia.
          - rewrite (Z.mul_comm 2), Z.div_mul by done. lia. }
        nia.
      * eexists. split; [done|]. exists (S k). split_and!; try done; try lia.
    + exists 0%nat. simpl. split_and!; try done; lia.
    + simpl. eauto.
  - intros Hodd scanline.
    apply Zodd_bool_iff, Zodd_ex_iff in Hodd as [n ->].
    unfold decode_noninterlaced_row, for_loop.
    rewrite (for_fuel_fails
      (λ x c, ∃ k : nat, x = 2 * Z.of_nat k ∧
         dc_q c = (2 * k * GetPixelChannels)%nat ∧
         length (dc_row c) = length row)); [done| | |lia].
    + intros x c c' (k & -> & Hq & Hlr) Hx Hpair.
      apply decode_pair_Some in Hpair as (Hq' & Hlr' & Hin).
      rewrite Hq, Hlr, Hrow in Hin.
      assert (2 * k + 1 < Z.to_nat (2 * n + 1))%nat by nia.
      split; [lia|]. exists (S k). split_and!; [lia|lia|congruence].
    + exists 0%nat. simpl. split_and!; try done; lia.
  - unfold scanline_extent. rewrite decide_True by done. lia.
Qed.
End NonInterlacedRow.

Lemma decode_noninterlaced_row_bounds_witness :
  (component_map_wf (component_map (MagickCore := Reference.Q16)) ∧
   (1 = 1 ∨ 1 = 2) ∧ (2 = 1 ∨ 2 = 2) ∧ 0 ≤ 4 ∧
   length (replicate 16 0) = (Z.to_nat 4 * 4)%nat ∧
   length (replicate 8 0) = (Z.to_nat (4 / 2) * 4)%nat) ∧
  (Z.even 4 = true →
     ∀ scanline : list Z,
       (Z.to_nat (2 * 1 * 4) ≤ length scanline)%nat →
       ∃ row' chroma_row',
         decode_noninterlaced_row (H := Reference.Q16) 1 4 scanline
           (replicate 16 0) (replicate 8 0) = Some (row', chroma_row') ∧
         length row' = length (replicate 16 0) ∧
         length chroma_row' = length (replicate 8 0)) ∧
  (Z.odd 4 = true →
     ∀ scanline : list Z,
       decode_noninterlaced_row (H := Reference.Q16) 1 4 scanline
         (replicate 16 0) (replicate 8 0) = None) ∧
  scanline_extent NoInterlace 4 1 = 2 * 1 * 4 + 2 * 1.
Proof.
  split.
  - split_and!; [exact Q16_component_map_wf|by left|by right|lia|done|done].
  - apply (decode_noninterlaced_row_bounds (H := Reference.Q16) 1 4 2
             (replicate 16 0) (replicate 8 0));
      [exact Q16_component_map_wf|by left|by right|lia|done|done].
Defined.

(** C4.  Decoding a non-interlaced row U0 Y0 V0 Y1 U1 Y2 V1 Y3 at depth 8
    stores the four luma samples in the red samples of the four pixels of
    the row, but not the chroma samples in its two chroma pixels: the
    chroma pointer advances by one quantum per turn, not by one pixel, so
    the second turn clears the green sample of the first chroma pixel
    (where U0 was) and stores U1 and V1 over its blue and fourth
    quantums, and the second chroma pixel is never written.  So it is for
    both rows of the 16-byte stream of the examples. *)
Theorem noninterlaced_decoder_misplaces_chroma :
  (∀ u0 y0 v0 y1 u1 y2 v1 y3 : Z,
     decode_noninterlaced_row (H := Reference.Q16) 1 4
       [u0; y0; v0; y1; u1; y2; v1; y3] (replicate 16 0) (replicate 8 0)
     = Some
         ([ScaleCharToQuantum (H := Reference.Q16) y0; 0; 0; 0;
           ScaleCharToQuantum (H := Reference.Q16) y1; 0; 0; 0;
           ScaleCharToQuantum (H := Reference.Q16) y2; 0; 0; 0;
           ScaleCharToQuantum (H := Reference.Q16) y3; 0; 0; 0],
          [0; 0; ScaleCharToQuantum (H := Reference.Q16) u1;
           ScaleCharToQuantum (H := Reference.Q16) v1; 0; 0; 0; 0])) ∧
  (let run := ReadYUVImage (H := Reference.Q16) 1 Examples.small_info
                (reader_entry (H := Reference.Q16)
                   (Examples.one_file Examples.small_stream)
                   Examples.small_info) in
   (∃ image, run.1 = Ok [image]) ∧
   pixels (rs_chroma_image run.2)
     = [[0; 0; ScaleCharToQuantum (H := Reference.Q16) 50;
         ScaleCharToQuantum (H := Reference.Q16) 70; 0; 0; 0; 0];
        [0; 0; ScaleCharToQuantum (H := Reference.Q16) 51;
         ScaleCharToQuantum (H := Reference.Q16) 71; 0; 0; 0; 0]] ∧
   GetPixelGreen (H := Reference.Q16)
     (default [] (pixels (rs_chroma_image run.2) !! 0%nat)) 0
     ≠ Some (ScaleCharToQuantum (H := Reference.Q16) 10)).
Proof.
  cbv zeta. split_and!.
  - intros. reflexivity.
  - eexists. vm_compute. reflexivity.
  - vm_compute. reflexivity.
  - vm_compute. discriminate.
Qed.

(** ** The merge of the resized chroma *)

Section Merge.
Context `{MagickCore}.

Lemma merge_pixel_chroma_only (chroma_row : PixelRow)
    (c c' : MergeCursor) (k : nat) :
  component_map_wf component_map →
  mc_q c = (k * GetPixelChannels)%nat →
  merge_pixel chroma_row c = Some c' →
  mc_q c' = (S k * GetPixelChannels)%nat ∧
  chroma_only (mc_row c) (mc_row c').
Proof.
  intros Hwf Hq. unfold merge_pixel. rewrite Hq.
  destruct (GetPixelGreen _ _) as [g|]; simpl; [|done].
  destruct (SetPixelGreen _ _ _) as [row1|] eqn:E1; simpl; [|done].
  destruct (GetPixelBlue _ _) as [b|]; simpl; [|done].
  destruct (SetPixelBlue _ _ _) as [row2|] eqn:E2; simpl; [|done].
  intros [= <-]. simpl. split; [lia|].
  etrans; [by eapply store_green_chroma_only
          |by eapply store_blue_chroma_only].
Qed.

Lemma merge_row_chroma_only (image_columns : Z)
    (chroma_row row row' : PixelRow) :
  component_map_wf component_map →
  merge_row image_columns chroma_row row = Some row' →
  chroma_only row row'.
Proof.
  intros Hwf. unfold merge_row, for_loop.
  destruct (for_fuel _ _ _ _ _ _) as [c|] eqn:E; simpl; [|done].
  intros [= <-].
  eapply (for_fuel_invariant
    (λ c, (∃ k, mc_q c = (k * GetPixelChannels)%nat) ∧
          chroma_only row (mc_row c)))
    in E as [_ ?]; [done| |].
  - intros x s s' [[k Hk] Hs] Hbody.
    destruct (merge_pixel_chroma_only _ _ _ k Hwf Hk Hbody) as [Hq' Hs'].
    split; [by eexists|]. by etrans.
  - simpl. split; [by exists 0%nat|done].
Qed.

Lemma scale_and_merge_luma_kept :
  component_map_wf component_map → preserves luma_kept scale_and_merge.
Proof.
  intros Hwf. unfold scale_and_merge.
  keeps preserves_bind; [keeps preserves_get|]. intros st0.
  destruct (ResizeImage _ _ _) as [resize_image|].
  2: { apply preserves_ThrowReaderException. intros st.
       unfold luma_kept. simpl. reflexivity. }
  keeps preserves_bind.
  - keeps preserves_for_rows. intros y st.
    unfold mbind, M_bind, get, defined, set_image, modify. simpl.
    destruct (pixels (rs_image st) !! Z.to_nat y) as [q|] eqn:Eq; [|done].
    destruct (pixels resize_image !! Z.to_nat y) as [chroma_pixels|];
      [|done].
    destruct (merge_row _ _ _) as [row|] eqn:Em; simpl; [|done].
    unfold luma_kept. simpl.
    rewrite <- (list_insert_id _ _ _ Eq) at 1.
    apply Forall2_insert; [reflexivity|].
    by eapply merge_row_chroma_only.
  - intros []. keeps preserves_modify. intros st. unfold luma_kept. simpl.
    reflexivity.
Qed.

(** C8.  The merge step of the decode path ([scale_and_merge], lines
    393-417) changes green and blue samples only: whatever row the image
    held before the merge, the row it holds after has the same length,
    the same red sample in every pixel, and the same quantum in every
    slot that is not a green or blue sample. *)
Theorem merge_modifies_chroma_only (st : ReaderState) (y : nat)
    (row : PixelRow) :
  component_map_wf component_map →
  pixels (rs_image st) !! y = Some row →
  ∃ row', pixels (rs_image (scale_and_merge st).2) !! y = Some row' ∧
    length row' = length row ∧
    (∀ x : nat, GetPixelRed row' (x * GetPixelChannels)
                = GetPixelRed row (x * GetPixelChannels)) ∧
    (∀ i : nat,
       (i mod GetPixelChannels)%nat ≠ GreenPixelComponent component_map →
       (i mod GetPixelChannels)%nat ≠ BluePixelComponent component_map →
       row' !! i = row !! i).
Proof.
  intros Hwf Hrow.
  pose proof (scale_and_merge_luma_kept Hwf st) as Hkept.
  destruct (Forall2_lookup_l _ _ _ _ _ Hkept Hrow)
    as (row' & Hrow' & Hlen & Hsame).
  exists row'. split_and!; [done..| |done].
  intros x. unfold GetPixelRed.
  destruct Hwf as (Hr & _ & _ & Hrg & Hrb & _).
  apply Hsame; by rewrite component_mod.
Qed.
End Merge.

Lemma merge_modifies_chroma_only_witness :
  component_map_wf (component_map (MagickCore := Reference.Q16)) ∧
  pixels (rs_image Examples.merge_state) !! 0%nat
    = Some [5140; 0; 0; 0; 10280; 0; 0; 0] ∧
  ∃ row',
    pixels (rs_image (scale_and_merge (H := Reference.Q16)
                        Examples.merge_state).2) !! 0%nat = Some row' ∧
    length row' = 8%nat ∧
    (∀ x : nat, GetPixelRed (H := Reference.Q16) row' (x * 4)
                = GetPixelRed (H := Reference.Q16)
                    [5140; 0; 0; 0; 10280; 0; 0; 0] (x * 4)) ∧
    (∀ i : nat, (i mod 4)%nat ≠ 1%nat → (i mod 4)%nat ≠ 2%nat →
       row' !! i = [5140; 0; 0; 0; 10280; 0; 0; 0] !! i).
Proof.
  split; [exact Q16_component_map_wf|]. split; [reflexivity|].
  exact (merge_modifies_chroma_only (H := Reference.Q16)
           Examples.merge_state 0 [5140; 0; 0; 0; 10280; 0; 0; 0]
           Q16_component_map_wf eq_refl).
Defined.

(** ** The non-interlaced scanline encoder *)

Section NonInterlacedEncoder.
Context `{MagickCore}.

(** The bytes of a turn: two one-byte chroma samples whatever the
    sample width, and two luma samples of the sample width. *)
Lemma encode_pair_length (quantum : Z) (yuv_row chroma_row : PixelRow)
    (c c' : EncodeCursor) :
  encode_pair quantum yuv_row chroma_row c = Some c' →
  length (ec_bytes c')
    = (length (ec_bytes c) + if decide (quantum = 1%Z) then 4 else 6)%nat.
Proof.
  unfold encode_pair. destruct (decide (quantum = 1)).
  - destruct (GetPixelGreen _ _); simpl; [|done].
    destruct (GetPixelRed _ (ec_p c)); simpl; [|done].
    destruct (GetPixelBlue _ _); simpl; [|done].
    destruct (GetPixelRed _ _); simpl; [|done].
    intros [= <-]. simpl. rewrite !length_app. simpl. lia.
  - destruct (GetPixelGreen _ _); simpl; [|done].
    destruct (GetPixelRed _ (ec_p c)); simpl; [|done].
    destruct (GetPixelBlue _ _); simpl; [|done].
    destruct (GetPixelRed _ _); simpl; [|done].
    intros [= <-]. simpl. rewrite !length_app. simpl. lia.
Qed.

(** A non-interlaced scanline of an even number of columns is encoded in
    [2 * columns] bytes at sample width 1 and in [3 * columns] bytes at
    sample width 2. *)
Lemma encode_noninterlaced_row_length (quantum n : Z)
    (yuv_row chroma_row : PixelRow) (bytes : list Z) :
  0 ≤ n →
  encode_noninterlaced_row quantum (2 * n) yuv_row chroma_row = Some bytes →
  Z.of_nat (length bytes)
    = (if decide (quantum = 1) then 2 else 3) * (2 * n).
Proof.
  intros Hn. unfold encode_noninterlaced_row, for_loop.
  destruct (for_fuel _ _ _ _ _ _) as [c|] eqn:E; simpl; [|done].
  intros [= <-].
  apply (for_fuel_invariant_indexed
    (λ x c, ∃ k : nat, x = 2 * Z.of_nat k ∧
       length (ec_bytes c)
         = (k * if decide (quantum = 1%Z) then 4 else 6)%nat))
    in E as (x' & Hx' & Hlast & k & -> & Hlen); [|lia| |].
  - rewrite Hlen. assert (Z.of_nat k = n) as <- by lia.
    case_decide; lia.
  - intros x s s' (k & -> & Hlen) Hx Hpair.
    apply encode_pair_length in Hpair. exists (S k). split; [lia|].
    rewrite Hpair, Hlen. lia.
  - exists 0%nat. by split.
Qed.
End NonInterlacedEncoder.

(** C2.  At sample width 2 the non-interlaced encoder writes each luma
    sample in two big-endian bytes but each chroma sample in one byte: a
    group of two columns is written in six bytes (U, Y0 high, Y0 low, V,
    Y1 high, Y1 low), not eight.  The 2x1 frame of depth 16 of the
    examples is encoded in 6 bytes where the layout has
    [2 * 1 * 2 * 2 = 8]. *)
Theorem noninterlaced_encoder_writes_one_byte_chroma :
  (∀ y0 g0 b0 a0 y1 g1 b1 a1 r u v a : Z,
     encode_noninterlaced_row (H := Reference.Q16) 2 2
       [y0; g0; b0; a0; y1; g1; b1; a1] [r; u; v; a]
     = Some (WriteBlobByte (ScaleQuantumToChar (H := Reference.Q16) u)
             ++ WriteBlobShort (ScaleQuantumToShort (H := Reference.Q16) y0)
             ++ WriteBlobByte (ScaleQuantumToChar (H := Reference.Q16) v)
             ++ WriteBlobShort (ScaleQuantumToShort (H := Reference.Q16) y1)))
  ∧
  (let run := WriteYUVImage (H := Reference.Q16) Examples.deep_info
                (writer_entry (λ _, true) [Examples.deep_frame]) in
   run.1 = Ok true ∧
   ws_trace run.2
     = [OpenBlobEvent "frame.yuv"; WriteBlobEvent [3; 1; 1; 4; 2; 2];
        CloseBlobEvent]).
Proof.
  cbv zeta. split_and!.
  - intros. reflexivity.
  - vm_compute. reflexivity.
  - vm_compute. reflexivity.
Qed.

(** ** The depth WriteYUVImage assigns *)

Section WriterDepth.
Context `{MagickCore}.

Global Instance same_depths_preorder : PreOrder same_depths.
Proof.
  split.
  - by intros st.
  - intros s1 s2 s3 [E12 P12] [E23 P23]. split; congruence.
Qed.

Lemma assign_same_depths (f : Image → Image) :
  (∀ i, depth (f i) = depth i) → preserves same_depths (assign f).
Proof.
  intros Hf st. unfold assign, modify, same_depths. simpl. split; [|done].
  apply list_eq. intros k. rewrite !list_lookup_fmap.
  destruct (decide (k = ws_image st)) as [->|Hk].
  - rewrite list_lookup_alter_eq. destruct (_ !! _); simpl; [|done].
    by rewrite Hf.
  - by rewrite list_lookup_alter_ne.
Qed.

Lemma log_same_depths e : preserves same_depths (log e).
Proof. by intros st. Qed.

Lemma current_image_same_depths : preserves same_depths current_image.
Proof. intros st. unfold current_image. by destruct (_ !! _). Qed.

Lemma OpenBlob_write_same_depths : preserves same_depths OpenBlob_write.
Proof.
  unfold OpenBlob_write.
  keeps preserves_bind; [apply current_image_same_depths|]. intros image.
  keeps preserves_bind; [keeps preserves_get|]. intros st.
  destruct (ws_writable st (filename image));
    [by keeps preserves_modify|keeps preserves_open_failed].
Qed.

Lemma CloseBlob_write_same_depths : preserves same_depths CloseBlob_write.
Proof. by intros st. Qed.

Lemma next_partition_same_depths format :
  preserves same_depths (next_partition format).
Proof.
  unfold next_partition.
  keeps preserves_bind; [apply CloseBlob_write_same_depths|]. intros _.
  keeps preserves_bind; [by apply assign_same_depths|]. intros _.
  apply OpenBlob_write_same_depths.
Qed.

Lemma write_plane_same_depths component quantum source :
  preserves same_depths (write_plane component quantum source).
Proof.
  unfold write_plane. keeps preserves_for_rows. intros y.
  destruct (GetVirtualPixels source y); [|keeps preserves_ret].
  keeps preserves_bind; [keeps preserves_defined|]. intros bytes.
  keeps preserves_bind; [apply log_same_depths|]. intros _.
  keeps preserves_ret.
Qed.

Lemma frame_assigned_same_depths d st s s' :
  same_depths s s' → frame_assigned d st s → frame_assigned d st s'.
Proof.
  intros [Hdepths Hposition] (Hs & Hp & Hlen). split_and!; [|congruence|done].
  by rewrite Hdepths.
Qed.

(** What a frame that is encoded through does to the depths: it assigns
    the depth of the image it encodes and no other, and leaves [image] on
    this image or on the next. *)
Lemma write_frame_depths (image_info : ImageInfo) (quantum : Z)
    (interlace : InterlaceType) (horizontal_factor vertical_factor : Z)
    (st st' : WriterState) (continue : bool) :
  write_frame image_info quantum interlace
    horizontal_factor vertical_factor st = (Ok continue, st') →
  depth <$> ws_images st'
    = <[ws_image st := if decide (quantum = 1) then 8 else 16]>
        (depth <$> ws_images st) ∧
  (ws_image st < length (ws_images st))%nat ∧
  (if continue
   then ws_image st' = S (ws_image st) ∧
        (S (ws_image st) < length (ws_images st))%nat
   else ws_image st' = ws_image st ∧
        (length (ws_images st) ≤ S (ws_image st))%nat).
Proof.
  set (d := if decide (quantum = 1) then 8 else 16).
  revert st' continue.
  assert (ensures (λ s, s = st)
            (write_frame image_info quantum interlace
               horizontal_factor vertical_factor)
            (λ continue st',
               depth <$> ws_images st'
                 = <[ws_image st := d]> (depth <$> ws_images st) ∧
               (ws_image st < length (ws_images st))%nat ∧
               (if continue : bool
                then ws_image st' = S (ws_image st) ∧
                     (S (ws_image st) < length (ws_images st))%nat
                else ws_image st' = ws_image st ∧
                     (length (ws_images st) ≤ S (ws_image st))%nat)))
    as Hframe;
    [|by intros st' continue Hrun; eapply Hframe].
  unfold write_frame. fold d.
  apply (ensures_bind _ _ _
    (λ _ s, s = ws_update (alter (set_depth d) (ws_image st) (ws_images st))
                  (ws_image st) (ws_blob st) (ws_trace st) st)).
  { by intros s [] s' -> [= <-]. }
  intros _.
  apply (ensures_bind _ _ _ (λ _, frame_assigned d st)).
  { intros s image s' ->. unfold current_image. simpl.
    rewrite list_lookup_alter_eq.
    destruct (ws_images st !! ws_image st) as [i|] eqn:Ei; [|done].
    intros [= <- <-]. split_and!; simpl; [|done|by eapply lookup_lt_Some].
    apply list_eq. intros k. rewrite list_lookup_fmap.
    destruct (decide (k = ws_image st)) as [->|Hne].
    - rewrite list_lookup_alter_eq, Ei, list_lookup_insert_eq; [done|].
      rewrite length_fmap. by eapply lookup_lt_Some.
    - by rewrite list_lookup_alter_ne, list_lookup_insert_ne,
        list_lookup_fmap. }
  intros image.
  pose proof (λ A (m : M WriterState A) Hm,
    ensures_preserves same_depths (frame_assigned d st) m Hm
      (frame_assigned_same_depths d st)) as Hkeep.
  destruct (ResizeImage _ _ _) as [yuv_image|];
    [|apply ensures_ThrowWriterException].
  eapply ensures_bind; [apply Hkeep; keeps preserves_defined|].
  intros chroma_columns. simpl.
  eapply ensures_bind; [apply Hkeep; keeps preserves_defined|].
  intros chroma_rows. simpl.
  destruct (ResizeImage _ _ _) as [chroma_image|];
    [|apply ensures_ThrowWriterException].
  eapply ensures_bind.
  { apply Hkeep. case_decide.
    - keeps preserves_for_rows. intros y.
      destruct (GetVirtualPixels _ y); [|keeps preserves_ret].
      destruct (GetVirtualPixels _ y); [|keeps preserves_ret].
      keeps preserves_bind; [keeps preserves_defined|]. intros bytes.
      keeps preserves_bind; [apply log_same_depths|]. intros _.
      keeps preserves_ret.
    - keeps preserves_bind; [apply write_plane_same_depths|]. intros _.
      keeps preserves_bind.
      { case_decide; [apply next_partition_same_depths|keeps preserves_ret]. }
      intros _.
      keeps preserves_bind; [apply write_plane_same_depths|]. intros _.
      keeps preserves_bind.
      { case_decide; [apply next_partition_same_depths|keeps preserves_ret]. }
      intros _. apply write_plane_same_depths. }
  intros ?. simpl.
  eapply ensures_bind.
  { apply Hkeep.
    case_decide; [by apply assign_same_depths|keeps preserves_ret]. }
  intros ?. simpl.
  intros s continue s' (Hdepths & Hposition & Hlen).
  assert (length (ws_images s) = length (ws_images st)) as Hlength.
  { apply (f_equal length) in Hdepths.
    by rewrite length_insert, !length_fmap in Hdepths. }
  unfold mbind, M_bind, get, modify.
  case_decide; intros [= <- <-]; simpl; split_and!; auto; lia.
Qed.




End WriterDepth.



(** ** The fuel of WriteYUVImage *)

Section WriterFuel.
Context `{MagickCore}.

Lemma fueled_current_image : fueled current_image.
Proof. intros st. unfold current_image. by destruct (_ !! _). Qed.

Lemma fueled_OpenBlob_write : fueled OpenBlob_write.
Proof.
  unfold OpenBlob_write. apply fueled_bind; [apply fueled_current_image|].
  intros image. apply fueled_bind; [apply fueled_get|]. intros st.
  destruct (ws_writable st _); [apply fueled_modify|apply fueled_open_failed].
Qed.

Lemma fueled_next_partition format : fueled (next_partition format).
Proof.
  unfold next_partition. apply fueled_bind; [apply fueled_modify|]. intros _.
  apply fueled_bind; [apply fueled_modify|]. intros _.
  apply fueled_OpenBlob_write.
Qed.

Lemma fueled_write_plane component quantum source :
  fueled (write_plane component quantum source).
Proof.
  unfold write_plane. apply fueled_for_rows. intros y.
  destruct (GetVirtualPixels source y); [|apply fueled_ret].
  apply fueled_bind; [apply fueled_defined|]. intros bytes.
  apply fueled_bind; [apply fueled_modify|]. intros _. apply fueled_ret.
Qed.

Lemma fueled_write_frame image_info quantum interlace
    horizontal_factor vertical_factor :
  fueled (write_frame image_info quantum interlace
            horizontal_factor vertical_factor).
Proof.
  unfold write_frame.
  apply fueled_bind; [apply fueled_modify|]. intros _.
  apply fueled_bind; [apply fueled_current_image|]. intros image.
  destruct (ResizeImage _ _ _) as [yuv_image|];
    [|apply fueled_ThrowWriterException].
  apply fueled_bind; [apply fueled_defined|]. intros chroma_columns.
  apply fueled_bind; [apply fueled_defined|]. intros chroma_rows.
  destruct (ResizeImage _ _ _) as [chroma_image|];
    [|apply fueled_ThrowWriterException].
  apply fueled_bind.
  { case_decide.
    - apply fueled_for_rows. intros y.
      destruct (GetVirtualPixels _ y); [|apply fueled_ret].
      destruct (GetVirtualPixels _ y); [|apply fueled_ret].
      apply fueled_bind; [apply fueled_defined|]. intros bytes.
      apply fueled_bind; [apply fueled_modify|]. intros _. apply fueled_ret.
    - apply fueled_bind; [apply fueled_write_plane|]. intros _.
      apply fueled_bind.
      { case_decide; [apply fueled_next_partition|apply fueled_ret]. }
      intros _.
      apply fueled_bind; [apply fueled_write_plane|]. intros _.
      apply fueled_bind.
      { case_decide; [apply fueled_next_partition|apply fueled_ret]. }
      intros _. apply fueled_write_plane. }
  intros _. apply fueled_bind.
  { case_decide; [apply fueled_modify|apply fueled_ret]. }
  intros _. apply fueled_bind; [apply fueled_get|]. intros st.
  case_decide; [|apply fueled_ret].
  apply fueled_bind; [apply fueled_modify|]. intros _. apply fueled_ret.
Qed.

(** The frame loop advances through the image list, so the length of the
    list is fuel enough. *)
Lemma fueled_frames image_info quantum interlace
    horizontal_factor vertical_factor (again : bool) :
  ∀ fuel st,
    (length (ws_images st) - ws_image st ≤ fuel)%nat →
    (ws_image st < length (ws_images st))%nat →
    (do_while fuel
       (write_frame image_info quantum interlace
          horizontal_factor vertical_factor)
       (λ _, again) st).1 ≠ OutOfFuel.
Proof.
  intros fuel. induction fuel as [|fuel IH]; intros st Hfuel Hposition;
    [lia|].
  simpl. unfold mbind at 1, M_bind at 1.
  pose proof (fueled_write_frame image_info quantum interlace
                horizontal_factor vertical_factor st) as Hframe.
  destruct (write_frame _ _ _ _ _ st) as [[continue| | | |] st1] eqn:E;
    try done.
  apply write_frame_depths in E as (Hdepths & _ & Hnext).
  apply (f_equal length) in Hdepths.
  rewrite length_insert, !length_fmap in Hdepths.
  unfold mbind, M_bind, get.
  destruct continue; simpl; [|done].
  destruct again; simpl; [|done].
  destruct Hnext as [Hnext Hlength]. apply IH; lia.
Qed.

(** WriteYUVImage never ends for lack of fuel. *)
Lemma fueled_WriteYUVImage (image_info : ImageInfo)
    (writable : string → bool) (images : list Image) :
  (WriteYUVImage image_info (writer_entry writable images)).1 ≠ OutOfFuel.
Proof.
  unfold WriteYUVImage. unfold mbind at 1, M_bind at 1, current_image at 1.
  simpl. destruct (images !! 0%nat) as [head|] eqn:Hhead; [|done].
  destruct (sampling_factors _) as [[horizontal_factor vertical_factor]|];
    [|by rewrite ThrowWriterException_run].
  unfold mbind at 1, M_bind at 1.
  set (interlace := effective_interlace _ _).
  set (entry := writer_entry writable images).
  set (open := if decide (interlace ≠ PartitionInterlace) then _ else _).
  assert (preserves same_depths open) as Hkeep.
  { subst open. case_decide; [apply OpenBlob_write_same_depths|].
    keeps preserves_bind; [by apply assign_same_depths|]. intros _.
    apply OpenBlob_write_same_depths. }
  assert (fueled open) as Hfuel.
  { subst open. case_decide; [apply fueled_OpenBlob_write|].
    apply fueled_bind; [apply fueled_modify|]. intros _.
    apply fueled_OpenBlob_write. }
  specialize (Hkeep entry). specialize (Hfuel entry).
  destruct (open entry) as [[[]| | | |] st1]; try done.
  destruct Hkeep as [Hdepths Hposition]. simpl in *.
  apply (f_equal length) in Hdepths. rewrite !length_fmap in Hdepths.
  unfold mbind at 1, M_bind at 1, get at 1.
  unfold mbind at 1, M_bind at 1.
  apply lookup_lt_Some in Hhead.
  pose proof (fueled_frames image_info (sample_width (depth head)) interlace
    horizontal_factor vertical_factor (adjoin image_info)
    (length (ws_images st1)) st1) as Hframes.
  destruct (do_while _ _ _ st1) as [[[]| | | |] st2]; try done.
  by destruct Hframes; [lia|lia|].
Qed.
End WriterFuel.

(** ** The streams of the partition layout *)

Section Partition.
Context `{MagickCore}.

Global Instance wrote_preorder : PreOrder wrote.
Proof.
  split.
  - intros [? ? ? ? ?]. exists []. simpl. by rewrite app_nil_r.
  - intros s1 s2 s3 [rows1 ->] [rows2 ->]. exists (rows1 ++ rows2). simpl.
    by rewrite fmap_app, app_assoc.
Qed.

Lemma write_plane_wrote component quantum source :
  preserves wrote (write_plane component quantum source).
Proof.
  unfold write_plane. keeps preserves_for_rows. intros y.
  destruct (GetVirtualPixels source y); [|keeps preserves_ret].
  keeps preserves_bind; [keeps preserves_defined|]. intros bytes.
  keeps preserves_bind; [|intros ?; keeps preserves_ret].
  intros st. exists [bytes]. by destruct st.
Qed.

(** A plane that is written through leaves the state it started in with
    its rows appended to the trace. *)
Lemma write_plane_Ok component quantum source st st' :
  write_plane component quantum source st = (Ok (), st') →
  ∃ rows : list (list Z),
    st' = {| ws_writable := ws_writable st; ws_images := ws_images st;
             ws_image := ws_image st; ws_blob := ws_blob st;
             ws_trace := ws_trace st ++ (WriteBlobEvent <$> rows) |}.
Proof.
  intros Hrun. pose proof (write_plane_wrote component quantum source st) as Hw.
  by rewrite Hrun in Hw.
Qed.

(** Closing the blob, renaming the image and reopening, when it
    succeeds. *)
Lemma next_partition_Ok format st st' image :
  ws_images st !! ws_image st = Some image →
  next_partition format st = (Ok (), st') →
  st' = {| ws_writable := ws_writable st;
           ws_images := <[ws_image st :=
                           set_filename
                             (AppendImageFormat format (filename image))
                             image]> (ws_images st);
           ws_image := ws_image st;
           ws_blob := Some (AppendImageFormat format (filename image));
           ws_trace := ws_trace st ++
             [CloseBlobEvent;
              OpenBlobEvent (AppendImageFormat format (filename image))] |}.
Proof.
  intros Himage. unfold next_partition, CloseBlob_write, assign, OpenBlob_write,
    current_image, mbind, M_bind, modify, get. simpl.
  rewrite list_lookup_alter_eq, Himage. simpl.
  destruct (ws_writable st _); [|done]. intros [= <-].
  unfold ws_update. simpl. f_equal.
  - apply list_eq. intros k. destruct (decide (k = ws_image st)) as [->|Hk].
    + rewrite list_lookup_alter_eq, Himage. simpl.
      rewrite list_lookup_insert_eq; [done|]. by eapply lookup_lt_Some.
    + by rewrite list_lookup_alter_ne, list_lookup_insert_ne.
  - by rewrite <- app_assoc.
Qed.

(** The frame of the partition layout when it is encoded through: the Y
    plane goes to the blob as it is open, the U and V planes to streams
    opened in turn, each after the previous one is closed, and the image
    is left with the depth assigned and the file name of [image_info]. *)
Lemma write_frame_partition (image_info : ImageInfo) (quantum : Z)
    (horizontal_factor vertical_factor : Z) (st st' : WriterState)
    (image : Image) (continue : bool) :
  ws_images st !! ws_image st = Some image →
  write_frame image_info quantum PartitionInterlace
    horizontal_factor vertical_factor st = (Ok continue, st') →
  let name_u := AppendImageFormat "U" (filename image) in
  let name_v := AppendImageFormat "V" name_u in
  ∃ ys us vs : list (list Z),
    ws_trace st' = ws_trace st
      ++ (WriteBlobEvent <$> ys)
      ++ [CloseBlobEvent; OpenBlobEvent name_u] ++ (WriteBlobEvent <$> us)
      ++ [CloseBlobEvent; OpenBlobEvent name_v] ++ (WriteBlobEvent <$> vs) ∧
    ws_blob st' = Some name_v ∧
    ws_images st' !! ws_image st
      = Some (set_filename (info_filename image_info)
                (set_depth (if decide (quantum = 1) then 8 else 16) image)).
Proof.
  intros Himage. unfold write_frame.
  unfold mbind at 1, M_bind at 1, assign at 1, modify at 1.
  unfold mbind at 1, M_bind at 1, current_image at 1. simpl.
  rewrite list_lookup_alter_eq, Himage. simpl.
  destruct (ResizeImage _ _ _) as [yuv_image|];
    [|by rewrite ThrowWriterException_run].
  unfold mbind at 1, M_bind at 1.
  destruct (size_t_div _ horizontal_factor); unfold defined at 1; simpl;
    [|done].
  unfold mbind at 1, M_bind at 1.
  destruct (size_t_div _ vertical_factor); unfold defined at 1; simpl;
    [|done].
  destruct (ResizeImage _ _ _) as [chroma_image|];
    [|by rewrite ThrowWriterException_run].
  unfold mbind at 1, M_bind at 1. unfold mbind at 1, M_bind at 1.
  destruct (decide (PartitionInterlace = NoInterlace)); [done|].
  unfold mbind at 1, M_bind at 1.
  destruct (write_plane GetPixelRed _ _ _) as [[[]| | | |] s1] eqn:Ey;
    try done.
  apply write_plane_Ok in Ey as [ys ->].
  unfold mbind at 1, M_bind at 1.
  destruct (decide (PartitionInterlace = PartitionInterlace)); [|done].
  match goal with |- context [next_partition "U" ?s] =>
    destruct (next_partition "U" s) as [[[]| | | |] s2] eqn:Eu; try done;
    eapply next_partition_Ok in Eu;
      [|simpl; by rewrite list_lookup_alter_eq, Himage]
  end.
  simpl in Eu. subst s2.
  unfold mbind at 1, M_bind at 1.
  destruct (write_plane GetPixelGreen _ _ _) as [[[]| | | |] s3] eqn:Eus;
    try done.
  apply write_plane_Ok in Eus as [us ->]. simpl.
  unfold mbind at 1, M_bind at 1.
  destruct (decide (PartitionInterlace = PartitionInterlace)); [|done].
  match goal with |- context [next_partition "V" ?s] =>
    destruct (next_partition "V" s) as [[[]| | | |] s4] eqn:Ev; try done;
    eapply next_partition_Ok in Ev;
      [|simpl; apply list_lookup_insert_eq; rewrite length_alter;
        by eapply lookup_lt_Some]
  end.
  simpl in Ev. subst s4.
  destruct (write_plane GetPixelBlue _ _ _) as [[[]| | | |] s5] eqn:Evs;
    try done.
  apply write_plane_Ok in Evs as [vs ->]. simpl.
  destruct (decide (PartitionInterlace = PartitionInterlace)); [|done].
  unfold mbind, M_bind, assign, modify, get. simpl.
  assert (Hlen : (ws_image st < length (ws_images st))%nat)
    by by eapply lookup_lt_Some.
  case_decide; intros [= <- <-]; simpl; exists ys, us, vs;
    (split_and!; [by rewrite <- !app_assoc|done|]);
    rewrite list_lookup_alter_eq, list_lookup_insert_eq
      by (rewrite ?length_insert, ?length_alter; lia); done.
Qed.

(** One call with adjoin off in the partition layout: three streams, the
    Y, U and V streams in this order, each name AppendImageFormat of the
    name the image holds at that moment, each stream closed before the
    next is opened, and the file name of the image set back to that of
    [image_info] in the end. *)
Lemma WriteYUVImage_partition_streams (image_info : ImageInfo)
    (writable : string → bool) (images : list Image) (head : Image)
    (horizontal_factor vertical_factor : Z)
    (status : bool) (st' : WriterState) :
  images !! 0%nat = Some head →
  sampling_factors (sampling_factor image_info)
    = Some (horizontal_factor, vertical_factor) →
  effective_interlace (interlace head) vertical_factor
    = PartitionInterlace →
  adjoin image_info = false →
  WriteYUVImage image_info (writer_entry writable images)
    = (Ok status, st') →
  let name_y := AppendImageFormat "Y" (filename head) in
  let name_u := AppendImageFormat "U" name_y in
  let name_v := AppendImageFormat "V" name_u in
  ∃ ys us vs : list (list Z),
    ws_trace st'
      = [OpenBlobEvent name_y] ++ (WriteBlobEvent <$> ys)
        ++ [CloseBlobEvent; OpenBlobEvent name_u] ++ (WriteBlobEvent <$> us)
        ++ [CloseBlobEvent; OpenBlobEvent name_v] ++ (WriteBlobEvent <$> vs)
        ++ [CloseBlobEvent] ∧
    filename <$> ws_images st' !! 0%nat = Some (info_filename image_info).
Proof.
  intros Hhead Hfactors Hinterlace Hadjoin.
  unfold WriteYUVImage. unfold mbind at 1, M_bind at 1, current_image at 1.
  simpl. rewrite Hhead, Hfactors, Hinterlace.
  destruct (decide (PartitionInterlace ≠ PartitionInterlace)); [done|].
  unfold mbind at 1, M_bind at 1. unfold mbind at 1, M_bind at 1.
  unfold assign at 1, modify at 1. simpl.
  unfold OpenBlob_write at 1, current_image at 1.
  unfold mbind at 1, M_bind at 1. simpl.
  rewrite list_lookup_alter_eq, Hhead. simpl.
  unfold mbind at 1, M_bind at 1, get at 1. simpl.
  destruct (writable _); [|done]. unfold modify at 1. simpl.
  unfold mbind at 1, M_bind at 1, get at 1. simpl.
  unfold mbind at 1, M_bind at 1.
  rewrite length_alter.
  destruct (length images) as [|fuel] eqn:Hlen.
  { apply lookup_lt_Some in Hhead. lia. }
  simpl do_while. unfold mbind at 1, M_bind at 1.
  match goal with |- context [write_frame ?i ?q ?l ?h ?v ?s] =>
    destruct (write_frame i q l h v s) as [[continue| | | |] s1] eqn:Eframe;
      try done;
    eapply write_frame_partition in Eframe as (ys & us & vs & Htrace & _ & Himage);
      [|simpl; by rewrite list_lookup_alter_eq, Hhead]
  end.
  simpl in Htrace, Himage.
  unfold mbind at 1, M_bind at 1, get at 1.
  rewrite Hadjoin, andb_false_r.
  unfold mbind, M_bind, mret, M_ret, CloseBlob_write, modify. simpl.
  intros [= <- <-]. simpl. exists ys, us, vs. split.
  - rewrite Htrace. by repeat (simpl; rewrite <- app_assoc).
  - by rewrite Himage.
Qed.
End Partition.

(** C7.  Encoding two frames in the partition layout with adjoin set
    opens five streams, not six: the Y stream is opened once, before the
    frame loop, so the second frame opens a U and a V stream only and its
    Y plane is written to the stream still open, the V stream of the first
    frame.  Each new name is AppendImageFormat of the name the image holds
    at that moment.  So it is whatever AppendImageFormat computes. *)
Theorem partition_second_frame_opens_two_streams :
  ∀ append : string → string → string,
    let run := WriteYUVImage (H := Reference.Q16_with append)
                 Examples.partition_info
                 (writer_entry (λ _, true)
                    [Examples.partition_frame; Examples.partition_frame]) in
    run.1 = Ok true ∧
    ws_trace run.2
      = [OpenBlobEvent (append "Y" "frame.yuv");
         WriteBlobEvent [1; 2]; WriteBlobEvent [5; 6]; CloseBlobEvent;
         OpenBlobEvent (append "U" (append "Y" "frame.yuv"));
         WriteBlobEvent [3]; CloseBlobEvent;
         OpenBlobEvent (append "V" (append "U" (append "Y" "frame.yuv")));
         WriteBlobEvent [4];
         WriteBlobEvent [1; 2]; WriteBlobEvent [5; 6]; CloseBlobEvent;
         OpenBlobEvent (append "U" "frame.yuv");
         WriteBlobEvent [3]; CloseBlobEvent;
         OpenBlobEvent (append "V" (append "U" "frame.yuv"));
         WriteBlobEvent [4]; CloseBlobEvent] ∧
    length (opened (ws_trace run.2)) = 5%nat ∧
    filename <$> ws_images run.2 = ["frame.yuv"; "frame.yuv"].
Proof.
  intros append. cbv zeta. split_and!; vm_compute; reflexivity.
Qed.

(** One frame in the partition layout: three streams, each opened after
    the one before is closed, and the file name of the image restored. *)
Lemma partition_single_frame :
  ∀ append : string → string → string,
    let run := WriteYUVImage (H := Reference.Q16_with append)
                 Examples.partition_info
                 (writer_entry (λ _, true) [Examples.partition_frame]) in
    run.1 = Ok true ∧
    ws_trace run.2
      = [OpenBlobEvent (append "Y" "frame.yuv");
         WriteBlobEvent [1; 2]; WriteBlobEvent [5; 6]; CloseBlobEvent;
         OpenBlobEvent (append "U" (append "Y" "frame.yuv"));
         WriteBlobEvent [3]; CloseBlobEvent;
         OpenBlobEvent (append "V" (append "U" (append "Y" "frame.yuv")));
         WriteBlobEvent [4]; CloseBlobEvent] ∧
    filename <$> ws_images run.2 = ["frame.yuv"].
Proof.
  intros append. cbv zeta. split_and!; vm_compute; reflexivity.
Qed.

(** Rewrite the lookups in updated rows. *)
Ltac slots :=
  repeat first
    [ rewrite list_lookup_insert_eq by (rewrite ?length_insert; lia)
    | rewrite list_lookup_insert_ne by (try lia; try nia) ].

Section PlaneDecoders.
Context `{MagickCore}.

(** Two slots of different pixels are different quantums of the row. *)
Lemma pixel_slot_ne (x k a b : nat) :
  x ≠ k → (a < GetPixelChannels)%nat → (b < GetPixelChannels)%nat →
  (x * GetPixelChannels + a ≠ k * GetPixelChannels + b)%nat.
Proof. intros Hxk Ha Hb. nia. Qed.

Lemma slot_mod_ne (i k c : nat) :
  (c < GetPixelChannels)%nat → (i mod GetPixelChannels)%nat ≠ c →
  i ≠ (k * GetPixelChannels + c)%nat.
Proof. intros Hc Hi ->. by rewrite component_mod in Hi. Qed.

Lemma sample_at_in_range (quantum : Z) (scanline : list Z) (k : nat) :
  quantum = 1 ∨ quantum = 2 →
  (S k * Z.to_nat quantum ≤ length scanline)%nat →
  ∃ value,
    next_sample quantum scanline (k * Z.to_nat quantum)
      = Some (value, (S k * Z.to_nat quantum)%nat) ∧
    sample_at quantum scanline k = Some value.
Proof.
  intros Hquantum Hk.
  destruct (next_sample_in_range quantum scanline (k * Z.to_nat quantum))
    as [value Hvalue]; [done|lia|].
  exists value. unfold sample_at. rewrite Hvalue. split; [|done].
  do 2 f_equal. lia.
Qed.

(** The luma pass over a plane scanline (lines 290-302). *)
Lemma decode_luma_pass (quantum row_columns : Z) (scanline : list Z)
    (row : PixelRow) :
  component_map_wf component_map →
  quantum = 1 ∨ quantum = 2 →
  0 ≤ row_columns →
  length row = (Z.to_nat row_columns * GetPixelChannels)%nat →
  (Z.to_nat row_columns * Z.to_nat quantum ≤ length scanline)%nat →
  ∃ row',
    decode_plane_row decode_luma quantum row_columns scanline row
      = Some row' ∧
    length row' = length row ∧
    (∀ x : nat, (x < Z.to_nat row_columns)%nat →
       GetPixelRed row' (x * GetPixelChannels)
         = sample_at quantum scanline x ∧
       GetPixelGreen row' (x * GetPixelChannels) = Some 0 ∧
       GetPixelBlue row' (x * GetPixelChannels) = Some 0) ∧
    (∀ i : nat,
       (i mod GetPixelChannels)%nat ≠ RedPixelComponent component_map →
       (i mod GetPixelChannels)%nat ≠ GreenPixelComponent component_map →
       (i mod GetPixelChannels)%nat ≠ BluePixelComponent component_map →
       row' !! i = row !! i).
Proof.
  intros (Hr & Hg & Hb & Hrg & Hrb & Hgb) Hquantum Hcolumns Hrow Hscanline.
  fold GetPixelChannels in Hr, Hg, Hb.
  unfold decode_plane_row, for_loop.
  edestruct (for_fuel_total
    (λ x c, ∃ k : nat, x = Z.of_nat k ∧ (k ≤ Z.to_nat row_columns)%nat ∧
       pc_p c = (k * Z.to_nat quantum)%nat ∧
       pc_q c = (k * GetPixelChannels)%nat ∧
       length (pc_row c) = length row ∧
       (∀ j : nat, (j < k)%nat →
          GetPixelRed (pc_row c) (j * GetPixelChannels)
            = sample_at quantum scanline j ∧
          GetPixelGreen (pc_row c) (j * GetPixelChannels) = Some 0 ∧
          GetPixelBlue (pc_row c) (j * GetPixelChannels) = Some 0) ∧
       (∀ i : nat,
          (i mod GetPixelChannels)%nat ≠ RedPixelComponent component_map →
          (i mod GetPixelChannels)%nat ≠ GreenPixelComponent component_map →
          (i mod GetPixelChannels)%nat ≠ BluePixelComponent component_map →
          pc_row c !! i = row !! i))
    (λ _, decode_luma quantum scanline) row_columns 1)
    as (x' & c' & -> & Hx' & k & -> & Hk & _ & _ & Hlen & Hdone & Hrest);
    [lia| | |lia|].
  - intros x c (k & -> & Hk & Hp & Hq & Hlen & Hdone & Hrest) Hx.
    destruct (sample_at_in_range quantum scanline k)
      as (value & Hvalue & Hsample); [done|nia|].
    unfold decode_luma, SetPixelRed, SetPixelGreen, SetPixelBlue.
    rewrite Hp, Hq, Hvalue. simpl.
    assert (S k * GetPixelChannels ≤ length (pc_row c))%nat
      by (rewrite Hlen, Hrow; nia).
    stores. eexists. split; [done|]. exists (S k). simpl.
    split_and!; [lia|lia|done|lia|by rewrite !length_insert| |].
    + intros j Hj. unfold GetPixelRed, GetPixelGreen, GetPixelBlue.
      destruct (decide (j = k)) as [->|Hne].
      * slots. by rewrite Hsample.
      * rewrite !list_lookup_insert_ne by (apply pixel_slot_ne; done).
        apply Hdone. lia.
    + intros i Hir Hig Hib.
      rewrite !list_lookup_insert_ne by (symmetry; by apply slot_mod_ne).
      by apply Hrest.
  - exists 0%nat. simpl. split_and!; try done; try lia.
  - simpl. exists (pc_row c'). split_and!; [done|done| |done].
    intros x Hx. apply Hdone. lia.
Qed.

(** The U pass over a scanline of the U plane (lines 338-351). *)
Lemma decode_u_pass (quantum row_columns : Z) (scanline : list Z)
    (row : PixelRow) :
  component_map_wf component_map →
  quantum = 1 ∨ quantum = 2 →
  0 ≤ row_columns →
  length row = (Z.to_nat row_columns * GetPixelChannels)%nat →
  (Z.to_nat row_columns * Z.to_nat quantum ≤ length scanline)%nat →
  ∃ row',
    decode_plane_row decode_u quantum row_columns scanline row = Some row' ∧
    length row' = length row ∧
    (∀ x : nat, (x < Z.to_nat row_columns)%nat →
       GetPixelRed row' (x * GetPixelChannels) = Some 0 ∧
       GetPixelGreen row' (x * GetPixelChannels)
         = sample_at quantum scanline x ∧
       GetPixelBlue row' (x * GetPixelChannels) = Some 0) ∧
    (∀ i : nat,
       (i mod GetPixelChannels)%nat ≠ RedPixelComponent component_map →
       (i mod GetPixelChannels)%nat ≠ GreenPixelComponent component_map →
       (i mod GetPixelChannels)%nat ≠ BluePixelComponent component_map →
       row' !! i = row !! i).
Proof.
  intros (Hr & Hg & Hb & Hrg & Hrb & Hgb) Hquantum Hcolumns Hrow Hscanline.
  fold GetPixelChannels in Hr, Hg, Hb.
  unfold decode_plane_row, for_loop.
  edestruct (for_fuel_total
    (λ x c, ∃ k : nat, x = Z.of_nat k ∧ (k ≤ Z.to_nat row_columns)%nat ∧
       pc_p c = (k * Z.to_nat quantum)%nat ∧
       pc_q c = (k * GetPixelChannels)%nat ∧
       length (pc_row c) = length row ∧
       (∀ j : nat, (j < k)%nat →
          GetPixelRed (pc_row c) (j * GetPixelChannels) = Some 0 ∧
          GetPixelGreen (pc_row c) (j * GetPixelChannels)
            = sample_at quantum scanline j ∧
          GetPixelBlue (pc_row c) (j * GetPixelChannels) = Some 0) ∧
       (∀ i : nat,
          (i mod GetPixelChannels)%nat ≠ RedPixelComponent component_map →
          (i mod GetPixelChannels)%nat ≠ GreenPixelComponent component_map →
          (i mod GetPixelChannels)%nat ≠ BluePixelComponent component_map →
          pc_row c !! i = row !! i))
    (λ _, decode_u quantum scanline) row_columns 1)
    as (x' & c' & -> & Hx' & k & -> & Hk & _ & _ & Hlen & Hdone & Hrest);
    [lia| | |lia|].
  - intros x c (k & -> & Hk & Hp & Hq & Hlen & Hdone & Hrest) Hx.
    destruct (sample_at_in_range quantum scanline k)
      as (value & Hvalue & Hsample); [done|nia|].
    unfold decode_u, SetPixelRed, SetPixelGreen, SetPixelBlue.
    rewrite Hp, Hq, Hvalue.
    assert (S k * GetPixelChannels ≤ length (pc_row c))%nat
      by (rewrite Hlen, Hrow; nia).
    stores. eexists. split; [done|]. exists (S k). simpl.
    split_and!; [lia|lia|done|lia|by rewrite !length_insert| |].
    + intros j Hj. unfold GetPixelRed, GetPixelGreen, GetPixelBlue.
      destruct (decide (j = k)) as [->|Hne].
      * slots. by rewrite Hsample.
      * rewrite !list_lookup_insert_ne by (apply pixel_slot_ne; done).
        apply Hdone. lia.
    + intros i Hir Hig Hib.
      rewrite !list_lookup_insert_ne by (symmetry; by apply slot_mod_ne).
      by apply Hrest.
  - exists 0%nat. simpl. split_and!; try done; try lia.
  - simpl. exists (pc_row c'). split_and!; [done|done| |done].
    intros x Hx. apply Hdone. lia.
Qed.

(** The V pass over a scanline of the V plane (lines 374-385): the blue
    samples are stored and nothing else of the row is touched. *)
Lemma decode_v_pass (quantum row_columns : Z) (scanline : list Z)
    (row : PixelRow) :
  component_map_wf component_map →
  quantum = 1 ∨ quantum = 2 →
  0 ≤ row_columns →
  length row = (Z.to_nat row_columns * GetPixelChannels)%nat →
  (Z.to_nat row_columns * Z.to_nat quantum ≤ length scanline)%nat →
  ∃ row',
    decode_plane_row decode_v quantum row_columns scanline row = Some row' ∧
    length row' = length row ∧
    (∀ x : nat, (x < Z.to_nat row_columns)%nat →
       GetPixelBlue row' (x * GetPixelChannels)
         = sample_at quantum scanline x) ∧
    (∀ i : nat,
       (i mod GetPixelChannels)%nat ≠ BluePixelComponent component_map →
       row' !! i = row !! i).
Proof.
  intros (Hr & Hg & Hb & Hrg & Hrb & Hgb) Hquantum Hcolumns Hrow Hscanline.
  fold GetPixelChannels in Hr, Hg, Hb.
  unfold decode_plane_row, for_loop.
  edestruct (for_fuel_total
    (λ x c, ∃ k : nat, x = Z.of_nat k ∧ (k ≤ Z.to_nat row_columns)%nat ∧
       pc_p c = (k * Z.to_nat quantum)%nat ∧
       pc_q c = (k * GetPixelChannels)%nat ∧
       length (pc_row c) = length row ∧
       (∀ j : nat, (j < k)%nat →
          GetPixelBlue (pc_row c) (j * GetPixelChannels)
            = sample_at quantum scanline j) ∧
       (∀ i : nat,
          (i mod GetPixelChannels)%nat ≠ BluePixelComponent component_map →
          pc_row c !! i = row !! i))
    (λ _, decode_v quantum scanline) row_columns 1)
    as (x' & c' & -> & Hx' & k & -> & Hk & _ & _ & Hlen & Hdone & Hrest);
    [lia| | |lia|].
  - intros x c (k & -> & Hk & Hp & Hq & Hlen & Hdone & Hrest) Hx.
    destruct (sample_at_in_range quantum scanline k)
      as (value & Hvalue & Hsample); [done|nia|].
    unfold decode_v, SetPixelBlue.
    rewrite Hp, Hq, Hvalue. simpl.
    assert (S k * GetPixelChannels ≤ length (pc_row c))%nat
      by (rewrite Hlen, Hrow; nia).
    stores. eexists. split; [done|]. exists (S k). simpl.
    split_and!; [lia|lia|done|lia|by rewrite !length_insert| |].
    + intros j Hj. unfold GetPixelBlue.
      destruct (decide (j = k)) as [->|Hne].
      * slots. by rewrite Hsample.
      * rewrite !list_lookup_insert_ne by (apply pixel_slot_ne; done).
        apply Hdone. lia.
    + intros i Hib.
      rewrite !list_lookup_insert_ne by (symmetry; by apply slot_mod_ne).
      by apply Hrest.
  - exists 0%nat. simpl. split_and!; try done; try lia.
  - simpl. exists (pc_row c'). split_and!; [done|done| |done].
    intros x Hx. apply Hdone. lia.
Qed.
End PlaneDecoders.

(** Consecutive chunks of a list, joined, are a prefix of the list. *)
Lemma join_chunks {A} (l : list A) (size n : nat) :
  (n * size ≤ length l)%nat →
  mjoin ((λ x, take size (drop (x * size) l)) <$> seq 0 n)
  = take (n * size) l.
Proof.
  induction n as [|n IH]; intros Hn; [done|].
  rewrite seq_S, fmap_app, join_app, IH by lia. simpl.
  rewrite app_nil_r, take_take_drop. f_equal. lia.
Qed.

Section PlaneEncoders.
Context `{MagickCore}.

Lemma sample_bytes_length (quantum : Z) (value : Quantum) :
  quantum = 1 ∨ quantum = 2 →
  length (sample_bytes quantum value) = Z.to_nat quantum.
Proof. by intros [-> | ->]. Qed.

(** A sample read from bytes is written back as the bytes it was read
    from. *)
Lemma sample_bytes_sample_at (quantum : Z) (scanline : list Z) (k : nat)
    (value : Quantum) :
  quantum = 1 ∨ quantum = 2 →
  Forall (λ b, 0 ≤ b ≤ 255) scanline →
  sample_at quantum scanline k = Some value →
  sample_bytes quantum value
  = take (Z.to_nat quantum) (drop (k * Z.to_nat quantum) scanline).
Proof.
  pose proof QuantumRange_full as HR.
  intros Hquantum Hbytes. unfold sample_at, next_sample, sample_bytes.
  destruct Hquantum as [-> | ->]; simpl.
  - destruct (scanline !! _) as [b|] eqn:Eb; simpl; [|discriminate].
    intros [= <-].
    pose proof (Forall_lookup_1 _ _ _ _ Hbytes Eb) as Hb. simpl in Hb.
    rewrite (drop_S _ _ _ Eb). simpl. rewrite take_0.
    unfold ScaleQuantumToChar, ScaleCharToQuantum.
    rewrite rescale_round_trip by lia. unfold WriteBlobByte.
    by rewrite Z.mod_small by lia.
  - destruct (scanline !! (k * _)%nat) as [b0|] eqn:E0; simpl;
      [|discriminate].
    destruct (scanline !! S _) as [b1|] eqn:E1; simpl; [|discriminate].
    intros [= <-].
    pose proof (Forall_lookup_1 _ _ _ _ Hbytes E0) as H0.
    pose proof (Forall_lookup_1 _ _ _ _ Hbytes E1) as H1. simpl in H0, H1.
    rewrite (drop_S _ _ _ E0), (drop_S _ _ _ E1).
    change (Pos.to_nat 2) with 2%nat. simpl. rewrite take_0.
    unfold ScaleQuantumToShort, ScaleShortToQuantum.
    rewrite short_of_bytes_split by done.
    rewrite rescale_round_trip by lia.
    by apply WriteBlobShort_bytes.
Qed.

(** The bytes of a plane scanline: the samples of the component, pixel
    after pixel. *)
Lemma encode_plane_row_spec
    (component : PixelRow → nat → option Quantum)
    (quantum row_columns : Z) (row : PixelRow) (value : nat → Quantum) :
  0 ≤ row_columns →
  (∀ x : nat, (x < Z.to_nat row_columns)%nat →
     component row (x * GetPixelChannels)%nat = Some (value x)) →
  encode_plane_row component quantum row_columns row
  = Some (mjoin ((λ x, sample_bytes quantum (value x))
                 <$> seq 0 (Z.to_nat row_columns))).
Proof.
  intros Hcolumns Hvalue. unfold encode_plane_row, for_loop.
  edestruct (for_fuel_total
    (λ x c, ∃ k : nat, x = Z.of_nat k ∧ (k ≤ Z.to_nat row_columns)%nat ∧
       pe_p c = (k * GetPixelChannels)%nat ∧
       pe_bytes c
         = mjoin ((λ x, sample_bytes quantum (value x)) <$> seq 0 k))
    (λ _, encode_sample component quantum row) row_columns 1)
    as (x' & c' & -> & Hx' & k & -> & Hk & _ & Hbytes); [lia| | |lia|].
  - intros x c (k & -> & Hk & Hp & Hbytes) Hx.
    unfold encode_sample. rewrite Hp, Hvalue by lia. simpl.
    eexists. split; [done|]. exists (S k).
    split_and!; [lia|lia|simpl; lia|].
    cbn [pe_bytes]. rewrite Hbytes, seq_S, fmap_app, join_app. simpl.
    by rewrite app_nil_r.
  - exists 0%nat. split_and!; [done|lia|done|done].
  - simpl. rewrite Hbytes. by replace (Z.to_nat row_columns) with k by lia.
Qed.

Lemma encode_plane_row_length
    (component : PixelRow → nat → option Quantum)
    (quantum row_columns : Z) (row : PixelRow) (bytes : list Z) :
  quantum = 1 ∨ quantum = 2 → 0 ≤ row_columns →
  encode_plane_row component quantum row_columns row = Some bytes →
  length bytes = (Z.to_nat row_columns * Z.to_nat quantum)%nat.
Proof.
  intros Hquantum Hcolumns. unfold encode_plane_row, for_loop.
  destruct (for_fuel _ _ _ _ _ _) as [c|] eqn:E; simpl; [|done].
  intros [= <-].
  apply (for_fuel_invariant_indexed
    (λ x c, ∃ k : nat, x = Z.of_nat k ∧
       length (pe_bytes c) = (k * Z.to_nat quantum)%nat))
    in E as (x' & Hx' & Hlast & k & -> & Hlen); [|lia| |].
  - rewrite Hlen. f_equal. lia.
  - intros x s s' (k & -> & Hlen) Hx. unfold encode_sample.
    destruct (component _ _) as [value|]; simpl; [|done].
    intros [= <-]. exists (S k). split; [lia|]. simpl.
    rewrite length_app, Hlen, sample_bytes_length by done. lia.
  - exists 0%nat. by split.
Qed.
End PlaneEncoders.

Section PlaneRows.
Context `{MagickCore}.

(** X1.  The plane decoders put every sample in its own pixel.  A luma
    scanline of [row_columns] samples decoded into a row of [row_columns]
    pixels leaves, in pixel [x], the [x]-th sample of the scanline as the
    red sample and 0 as the green and blue samples.  A U scanline and then
    a V scanline decoded into one chroma row leave, in pixel [x], 0 as the
    red sample, the [x]-th U sample as the green sample and the [x]-th V
    sample as the blue sample: the V pass does not disturb what the U pass
    stored.  No pass reads or writes outside its arrays, and no pass
    touches a quantum that is not a red, green or blue sample. *)
Theorem plane_decoders_place_samples (quantum row_columns : Z)
    (scanline u_scanline v_scanline : list Z) (row : PixelRow) :
  component_map_wf component_map →
  quantum = 1 ∨ quantum = 2 →
  0 ≤ row_columns →
  length row = (Z.to_nat row_columns * GetPixelChannels)%nat →
  (Z.to_nat row_columns * Z.to_nat quantum ≤ length scanline)%nat →
  (Z.to_nat row_columns * Z.to_nat quantum ≤ length u_scanline)%nat →
  (Z.to_nat row_columns * Z.to_nat quantum ≤ length v_scanline)%nat →
  let untouched (row' : PixelRow) :=
    ∀ i : nat,
      (i mod GetPixelChannels)%nat ≠ RedPixelComponent component_map →
      (i mod GetPixelChannels)%nat ≠ GreenPixelComponent component_map →
      (i mod GetPixelChannels)%nat ≠ BluePixelComponent component_map →
      row' !! i = row !! i in
  (∃ luma,
     decode_plane_row decode_luma quantum row_columns scanline row
       = Some luma ∧
     length luma = length row ∧
     (∀ x : nat, (x < Z.to_nat row_columns)%nat →
        is_Some (sample_at quantum scanline x) ∧
        GetPixelRed luma (x * GetPixelChannels)
          = sample_at quantum scanline x ∧
        GetPixelGreen luma (x * GetPixelChannels) = Some 0 ∧
        GetPixelBlue luma (x * GetPixelChannels) = Some 0) ∧
     untouched luma) ∧
  (∃ chroma_u chroma,
     decode_plane_row decode_u quantum row_columns u_scanline row
       = Some chroma_u ∧
     decode_plane_row decode_v quantum row_columns v_scanline chroma_u
       = Some chroma ∧
     length chroma = length row ∧
     (∀ x : nat, (x < Z.to_nat row_columns)%nat →
        is_Some (sample_at quantum u_scanline x) ∧
        is_Some (sample_at quantum v_scanline x) ∧
        GetPixelRed chroma (x * GetPixelChannels) = Some 0 ∧
        GetPixelGreen chroma (x * GetPixelChannels)
          = sample_at quantum u_scanline x ∧
        GetPixelBlue chroma (x * GetPixelChannels)
          = sample_at quantum v_scanline x) ∧
     untouched chroma).
Proof.
  intros Hwf Hquantum Hcolumns Hrow Hy Hu Hv untouched.
  assert (∀ (bytes : list Z) (x : nat),
            (Z.to_nat row_columns * Z.to_nat quantum ≤ length bytes)%nat →
            (x < Z.to_nat row_columns)%nat →
            is_Some (sample_at quantum bytes x)) as Hsome.
  { intros bytes x Hbytes Hx.
    destruct (sample_at_in_range quantum bytes x) as (v & _ & ->);
      [done|nia|done]. }
  split.
  - destruct (decode_luma_pass quantum row_columns scanline row)
      as (luma & Hluma & Hlen & Hpixels & Hrest); [done..|].
    exists luma. split_and!; [done..| |done].
    intros x Hx. split; [by apply Hsome|by apply Hpixels].
  - destruct (decode_u_pass quantum row_columns u_scanline row)
      as (chroma_u & Hrun_u & Hlen_u & Hpixels_u & Hrest_u); [done..|].
    destruct (decode_v_pass quantum row_columns v_scanline chroma_u)
      as (chroma & Hrun_v & Hlen_v & Hpixels_v & Hrest_v);
      [done|done|done|congruence|done|].
    exists chroma_u, chroma. split_and!; [done|done|congruence| |].
    + intros x Hx. destruct (Hpixels_u x Hx) as (Hred & Hgreen & _).
      destruct Hwf as (Hr & Hg & Hb & Hrg & Hrb & Hgb).
      fold GetPixelChannels in Hr, Hg, Hb.
      split_and!; [by apply Hsome|by apply Hsome| | |by apply Hpixels_v].
      * unfold GetPixelRed in *. rewrite Hrest_v; [done|].
        by rewrite component_mod.
      * unfold GetPixelGreen in *. rewrite Hrest_v; [done|].
        by rewrite component_mod.
    + intros i Hir Hig Hib. rewrite Hrest_v by done. by apply Hrest_u.
Qed.

(** X2.  The bytes of a plane scanline.  For a row of [row_columns]
    pixels the plane encoder succeeds, and the scanline it writes is the
    red (or green, or blue) sample of pixel 0, of pixel 1, and so on, each
    in [quantum] bytes: one byte through ScaleQuantumToChar at sample width
    1, two bytes, most significant first, through ScaleQuantumToShort at
    sample width 2.  A scanline is [row_columns * quantum] bytes long. *)
Theorem encode_plane_row_bytes (quantum row_columns : Z) (row : PixelRow) :
  component_map_wf component_map →
  quantum = 1 ∨ quantum = 2 →
  0 ≤ row_columns →
  length row = (Z.to_nat row_columns * GetPixelChannels)%nat →
  let samples (slot : nat) :=
    mjoin ((λ x, sample_bytes quantum
                   (row !!! (x * GetPixelChannels + slot)%nat))
           <$> seq 0 (Z.to_nat row_columns)) in
  encode_plane_row GetPixelRed quantum row_columns row
    = Some (samples (RedPixelComponent component_map)) ∧
  encode_plane_row GetPixelGreen quantum row_columns row
    = Some (samples (GreenPixelComponent component_map)) ∧
  encode_plane_row GetPixelBlue quantum row_columns row
    = Some (samples (BluePixelComponent component_map)) ∧
  ∀ slot, length (samples slot)
          = (Z.to_nat row_columns * Z.to_nat quantum)%nat.
Proof.
  intros (Hr & Hg & Hb & _) Hquantum Hcolumns Hrow samples.
  fold GetPixelChannels in Hr, Hg, Hb.
  assert (∀ slot x : nat, (slot < GetPixelChannels)%nat →
            (x < Z.to_nat row_columns)%nat →
            row !! (x * GetPixelChannels + slot)%nat
            = Some (row !!! (x * GetPixelChannels + slot)%nat)) as Hin.
  { intros slot x Hslot Hx. apply list_lookup_lookup_total_lt.
    rewrite Hrow. nia. }
  split_and!.
  - apply encode_plane_row_spec; [done|]. intros x Hx. by apply Hin.
  - apply encode_plane_row_spec; [done|]. intros x Hx. by apply Hin.
  - apply encode_plane_row_spec; [done|]. intros x Hx. by apply Hin.
  - intros slot. unfold samples.
    generalize (Z.to_nat row_columns) as n. intros n.
    induction n as [|n IH]; [done|].
    rewrite seq_S, fmap_app, join_app, length_app, IH. simpl.
    rewrite app_nil_r, sample_bytes_length by done. lia.
Qed.

(** X3.  A plane scanline that is decoded and encoded again comes out
    byte for byte: decoding the first [row_columns * quantum] bytes of a
    scanline into a row with the luma decoder and encoding the red samples
    of that row gives these bytes back, and so do the U decoder with the
    green samples and the V decoder with the blue samples. *)
Theorem plane_row_round_trip (quantum row_columns : Z)
    (scanline : list Z) (row : PixelRow) :
  component_map_wf component_map →
  quantum = 1 ∨ quantum = 2 →
  0 ≤ row_columns →
  length row = (Z.to_nat row_columns * GetPixelChannels)%nat →
  (Z.to_nat row_columns * Z.to_nat quantum ≤ length scanline)%nat →
  Forall (λ b, 0 ≤ b ≤ 255) scanline →
  let round_trip sample component :=
    decode_plane_row sample quantum row_columns scanline row
      ≫= encode_plane_row component quantum row_columns
    = Some (take (Z.to_nat row_columns * Z.to_nat quantum) scanline) in
  round_trip decode_luma GetPixelRed ∧
  round_trip decode_u GetPixelGreen ∧
  round_trip decode_v GetPixelBlue.
Proof.
  intros Hwf Hquantum Hcolumns Hrow Hscanline Hbytes round_trip.
  assert (∀ (component : PixelRow → nat → option Quantum) (row' : PixelRow),
            (∀ x : nat, (x < Z.to_nat row_columns)%nat →
               component row' (x * GetPixelChannels)%nat
               = sample_at quantum scanline x) →
            encode_plane_row component quantum row_columns row'
            = Some (take (Z.to_nat row_columns * Z.to_nat quantum) scanline))
    as Hencode.
  { intros component row' Hsamples.
    rewrite (encode_plane_row_spec component quantum row_columns row'
               (λ x, default 0 (sample_at quantum scanline x)));
      [|done|].
    - f_equal. rewrite <- join_chunks by done. f_equal.
      apply list_fmap_ext. intros i x [-> Hx]%lookup_seq. simpl.
      destruct (sample_at_in_range quantum scanline i)
        as (value & _ & Hvalue); [done|nia|].
      rewrite Hvalue. simpl. by eapply sample_bytes_sample_at.
    - intros x Hx. rewrite Hsamples by done.
      destruct (sample_at_in_range quantum scanline x)
        as (value & _ & ->); [done|nia|done]. }
  unfold round_trip. split_and!.
  - destruct (decode_luma_pass quantum row_columns scanline row)
      as (row' & -> & _ & Hpixels & _); [done..|]. simpl.
    apply Hencode. intros x Hx. by apply Hpixels.
  - destruct (decode_u_pass quantum row_columns scanline row)
      as (row' & -> & _ & Hpixels & _); [done..|]. simpl.
    apply Hencode. intros x Hx. by apply Hpixels.
  - destruct (decode_v_pass quantum row_columns scanline row)
      as (row' & -> & _ & Hpixels & _); [done..|]. simpl.
    apply Hencode. intros x Hx. by apply Hpixels.
Qed.
End PlaneRows.

Lemma plane_decoders_place_samples_witness :
  let untouched (row' : list Z) :=
    ∀ i : nat, (i mod 4)%nat ≠ 0%nat → (i mod 4)%nat ≠ 1%nat →
               (i mod 4)%nat ≠ 2%nat → row' !! i = replicate 8 7 !! i in
  (component_map_wf (component_map (MagickCore := Reference.Q16)) ∧
   (2 = 1 ∨ 2 = 2) ∧ 0 ≤ 2 ∧
   length (replicate 8 7) = (Z.to_nat 2 * 4)%nat ∧
   (Z.to_nat 2 * Z.to_nat 2 ≤ length [1; 2; 3; 4])%nat ∧
   (Z.to_nat 2 * Z.to_nat 2 ≤ length [5; 6; 7; 8])%nat ∧
   (Z.to_nat 2 * Z.to_nat 2 ≤ length [9; 10; 11; 12])%nat) ∧
  (∃ luma,
     decode_plane_row (decode_luma (H := Reference.Q16)) 2 2 [1; 2; 3; 4]
       (replicate 8 7) = Some luma ∧
     length luma = length (replicate 8 7) ∧
     (∀ x : nat, (x < Z.to_nat 2)%nat →
        is_Some (sample_at (H := Reference.Q16) 2 [1; 2; 3; 4] x) ∧
        GetPixelRed (H := Reference.Q16) luma (x * 4)
          = sample_at (H := Reference.Q16) 2 [1; 2; 3; 4] x ∧
        GetPixelGreen (H := Reference.Q16) luma (x * 4) = Some 0 ∧
        GetPixelBlue (H := Reference.Q16) luma (x * 4) = Some 0) ∧
     untouched luma) ∧
  (∃ chroma_u chroma,
     decode_plane_row (decode_u (H := Reference.Q16)) 2 2 [5; 6; 7; 8]
       (replicate 8 7) = Some chroma_u ∧
     decode_plane_row (decode_v (H := Reference.Q16)) 2 2 [9; 10; 11; 12]
       chroma_u = Some chroma ∧
     length chroma = length (replicate 8 7) ∧
     (∀ x : nat, (x < Z.to_nat 2)%nat →
        is_Some (sample_at (H := Reference.Q16) 2 [5; 6; 7; 8] x) ∧
        is_Some (sample_at (H := Reference.Q16) 2 [9; 10; 11; 12] x) ∧
        GetPixelRed (H := Reference.Q16) chroma (x * 4) = Some 0 ∧
        GetPixelGreen (H := Reference.Q16) chroma (x * 4)
          = sample_at (H := Reference.Q16) 2 [5; 6; 7; 8] x ∧
        GetPixelBlue (H := Reference.Q16) chroma (x * 4)
          = sample_at (H := Reference.Q16) 2 [9; 10; 11; 12] x) ∧
     untouched chroma).
Proof.
  intros untouched. split.
  - split_and!; [exact Q16_component_map_wf|by right|lia|done|simpl; lia..].
  - apply (plane_decoders_place_samples (H := Reference.Q16) 2 2
             [1; 2; 3; 4] [5; 6; 7; 8] [9; 10; 11; 12] (replicate 8 7));
      [exact Q16_component_map_wf|by right|lia|done|simpl; lia..].
Defined.

Lemma encode_plane_row_bytes_witness :
  let row := [257; 771; 1028; 0; 514; 1285; 1542; 0] in
  let samples (slot : nat) :=
    mjoin ((λ x, sample_bytes (H := Reference.Q16) 1
                   (row !!! (x * 4 + slot)%nat))
           <$> seq 0 (Z.to_nat 2)) in
  (component_map_wf (component_map (MagickCore := Reference.Q16)) ∧
   (1 = 1 ∨ 1 = 2) ∧ 0 ≤ 2 ∧ length row = (Z.to_nat 2 * 4)%nat) ∧
  encode_plane_row (H := Reference.Q16) (GetPixelRed (H := Reference.Q16))
    1 2 row
    = Some (samples 0%nat) ∧
  encode_plane_row (H := Reference.Q16)
    (GetPixelGreen (H := Reference.Q16)) 1 2 row
    = Some (samples 1%nat) ∧
  encode_plane_row (H := Reference.Q16)
    (GetPixelBlue (H := Reference.Q16)) 1 2 row
    = Some (samples 2%nat) ∧
  ∀ slot, length (samples slot) = (Z.to_nat 2 * Z.to_nat 1)%nat.
Proof.
  intros row samples. split.
  - split_and!; [exact Q16_component_map_wf|by left|lia|done].
  - apply (encode_plane_row_bytes (H := Reference.Q16) 1 2 row);
      [exact Q16_component_map_wf|by left|lia|done].
Defined.

Lemma plane_row_round_trip_witness :
  let scanline := [18; 52; 86; 120; 154; 188] in
  let round_trip sample component :=
    decode_plane_row sample 2 3 scanline
      (replicate 12 0)
      ≫= encode_plane_row (H := Reference.Q16) component 2 3
    = Some (take (Z.to_nat 3 * Z.to_nat 2) scanline) in
  (component_map_wf (component_map (MagickCore := Reference.Q16)) ∧
   (2 = 1 ∨ 2 = 2) ∧ 0 ≤ 3 ∧
   length (replicate 12 0) = (Z.to_nat 3 * 4)%nat ∧
   (Z.to_nat 3 * Z.to_nat 2 ≤ length scanline)%nat ∧
   Forall (λ b, 0 ≤ b ≤ 255) scanline) ∧
  round_trip (decode_luma (H := Reference.Q16))
    (GetPixelRed (H := Reference.Q16)) ∧
  round_trip (decode_u (H := Reference.Q16))
    (GetPixelGreen (H := Reference.Q16)) ∧
  round_trip (decode_v (H := Reference.Q16))
    (GetPixelBlue (H := Reference.Q16)).
Proof.
  intros scanline round_trip.
  assert (Forall (λ b, 0 ≤ b ≤ 255) scanline) as Hbytes
    by (repeat constructor; lia).
  split.
  - split_and!;
      [exact Q16_component_map_wf|by right|lia|done|simpl; lia|done].
  - apply (plane_row_round_trip (H := Reference.Q16) 2 3 scanline
             (replicate 12 0));
      [exact Q16_component_map_wf|by right|lia|done|simpl; lia|done].
Defined.

Section MergeRow.
Context `{MagickCore}.

(** The merge loop over one row (lines 406-412). *)
Lemma merge_row_spec (image_columns : Z)
    (chroma_row row : PixelRow) :
  component_map_wf component_map →
  0 ≤ image_columns →
  length row = (Z.to_nat image_columns * GetPixelChannels)%nat →
  (Z.to_nat image_columns * GetPixelChannels ≤ length chroma_row)%nat →
  ∃ row',
    merge_row image_columns chroma_row row = Some row' ∧
    length row' = length row ∧
    (∀ x : nat, (x < Z.to_nat image_columns)%nat →
       is_Some (GetPixelGreen chroma_row x) ∧
       is_Some (GetPixelBlue chroma_row x) ∧
       GetPixelGreen row' (x * GetPixelChannels)
         = GetPixelGreen chroma_row x ∧
       GetPixelBlue row' (x * GetPixelChannels)
         = GetPixelBlue chroma_row x) ∧
    (∀ i : nat,
       (i mod GetPixelChannels)%nat ≠ GreenPixelComponent component_map →
       (i mod GetPixelChannels)%nat ≠ BluePixelComponent component_map →
       row' !! i = row !! i).
Proof.
  intros (Hr & Hg & Hb & Hrg & Hrb & Hgb) Hcolumns Hrow Hchroma.
  fold GetPixelChannels in Hr, Hg, Hb.
  assert (∀ x slot : nat, (x < Z.to_nat image_columns)%nat →
            (slot < GetPixelChannels)%nat →
            is_Some (chroma_row !! (x + slot)%nat)) as Hin.
  { intros x slot Hx Hslot. apply lookup_lt_is_Some_2. nia. }
  unfold merge_row, for_loop.
  edestruct (for_fuel_total
    (λ x c, ∃ k : nat, x = Z.of_nat k ∧ (k ≤ Z.to_nat image_columns)%nat ∧
       mc_chroma_pixels c = k ∧
       mc_q c = (k * GetPixelChannels)%nat ∧
       length (mc_row c) = length row ∧
       (∀ j : nat, (j < k)%nat →
          GetPixelGreen (mc_row c) (j * GetPixelChannels)
            = GetPixelGreen chroma_row j ∧
          GetPixelBlue (mc_row c) (j * GetPixelChannels)
            = GetPixelBlue chroma_row j) ∧
       (∀ i : nat,
          (i mod GetPixelChannels)%nat ≠ GreenPixelComponent component_map →
          (i mod GetPixelChannels)%nat ≠ BluePixelComponent component_map →
          mc_row c !! i = row !! i))
    (λ _, merge_pixel chroma_row) image_columns 1)
    as (x' & c' & -> & Hx' & k & -> & Hk & _ & _ & Hlen & Hdone & Hrest);
    [lia| | |lia|].
  - intros x c (k & -> & Hk & Hs & Hq & Hlen & Hdone & Hrest) Hx.
    unfold merge_pixel, SetPixelGreen, SetPixelBlue. rewrite Hs, Hq.
    unfold GetPixelGreen at 1, GetPixelBlue at 1.
    destruct (Hin k (GreenPixelComponent component_map)) as [g Eg];
      [lia|done|].
    destruct (Hin k (BluePixelComponent component_map)) as [b Eb];
      [lia|done|].
    rewrite Eg, Eb. simpl.
    assert (S k * GetPixelChannels ≤ length (mc_row c))%nat
      by (rewrite Hlen, Hrow; nia).
    stores. eexists. split; [done|]. exists (S k). simpl.
    split_and!; [lia|lia|done|lia|by rewrite !length_insert| |].
    + intros j Hj. unfold GetPixelGreen, GetPixelBlue.
      destruct (decide (j = k)) as [->|Hne].
      * slots. by rewrite Eg, Eb.
      * rewrite !list_lookup_insert_ne by (apply pixel_slot_ne; done).
        apply Hdone. lia.
    + intros i Hig Hib.
      rewrite !list_lookup_insert_ne by (symmetry; by apply slot_mod_ne).
      by apply Hrest.
  - exists 0%nat. simpl. split_and!; try done; try lia.
  - simpl. exists (mc_row c'). split_and!; [done|done| |done].
    intros x Hx. unfold GetPixelGreen at 1, GetPixelBlue at 1.
    split_and!; [by apply Hin; [lia|]|by apply Hin; [lia|]|..];
      apply Hdone; lia.
Qed.

(** X4.  Where the merge takes the chroma from.  For an image row of
    [image_columns] pixels and a row of the resized chroma image of at
    least as many, the merge loop succeeds; pixel [x] of the image row
    receives, as its green and blue samples, what GetPixelGreen and
    GetPixelBlue read with the chroma pointer [x] quantums (not [x]
    pixels) into the resized row, since the loop advances that pointer
    with [chroma_pixels++]; every other quantum of the image row is
    kept. *)
Theorem merge_row_steps_by_quantum (image_columns : Z)
    (chroma_row row : PixelRow) :
  component_map_wf component_map →
  0 ≤ image_columns →
  length row = (Z.to_nat image_columns * GetPixelChannels)%nat →
  (Z.to_nat image_columns * GetPixelChannels ≤ length chroma_row)%nat →
  ∃ row',
    merge_row image_columns chroma_row row = Some row' ∧
    length row' = length row ∧
    (∀ x : nat, (x < Z.to_nat image_columns)%nat →
       is_Some (GetPixelGreen chroma_row x) ∧
       is_Some (GetPixelBlue chroma_row x) ∧
       GetPixelGreen row' (x * GetPixelChannels)
         = GetPixelGreen chroma_row x ∧
       GetPixelBlue row' (x * GetPixelChannels)
         = GetPixelBlue chroma_row x) ∧
    (∀ i : nat,
       (i mod GetPixelChannels)%nat ≠ GreenPixelComponent component_map →
       (i mod GetPixelChannels)%nat ≠ BluePixelComponent component_map →
       row' !! i = row !! i).
Proof. exact (merge_row_spec image_columns chroma_row row). Qed.
End MergeRow.

Section NonInterlacedEncoderRows.
Context `{MagickCore}.

(** The bytes of a non-interlaced scanline of an even number of columns,
    group by group. *)
Lemma encode_noninterlaced_row_spec (quantum n : Z)
    (yuv_row chroma_row : PixelRow) :
  component_map_wf component_map →
  0 ≤ n →
  (Z.to_nat (2 * n) * GetPixelChannels ≤ length yuv_row)%nat →
  (Z.to_nat n * GetPixelChannels ≤ length chroma_row)%nat →
  encode_noninterlaced_row quantum (2 * n) yuv_row chroma_row
  = Some (mjoin
      ((λ k : nat,
          WriteBlobByte (ScaleQuantumToChar
            (chroma_row !!! (k + GreenPixelComponent component_map)%nat))
          ++ sample_bytes quantum
               (yuv_row !!! (2 * k * GetPixelChannels
                             + RedPixelComponent component_map)%nat)
          ++ WriteBlobByte (ScaleQuantumToChar
               (chroma_row !!! (k + BluePixelComponent component_map)%nat))
          ++ sample_bytes quantum
               (yuv_row !!! ((2 * k + 1) * GetPixelChannels
                             + RedPixelComponent component_map)%nat))
       <$> seq 0 (Z.to_nat n))).
Proof.
  intros (Hr & Hg & Hb & _) Hn Hyuv Hchroma.
  fold GetPixelChannels in Hr, Hg, Hb.
  set (group := λ k : nat, _ ++ _).
  unfold encode_noninterlaced_row, for_loop.
  edestruct (for_fuel_total
    (λ x c, ∃ k : nat, x = 2 * Z.of_nat k ∧ (k ≤ Z.to_nat n)%nat ∧
       ec_p c = (2 * k * GetPixelChannels)%nat ∧
       ec_s c = k ∧
       ec_bytes c = mjoin (group <$> seq 0 k))
    (λ _, encode_pair quantum yuv_row chroma_row) (2 * n) 2)
    as (x' & c' & -> & Hx' & k & -> & Hk & _ & _ & Hbytes);
    [lia| | |lia|].
  - intros x c (k & -> & Hk & Hp & Hs & Hbytes) Hx.
    unfold encode_pair, GetPixelRed, GetPixelGreen, GetPixelBlue.
    rewrite Hp, Hs.
    rewrite (list_lookup_lookup_total_lt chroma_row
               (k + GreenPixelComponent component_map)) by nia.
    rewrite (list_lookup_lookup_total_lt chroma_row
               (k + BluePixelComponent component_map)) by nia.
    rewrite (list_lookup_lookup_total_lt yuv_row
               (2 * k * GetPixelChannels
                + RedPixelComponent component_map)) by nia.
    rewrite (list_lookup_lookup_total_lt yuv_row
               (2 * k * GetPixelChannels + GetPixelChannels
                + RedPixelComponent component_map)) by nia.
    assert ((2 * k * GetPixelChannels + GetPixelChannels
             + RedPixelComponent component_map)%nat
            = ((2 * k + 1) * GetPixelChannels
               + RedPixelComponent component_map)%nat) as -> by lia.
    destruct (decide (quantum = 1)) as [Hq|Hq]; simpl;
      (eexists; split; [done|]); exists (S k);
      (split_and!; [lia|lia|simpl; lia|done|]);
      cbn [ec_bytes]; rewrite Hbytes, seq_S, fmap_app, join_app; simpl;
      rewrite app_nil_r; f_equal; unfold group, sample_bytes;
      by rewrite ?decide_True, ?decide_False by done.
  - exists 0%nat. split_and!; [done|lia|done|done|done].
  - simpl. rewrite Hbytes.
    by replace (Z.to_nat n) with k by lia.
Qed.

(** X5.  The bytes of a non-interlaced
    scanline of an even number of columns.  The [k]-th group of two
    columns is written as U, Y, V, Y: the two luma samples are the red
    samples of pixels [2k] and [2k+1] of the row of the YCbCr image, each
    in [quantum] bytes; the two chroma samples are written in one byte each
    through ScaleQuantumToChar whatever the sample width, and they are what
    GetPixelGreen and GetPixelBlue read with the chroma pointer [k]
    quantums (not [k] pixels) into the row of the chroma image, since the
    loop advances that pointer with [s++].  The encoder stays inside both
    rows, and the scanline is [2 * columns] bytes long at sample width 1
    and [3 * columns] bytes at sample width 2. *)
Theorem encode_noninterlaced_row_bytes (quantum n : Z)
    (yuv_row chroma_row : PixelRow) :
  component_map_wf component_map →
  0 ≤ n →
  (Z.to_nat (2 * n) * GetPixelChannels ≤ length yuv_row)%nat →
  (Z.to_nat n * GetPixelChannels ≤ length chroma_row)%nat →
  ∃ bytes,
    encode_noninterlaced_row quantum (2 * n) yuv_row chroma_row
      = Some bytes ∧
    bytes
    = mjoin
        ((λ k : nat,
            WriteBlobByte (ScaleQuantumToChar
              (chroma_row !!! (k + GreenPixelComponent component_map)%nat))
            ++ sample_bytes quantum
                 (yuv_row !!! (2 * k * GetPixelChannels
                               + RedPixelComponent component_map)%nat)
            ++ WriteBlobByte (ScaleQuantumToChar
                 (chroma_row !!! (k + BluePixelComponent component_map)%nat))
            ++ sample_bytes quantum
                 (yuv_row !!! ((2 * k + 1) * GetPixelChannels
                               + RedPixelComponent component_map)%nat))
         <$> seq 0 (Z.to_nat n)) ∧
    Z.of_nat (length bytes)
      = (if decide (quantum = 1) then 2 else 3) * (2 * n).
Proof.
  intros Hwf Hn Hyuv Hchroma.
  pose proof (encode_noninterlaced_row_spec quantum n yuv_row chroma_row
                Hwf Hn Hyuv Hchroma) as Hrun.
  eexists. split; [exact Hrun|]. split; [done|].
  by eapply encode_noninterlaced_row_length.
Qed.

(** A turn of the inner loop that succeeds has read the red sample of a
    second pixel inside the row. *)
Lemma encode_pair_Some (quantum : Z) (yuv_row chroma_row : PixelRow)
    (c c' : EncodeCursor) :
  encode_pair quantum yuv_row chroma_row c = Some c' →
  ec_p c' = (ec_p c + 2 * GetPixelChannels)%nat ∧
  (ec_p c + GetPixelChannels + RedPixelComponent component_map
     < length yuv_row)%nat.
Proof.
  unfold encode_pair.
  destruct (GetPixelRed yuv_row (ec_p c + GetPixelChannels))
    as [y1|] eqn:Ey1.
  - apply lookup_lt_Some in Ey1.
    destruct (decide (quantum = 1));
      (destruct (GetPixelGreen _ _); simpl; [|done]);
      (destruct (GetPixelRed _ (ec_p c)); simpl; [|done]);
      (destruct (GetPixelBlue _ _); simpl; [|done]);
      intros [= <-]; simpl; split; [lia|done|lia|done].
  - destruct (decide (quantum = 1));
      (destruct (GetPixelGreen _ _); simpl; [|done]);
      (destruct (GetPixelRed _ (ec_p c)); simpl; [|done]);
      by (destruct (GetPixelBlue _ _); simpl).
Qed.

(** X6.  With an odd number of columns the non-interlaced encoder reads
    past the row of the YCbCr image: the last turn of the loop reads the
    red sample of a second pixel that the row does not have. *)
Theorem encode_noninterlaced_row_odd (quantum n : Z)
    (yuv_row chroma_row : PixelRow) :
  0 ≤ n →
  length yuv_row = (Z.to_nat (2 * n + 1) * GetPixelChannels)%nat →
  encode_noninterlaced_row quantum (2 * n + 1) yuv_row chroma_row = None.
Proof.
  intros Hn Hyuv. unfold encode_noninterlaced_row, for_loop.
  rewrite (for_fuel_fails
    (λ x c, ∃ k : nat, x = 2 * Z.of_nat k ∧
       ec_p c = (2 * k * GetPixelChannels)%nat)); [done| | |lia].
  - intros x c c' (k & -> & Hp) Hx [Hp' Hin]%encode_pair_Some.
    rewrite Hp, Hyuv in Hin.
    split; [nia|]. exists (S k). split; lia.
  - exists 0%nat. split; [lia|done].
Qed.
End NonInterlacedEncoderRows.

Lemma merge_row_steps_by_quantum_witness :
  let chroma_row := [0; 11; 12; 13; 0; 21; 22; 23] in
  let row := [1; 0; 0; 9; 2; 0; 0; 9] in
  (component_map_wf (component_map (MagickCore := Reference.Q16)) ∧
   0 ≤ 2 ∧ length row = (Z.to_nat 2 * 4)%nat ∧
   (Z.to_nat 2 * 4 ≤ length chroma_row)%nat) ∧
  ∃ row',
    merge_row (H := Reference.Q16) 2 chroma_row row = Some row' ∧
    length row' = length row ∧
    (∀ x : nat, (x < Z.to_nat 2)%nat →
       is_Some (GetPixelGreen (H := Reference.Q16) chroma_row x) ∧
       is_Some (GetPixelBlue (H := Reference.Q16) chroma_row x) ∧
       GetPixelGreen (H := Reference.Q16) row' (x * 4)
         = GetPixelGreen (H := Reference.Q16) chroma_row x ∧
       GetPixelBlue (H := Reference.Q16) row' (x * 4)
         = GetPixelBlue (H := Reference.Q16) chroma_row x) ∧
    (∀ i : nat, (i mod 4)%nat ≠ 1%nat → (i mod 4)%nat ≠ 2%nat →
       row' !! i = row !! i).
Proof.
  intros chroma_row row. split.
  - split_and!; [exact Q16_component_map_wf|lia|done|simpl; lia].
  - apply (merge_row_steps_by_quantum (H := Reference.Q16) 2 chroma_row row);
      [exact Q16_component_map_wf|lia|done|simpl; lia].
Defined.

Lemma encode_noninterlaced_row_bytes_witness :
  let yuv_row := [257; 0; 0; 0; 514; 0; 0; 0; 771; 0; 0; 0; 1028; 0; 0; 0] in
  let chroma_row := [0; 2570; 2827; 3084; 0; 5140; 5397; 0] in
  (component_map_wf (component_map (MagickCore := Reference.Q16)) ∧
   0 ≤ 2 ∧ (Z.to_nat (2 * 2) * 4 ≤ length yuv_row)%nat ∧
   (Z.to_nat 2 * 4 ≤ length chroma_row)%nat) ∧
  ∃ bytes,
    encode_noninterlaced_row (H := Reference.Q16) 1 (2 * 2)
      yuv_row chroma_row = Some bytes ∧
    bytes
    = mjoin
        ((λ k : nat,
            WriteBlobByte (ScaleQuantumToChar (H := Reference.Q16)
              (chroma_row !!! (k + 1)%nat))
            ++ sample_bytes (H := Reference.Q16) 1
                 (yuv_row !!! (2 * k * 4 + 0)%nat)
            ++ WriteBlobByte (ScaleQuantumToChar (H := Reference.Q16)
                 (chroma_row !!! (k + 2)%nat))
            ++ sample_bytes (H := Reference.Q16) 1
                 (yuv_row !!! ((2 * k + 1) * 4 + 0)%nat))
         <$> seq 0 (Z.to_nat 2)) ∧
    Z.of_nat (length bytes) = (if decide (1 = 1) then 2 else 3) * (2 * 2).
Proof.
  intros yuv_row chroma_row. split.
  - split_and!; [exact Q16_component_map_wf|lia|simpl; lia..].
  - apply (encode_noninterlaced_row_bytes (H := Reference.Q16) 1 2
             yuv_row chroma_row);
      [exact Q16_component_map_wf|lia|simpl; lia..].
Defined.

Lemma encode_noninterlaced_row_odd_witness :
  let yuv_row := [257; 0; 0; 0; 514; 0; 0; 0; 771; 0; 0; 0] in
  (0 ≤ 1 ∧ length yuv_row = (Z.to_nat (2 * 1 + 1) * 4)%nat) ∧
  encode_noninterlaced_row (H := Reference.Q16) 1 (2 * 1 + 1) yuv_row
    [0; 2570; 2827; 0; 0; 5140; 5397; 0; 0; 7710; 7967; 0] = None.
Proof.
  intros yuv_row. split; [split; [lia|done]|].
  apply (encode_noninterlaced_row_odd (H := Reference.Q16) 1 1 yuv_row);
    [lia|done].
Defined.

(** ** Relations kept by the frames of WriteYUVImage *)

Section WriterFrames.
Context `{MagickCore}.
Context (R : relation WriterState) `{!PreOrder R}.

Lemma keeps_frame_preserves {A} (m : M WriterState A) :
  preserves R m → keeps_frame R m.
Proof. intros Hm st. exists (m st).2. split; [apply Hm|by left]. Qed.

Lemma keeps_frame_bind {A B} (m : M WriterState A)
    (f : A → M WriterState B) :
  preserves R m → (∀ a, keeps_frame R (f a)) → keeps_frame R (m ≫= f).
Proof.
  intros Hm Hf st. unfold mbind, M_bind. specialize (Hm st).
  destruct (m st) as [[a| | | |] st1]; simpl in *;
    try (exists st1; split; [done|by left]).
  destruct (Hf a st1) as (s & Hs & Hlast).
  exists s. split; [by etrans|done].
Qed.

Lemma current_image_preserves : preserves R current_image.
Proof. intros st. unfold current_image. by destruct (_ !! _). Qed.

Lemma write_plane_preserves component quantum source :
  (∀ bytes, preserves R (log (WriteBlobEvent bytes))) →
  preserves R (write_plane component quantum source).
Proof.
  intros Hlog. unfold write_plane. keeps preserves_for_rows. intros y.
  destruct (GetVirtualPixels source y); [|keeps preserves_ret].
  keeps preserves_bind; [keeps preserves_defined|]. intros bytes.
  keeps preserves_bind; [apply Hlog|]. intros _. keeps preserves_ret.
Qed.

(** A frame keeps what its parts keep, up to the move to the next
    image. *)
Lemma write_frame_keeps_frame (image_info : ImageInfo) (quantum : Z)
    (interlace : InterlaceType) (horizontal_factor vertical_factor : Z) :
  (∀ st, R st (ws_thrown image_info st)) →
  (∀ d, preserves R (assign (set_depth d))) →
  (∀ bytes, preserves R (log (WriteBlobEvent bytes))) →
  (interlace = PartitionInterlace →
   ∀ format, preserves R (next_partition format)) →
  (interlace = PartitionInterlace →
   preserves R (assign (set_filename (info_filename image_info)))) →
  keeps_frame R (write_frame image_info quantum interlace
                   horizontal_factor vertical_factor).
Proof.
  intros Hthrown Hdepth Hlog Hpartition Hname. unfold write_frame.
  apply keeps_frame_bind; [apply Hdepth|]. intros _.
  apply keeps_frame_bind; [apply current_image_preserves|]. intros image.
  destruct (ResizeImage _ _ _) as [yuv_image|];
    [|by apply keeps_frame_preserves, preserves_ThrowWriterException].
  apply keeps_frame_bind; [keeps preserves_defined|]. intros chroma_columns.
  apply keeps_frame_bind; [keeps preserves_defined|]. intros chroma_rows.
  destruct (ResizeImage _ _ _) as [chroma_image|];
    [|by apply keeps_frame_preserves, preserves_ThrowWriterException].
  apply keeps_frame_bind.
  { case_decide.
    - keeps preserves_for_rows. intros y.
      destruct (GetVirtualPixels _ y); [|keeps preserves_ret].
      destruct (GetVirtualPixels _ y); [|keeps preserves_ret].
      keeps preserves_bind; [keeps preserves_defined|]. intros bytes.
      keeps preserves_bind; [apply Hlog|]. intros _. keeps preserves_ret.
    - keeps preserves_bind; [by apply write_plane_preserves|]. intros _.
      keeps preserves_bind.
      { case_decide; [by apply Hpartition|keeps preserves_ret]. }
      intros _.
      keeps preserves_bind; [by apply write_plane_preserves|]. intros _.
      keeps preserves_bind.
      { case_decide; [by apply Hpartition|keeps preserves_ret]. }
      intros _. by apply write_plane_preserves. }
  intros _. apply keeps_frame_bind.
  { case_decide; [by apply Hname|keeps preserves_ret]. }
  intros _ st. exists st. split; [done|].
  unfold mbind, M_bind, get, modify. simpl.
  case_decide; simpl; [by right|by left].
Qed.

(** When the move to the next image is in the relation too, the frame
    and the frame loop keep the relation. *)
Lemma write_frame_preserves (image_info : ImageInfo) (quantum : Z)
    (interlace : InterlaceType) (horizontal_factor vertical_factor : Z) :
  (∀ st, R st (next_image st)) →
  keeps_frame R (write_frame image_info quantum interlace
                   horizontal_factor vertical_factor) →
  preserves R (write_frame image_info quantum interlace
                 horizontal_factor vertical_factor).
Proof.
  intros Hnext Hframe st. destruct (Hframe st) as (s & Hs & [-> | ->]);
    [done|]. by etrans.
Qed.
End WriterFrames.

Section WriterRelations.
Context `{MagickCore}.

Global Instance same_picture_preorder : PreOrder same_picture.
Proof.
  split.
  - by intros i.
  - intros i1 i2 i3 (? & ? & ? & ? & ? & ?) (? & ? & ? & ? & ? & ?).
    split_and!; congruence.
Qed.

Global Instance same_pictures_preorder : PreOrder same_pictures.
Proof.
  split.
  - intros st. unfold same_pictures. reflexivity.
  - intros s1 s2 s3 H12 H23. unfold same_pictures in *. by etrans.
Qed.

Global Instance others_kept_preorder : PreOrder others_kept.
Proof.
  split.
  - by intros st.
  - intros s1 s2 s3 [P12 K12] [P23 K23]. split; [congruence|].
    intros k Hk. rewrite K23, K12 by congruence. done.
Qed.

Lemma assign_same_pictures (f : Image → Image) :
  (∀ i, same_picture i (f i)) → preserves same_pictures (assign f).
Proof.
  intros Hf st. unfold same_pictures, assign, modify. simpl.
  apply Forall2_same_length_lookup_2; [by rewrite length_alter|].
  intros k i i' Hi. destruct (decide (k = ws_image st)) as [->|Hne].
  - rewrite list_lookup_alter_eq, Hi. simpl. by intros [= <-].
  - rewrite list_lookup_alter_ne, Hi by done. by intros [= <-].
Qed.

Lemma OpenBlob_write_same_pictures : preserves same_pictures OpenBlob_write.
Proof.
  unfold OpenBlob_write.
  keeps preserves_bind; [keeps current_image_preserves|]. intros image.
  keeps preserves_bind; [keeps preserves_get|]. intros st.
  destruct (ws_writable st (filename image));
    [|keeps preserves_open_failed].
  keeps preserves_modify. intros s. unfold same_pictures. simpl. reflexivity.
Qed.

Lemma next_partition_same_pictures format :
  preserves same_pictures (next_partition format).
Proof.
  unfold next_partition.
  keeps preserves_bind.
  { keeps preserves_modify. intros s. unfold same_pictures. simpl.
    reflexivity. }
  intros _. keeps preserves_bind; [by apply assign_same_pictures|].
  intros _. apply OpenBlob_write_same_pictures.
Qed.

Lemma assign_others_kept (f : Image → Image) :
  preserves others_kept (assign f).
Proof.
  intros st. split; [done|]. intros k Hk. simpl.
  by rewrite list_lookup_alter_ne.
Qed.

Lemma OpenBlob_write_others_kept : preserves others_kept OpenBlob_write.
Proof.
  unfold OpenBlob_write.
  keeps preserves_bind; [keeps current_image_preserves|]. intros image.
  keeps preserves_bind; [keeps preserves_get|]. intros st.
  destruct (ws_writable st (filename image));
    [|keeps preserves_open_failed].
  by keeps preserves_modify.
Qed.

Lemma next_partition_others_kept format :
  preserves others_kept (next_partition format).
Proof.
  unfold next_partition.
  keeps preserves_bind; [by keeps preserves_modify|]. intros _.
  keeps preserves_bind; [apply assign_others_kept|]. intros _.
  apply OpenBlob_write_others_kept.
Qed.
End WriterRelations.

Section WriterRuns.
Context `{MagickCore}.

Lemma log_same_pictures e : preserves same_pictures (log e).
Proof. intros st. unfold same_pictures. simpl. reflexivity. Qed.

Lemma write_frame_same_pictures (image_info : ImageInfo) (quantum : Z)
    (interlace : InterlaceType) (horizontal_factor vertical_factor : Z) :
  preserves same_pictures
    (write_frame image_info quantum interlace
       horizontal_factor vertical_factor).
Proof.
  keeps write_frame_preserves.
  - intros st. unfold same_pictures. simpl. reflexivity.
  - keeps write_frame_keeps_frame.
    + intros st. unfold same_pictures. simpl. reflexivity.
    + intros d. by apply assign_same_pictures.
    + intros bytes. apply log_same_pictures.
    + intros _ format. apply next_partition_same_pictures.
    + intros _. by apply assign_same_pictures.
Qed.

(** X7.  WriteYUVImage assigns to the depth and, in the partition
    layout, to the file name of the caller's images, and to nothing else of
    them: however the encode ends, the list has the images it had, each
    with the columns, rows, scene, interlace, colourspace and pixels it
    came with. *)
Theorem WriteYUVImage_keeps_pictures (image_info : ImageInfo)
    (st : WriterState) :
  Forall2
    (λ i i', columns i' = columns i ∧ rows i' = rows i ∧
             scene i' = scene i ∧ interlace i' = interlace i ∧
             colorspace i' = colorspace i ∧ pixels i' = pixels i)
    (ws_images st) (ws_images (WriteYUVImage image_info st).2).
Proof.
  revert st. change (preserves same_pictures (WriteYUVImage image_info)).
  unfold WriteYUVImage.
  keeps preserves_bind; [keeps current_image_preserves|]. intros image.
  destruct (sampling_factors _) as [[horizontal_factor vertical_factor]|].
  2: { apply preserves_ThrowWriterException. intros st.
       unfold same_pictures. simpl. reflexivity. }
  keeps preserves_bind.
  { case_decide; [apply OpenBlob_write_same_pictures|].
    keeps preserves_bind; [by apply assign_same_pictures|]. intros _.
    apply OpenBlob_write_same_pictures. }
  intros _. keeps preserves_bind; [keeps preserves_get|]. intros st.
  keeps preserves_bind.
  { keeps preserves_do_while. apply write_frame_same_pictures. }
  intros _. keeps preserves_bind; [|intros _; keeps preserves_ret].
  keeps preserves_modify. intros s. unfold same_pictures. simpl. reflexivity.
Qed.

(** With a condition that never holds the frame loop runs one frame. *)
Lemma do_while_once {St : Type} (frame : M St bool) (fuel : nat) (st : St) :
  (do_while (S fuel) frame (λ _, false) st).2 = (frame st).2.
Proof.
  simpl. unfold mbind, M_bind, get.
  destruct (frame st) as [[continue| | | |] s]; simpl; try done.
  by rewrite andb_false_r.
Qed.

(** X8.  With adjoin off WriteYUVImage encodes the head of the list
    only: however the encode ends, every image after the head is exactly
    as it was, and [image] is the head or the image after it. *)
Theorem WriteYUVImage_without_adjoin (image_info : ImageInfo)
    (writable : string → bool) (images : list Image) :
  adjoin image_info = false →
  let run := WriteYUVImage image_info (writer_entry writable images) in
  (∀ k, k ≠ 0%nat → ws_images run.2 !! k = images !! k) ∧
  (ws_image run.2 ≤ 1)%nat.
Proof.
  intros Hadjoin run.
  set (kept := λ st' : WriterState,
    (∀ k, k ≠ 0%nat → ws_images st' !! k = images !! k) ∧
    (ws_image st' ≤ 1)%nat).
  change (kept run.2). subst run.
  assert (kept (writer_entry writable images)) as Hentry
    by (split; [done|simpl; lia]).
  unfold WriteYUVImage.
  unfold mbind at 1, M_bind at 1, current_image at 1. simpl.
  destruct (images !! 0%nat) as [head|] eqn:Hhead; [|done].
  destruct (sampling_factors _) as [[horizontal_factor vertical_factor]|].
  2: { rewrite ThrowWriterException_run. split; [done|]. simpl.
       rewrite Hadjoin. simpl. lia. }
  set (interlace := effective_interlace _ _).
  set (entry := writer_entry writable images).
  unfold mbind at 1, M_bind at 1.
  set (open := if decide (interlace ≠ PartitionInterlace) then _ else _).
  assert (preserves others_kept open) as Hopen.
  { subst open. case_decide; [apply OpenBlob_write_others_kept|].
    keeps preserves_bind; [apply assign_others_kept|]. intros _.
    apply OpenBlob_write_others_kept. }
  specialize (Hopen entry).
  destruct (open entry) as [[[]| | | |] s0]; simpl in Hopen;
    destruct Hopen as [Hposition Hothers];
    unfold entry in Hposition, Hothers; simpl in Hposition, Hothers;
    try (split; [intros k Hk; by apply Hothers|simpl; lia]).
  unfold mbind at 1, M_bind at 1, get at 1.
  unfold mbind at 1, M_bind at 1. rewrite Hadjoin.
  set (frame := write_frame _ _ _ _ _).
  assert (∃ s, others_kept s0 s ∧
            ((frame s0).2 = s ∨ (frame s0).2 = next_image s))
    as (s & [Hp Hk] & Hlast).
  { apply (write_frame_keeps_frame others_kept).
    - intros st. unfold others_kept, ws_thrown. simpl.
      by rewrite Hadjoin.
    - intros d. apply assign_others_kept.
    - by intros bytes st.
    - intros _ format. apply next_partition_others_kept.
    - intros _. apply assign_others_kept. }
  assert (kept (frame s0).2) as Hframe.
  { destruct Hlast as [-> | ->]; simpl; (split; [|simpl; lia]);
      intros k Hk0; simpl; rewrite Hk, Hothers by congruence; done. }
  destruct (length (ws_images s0)) as [|fuel].
  { simpl. split; [intros k Hk0; by apply Hothers|lia]. }
  pose proof (do_while_once frame fuel s0) as Honce.
  destruct (do_while _ _ _ s0) as [[[]| | | |] s1]; simpl in Honce;
    subst s1; done.
Qed.
End WriterRuns.

(** [extent + (extent & (factor - 1))] at type [size_t], for the factors
    1 and 2. *)
Lemma padded_extent (extent factor : Z) :
  factor = 1 ∨ factor = 2 → 0 ≤ extent < 2 ^ 63 →
  to_size_t (extent + size_t_and extent (factor - 1))
  = extent + extent mod factor.
Proof.
  intros Hfactor Hextent. unfold size_t_and, to_size_t, size_t_bits.
  assert (2 ^ 63 < 2 ^ 64) by done.
  rewrite (Z.mod_small extent (2 ^ 64)) by lia.
  destruct Hfactor as [-> | ->]; simpl.
  - rewrite Z.mod_0_l, Z.land_0_r, Z.mod_1_r, Z.add_0_r by done.
    rewrite Z.mod_small; lia.
  - rewrite (Z.mod_small 1) by lia.
    change 1 with (Z.ones 1) at 1. rewrite Z.land_ones by lia.
    change (2 ^ 1) with 2.
    pose proof (Z.mod_pos_bound extent 2). rewrite Z.mod_small; lia.
Qed.

Lemma padded_multiple (extent factor : Z) :
  factor = 1 ∨ factor = 2 → (extent + extent mod factor) mod factor = 0.
Proof.
  intros [-> | ->]; [by rewrite !Z.mod_1_r|].
  rewrite Z.add_mod, Z.mod_mod by done.
  pose proof (Z.mod_pos_bound extent 2).
  by assert (extent mod 2 = 0 ∨ extent mod 2 = 1) as [-> | ->] by lia.
Qed.

Section WriterFailures.
Context `{MagickCore}.

(** X9.  When the stream cannot be opened WriteYUVImage returns at once:
    nothing is opened or written and no depth is assigned.  In the
    partition layout the file name of the head image has by then been
    replaced by the name of the Y stream, and it is left so. *)
Theorem WriteYUVImage_open_failure (image_info : ImageInfo)
    (writable : string → bool) (images : list Image) (head : Image)
    (horizontal_factor vertical_factor : Z) :
  images !! 0%nat = Some head →
  sampling_factors (sampling_factor image_info)
    = Some (horizontal_factor, vertical_factor) →
  let partition :=
    bool_decide (effective_interlace (interlace head) vertical_factor
                 = PartitionInterlace) in
  let name := if partition then AppendImageFormat "Y" (filename head)
              else filename head in
  writable name = false →
  WriteYUVImage image_info (writer_entry writable images)
  = (OpenFailed,
     {| ws_writable := writable;
        ws_images := if partition
                     then <[0%nat := set_filename name head]> images
                     else images;
        ws_image := 0; ws_blob := None; ws_trace := [] |}).
Proof.
  intros Hhead Hfactors partition name Hname.
  unfold WriteYUVImage. unfold mbind at 1, M_bind at 1, current_image at 1.
  simpl. rewrite Hhead, Hfactors.
  unfold mbind at 1, M_bind at 1. subst name partition.
  case_bool_decide as Hlayout.
  - rewrite decide_False by (by intros ?).
    unfold mbind at 1, M_bind at 1, assign at 1, modify at 1. simpl.
    unfold OpenBlob_write at 1, current_image at 1.
    unfold mbind at 1, M_bind at 1. simpl.
    rewrite list_lookup_alter_eq, Hhead. simpl.
    unfold mbind at 1, M_bind at 1, get at 1. simpl. rewrite Hname.
    unfold open_failed, writer_entry, ws_update. simpl. do 2 f_equal.
    apply list_eq. intros k. destruct k as [|k].
    + rewrite list_lookup_alter_eq, Hhead. simpl.
      rewrite list_lookup_insert_eq; [done|]. by eapply lookup_lt_Some.
    + by rewrite list_lookup_alter_ne, list_lookup_insert_ne.
  - rewrite decide_True by done.
    unfold OpenBlob_write at 1, current_image at 1.
    unfold mbind at 1, M_bind at 1. simpl. rewrite Hhead.
    unfold mbind at 1, M_bind at 1, get at 1. simpl. by rewrite Hname.
Qed.

(** X10.  The working copies of a frame.  The YCbCr copy of the image is
    asked of ResizeImage at the columns and rows of the image rounded up
    to a multiple of the horizontal and the vertical factor, the chroma
    copy at these divided by the factors, both from the image that already
    carries the assigned depth.  When ResizeImage returns NULL for either
    the frame throws ResourceLimitError: nothing has been written for the
    frame, the stream the frame was entered with has been closed, with
    adjoin set [image] is back at the head of the list, and the depth
    assigned to the caller's image stays. *)
Theorem write_frame_resize_failure (image_info : ImageInfo) (quantum : Z)
    (interlace : InterlaceType) (horizontal_factor vertical_factor : Z)
    (st : WriterState) (image : Image) :
  ws_images st !! ws_image st = Some image →
  horizontal_factor = 1 ∨ horizontal_factor = 2 →
  vertical_factor = 1 ∨ vertical_factor = 2 →
  0 ≤ columns image < 2 ^ 63 →
  0 ≤ rows image < 2 ^ 63 →
  let source := set_depth (if decide (quantum = 1) then 8 else 16) image in
  let width := columns image + columns image mod horizontal_factor in
  let height := rows image + rows image mod vertical_factor in
  ResizeImage source width height = None ∨
  ResizeImage source (width / horizontal_factor) (height / vertical_factor)
    = None →
  (width mod horizontal_factor = 0 ∧ height mod vertical_factor = 0) ∧
  ∃ reason,
    write_frame image_info quantum interlace
      horizontal_factor vertical_factor st
    = (Thrown ResourceLimitError reason,
       {| ws_writable := ws_writable st;
          ws_images := <[ws_image st := source]> (ws_images st);
          ws_image := if adjoin image_info then 0%nat else ws_image st;
          ws_blob := None;
          ws_trace := ws_trace st
                      ++ if ws_blob st is Some _ then [CloseBlobEvent]
                         else [] |}).
Proof.
  intros Himage Hh Hv Hcolumns Hrows source width height Hfail. split.
  - split; by apply padded_multiple.
  - assert (alter (set_depth (if decide (quantum = 1) then 8 else 16))
              (ws_image st) (ws_images st)
            = <[ws_image st := source]> (ws_images st)) as Halter.
    { apply list_eq. intros k.
      destruct (decide (k = ws_image st)) as [->|Hne].
      - rewrite list_lookup_alter_eq, Himage. simpl.
        rewrite list_lookup_insert_eq; [done|]. by eapply lookup_lt_Some.
      - by rewrite list_lookup_alter_ne, list_lookup_insert_ne. }
    unfold write_frame.
    unfold mbind at 1, M_bind at 1, assign at 1, modify at 1.
    unfold mbind at 1, M_bind at 1, current_image at 1. simpl.
    rewrite list_lookup_alter_eq, Himage. simpl. fold source.
    rewrite !padded_extent by done. fold width height.
    unfold ws_update. simpl. rewrite Halter.
    destruct (ResizeImage source width height) as [yuv_image|] eqn:Eyuv;
      [|eexists; by rewrite ThrowWriterException_run].
    destruct Hfail as [?|Hchroma]; [done|].
    assert (∀ extent factor, factor = 1 ∨ factor = 2 →
              0 ≤ extent < 2 ^ 63 →
              size_t_div (extent + extent mod factor) factor
              = Some ((extent + extent mod factor) / factor)) as Hdiv.
    { intros extent factor Hfactor Hextent.
      unfold size_t_div, to_size_t, size_t_bits.
      assert (2 ^ 63 < 2 ^ 64) by done.
      pose proof (Z.mod_pos_bound extent factor).
      rewrite (Z.mod_small factor), (Z.mod_small (_ + _)) by lia.
      rewrite decide_False by lia. done. }
    subst width height. rewrite !Hdiv by done.
    unfold mbind, M_bind, defined. simpl.
    rewrite Hchroma. eexists. by rewrite ThrowWriterException_run.
Qed.
End WriterFailures.

Section SingleStream.
Context `{MagickCore}.

Lemma writes_only_ret {A} (a : A) : writes_only (mret a).
Proof. intros st. split; [done|]. exists []. simpl. by rewrite app_nil_r. Qed.

Lemma writes_only_bind {A B} (m : M WriterState A)
    (f : A → M WriterState B) :
  writes_only m → (∀ a, writes_only (f a)) → writes_only (m ≫= f).
Proof.
  intros Hm Hf st. unfold mbind, M_bind. specialize (Hm st).
  destruct (m st) as [[a| | | |] s1]; simpl in *; try done.
  destruct Hm as (Hw & rows1 & Hb & Ht).
  destruct (Hf a s1) as (Hw' & rows2 & Hrun).
  split; [congruence|]. exists (rows1 ++ rows2). rewrite fmap_app.
  destruct (f a s1) as [[b| | | |] s2]; simpl in *;
    destruct Hrun as [Hb' Ht']; rewrite Ht', Ht, ?Hb;
    (split; [congruence|by rewrite <- !app_assoc]).
Qed.

(** A step that ends normally, in a state with the blob and the trace it
    started with. *)
Lemma writes_only_quiet {A} (m : M WriterState A) :
  (∀ st, ∃ a st', m st = (Ok a, st') ∧ ws_writable st' = ws_writable st ∧
                  ws_blob st' = ws_blob st ∧ ws_trace st' = ws_trace st) →
  writes_only m.
Proof.
  intros Hm st. destruct (Hm st) as (a & st' & -> & Hw & Hb & Ht).
  split; [done|]. exists []. simpl. by rewrite app_nil_r.
Qed.

Lemma writes_only_assign (f : Image → Image) : writes_only (assign f).
Proof. apply writes_only_quiet. intros st. by eexists _, _. Qed.

Lemma writes_only_get : writes_only get.
Proof. apply writes_only_quiet. intros st. by eexists _, _. Qed.

Lemma writes_only_log (bytes : list Z) :
  writes_only (log (WriteBlobEvent bytes)).
Proof. intros st. split; [done|]. by exists [bytes]. Qed.

Lemma writes_only_current_image : writes_only current_image.
Proof.
  intros st. unfold current_image.
  destruct (_ !! _); (split; [done|]); exists []; simpl;
    by rewrite app_nil_r.
Qed.

Lemma writes_only_defined {A} (o : option A) : writes_only (defined o).
Proof.
  intros st. destruct o; (split; [done|]); exists []; simpl;
    by rewrite app_nil_r.
Qed.

Lemma writes_only_ThrowWriterException {A} (image_info : ImageInfo)
    (severity : ExceptionType) (reason : string) :
  writes_only (ThrowWriterException (A := A) image_info severity reason).
Proof.
  intros st. rewrite ThrowWriterException_run. split; [done|].
  by exists [].
Qed.

Lemma writes_only_rows_fuel (body : Z → M WriterState bool) (limit : Z) :
  (∀ y, writes_only (body y)) →
  ∀ fuel y, writes_only (rows_fuel fuel y limit body).
Proof.
  intros Hbody fuel. induction fuel as [|fuel IH]; intros y; simpl.
  - case_decide; [|apply writes_only_ret].
    intros st. split; [done|]. exists []. simpl. by rewrite app_nil_r.
  - case_decide; [|apply writes_only_ret].
    apply writes_only_bind; [done|].
    intros [|]; [apply IH|apply writes_only_ret].
Qed.

Lemma writes_only_do_while (frame : M WriterState bool)
    (condition : WriterState → bool) :
  writes_only frame → ∀ fuel, writes_only (do_while fuel frame condition).
Proof.
  intros Hframe fuel. induction fuel as [|fuel IH]; simpl.
  - intros st. split; [done|]. exists []. simpl. by rewrite app_nil_r.
  - apply writes_only_bind; [done|]. intros continue.
    apply writes_only_bind; [apply writes_only_get|]. intros st.
    destruct (continue && condition st); [done|apply writes_only_ret].
Qed.

Lemma writes_only_write_plane component quantum source :
  writes_only (write_plane component quantum source).
Proof.
  unfold write_plane, for_rows. apply writes_only_rows_fuel. intros y.
  destruct (GetVirtualPixels source y); [|apply writes_only_ret].
  apply writes_only_bind; [apply writes_only_defined|]. intros bytes.
  apply writes_only_bind; [apply writes_only_log|]. intros _.
  apply writes_only_ret.
Qed.

(** Outside the partition layout a frame opens no stream, and it closes
    the stream it writes to exactly when it throws. *)
Lemma writes_only_write_frame (image_info : ImageInfo) (quantum : Z)
    (interlace : InterlaceType) (horizontal_factor vertical_factor : Z) :
  interlace ≠ PartitionInterlace →
  writes_only
    (write_frame image_info quantum interlace
       horizontal_factor vertical_factor).
Proof.
  intros Hlayout. unfold write_frame.
  apply writes_only_bind; [apply writes_only_assign|]. intros _.
  apply writes_only_bind; [apply writes_only_current_image|]. intros image.
  destruct (ResizeImage _ _ _) as [yuv_image|];
    [|apply writes_only_ThrowWriterException].
  apply writes_only_bind; [apply writes_only_defined|]. intros chroma_columns.
  apply writes_only_bind; [apply writes_only_defined|]. intros chroma_rows.
  destruct (ResizeImage _ _ _) as [chroma_image|];
    [|apply writes_only_ThrowWriterException].
  apply writes_only_bind.
  { case_decide.
    - apply writes_only_rows_fuel. intros y.
      destruct (GetVirtualPixels _ y); [|apply writes_only_ret].
      destruct (GetVirtualPixels _ y); [|apply writes_only_ret].
      apply writes_only_bind; [apply writes_only_defined|]. intros bytes.
      apply writes_only_bind; [apply writes_only_log|]. intros _.
      apply writes_only_ret.
    - apply writes_only_bind; [apply writes_only_write_plane|]. intros _.
      rewrite !(decide_False (P := interlace = PartitionInterlace)) by done.
      apply writes_only_bind; [apply writes_only_ret|]. intros _.
      apply writes_only_bind; [apply writes_only_write_plane|]. intros _.
      apply writes_only_bind; [apply writes_only_ret|]. intros _.
      apply writes_only_write_plane. }
  intros _. rewrite decide_False by done.
  apply writes_only_bind; [apply writes_only_ret|]. intros _.
  apply writes_only_bind; [apply writes_only_get|]. intros st.
  case_decide; [|apply writes_only_ret].
  apply writes_only_bind; [|intros _; apply writes_only_ret].
  apply writes_only_quiet. intros s. by eexists _, _.
Qed.

(** X11.  In the layouts other than the partition layout WriteYUVImage
    works on one stream.  It opens the file name of the head image, and
    from then on, however the encode ends, it only writes: all frames go to
    this stream, and no other stream is opened.  When the encode returns,
    with MagickTrue or by a throw, the stream has been closed after the
    last write; MagickTrue is the only status it returns with. *)
Theorem WriteYUVImage_single_stream (image_info : ImageInfo)
    (writable : string → bool) (images : list Image) (head : Image)
    (horizontal_factor vertical_factor : Z) :
  images !! 0%nat = Some head →
  sampling_factors (sampling_factor image_info)
    = Some (horizontal_factor, vertical_factor) →
  effective_interlace (interlace head) vertical_factor
    ≠ PartitionInterlace →
  writable (filename head) = true →
  let run := WriteYUVImage image_info (writer_entry writable images) in
  ∃ rows : list (list Z),
    ws_trace run.2
      = [OpenBlobEvent (filename head)] ++ (WriteBlobEvent <$> rows)
        ++ match run.1 with
           | Ok _ | Thrown _ _ => [CloseBlobEvent]
           | _ => []
           end ∧
    ws_blob run.2
      = match run.1 with
        | Ok _ | Thrown _ _ => None
        | _ => Some (filename head)
        end ∧
    (∀ status, run.1 = Ok status → status = true).
Proof.
  intros Hhead Hfactors Hlayout Hname run.
  set (single := λ r : Result bool * WriterState,
    ∃ rows : list (list Z),
      ws_trace r.2
        = [OpenBlobEvent (filename head)] ++ (WriteBlobEvent <$> rows)
          ++ match r.1 with
             | Ok _ | Thrown _ _ => [CloseBlobEvent]
             | _ => []
             end ∧
      ws_blob r.2
        = match r.1 with
          | Ok _ | Thrown _ _ => None
          | _ => Some (filename head)
          end ∧
      (∀ status, r.1 = Ok status → status = true)).
  change (single run). subst run.
  unfold WriteYUVImage. unfold mbind at 1, M_bind at 1, current_image at 1.
  simpl. rewrite Hhead, Hfactors. rewrite decide_True by done.
  unfold mbind at 1, M_bind at 1, OpenBlob_write at 1.
  unfold mbind at 1, M_bind at 1, current_image at 1. simpl.
  rewrite Hhead. unfold mbind at 1, M_bind at 1, get at 1. simpl.
  rewrite Hname. unfold modify at 1. simpl.
  unfold mbind at 1, M_bind at 1, get at 1.
  unfold mbind at 1, M_bind at 1.
  match goal with |- context [do_while ?fuel ?frame ?cond ?s] =>
    pose proof (writes_only_do_while frame cond
      (writes_only_write_frame _ _ _ _ _ Hlayout) fuel s) as Hloop;
    destruct (do_while fuel frame cond s) as [[[]| | | |] s1]
  end; simpl in Hloop; destruct Hloop as (_ & rows & Hblob & Htrace);
    simpl in Hblob, Htrace; exists rows; simpl;
    rewrite ?Htrace, ?Hblob, ?app_nil_r; try done.
  split_and!; [done|done|].
  by intros status [= <-].
Qed.
End SingleStream.

Lemma WriteYUVImage_open_failure_witness :
  let images := [Examples.partition_frame] in
  let name := AppendImageFormat (MagickCore := Reference.Q16) "Y"
                (filename Examples.partition_frame) in
  (images !! 0%nat = Some Examples.partition_frame ∧
   sampling_factors (H := Reference.Q16)
     (sampling_factor Examples.partition_info) = Some (2, 2) ∧
   (λ _ : string, false) name = false) ∧
  WriteYUVImage (H := Reference.Q16) Examples.partition_info
    (writer_entry (λ _, false) images)
  = (OpenFailed,
     {| ws_writable := λ _, false;
        ws_images := [set_filename name Examples.partition_frame];
        ws_image := 0; ws_blob := None; ws_trace := [] |}).
Proof.
  intros images name. split; [by split_and!|].
  exact (WriteYUVImage_open_failure (H := Reference.Q16)
           Examples.partition_info (λ _, false) images
           Examples.partition_frame 2 2 eq_refl eq_refl eq_refl).
Defined.

Lemma write_frame_resize_failure_witness :
  let image := Examples.frame NoInterlace 0 0 8 [] in
  let st := {| ws_writable := λ _, true; ws_images := [image];
               ws_image := 0; ws_blob := Some "frame.yuv";
               ws_trace := [OpenBlobEvent "frame.yuv"] |} in
  let source := set_depth 8 image in
  (ws_images st !! ws_image st = Some image ∧
   (2 = 1 ∨ 2 = 2) ∧ (1 = 1 ∨ 1 = 2) ∧
   0 ≤ columns image < 2 ^ 63 ∧ 0 ≤ rows image < 2 ^ 63 ∧
   (ResizeImage (MagickCore := Reference.Q16) source
      (columns image + columns image mod 2) (rows image + rows image mod 1)
    = None ∨
    ResizeImage (MagickCore := Reference.Q16) source
      ((columns image + columns image mod 2) / 2)
      ((rows image + rows image mod 1) / 1) = None)) ∧
  ((columns image + columns image mod 2) mod 2 = 0 ∧
   (rows image + rows image mod 1) mod 1 = 0) ∧
  ∃ reason,
    write_frame (H := Reference.Q16) Examples.small_info 1 NoInterlace 2 1 st
    = (Thrown ResourceLimitError reason,
       {| ws_writable := ws_writable st; ws_images := [source];
          ws_image := 0; ws_blob := None;
          ws_trace := [OpenBlobEvent "frame.yuv"; CloseBlobEvent] |}).
Proof.
  intros image st source.
  assert (0 ≤ 0 < 2 ^ 63) as Hzero by done.
  split.
  - split_and!; try done; [by right|by left|by left].
  - exact (write_frame_resize_failure (H := Reference.Q16)
             Examples.small_info 1 NoInterlace 2 1 st image eq_refl
             (or_intror eq_refl) (or_introl eq_refl) Hzero Hzero
             (or_introl eq_refl)).
Defined.

Lemma WriteYUVImage_single_stream_witness :
  let images := [Examples.deep_frame] in
  let run := WriteYUVImage (H := Reference.Q16) Examples.deep_info
               (writer_entry (λ _, true) images) in
  (images !! 0%nat = Some Examples.deep_frame ∧
   sampling_factors (H := Reference.Q16)
     (sampling_factor Examples.deep_info) = Some (2, 1) ∧
   effective_interlace (interlace Examples.deep_frame) 1
     ≠ PartitionInterlace ∧
   (λ _ : string, true) (filename Examples.deep_frame) = true) ∧
  ∃ rows : list (list Z),
    ws_trace run.2
      = [OpenBlobEvent (filename Examples.deep_frame)]
        ++ (WriteBlobEvent <$> rows)
        ++ match run.1 with
           | Ok _ | Thrown _ _ => [CloseBlobEvent]
           | _ => []
           end ∧
    ws_blob run.2
      = match run.1 with
        | Ok _ | Thrown _ _ => None
        | _ => Some (filename Examples.deep_frame)
        end ∧
    (∀ status, run.1 = Ok status → status = true).
Proof.
  intros images run.
  assert (effective_interlace (interlace Examples.deep_frame) 1
          ≠ PartitionInterlace) as Hlayout by done.
  split; [by split_and!|].
  exact (WriteYUVImage_single_stream (H := Reference.Q16)
           Examples.deep_info (λ _, true) images Examples.deep_frame 2 1
           eq_refl eq_refl Hlayout eq_refl).
Defined.

Lemma WriteYUVImage_without_adjoin_witness :
  let images := [Examples.deep_frame; Examples.twelve_bit_frame] in
  let run := WriteYUVImage (H := Reference.Q16) Examples.deep_info
               (writer_entry (λ _, true) images) in
  adjoin Examples.deep_info = false ∧
  (∀ k, k ≠ 0%nat → ws_images run.2 !! k = images !! k) ∧
  (ws_image run.2 ≤ 1)%nat.
Proof.
  intros images run. split; [done|].
  exact (WriteYUVImage_without_adjoin (H := Reference.Q16)
           Examples.deep_info (λ _, true) images eq_refl).
Defined.

(** ** The exceptions of the two entry points *)

Section ThrowsOnly.
Context {St : Type} (allowed : ExceptionType → string → Prop).

Lemma throws_only_ret {A} (a : A) : throws_only allowed (mret a : M St A).
Proof. by intros st severity reason. Qed.

Lemma throws_only_bind {A B} (m : M St A) (f : A → M St B) :
  throws_only allowed m → (∀ a, throws_only allowed (f a)) →
  throws_only allowed (m ≫= f).
Proof.
  intros Hm Hf st severity reason. unfold mbind, M_bind.
  specialize (Hm st severity reason).
  destruct (m st) as [[a| | | |] st']; simpl in *;
    [apply Hf|intros [= <- <-]; by apply Hm|done..].
Qed.

Lemma throws_only_throw {A} severity reason :
  allowed severity reason →
  throws_only allowed (throw severity reason : M St A).
Proof. by intros Hallowed st ? ? [= <- <-]. Qed.

Lemma throws_only_thrown {A} (m : M St A) severity reason :
  allowed severity reason →
  (∀ st, (m st).1 = Thrown severity reason) → throws_only allowed m.
Proof. intros Hallowed Hm st ? ?. rewrite Hm. by intros [= <- <-]. Qed.

Lemma throws_only_get : throws_only allowed (get : M St St).
Proof. by intros st severity reason. Qed.

Lemma throws_only_gets {A} (f : St → A) : throws_only allowed (gets f).
Proof. by intros st severity reason. Qed.

Lemma throws_only_modify (f : St → St) : throws_only allowed (modify f).
Proof. by intros st severity reason. Qed.

Lemma throws_only_defined {A} (o : option A) :
  throws_only allowed (defined o : M St A).
Proof. by destruct o; intros st severity reason. Qed.

Lemma throws_only_open_failed {A} :
  throws_only allowed (open_failed : M St A).
Proof. by intros st severity reason. Qed.

Lemma throws_only_undefined {A} : throws_only allowed (undefined : M St A).
Proof. by intros st severity reason. Qed.

Lemma throws_only_rows_fuel (body : Z → M St bool) (limit : Z) :
  (∀ y, throws_only allowed (body y)) →
  ∀ fuel y, throws_only allowed (rows_fuel fuel y limit body).
Proof.
  intros Hbody fuel. induction fuel as [|fuel IH]; intros y; simpl.
  - by case_decide; intros st ? ?.
  - case_decide; [|apply throws_only_ret].
    apply throws_only_bind; [done|].
    intros [|]; [apply IH|apply throws_only_ret].
Qed.

Lemma throws_only_for_rows (body : Z → M St bool) (limit : Z) :
  (∀ y, throws_only allowed (body y)) →
  throws_only allowed (for_rows limit body).
Proof. intros. by apply throws_only_rows_fuel. Qed.

Lemma throws_only_do_while (frame : M St bool) (condition : St → bool) :
  throws_only allowed frame →
  ∀ fuel, throws_only allowed (do_while fuel frame condition).
Proof.
  intros Hframe fuel. induction fuel as [|fuel IH]; simpl;
    [by intros st ? ?|].
  apply throws_only_bind; [done|]. intros continue.
  apply throws_only_bind; [apply throws_only_get|]. intros st.
  destruct (continue && condition st); [done|apply throws_only_ret].
Qed.
End ThrowsOnly.

Section WriterExceptions.
Context `{MagickCore}.
Context (allowed : ExceptionType → string → Prop).

Lemma throws_only_current_image : throws_only allowed current_image.
Proof. intros st ? ?. unfold current_image. by destruct (_ !! _). Qed.

Lemma throws_only_OpenBlob_write : throws_only allowed OpenBlob_write.
Proof.
  unfold OpenBlob_write.
  apply throws_only_bind; [apply throws_only_current_image|]. intros image.
  apply throws_only_bind; [apply throws_only_get|]. intros st.
  destruct (ws_writable st _);
    [apply throws_only_modify|apply throws_only_open_failed].
Qed.

Lemma throws_only_next_partition format :
  throws_only allowed (next_partition format).
Proof.
  unfold next_partition.
  apply throws_only_bind; [apply throws_only_modify|]. intros _.
  apply throws_only_bind; [apply throws_only_modify|]. intros _.
  apply throws_only_OpenBlob_write.
Qed.

Lemma throws_only_write_plane component quantum source :
  throws_only allowed (write_plane component quantum source).
Proof.
  unfold write_plane. apply throws_only_for_rows. intros y.
  destruct (GetVirtualPixels source y); [|apply throws_only_ret].
  apply throws_only_bind; [apply throws_only_defined|]. intros bytes.
  apply throws_only_bind; [apply throws_only_modify|]. intros _.
  apply throws_only_ret.
Qed.

Lemma throws_only_write_frame image_info quantum interlace
    horizontal_factor vertical_factor :
  (∀ reason, allowed ResourceLimitError reason) →
  throws_only allowed
    (write_frame image_info quantum interlace
       horizontal_factor vertical_factor).
Proof.
  intros Hallowed. unfold write_frame.
  apply throws_only_bind; [apply throws_only_modify|]. intros _.
  apply throws_only_bind; [apply throws_only_current_image|]. intros image.
  assert (∀ A, throws_only allowed
            (ThrowWriterException (A := A) image_info
               ResourceLimitError "ResizeImage")) as Hthrow.
  { intros A. eapply throws_only_thrown; [apply Hallowed|].
    intros st. by rewrite ThrowWriterException_run. }
  destruct (ResizeImage _ _ _) as [yuv_image|]; [|apply Hthrow].
  apply throws_only_bind; [apply throws_only_defined|]. intros chroma_columns.
  apply throws_only_bind; [apply throws_only_defined|]. intros chroma_rows.
  destruct (ResizeImage _ _ _) as [chroma_image|]; [|apply Hthrow].
  apply throws_only_bind.
  { case_decide.
    - apply throws_only_for_rows. intros y.
      destruct (GetVirtualPixels _ y); [|apply throws_only_ret].
      destruct (GetVirtualPixels _ y); [|apply throws_only_ret].
      apply throws_only_bind; [apply throws_only_defined|]. intros bytes.
      apply throws_only_bind; [apply throws_only_modify|]. intros _.
      apply throws_only_ret.
    - apply throws_only_bind; [apply throws_only_write_plane|]. intros _.
      apply throws_only_bind.
      { case_decide; [apply throws_only_next_partition|apply throws_only_ret]. }
      intros _.
      apply throws_only_bind; [apply throws_only_write_plane|]. intros _.
      apply throws_only_bind.
      { case_decide; [apply throws_only_next_partition|apply throws_only_ret]. }
      intros _. apply throws_only_write_plane. }
  intros _. apply throws_only_bind.
  { case_decide; [apply throws_only_modify|apply throws_only_ret]. }
  intros _. apply throws_only_bind; [apply throws_only_get|]. intros st.
  case_decide; [|apply throws_only_ret].
  apply throws_only_bind; [apply throws_only_modify|]. intros _.
  apply throws_only_ret.
Qed.
End WriterExceptions.

Section ReaderExceptions.
Context `{MagickCore}.
Context (allowed : ExceptionType → string → Prop).

Lemma throws_only_OpenBlob_read : throws_only allowed OpenBlob_read.
Proof.
  unfold OpenBlob_read.
  apply throws_only_bind; [apply throws_only_get|]. intros st.
  destruct (rs_files st _);
    [apply throws_only_modify|apply throws_only_open_failed].
Qed.

Lemma throws_only_ReadBlob length : throws_only allowed (ReadBlob length).
Proof.
  unfold ReadBlob.
  apply throws_only_bind; [apply throws_only_get|]. intros st.
  destruct (rs_blob st); [|apply throws_only_undefined].
  case_decide; [|apply throws_only_undefined].
  apply throws_only_bind; [apply throws_only_modify|]. intros _.
  apply throws_only_modify.
Qed.

Lemma throws_only_DiscardBlobBytes length :
  throws_only allowed (DiscardBlobBytes length).
Proof.
  unfold DiscardBlobBytes.
  apply throws_only_bind; [apply throws_only_get|]. intros st.
  destruct (rs_blob st); [|apply throws_only_undefined].
  apply throws_only_bind; [apply throws_only_modify|]. intros _.
  apply throws_only_ret.
Qed.

Lemma throws_only_read_scanline y length :
  throws_only allowed (read_scanline y length).
Proof.
  unfold read_scanline.
  apply throws_only_bind; [apply throws_only_get|]. intros st.
  case_decide; [apply throws_only_ReadBlob|apply throws_only_ret].
Qed.

Lemma throws_only_open_partition format :
  throws_only allowed (open_partition format).
Proof.
  unfold open_partition.
  apply throws_only_bind; [apply throws_only_modify|]. intros _.
  apply throws_only_OpenBlob_read.
Qed.

Lemma throws_only_read_image_rows quantum interlace :
  throws_only allowed (read_image_rows quantum interlace).
Proof.
  unfold read_image_rows.
  apply throws_only_bind; [apply throws_only_get|]. intros st0.
  apply throws_only_for_rows. intros y. case_decide.
  - apply throws_only_bind; [apply throws_only_gets|]. intros image.
    apply throws_only_bind; [apply throws_only_read_scanline|]. intros _.
    apply throws_only_bind; [apply throws_only_get|]. intros st.
    destruct (pixels (rs_image st) !! _); [|apply throws_only_ret].
    destruct (pixels (rs_chroma_image st) !! _); [|apply throws_only_ret].
    apply throws_only_bind; [apply throws_only_defined|].
    intros [row chroma_row].
    apply throws_only_bind; [apply throws_only_modify|]. intros _.
    apply throws_only_bind; [apply throws_only_modify|]. intros _.
    apply throws_only_ret.
  - apply throws_only_bind; [apply throws_only_gets|]. intros image.
    apply throws_only_bind; [apply throws_only_read_scanline|]. intros _.
    apply throws_only_bind; [apply throws_only_get|]. intros st.
    destruct (pixels (rs_image st) !! _); [|apply throws_only_ret].
    apply throws_only_bind; [apply throws_only_defined|]. intros row.
    apply throws_only_bind; [apply throws_only_modify|]. intros _.
    apply throws_only_ret.
Qed.

Lemma throws_only_read_chroma_rows sample quantum :
  throws_only allowed (read_chroma_rows sample quantum).
Proof.
  unfold read_chroma_rows.
  apply throws_only_bind; [apply throws_only_get|]. intros st0.
  apply throws_only_for_rows. intros y.
  apply throws_only_bind; [apply throws_only_gets|]. intros chroma_image.
  apply throws_only_bind; [apply throws_only_ReadBlob|]. intros _.
  apply throws_only_bind; [apply throws_only_get|]. intros st.
  destruct (pixels (rs_chroma_image st) !! _); [|apply throws_only_ret].
  apply throws_only_bind; [apply throws_only_defined|]. intros row.
  apply throws_only_bind; [apply throws_only_modify|]. intros _.
  apply throws_only_ret.
Qed.

Lemma throws_only_read_planes quantum interlace :
  throws_only allowed (read_planes quantum interlace).
Proof.
  unfold read_planes.
  apply throws_only_bind.
  { case_decide; [apply throws_only_open_partition|apply throws_only_ret]. }
  intros _.
  apply throws_only_bind; [apply throws_only_read_image_rows|]. intros _.
  apply throws_only_bind.
  { case_decide; [|apply throws_only_ret].
    apply throws_only_bind; [apply throws_only_modify|]. intros _.
    apply throws_only_open_partition. }
  intros _. case_decide; [|apply throws_only_ret].
  apply throws_only_bind; [apply throws_only_read_chroma_rows|]. intros _.
  apply throws_only_bind.
  { case_decide; [|apply throws_only_ret].
    apply throws_only_bind; [apply throws_only_modify|]. intros _.
    apply throws_only_open_partition. }
  intros _. apply throws_only_read_chroma_rows.
Qed.

Lemma throws_only_scale_and_merge :
  allowed ResourceLimitError "MemoryAllocationFailed" →
  throws_only allowed scale_and_merge.
Proof.
  intros Hallowed. unfold scale_and_merge.
  apply throws_only_bind; [apply throws_only_get|]. intros st0.
  destruct (ResizeImage _ _ _) as [resize_image|].
  2: { eapply throws_only_thrown; [apply Hallowed|].
       intros st. by rewrite ThrowReaderException_run. }
  apply throws_only_bind; [|intros _; apply throws_only_modify].
  apply throws_only_for_rows. intros y.
  apply throws_only_bind; [apply throws_only_get|]. intros st.
  destruct (pixels (rs_image st) !! _); [|apply throws_only_ret].
  destruct (pixels resize_image !! _); [|apply throws_only_ret].
  apply throws_only_bind; [apply throws_only_defined|]. intros row.
  apply throws_only_bind; [apply throws_only_modify|]. intros _.
  apply throws_only_ret.
Qed.

Lemma throws_only_read_frame image_info quantum interlace
    horizontal_factor vertical_factor :
  allowed ResourceLimitError "MemoryAllocationFailed" →
  throws_only allowed
    (read_frame image_info quantum interlace
       horizontal_factor vertical_factor).
Proof.
  intros Hallowed. unfold read_frame.
  apply throws_only_bind.
  { unfold acquire_chroma_image.
    apply throws_only_bind; [apply throws_only_gets|]. intros image.
    apply throws_only_bind; [apply throws_only_defined|]. intros ?.
    apply throws_only_bind; [apply throws_only_defined|]. intros ?.
    apply throws_only_modify. }
  intros _. apply throws_only_bind; [apply throws_only_gets|]. intros image.
  destruct (ping image_info && last_scene image_info image);
    [apply throws_only_ret|].
  apply throws_only_bind; [apply throws_only_read_planes|]. intros _.
  apply throws_only_bind; [by apply throws_only_scale_and_merge|]. intros _.
  apply throws_only_bind.
  { case_decide; [apply throws_only_modify|apply throws_only_ret]. }
  intros _. apply throws_only_bind; [apply throws_only_get|]. intros st.
  destruct (rs_eof st).
  { apply throws_only_bind; [apply throws_only_modify|]. intros _.
    apply throws_only_ret. }
  destruct (last_scene image_info (rs_image st)); [apply throws_only_ret|].
  apply throws_only_bind.
  { case_decide; apply throws_only_ReadBlob. }
  intros _. apply throws_only_bind; [apply throws_only_get|]. intros st1.
  apply throws_only_bind; [|intros _; apply throws_only_ret].
  case_decide; [apply throws_only_modify|apply throws_only_ret].
Qed.
End ReaderExceptions.

Section Exceptions.
Context `{MagickCore}.

(** X12.  The exceptions of ReadYUVImage.  It
    throws OptionError, MustSpecifyImageSize, exactly when the image has no
    columns or no rows, and CorruptImageError, UnexpectedSamplingFactor,
    exactly when it has both and the sampling-factor check refuses the
    factors; in both cases nothing has been opened or read.  It throws
    nothing else but ResourceLimitError, MemoryAllocationFailed. *)
Theorem ReadYUVImage_exceptions (frames : nat) (image_info : ImageInfo)
    (files : string → option (list Z)) :
  let entry := reader_entry files image_info in
  let run := ReadYUVImage frames image_info entry in
  let no_size := info_columns image_info = 0 ∨ info_rows image_info = 0 in
  (no_size ↔
   run = (Thrown OptionError "MustSpecifyImageSize", entry)) ∧
  (¬ no_size ∧ sampling_factors (sampling_factor image_info) = None ↔
   run = (Thrown CorruptImageError "UnexpectedSamplingFactor", entry)) ∧
  (∀ severity reason, run.1 = Thrown severity reason →
     run = (Thrown OptionError "MustSpecifyImageSize", entry) ∨
     run = (Thrown CorruptImageError "UnexpectedSamplingFactor", entry) ∨
     (severity = ResourceLimitError ∧ reason = "MemoryAllocationFailed")).
Proof.
  intros entry run no_size.
  set (late := λ (severity : ExceptionType) (reason : string),
         severity = ResourceLimitError ∧ reason = "MemoryAllocationFailed").
  set (cases := λ r : Result (list Image) * ReaderState,
    r = (Thrown OptionError "MustSpecifyImageSize", entry) ∧ no_size
    ∨ r = (Thrown CorruptImageError "UnexpectedSamplingFactor", entry)
      ∧ ¬ no_size ∧ sampling_factors (sampling_factor image_info) = None
    ∨ (∀ severity reason, r.1 = Thrown severity reason →
         late severity reason)
      ∧ ¬ no_size
      ∧ sampling_factors (sampling_factor image_info) ≠ None).
  assert (cases run) as Hcases.
  { subst run. unfold ReadYUVImage.
    unfold mbind at 1, M_bind at 1, gets at 1. simpl. fold no_size.
    destruct (decide no_size) as [Hsize|Hsize]; [by left|]. right.
    destruct (sampling_factors _) as [[horizontal_factor vertical_factor]|];
      [right|by left].
    split; [|done].
    match goal with |- ∀ severity reason, (?m ?e).1 = _ → _ =>
      assert (throws_only late m) as Hm; [|exact (Hm e)]
    end.
    apply throws_only_bind.
    { case_decide; [|apply throws_only_ret].
      apply throws_only_bind; [apply throws_only_OpenBlob_read|]. intros _.
      apply throws_only_bind; [apply throws_only_DiscardBlobBytes|].
      intros [|]; [apply throws_only_ret|apply throws_only_modify]. }
    intros _. apply throws_only_bind; [apply throws_only_modify|]. intros _.
    apply throws_only_bind.
    { apply throws_only_do_while. by apply throws_only_read_frame. }
    intros _. apply throws_only_bind; [apply throws_only_modify|]. intros _.
    apply throws_only_bind; [apply throws_only_get|]. intros st.
    apply throws_only_ret. }
  split_and!.
  - split; [|by intros ->; destruct Hcases as [[? ?]|[[? ?]|[Hlate ?]]];
               [done|done|destruct (Hlate _ _ eq_refl)]].
    intros Hsize. destruct Hcases as [[? ?]|[(_ & ? & _)|(_ & ? & _)]]; done.
  - split.
    + intros [Hsize Hfactors].
      destruct Hcases as [[_ ?]|[[? _]|(_ & _ & ?)]]; done.
    + intros Hrun. destruct Hcases as [[Hrun' _]|[[_ ?]|[Hlate _]]];
        [congruence|done|].
      rewrite Hrun in Hlate. by destruct (Hlate _ _ eq_refl).
  - intros severity reason Hrun.
    destruct Hcases as [[? _]|[[? _]|[Hlate _]]]; [by left|by right; left|].
    right; right. by apply Hlate.
Qed.

(** X13.  The exceptions of WriteYUVImage.  It
    throws CorruptImageError, UnexpectedSamplingFactor, exactly when the
    sampling-factor check refuses the factors, and then nothing has been
    opened, written or assigned.  It throws nothing else but
    ResourceLimitError. *)
Theorem WriteYUVImage_exceptions (image_info : ImageInfo)
    (writable : string → bool) (images : list Image) (head : Image) :
  images !! 0%nat = Some head →
  let entry := writer_entry writable images in
  let run := WriteYUVImage image_info entry in
  (sampling_factors (sampling_factor image_info) = None ↔
   run = (Thrown CorruptImageError "UnexpectedSamplingFactor", entry)) ∧
  (∀ severity reason, run.1 = Thrown severity reason →
     run = (Thrown CorruptImageError "UnexpectedSamplingFactor", entry) ∨
     severity = ResourceLimitError).
Proof.
  intros Hhead entry run.
  set (late := λ (severity : ExceptionType) (reason : string),
         severity = ResourceLimitError).
  set (cases := λ r : Result bool * WriterState,
    r = (Thrown CorruptImageError "UnexpectedSamplingFactor", entry)
      ∧ sampling_factors (sampling_factor image_info) = None
    ∨ (∀ severity reason, r.1 = Thrown severity reason →
         late severity reason)
      ∧ sampling_factors (sampling_factor image_info) ≠ None).
  assert (cases run) as Hcases.
  { subst run. unfold WriteYUVImage.
    unfold mbind at 1, M_bind at 1, current_image at 1. simpl.
    rewrite Hhead.
    destruct (sampling_factors _) as [[horizontal_factor vertical_factor]|];
      [right|left].
    2: { split; [|done]. rewrite ThrowWriterException_run.
         unfold ws_thrown, entry, writer_entry. simpl.
         by destruct (adjoin image_info). }
    split; [|done].
    match goal with |- ∀ severity reason, (?m ?e).1 = _ → _ =>
      assert (throws_only late m) as Hm; [|exact (Hm e)]
    end.
    apply throws_only_bind.
    { case_decide; [apply throws_only_OpenBlob_write|].
      apply throws_only_bind; [apply throws_only_modify|]. intros _.
      apply throws_only_OpenBlob_write. }
    intros _. apply throws_only_bind; [apply throws_only_get|]. intros st.
    apply throws_only_bind.
    { apply throws_only_do_while. apply throws_only_write_frame.
      by intros reason. }
    intros _. apply throws_only_bind; [apply throws_only_modify|]. intros _.
    apply throws_only_ret. }
  split.
  - split.
    + intros Hfactors. destruct Hcases as [[? _]|[_ ?]]; done.
    + intros Hrun. destruct Hcases as [[_ ?]|[Hlate _]]; [done|].
      rewrite Hrun in Hlate. by specialize (Hlate _ _ eq_refl).
  - intros severity reason Hrun.
    destruct Hcases as [[? _]|[Hlate _]]; [by left|].
    right. by eapply Hlate.
Qed.
End Exceptions.

Lemma WriteYUVImage_exceptions_witness :
  let images := [Examples.bad_axis_frame] in
  let entry := writer_entry (λ _, true) images in
  let run := WriteYUVImage (H := Reference.Q16) Examples.refused_info entry in
  (images !! 0%nat = Some Examples.bad_axis_frame ∧
   sampling_factors (H := Reference.Q16)
     (sampling_factor Examples.refused_info) = None ∧
   run = (Thrown CorruptImageError "UnexpectedSamplingFactor", entry)) ∧
  (sampling_factors (H := Reference.Q16)
     (sampling_factor Examples.refused_info) = None ↔
   run = (Thrown CorruptImageError "UnexpectedSamplingFactor", entry)) ∧
  (∀ severity reason, run.1 = Thrown severity reason →
     run = (Thrown CorruptImageError "UnexpectedSamplingFactor", entry) ∨
     severity = ResourceLimitError).
Proof.
  intros images entry run. split; [by split_and!|].
  exact (WriteYUVImage_exceptions (H := Reference.Q16)
           Examples.refused_info (λ _, true) images
           Examples.bad_axis_frame eq_refl).
Defined.

(** ** What a frame writes *)

(** A row loop whose body goes through every row under an invariant
    indexed by the row. *)
Lemma rows_fuel_run {St : Type} (Inv : Z → St → Prop)
    (body : Z → M St bool) (limit : Z) :
  (∀ y st, Inv y st → 0 ≤ y < limit →
     ∃ st', body y st = (Ok true, st') ∧ Inv (y + 1) st') →
  ∀ fuel y st, Inv y st → 0 ≤ y ≤ limit →
    (Z.to_nat (limit - y) ≤ fuel)%nat →
    ∃ st', rows_fuel fuel y limit body st = (Ok (), st') ∧ Inv limit st'.
Proof.
  intros Hbody fuel. induction fuel as [|fuel IH]; intros y st Hst Hy Hfuel;
    simpl.
  - rewrite decide_False by lia. exists st. split; [done|].
    by replace limit with y by lia.
  - case_decide.
    + destruct (Hbody y st) as (st1 & Hrun & Hst1); [done|lia|].
      unfold mbind, M_bind. rewrite Hrun. apply IH; [done|lia|lia].
    + exists st. split; [done|]. by replace limit with y by lia.
Qed.

Lemma for_rows_run {St : Type} (Inv : Z → St → Prop)
    (body : Z → M St bool) (limit : Z) (st : St) :
  0 ≤ limit →
  (∀ y st, Inv y st → 0 ≤ y < limit →
     ∃ st', body y st = (Ok true, st') ∧ Inv (y + 1) st') →
  Inv 0 st →
  ∃ st', for_rows limit body st = (Ok (), st') ∧ Inv limit st'.
Proof.
  intros Hlimit Hbody Hst. unfold for_rows.
  eapply rows_fuel_run; [done|done|lia|lia].
Qed.

Lemma written_written (rows rows' : list (list Z)) (st : WriterState) :
  written rows' (written rows st) = written (rows ++ rows') st.
Proof. unfold written. simpl. by rewrite fmap_app, app_assoc. Qed.

Lemma written_nil (st : WriterState) : written [] st = st.
Proof. destruct st. unfold written. simpl. by rewrite app_nil_r. Qed.

Section FrameOutput.
Context `{MagickCore}.

(** The row of a shaped image. *)
Lemma shaped_row (image : Image) (y : Z) :
  shaped image → 0 ≤ y < rows image →
  ∃ row, GetVirtualPixels image y = Some row ∧
         length row = (Z.to_nat (columns image) * GetPixelChannels)%nat.
Proof.
  intros (Hcolumns & Hrows & Hlength & Hall) Hy. unfold GetVirtualPixels.
  destruct (lookup_lt_is_Some_2 (pixels image) (Z.to_nat y)) as [row Hrow];
    [lia|].
  exists row. split; [done|].
  by apply (Forall_lookup_1 _ _ _ _ Hall Hrow).
Qed.

(** One colour component of a row of pixels is encoded through. *)
Lemma encode_component_row (slot : nat) (quantum row_columns : Z)
    (row : PixelRow) :
  (slot < GetPixelChannels)%nat →
  quantum = 1 ∨ quantum = 2 →
  0 ≤ row_columns →
  length row = (Z.to_nat row_columns * GetPixelChannels)%nat →
  ∃ bytes,
    encode_plane_row (λ row p, row !! (p + slot)%nat)
      quantum row_columns row = Some bytes ∧
    length bytes = (Z.to_nat row_columns * Z.to_nat quantum)%nat.
Proof.
  intros Hslot Hquantum Hcolumns Hrow.
  pose proof (encode_plane_row_spec (λ row p, row !! (p + slot)%nat)
                quantum row_columns row
                (λ x, row !!! (x * GetPixelChannels + slot)%nat) Hcolumns)
    as Hrun.
  eexists. split.
  - apply Hrun. intros x Hx. apply list_lookup_lookup_total_lt.
    rewrite Hrow. nia.
  - eapply encode_plane_row_length; [done|done|].
    apply Hrun. intros x Hx. apply list_lookup_lookup_total_lt.
    rewrite Hrow. nia.
Qed.

(** A plane of a shaped image is written through, row by row. *)
Lemma write_plane_run (component : PixelRow → nat → option Quantum)
    (quantum : Z) (source : Image) (st : WriterState) :
  shaped source →
  (∀ row, length row
          = (Z.to_nat (columns source) * GetPixelChannels)%nat →
     ∃ bytes,
       encode_plane_row component quantum (columns source) row
         = Some bytes ∧
       length bytes = (Z.to_nat (columns source) * Z.to_nat quantum)%nat) →
  ∃ rows : list (list Z),
    write_plane component quantum source st = (Ok (), written rows st) ∧
    Forall2 (λ p bytes,
               encode_plane_row component quantum (columns source) p
               = Some bytes)
      (pixels source) rows ∧
    Forall (λ bytes, length bytes
                     = (Z.to_nat (columns source) * Z.to_nat quantum)%nat)
      rows.
Proof.
  intros Hshaped Hencode.
  pose proof Hshaped as (Hcolumns & Hrows & Hlength & Hall).
  unfold write_plane.
  edestruct (for_rows_run
    (λ y s, ∃ rows : list (list Z),
       s = written rows st ∧
       Forall2 (λ p bytes,
                  encode_plane_row component quantum (columns source) p
                  = Some bytes)
         (take (Z.to_nat y) (pixels source)) rows ∧
       Forall (λ bytes, length bytes
                 = (Z.to_nat (columns source) * Z.to_nat quantum)%nat)
         rows)
    (λ y,
       match GetVirtualPixels source y with
       | None => mret false
       | Some p =>
           bytes ← defined
             (encode_plane_row component quantum (columns source) p);
           log (WriteBlobEvent bytes);;
           mret true
       end)
    (rows source) st) as (st' & Hrun & rows & -> & Hrows' & Hlengths);
    [exact Hrows| |..].
  - intros y s (rows & -> & Hdone & Hlengths) Hy.
    destruct (shaped_row source y) as (p & Hp & Hlen); [done..|].
    rewrite Hp. destruct (Hencode p Hlen) as (bytes & Hbytes & Hsize).
    rewrite Hbytes. eexists. split; [done|].
    exists (rows ++ [bytes]). split_and!.
    + unfold mbind, M_bind, defined, log, modify, written. simpl.
      by rewrite fmap_app, app_assoc.
    + replace (Z.to_nat (y + 1)) with (S (Z.to_nat y)) by lia.
      erewrite take_S_r by exact Hp.
      apply Forall2_app; [done|]. by constructor.
    + apply Forall_app. split; [done|]. by constructor.
  - exists []. split_and!; [by rewrite written_nil|by constructor|done].
  - exists rows. split_and!; [exact Hrun| |done].
    by rewrite take_ge in Hrows' by lia.
Qed.

(** A step that ends normally hands its result and state on. *)
Lemma bind_Ok {St A B : Type} (m : M St A) (f : A → M St B)
    (st st' : St) (a : A) :
  m st = (Ok a, st') → (m ≫= f) st = f a st'.
Proof. intros Hm. unfold mbind, M_bind. by rewrite Hm. Qed.

Lemma bind_ret {St A B : Type} (a : A) (f : A → M St B) (st : St) :
  (mret a ≫= f) st = f a st.
Proof. done. Qed.

Lemma defined_Some {St A : Type} (a : A) :
  (defined (Some a) : M St A) = mret a.
Proof. done. Qed.

(** The padded extent divided by its factor, at type [size_t]. *)
Lemma padded_div (extent factor : Z) :
  factor = 1 ∨ factor = 2 → 0 ≤ extent < 2 ^ 63 →
  size_t_div (extent + extent mod factor) factor
  = Some ((extent + extent mod factor) / factor).
Proof.
  intros Hfactor Hextent. unfold size_t_div, to_size_t, size_t_bits.
  assert (2 ^ 63 < 2 ^ 64) by done.
  pose proof (Z.mod_pos_bound extent factor).
  rewrite (Z.mod_small factor), (Z.mod_small (_ + _)) by lia.
  rewrite decide_False by lia. done.
Qed.

(** The total of rows of one length. *)
Lemma join_length_uniform {A} (rows : list (list A)) (size : nat) :
  Forall (λ row, length row = size) rows →
  length (mjoin rows) = (length rows * size)%nat.
Proof.
  induction 1 as [|row rows Hrow _ IH]; [done|].
  simpl. rewrite length_app, IH, Hrow. lia.
Qed.

(** X14.  What a frame writes in the plane
    layout.  When ResizeImage delivers the two working copies and their
    pixel caches have their geometry, the frame is written through: first
    the Y plane, the red samples of the YCbCr copy row by row, then the U
    plane, the green samples of the chroma copy, then the V plane, its blue
    samples, every sample in [quantum] bytes.  A frame whose YCbCr copy is
    W by H and whose chroma copy is Wc by Hc is
    [quantum * (W * H + 2 * Wc * Hc)] bytes. *)
Theorem write_frame_plane_layout (image_info : ImageInfo) (quantum : Z)
    (horizontal_factor vertical_factor : Z)
    (st : WriterState) (image yuv chroma : Image) :
  component_map_wf component_map →
  quantum = 1 ∨ quantum = 2 →
  ws_images st !! ws_image st = Some image →
  horizontal_factor = 1 ∨ horizontal_factor = 2 →
  vertical_factor = 1 ∨ vertical_factor = 2 →
  0 ≤ columns image < 2 ^ 63 →
  0 ≤ rows image < 2 ^ 63 →
  let source := set_depth (if decide (quantum = 1) then 8 else 16) image in
  let width := columns image + columns image mod horizontal_factor in
  let height := rows image + rows image mod vertical_factor in
  ResizeImage source width height = Some yuv →
  ResizeImage source (width / horizontal_factor) (height / vertical_factor)
    = Some chroma →
  let yuv_image := TransformImageColorspace yuv YCbCrColorspace in
  let chroma_image := TransformImageColorspace chroma YCbCrColorspace in
  shaped yuv_image →
  shaped chroma_image →
  ∃ (ys us vs : list (list Z)) (continue : bool) (st' : WriterState),
    write_frame image_info quantum PlaneInterlace
      horizontal_factor vertical_factor st = (Ok continue, st') ∧
    ws_trace st' = ws_trace st ++ (WriteBlobEvent <$> ys ++ us ++ vs) ∧
    Forall2 (λ p bytes,
               encode_plane_row GetPixelRed quantum (columns yuv_image) p
               = Some bytes) (pixels yuv_image) ys ∧
    Forall2 (λ p bytes,
               encode_plane_row GetPixelGreen quantum
                 (columns chroma_image) p = Some bytes)
      (pixels chroma_image) us ∧
    Forall2 (λ p bytes,
               encode_plane_row GetPixelBlue quantum
                 (columns chroma_image) p = Some bytes)
      (pixels chroma_image) vs ∧
    Z.of_nat (length (mjoin (ys ++ us ++ vs)))
    = quantum * (columns yuv_image * rows yuv_image
                 + 2 * (columns chroma_image * rows chroma_image)).
Proof.
  intros Hwf Hquantum Himage Hh Hv Hcolumns Hrows source width height
    Hyuv Hchroma yuv_image chroma_image Hyuv_shaped Hchroma_shaped.
  pose proof Hwf as (Hr & Hg & Hb & _). fold GetPixelChannels in Hr, Hg, Hb.
  pose proof Hyuv_shaped as (Hyc & Hyr & Hyl & _).
  pose proof Hchroma_shaped as (Hcc & Hcr & Hcl & _).
  unfold write_frame.
  unfold mbind at 1, M_bind at 1, assign at 1, modify at 1.
  unfold mbind at 1, M_bind at 1, current_image at 1. simpl.
  rewrite list_lookup_alter_eq, Himage. simpl. fold source.
  rewrite !padded_extent by done. fold width height. rewrite Hyuv.
  subst width height. rewrite !padded_div by done.
  rewrite !defined_Some, !bind_ret.
  rewrite Hchroma. fold yuv_image chroma_image.
  match goal with |- context [(_ ≫= _) ?s] => set (s1 := s) end.
  destruct (write_plane_run GetPixelRed quantum yuv_image s1)
    as (ys & Hys & Hys_rows & Hys_len); [done| |].
  { intros row Hrow.
    by apply (encode_component_row (RedPixelComponent component_map)). }
  destruct (write_plane_run GetPixelGreen quantum chroma_image
              (written ys s1)) as (us & Hus & Hus_rows & Hus_len); [done| |].
  { intros row Hrow.
    by apply (encode_component_row (GreenPixelComponent component_map)). }
  destruct (write_plane_run GetPixelBlue quantum chroma_image
              (written us (written ys s1)))
    as (vs & Hvs & Hvs_rows & Hvs_len); [done| |].
  { intros row Hrow.
    by apply (encode_component_row (BluePixelComponent component_map)). }
  assert ((write_plane GetPixelRed quantum yuv_image;;
           mret ();;
           write_plane GetPixelGreen quantum chroma_image;;
           mret ();;
           write_plane GetPixelBlue quantum chroma_image) s1
          = (Ok (), written (ys ++ us ++ vs) s1)) as Hplanes.
  { rewrite (bind_Ok _ _ _ _ _ Hys).
    rewrite bind_ret, (bind_Ok _ _ _ _ _ Hus).
    rewrite bind_ret, Hvs.
    by rewrite !written_written. }
  rewrite (bind_Ok _ _ _ _ _ Hplanes).
  rewrite bind_ret.
  unfold mbind at 1, M_bind at 1, get at 1.
  exists ys, us, vs.
  assert (Z.of_nat (length (mjoin (ys ++ us ++ vs)))
          = quantum * (columns yuv_image * rows yuv_image
                       + 2 * (columns chroma_image * rows chroma_image)))
    as Htotal.
  { rewrite !join_app, !length_app.
    rewrite (join_length_uniform ys _ Hys_len),
      (join_length_uniform us _ Hus_len), (join_length_uniform vs _ Hvs_len).
    apply Forall2_length in Hys_rows, Hus_rows, Hvs_rows.
    rewrite <- Hys_rows, <- Hus_rows, <- Hvs_rows, Hyl, Hcl.
    destruct Hquantum as [-> | ->]; nia. }
  destruct (decide (S _ < _)%nat).
  - unfold mbind, M_bind, modify. simpl. eexists _, _.
    split_and!; [done|done|done..].
  - eexists _, _. split_and!; [done|done|done..].
Qed.

(** X15.  What a frame writes in the
    non-interlaced layout.  When ResizeImage delivers the two working
    copies, their pixel caches have their geometry, the YCbCr copy has an
    even number of columns and the chroma copy has a row for each of its
    rows, with at least half as many pixels, the frame is written
    through: one scanline for each row of the YCbCr copy, encoded from this
    row and the row of the chroma copy with the same number.  A scanline
    is [2 * columns] bytes at sample width 1 and [3 * columns] bytes at
    sample width 2, where two-byte chroma would make it [4 * columns]. *)
Theorem write_frame_noninterlaced_layout (image_info : ImageInfo)
    (quantum : Z) (horizontal_factor vertical_factor : Z)
    (st : WriterState) (image yuv chroma : Image) :
  component_map_wf component_map →
  ws_images st !! ws_image st = Some image →
  horizontal_factor = 1 ∨ horizontal_factor = 2 →
  vertical_factor = 1 ∨ vertical_factor = 2 →
  0 ≤ columns image < 2 ^ 63 →
  0 ≤ rows image < 2 ^ 63 →
  let source := set_depth (if decide (quantum = 1) then 8 else 16) image in
  let width := columns image + columns image mod horizontal_factor in
  let height := rows image + rows image mod vertical_factor in
  ResizeImage source width height = Some yuv →
  ResizeImage source (width / horizontal_factor) (height / vertical_factor)
    = Some chroma →
  let yuv_image := TransformImageColorspace yuv YCbCrColorspace in
  let chroma_image := TransformImageColorspace chroma YCbCrColorspace in
  shaped yuv_image →
  shaped chroma_image →
  Z.even (columns yuv_image) = true →
  columns yuv_image ≤ 2 * columns chroma_image →
  rows yuv_image ≤ rows chroma_image →
  ∃ (scanlines : list (list Z)) (continue : bool) (st' : WriterState),
    write_frame image_info quantum NoInterlace
      horizontal_factor vertical_factor st = (Ok continue, st') ∧
    ws_trace st' = ws_trace st ++ (WriteBlobEvent <$> scanlines) ∧
    length scanlines = Z.to_nat (rows yuv_image) ∧
    (∀ (y : nat) bytes, scanlines !! y = Some bytes →
       ∃ p s, pixels yuv_image !! y = Some p ∧
              pixels chroma_image !! y = Some s ∧
              encode_noninterlaced_row quantum (columns yuv_image) p s
              = Some bytes ∧
              Z.of_nat (length bytes)
              = (if decide (quantum = 1) then 2 else 3)
                * columns yuv_image).
Proof.
  intros Hwf Himage Hh Hv Hcolumns Hrows source width height
    Hyuv Hchroma yuv_image chroma_image Hyuv_shaped Hchroma_shaped
    Heven Hhalf Hchroma_rows.
  pose proof Hyuv_shaped as (Hyc & Hyr & Hyl & _).
  pose proof Hchroma_shaped as (Hcc & Hcr & Hcl & _).
  apply Zeven_bool_iff, Zeven_ex_iff in Heven as [n Hn].
  unfold write_frame.
  unfold mbind at 1, M_bind at 1, assign at 1, modify at 1.
  unfold mbind at 1, M_bind at 1, current_image at 1. simpl.
  rewrite list_lookup_alter_eq, Himage. simpl. fold source.
  rewrite !padded_extent by done. fold width height. rewrite Hyuv.
  subst width height. rewrite !padded_div by done.
  rewrite !defined_Some, !bind_ret.
  rewrite Hchroma. fold yuv_image chroma_image.
  match goal with |- context [(_ ≫= _) ?s] => set (s1 := s) end.
  destruct (for_rows_run
    (λ y s, ∃ scanlines : list (list Z),
       s = written scanlines s1 ∧
       length scanlines = Z.to_nat y ∧
       (∀ (y' : nat) bytes, scanlines !! y' = Some bytes →
          ∃ p s, pixels yuv_image !! y' = Some p ∧
                 pixels chroma_image !! y' = Some s ∧
                 encode_noninterlaced_row quantum (columns yuv_image) p s
                 = Some bytes ∧
                 Z.of_nat (length bytes)
                 = (if decide (quantum = 1) then 2 else 3)
                   * columns yuv_image))
    (λ y,
       match GetVirtualPixels yuv_image y with
       | None => mret false
       | Some p =>
           match GetVirtualPixels chroma_image y with
           | None => mret false
           | Some s =>
               bytes ← defined (encode_noninterlaced_row quantum
                                  (columns yuv_image) p s);
               log (WriteBlobEvent bytes);;
               mret true
           end
       end)
    (rows yuv_image) s1)
    as (s2 & Hloop & scanlines & -> & Hlength & Hscanlines); [done| | |].
  - intros y s (scanlines & -> & Hlength & Hscanlines) Hy.
    destruct (shaped_row yuv_image y) as (p & Hp & Hplen); [done..|].
    destruct (shaped_row chroma_image y) as (c & Hc & Hclen); [done|lia|].
    rewrite Hp, Hc.
    assert (∃ bytes, encode_noninterlaced_row quantum
                       (columns yuv_image) p c = Some bytes)
      as [bytes Hbytes].
    { rewrite Hn. eexists.
      apply encode_noninterlaced_row_spec; [done|lia|lia|nia]. }
    rewrite Hbytes. eexists. split; [done|].
    exists (scanlines ++ [bytes]). split_and!.
    + unfold mbind, M_bind, defined, log, modify, written. simpl.
      by rewrite fmap_app, app_assoc.
    + rewrite length_app. simpl. lia.
    + intros y' bytes' Hy'.
      apply lookup_app_Some in Hy' as [Hy'|[Hle Hy']];
        [by apply Hscanlines|].
      apply list_lookup_singleton_Some in Hy' as [Hzero <-].
      assert (y' = Z.to_nat y) as -> by lia.
      exists p, c. split_and!; [done|done|done|].
      rewrite Hn. eapply encode_noninterlaced_row_length; [|by rewrite <- Hn].
      lia.
  - exists []. split_and!; [by rewrite written_nil|done|done].
  - rewrite (bind_Ok _ _ _ _ _ Hloop). rewrite bind_ret.
    unfold mbind at 1, M_bind at 1, get at 1.
    exists scanlines. destruct (decide (S _ < _)%nat).
    + unfold mbind, M_bind, modify. simpl. eexists _, _.
      split_and!; [done|done|done..].
    + eexists _, _. split_and!; [done|done|done..].
Qed.
End FrameOutput.

Lemma write_frame_plane_layout_witness :
  let image := Examples.partition_frame in
  let st := writer_entry (λ _, true) [image] in
  let source := set_depth 8 image in
  let yuv := default image
               (ResizeImage (MagickCore := Reference.Q16) source 2 2) in
  let chroma := default image
                  (ResizeImage (MagickCore := Reference.Q16) source 1 1) in
  let yuv_image :=
    TransformImageColorspace (MagickCore := Reference.Q16)
      yuv YCbCrColorspace in
  let chroma_image :=
    TransformImageColorspace (MagickCore := Reference.Q16)
      chroma YCbCrColorspace in
  (component_map_wf (component_map (MagickCore := Reference.Q16)) ∧
   (1 = 1 ∨ 1 = 2) ∧
   ws_images st !! ws_image st = Some image ∧
   (2 = 1 ∨ 2 = 2) ∧ (2 = 1 ∨ 2 = 2) ∧
   0 ≤ columns image < 2 ^ 63 ∧ 0 ≤ rows image < 2 ^ 63 ∧
   ResizeImage (MagickCore := Reference.Q16) source
     (columns image + columns image mod 2) (rows image + rows image mod 2)
   = Some yuv ∧
   ResizeImage (MagickCore := Reference.Q16) source
     ((columns image + columns image mod 2) / 2)
     ((rows image + rows image mod 2) / 2) = Some chroma ∧
   shaped (H := Reference.Q16) yuv_image ∧
   shaped (H := Reference.Q16) chroma_image) ∧
  ∃ (ys us vs : list (list Z)) (continue : bool) (st' : WriterState),
    write_frame (H := Reference.Q16) Examples.partition_info 1
      PlaneInterlace 2 2 st = (Ok continue, st') ∧
    ws_trace st' = ws_trace st ++ (WriteBlobEvent <$> ys ++ us ++ vs) ∧
    Forall2 (λ p bytes,
               encode_plane_row (H := Reference.Q16)
                 (GetPixelRed (H := Reference.Q16)) 1 (columns yuv_image) p
               = Some bytes) (pixels yuv_image) ys ∧
    Forall2 (λ p bytes,
               encode_plane_row (H := Reference.Q16)
                 (GetPixelGreen (H := Reference.Q16)) 1
                 (columns chroma_image) p = Some bytes)
      (pixels chroma_image) us ∧
    Forall2 (λ p bytes,
               encode_plane_row (H := Reference.Q16)
                 (GetPixelBlue (H := Reference.Q16)) 1
                 (columns chroma_image) p = Some bytes)
      (pixels chroma_image) vs ∧
    Z.of_nat (length (mjoin (ys ++ us ++ vs)))
    = 1 * (columns yuv_image * rows yuv_image
           + 2 * (columns chroma_image * rows chroma_image)).
Proof.
  intros image st source yuv chroma yuv_image chroma_image.
  assert (0 ≤ 2 < 2 ^ 63) as Htwo by done.
  assert (shaped (H := Reference.Q16) yuv_image) as Hyuv
    by (repeat split; try done; repeat constructor).
  assert (shaped (H := Reference.Q16) chroma_image) as Hchroma
    by (repeat split; try done; repeat constructor).
  split.
  - split_and!; try done; [exact Q16_component_map_wf|by left|by right..].
  - exact (write_frame_plane_layout (H := Reference.Q16)
             Examples.partition_info 1 2 2 st image yuv chroma
             Q16_component_map_wf (or_introl eq_refl) eq_refl
             (or_intror eq_refl) (or_intror eq_refl) Htwo Htwo
             eq_refl eq_refl Hyuv Hchroma).
Defined.

Lemma write_frame_noninterlaced_layout_witness :
  let image := Examples.partition_frame in
  let st := writer_entry (λ _, true) [image] in
  let source := set_depth 16 image in
  let yuv := default image
               (ResizeImage (MagickCore := Reference.Q16) source 2 2) in
  let chroma := default image
                  (ResizeImage (MagickCore := Reference.Q16) source 1 2) in
  let yuv_image :=
    TransformImageColorspace (MagickCore := Reference.Q16)
      yuv YCbCrColorspace in
  let chroma_image :=
    TransformImageColorspace (MagickCore := Reference.Q16)
      chroma YCbCrColorspace in
  (component_map_wf (component_map (MagickCore := Reference.Q16)) ∧
   ws_images st !! ws_image st = Some image ∧
   (2 = 1 ∨ 2 = 2) ∧ (1 = 1 ∨ 1 = 2) ∧
   0 ≤ columns image < 2 ^ 63 ∧ 0 ≤ rows image < 2 ^ 63 ∧
   ResizeImage (MagickCore := Reference.Q16) source
     (columns image + columns image mod 2) (rows image + rows image mod 1)
   = Some yuv ∧
   ResizeImage (MagickCore := Reference.Q16) source
     ((columns image + columns image mod 2) / 2)
     ((rows image + rows image mod 1) / 1) = Some chroma ∧
   shaped (H := Reference.Q16) yuv_image ∧
   shaped (H := Reference.Q16) chroma_image ∧
   Z.even (columns yuv_image) = true ∧
   columns yuv_image ≤ 2 * columns chroma_image ∧
   rows yuv_image ≤ rows chroma_image) ∧
  ∃ (scanlines : list (list Z)) (continue : bool) (st' : WriterState),
    write_frame (H := Reference.Q16) Examples.deep_info 2 NoInterlace 2 1 st
    = (Ok continue, st') ∧
    ws_trace st' = ws_trace st ++ (WriteBlobEvent <$> scanlines) ∧
    length scanlines = Z.to_nat (rows yuv_image) ∧
    (∀ (y : nat) bytes, scanlines !! y = Some bytes →
       ∃ p s, pixels yuv_image !! y = Some p ∧
              pixels chroma_image !! y = Some s ∧
              encode_noninterlaced_row (H := Reference.Q16) 2
                (columns yuv_image) p s = Some bytes ∧
              Z.of_nat (length bytes)
              = (if decide (2 = 1) then 2 else 3) * columns yuv_image).
Proof.
  intros image st source yuv chroma yuv_image chroma_image.
  assert (0 ≤ 2 < 2 ^ 63) as Htwo by done.
  assert (shaped (H := Reference.Q16) yuv_image) as Hyuv
    by (repeat split; try done; repeat constructor).
  assert (shaped (H := Reference.Q16) chroma_image) as Hchroma
    by (repeat split; try done; repeat constructor).
  assert (columns yuv_image ≤ 2 * columns chroma_image) as Hhalf by done.
  assert (rows yuv_image ≤ rows chroma_image) as Hrows by done.
  split.
  - split_and!; try done; [exact Q16_component_map_wf|by right|by left].
  - exact (write_frame_noninterlaced_layout (H := Reference.Q16)
             Examples.deep_info 2 2 1 st image yuv chroma
             Q16_component_map_wf eq_refl
             (or_intror eq_refl) (or_introl eq_refl) Htwo Htwo
             eq_refl eq_refl Hyuv Hchroma eq_refl Hhalf Hrows).
Defined.

(** ** What a frame reads *)

Lemma set_pixels_same (image : Image) : set_pixels (pixels image) image = image.
Proof. by destruct image. Qed.

Section PlaneReader.
Context `{MagickCore}.

(** ReadBlob on an open blob and a scanline buffer that is long enough. *)
Lemma ReadBlob_run (size : Z) (st : ReaderState) (unread : list Z) :
  rs_blob st = Some unread → 0 ≤ size →
  (Z.to_nat size ≤ length (rs_scanline st))%nat →
  ∃ st',
    ReadBlob size st = (Ok (), st') ∧
    rs_blob st' = Some (drop (Z.to_nat size) unread) ∧
    rs_eof st'
    = rs_eof st || bool_decide (length unread < Z.to_nat size)%nat ∧
    rs_count st' = Z.of_nat (Z.to_nat size `min` length unread) ∧
    take (Z.to_nat size) unread `prefix_of` rs_scanline st' ∧
    length (rs_scanline st') = length (rs_scanline st) ∧
    rs_files st' = rs_files st ∧
    rs_previous st' = rs_previous st ∧
    rs_exceptions st' = rs_exceptions st ∧
    rs_image st' = rs_image st ∧
    rs_chroma_image st' = rs_chroma_image st.
Proof.
  intros Hblob Hsize Hscanline. unfold ReadBlob.
  unfold mbind at 1, M_bind at 1, get at 1. rewrite Hblob.
  pose proof (length_take unread (Z.to_nat size)) as Hcount.
  rewrite decide_True by lia.
  eexists. split; [reflexivity|]. simpl. split_and!; try done.
  - f_equal. destruct (decide (Z.to_nat size ≤ length unread)%nat).
    + f_equal. lia.
    + rewrite Hcount, Nat.min_r, !drop_ge by lia. done.
  - f_equal. apply bool_decide_ext. lia.
  - by rewrite Hcount.
  - by eexists.
  - rewrite length_app, length_drop. lia.
Qed.

(** One turn of a chroma plane loop. *)
Lemma read_chroma_row_step
    (sample : Z → list Z → PlaneCursor → option PlaneCursor)
    (quantum y : Z) (st : ReaderState) (row : PixelRow) :
  (∀ scanline,
     length scanline = length (rs_scanline st) →
     ∃ row',
       decode_plane_row sample quantum (columns (rs_chroma_image st))
         scanline row = Some row' ∧
       length row' = length row) →
  0 ≤ quantum * columns (rs_chroma_image st) →
  is_Some (rs_blob st) →
  (Z.to_nat (quantum * columns (rs_chroma_image st))
   ≤ length (rs_scanline st))%nat →
  pixels (rs_chroma_image st) !! Z.to_nat y = Some row →
  ∃ st',
    (chroma_image ← gets rs_chroma_image;
     ReadBlob (quantum * columns chroma_image);;
     st ← get;
     match pixels (rs_chroma_image st) !! Z.to_nat y with
     | None => mret false
     | Some q =>
         row ← defined
           (decode_plane_row sample quantum (columns (rs_chroma_image st))
              (rs_scanline st) q);
         set_chroma_image (sync_row y row);;
         mret true
     end) st = (Ok true, st') ∧
    reads_row rs_chroma_image rs_image sample quantum (Z.to_nat y) st st'.
Proof.
  intros Hsample Hsize [unread Hblob] Hscanline Hrow.
  destruct (ReadBlob_run _ st unread Hblob Hsize Hscanline)
    as (s & Hread & Hrest & Heof & _ & Hprefix & Hlength & Hfiles
        & Hprevious & Hexceptions & Himage & Hchroma).
  destruct (Hsample (rs_scanline s) Hlength) as (row' & Hrow' & Hlen).
  unfold mbind at 1, M_bind at 1, gets at 1.
  unfold mbind at 1, M_bind at 1. rewrite Hread.
  unfold mbind at 1, M_bind at 1, get at 1.
  rewrite Hchroma, Hrow, Hrow'. rewrite defined_Some, bind_ret.
  eexists. split; [reflexivity|].
  exists unread, row, row'. simpl.
  rewrite Hchroma. split_and!; done.
Qed.

(** One turn of the luma plane loop of the first frame. *)
Lemma read_luma_row_step (quantum y : Z) (st : ReaderState)
    (row : PixelRow) :
  (∀ scanline,
     length scanline = length (rs_scanline st) →
     ∃ row',
       decode_plane_row decode_luma quantum (columns (rs_image st))
         scanline row = Some row' ∧
       length row' = length row) →
  0 ≤ quantum * columns (rs_image st) →
  is_Some (rs_blob st) →
  y > 0 ∨ rs_previous st = [] →
  (Z.to_nat (quantum * columns (rs_image st))
   ≤ length (rs_scanline st))%nat →
  pixels (rs_image st) !! Z.to_nat y = Some row →
  ∃ st',
    (image ← gets rs_image;
     read_scanline y (quantum * columns image);;
     st ← get;
     match pixels (rs_image st) !! Z.to_nat y with
     | None => mret false
     | Some q =>
         row ← defined
           (decode_plane_row decode_luma quantum (columns (rs_image st))
              (rs_scanline st) q);
         set_image (sync_row y row);;
         mret true
     end) st = (Ok true, st') ∧
    reads_row rs_image rs_chroma_image decode_luma quantum (Z.to_nat y)
      st st'.
Proof.
  intros Hsample Hsize [unread Hblob] Hfirst Hscanline Hrow.
  destruct (ReadBlob_run _ st unread Hblob Hsize Hscanline)
    as (s & Hread & Hrest & Heof & _ & Hprefix & Hlength & Hfiles
        & Hprevious & Hexceptions & Himage & Hchroma).
  destruct (Hsample (rs_scanline s) Hlength) as (row' & Hrow' & Hlen).
  unfold mbind at 1, M_bind at 1, gets at 1.
  unfold mbind at 1, M_bind at 1, read_scanline at 1.
  unfold mbind at 1, M_bind at 1, get at 1.
  rewrite decide_True by done. rewrite Hread.
  unfold mbind at 1, M_bind at 1, get at 1.
  rewrite Himage, Hrow, Hrow'. rewrite defined_Some, bind_ret.
  eexists. split; [reflexivity|].
  exists unread, row, row'. simpl.
  rewrite Himage. split_and!; done.
Qed.

(** A row loop whose every turn reads one row reads the rest of the
    plane. *)
Lemma plane_pass_from (target other : ReaderState → Image)
    (sample : Z → list Z → PlaneCursor → option PlaneCursor)
    (quantum : Z) (body : Z → M ReaderState bool) (st : ReaderState)
    (unread : list Z) (first : Z) (s : ReaderState) (fuel : nat) :
  shaped (target st) →
  0 ≤ first ≤ rows (target st) →
  (Z.to_nat (rows (target st) - first) ≤ fuel)%nat →
  reads_rows target other sample quantum unread (Z.to_nat first) st s →
  (∀ y s row,
     first ≤ y < rows (target st) →
     is_Some (rs_blob s) →
     columns (target s) = columns (target st) →
     length (rs_scanline s) = length (rs_scanline st) →
     rs_previous s = rs_previous st →
     pixels (target st) !! Z.to_nat y = Some row →
     pixels (target s) !! Z.to_nat y = Some row →
     ∃ s', body y s = (Ok true, s') ∧
           reads_row target other sample quantum (Z.to_nat y) s s') →
  ∃ st',
    rows_fuel fuel first (rows (target st)) body s = (Ok (), st') ∧
    reads_plane target other sample quantum unread st st'.
Proof.
  intros (Hcolumns & Hrows & Hheight & Hall) Hfirst Hfuel Hstart Hbody.
  set (size := Z.to_nat (quantum * columns (target st))).
  edestruct (rows_fuel_run
    (λ y s, first ≤ y ∧
            reads_rows target other sample quantum unread (Z.to_nat y)
              st s)
    body (rows (target st)))
    as (st' & Hrun & _ & decoded & Hrest & Heof & Hscanline & Hfiles
        & Hprevious & Hexceptions & Hother & Htarget & Hlength & _ & Hdone);
    [|split; [reflexivity|exact Hstart]|lia|exact Hfuel|].
  - intros y s0 (Hy0 & decoded & Hrest & Heof & Hscanline & Hfiles
                 & Hprevious & Hexceptions & Hother & Htarget & Hlength
                 & Hkept & Hdone) Hy.
    fold size in Hrest, Heof, Hdone.
    destruct (lookup_lt_is_Some_2 (pixels (target st)) (Z.to_nat y))
      as [row Hrow]; [lia|].
    destruct (Hbody y s0 row) as (s' & Hstep & Hreads); try done.
    + lia.
    + by rewrite Htarget.
    + rewrite Htarget. simpl. by rewrite Hkept.
    + exists s'. split; [done|]. split; [lia|].
      destruct Hreads as (unread' & row0 & row' & Hblob' & Hrest' & Heof'
        & Hprefix & Hscanline' & Hfiles' & Hprevious' & Hexceptions'
        & Hother' & Hrow0 & Hdecode & Hlen & Htarget').
      rewrite Htarget in Hrow0, Hdecode, Htarget', Hrest', Heof', Hprefix.
      simpl in Hrow0, Hdecode, Htarget', Hrest', Heof', Hprefix.
      fold size in Hrest', Heof', Hprefix.
      rewrite Hkept, Hrow in Hrow0 by done. injection Hrow0 as <-.
      rewrite Hrest in Hblob'. injection Hblob' as <-.
      replace (Z.to_nat (y + 1)) with (S (Z.to_nat y)) by lia.
      exists (<[Z.to_nat y := row']> decoded). fold size. split_and!.
      * rewrite Hrest', drop_drop. f_equal. f_equal. lia.
      * rewrite Heof', Heof, length_drop.
        destruct (rs_eof st); [done|]. simpl.
        repeat case_bool_decide; try done; lia.
      * congruence.
      * congruence.
      * congruence.
      * congruence.
      * congruence.
      * done.
      * by rewrite length_insert.
      * intros j Hj. rewrite list_lookup_insert_ne by lia.
        apply Hkept. lia.
      * intros j row1 Hj Hrow1.
        destruct (decide (j = Z.to_nat y)) as [->|Hne].
        -- rewrite Hrow in Hrow1. injection Hrow1 as <-.
           exists (rs_scanline s'), row'. split_and!; try done.
           ++ apply list_lookup_insert_eq. lia.
           ++ congruence.
        -- rewrite list_lookup_insert_ne by done.
           apply Hdone; [lia|done].
  - exists st'. split; [done|].
    exists decoded. split_and!; try done.
    intros y row Hrow. apply Hdone; [|done].
    apply lookup_lt_Some in Hrow. lia.
Qed.

(** A row loop whose every turn reads one row reads the plane. *)
Lemma plane_pass (target other : ReaderState → Image)
    (sample : Z → list Z → PlaneCursor → option PlaneCursor)
    (quantum : Z) (body : Z → M ReaderState bool) (st : ReaderState)
    (unread : list Z) :
  shaped (target st) →
  rs_blob st = Some unread →
  (∀ y s row,
     0 ≤ y < rows (target st) →
     is_Some (rs_blob s) →
     columns (target s) = columns (target st) →
     length (rs_scanline s) = length (rs_scanline st) →
     rs_previous s = rs_previous st →
     pixels (target st) !! Z.to_nat y = Some row →
     pixels (target s) !! Z.to_nat y = Some row →
     ∃ s', body y s = (Ok true, s') ∧
           reads_row target other sample quantum (Z.to_nat y) s s') →
  ∃ st',
    for_rows (rows (target st)) body st = (Ok (), st') ∧
    reads_plane target other sample quantum unread st st'.
Proof.
  intros Hshaped Hblob Hbody.
  pose proof Hshaped as (Hcolumns & Hrows & Hheight & Hall).
  unfold for_rows.
  apply (plane_pass_from target other sample quantum body st unread 0 st);
    [done|lia|lia| |done].
  exists (pixels (target st)). rewrite set_pixels_same.
  split_and!; try done.
  - rewrite bool_decide_eq_false_2 by (simpl; lia). by rewrite orb_false_r.
  - intros j row Hj. simpl in Hj. lia.
Qed.

(** A plane that was read has the geometry it had. *)
Lemma reads_plane_shaped (target other : ReaderState → Image)
    (sample : Z → list Z → PlaneCursor → option PlaneCursor)
    (quantum : Z) (unread : list Z) (st st' : ReaderState) :
  shaped (target st) →
  reads_plane target other sample quantum unread st st' →
  shaped (target st') ∧ columns (target st') = columns (target st) ∧
  rows (target st') = rows (target st).
Proof.
  intros (Hcolumns & Hrows & Hheight & Hall)
    (decoded & _ & _ & _ & _ & _ & _ & _ & -> & Hlength & Hdecoded).
  split; [|done]. split_and!; simpl; try done; [congruence|].
  apply Forall_lookup_2. intros y row' Hrow'.
  destruct (lookup_lt_is_Some_2 (pixels (target st)) y) as [row Hrow].
  { rewrite <- Hlength. by eapply lookup_lt_Some. }
  destruct (Hdecoded y row Hrow) as (scanline & row'' & Hlookup & _ & Hlen
                                     & _).
  rewrite Hrow' in Hlookup. injection Hlookup as <-. rewrite Hlen.
  by apply (Forall_lookup_1 _ _ _ _ Hall Hrow).
Qed.

(** The rows of a chroma plane are read through. *)
Lemma read_chroma_rows_run
    (sample : Z → list Z → PlaneCursor → option PlaneCursor)
    (quantum : Z) (st : ReaderState) (unread : list Z) :
  (∀ scanline row,
     length row = (Z.to_nat (columns (rs_chroma_image st))
                   * GetPixelChannels)%nat →
     (Z.to_nat (columns (rs_chroma_image st)) * Z.to_nat quantum
      ≤ length scanline)%nat →
     ∃ row',
       decode_plane_row sample quantum (columns (rs_chroma_image st))
         scanline row = Some row' ∧
       length row' = length row) →
  0 ≤ quantum →
  shaped (rs_chroma_image st) →
  rs_blob st = Some unread →
  (Z.to_nat (quantum * columns (rs_chroma_image st))
   ≤ length (rs_scanline st))%nat →
  ∃ st',
    read_chroma_rows sample quantum st = (Ok (), st') ∧
    reads_plane rs_chroma_image rs_image sample quantum unread st st'.
Proof.
  intros Hsample Hquantum Hshaped Hblob Hscanline.
  pose proof Hshaped as (Hcolumns & Hrows & Hheight & Hall).
  unfold read_chroma_rows. unfold mbind at 1, M_bind at 1, get at 1.
  apply plane_pass; [done|done|].
  intros y s row Hy Hblob' Hsame Hlength Hprevious Hrow Hrow'.
  apply (read_chroma_row_step sample quantum y s row);
    rewrite ?Hsame, ?Hlength; try done; [|lia].
  intros scanline Hlen. apply Hsample.
  - by apply (Forall_lookup_1 _ _ _ _ Hall Hrow).
  - rewrite Hlen. rewrite Z2Nat.inj_mul in Hscanline by lia. lia.
Qed.

(** What the luma loop has before it: the scanline read ahead, if this
    is not the first frame, and the blob. *)
Lemma read_ahead_length (quantum : Z) (st : ReaderState) :
  (Z.to_nat (quantum * columns (rs_image st))
   ≤ length (rs_scanline st))%nat →
  length (read_ahead quantum st)
  = if decide (rs_previous st = []) then 0%nat
    else Z.to_nat (quantum * columns (rs_image st)).
Proof.
  intros Hscanline. unfold read_ahead. case_decide; [done|].
  rewrite length_take. lia.
Qed.

(** The rows of the luma plane are read through: the first row of a
    frame that is not the first one from the scanline read ahead, the other
    rows from the blob. *)
Lemma read_image_rows_run (quantum : Z) (interlace : InterlaceType)
    (st : ReaderState) (blob : list Z) :
  component_map_wf component_map →
  quantum = 1 ∨ quantum = 2 →
  interlace ≠ NoInterlace →
  (rs_previous st ≠ [] → 0 < rows (rs_image st)) →
  shaped (rs_image st) →
  rs_blob st = Some blob →
  (Z.to_nat (quantum * columns (rs_image st))
   ≤ length (rs_scanline st))%nat →
  ∃ st',
    read_image_rows quantum interlace st = (Ok (), st') ∧
    reads_plane rs_image rs_chroma_image decode_luma quantum
      (read_ahead quantum st ++ blob) st st'.
Proof.
  intros Hwf Hquantum Hinterlace Hrows1 Hshaped Hblob Hscanline.
  pose proof Hshaped as (Hcolumns & Hrows & Hheight & Hall).
  assert (∀ scanline row,
            length row = (Z.to_nat (columns (rs_image st))
                          * GetPixelChannels)%nat →
            length scanline = length (rs_scanline st) →
            ∃ row',
              decode_plane_row decode_luma quantum (columns (rs_image st))
                scanline row = Some row' ∧
              length row' = length row) as Hsample.
  { intros scanline row Hrow Hlen.
    destruct (decode_luma_pass quantum (columns (rs_image st)) scanline row)
      as (row' & Hdecode & Hlen' & _); try done.
    - rewrite Hlen. rewrite Z2Nat.inj_mul in Hscanline by lia. lia.
    - by exists row'. }
  assert (∀ y s row,
     (if decide (rs_previous st = []) then 0 else 1) ≤ y
       < rows (rs_image st) →
     is_Some (rs_blob s) →
     columns (rs_image s) = columns (rs_image st) →
     length (rs_scanline s) = length (rs_scanline st) →
     rs_previous s = rs_previous st →
     pixels (rs_image st) !! Z.to_nat y = Some row →
     pixels (rs_image s) !! Z.to_nat y = Some row →
     ∃ s',
       (if decide (interlace = NoInterlace) then
          image ← gets rs_image;
          read_scanline y (2 * quantum * columns image);;
          st ← get;
          match pixels (rs_image st) !! Z.to_nat y with
          | None => mret false
          | Some q =>
            match pixels (rs_chroma_image st) !! Z.to_nat y with
            | None => mret false
            | Some chroma_pixels =>
                '(row, chroma_row) ← defined
                  (decode_noninterlaced_row quantum (columns (rs_image st))
                     (rs_scanline st) q chroma_pixels);
                set_image (sync_row y row);;
                set_chroma_image (sync_row y chroma_row);;
                mret true
            end
          end
        else
          image ← gets rs_image;
          read_scanline y (quantum * columns image);;
          st ← get;
          match pixels (rs_image st) !! Z.to_nat y with
          | None => mret false
          | Some q =>
              row ← defined
                (decode_plane_row decode_luma quantum
                   (columns (rs_image st)) (rs_scanline st) q);
              set_image (sync_row y row);;
              mret true
          end) s = (Ok true, s') ∧
       reads_row rs_image rs_chroma_image decode_luma quantum (Z.to_nat y)
         s s') as Hbody.
  { intros y s row Hy Hblob' Hsame Hlength Hprevious Hrow Hrow'.
    rewrite decide_False by done.
    apply (read_luma_row_step quantum y s row);
      rewrite ?Hsame, ?Hlength; try done; [|lia|].
    - intros scanline Hlen. apply Hsample; [|done].
      by apply (Forall_lookup_1 _ _ _ _ Hall Hrow).
    - rewrite Hprevious. case_decide; [by right|left; lia]. }
  unfold read_image_rows. unfold mbind at 1, M_bind at 1, get at 1.
  unfold read_ahead.
  destruct (decide (rs_previous st = [])) as [Hfirst|Hnext].
  - apply plane_pass; [done|done|].
    intros y s row Hy. apply Hbody. lia.
  - specialize (Hrows1 Hnext). unfold for_rows.
    destruct (Z.to_nat (rows (rs_image st))) as [|fuel] eqn:Hfuel; [lia|].
    cbn [rows_fuel]. rewrite decide_True by lia.
    destruct (lookup_lt_is_Some_2 (pixels (rs_image st)) 0)
      as [row Hrow]; [lia|].
    destruct (Hsample (rs_scanline st) row) as (row' & Hdecode & Hlen);
      [by apply (Forall_lookup_1 _ _ _ _ Hall Hrow)|done|].
    unfold mbind at 1, M_bind at 1.
    rewrite (decide_False (P := interlace = NoInterlace)) by done.
    unfold mbind at 1, M_bind at 1, gets at 1.
    unfold mbind at 1, M_bind at 1, read_scanline at 1.
    unfold mbind at 1, M_bind at 1, get at 1.
    rewrite decide_False by (intros [?|?]; [lia|done]).
    unfold mret at 1, M_ret at 1.
    unfold mbind at 1, M_bind at 1, get at 1.
    change (Z.to_nat 0) with 0%nat.
    rewrite Hrow, Hdecode. rewrite defined_Some, bind_ret.
    unfold mbind at 1, M_bind at 1, set_image at 1, modify at 1.
    unfold mret at 1, M_ret at 1.
    set (size := Z.to_nat (quantum * columns (rs_image st))) in *.
    change (0 + 1) with 1.
    match goal with
    | |- context [rows_fuel fuel 1 _ ?body ?s] =>
        apply (plane_pass_from rs_image rs_chroma_image decode_luma quantum
                 body st (take size (rs_scanline st) ++ blob) 1 s fuel)
    end; [done|lia|lia| |].
    + exists (<[0%nat := row']> (pixels (rs_image st))).
      change (Z.to_nat 1) with 1%nat. fold size.
      assert (length (take size (rs_scanline st)) = size) as Htake
        by (rewrite length_take; lia).
      split_and!; try done.
      * simpl. f_equal. rewrite Nat.add_0_r, drop_app_length'; done.
      * simpl. rewrite bool_decide_eq_false_2, orb_false_r; [done|].
        rewrite length_app. lia.
      * by rewrite length_insert.
      * intros j Hj. rewrite list_lookup_insert_ne by lia. done.
      * intros j row0 Hj Hrow0. assert (j = 0%nat) as -> by lia.
        rewrite Hrow in Hrow0. injection Hrow0 as <-.
        exists (rs_scanline st), row'. split_and!; try done.
        -- apply list_lookup_insert_eq.
           apply lookup_lt_Some in Hrow. done.
        -- simpl. rewrite drop_0, take_app_length'; [|done].
           apply prefix_take.
    + intros y s row0 Hy. apply Hbody. lia.
Qed.

(** The three planes of a frame are read through, one after the other,
    from a single stream. *)
Lemma read_planes_run (quantum : Z) (interlace : InterlaceType)
    (st : ReaderState) (blob : list Z) :
  component_map_wf component_map →
  quantum = 1 ∨ quantum = 2 →
  interlace ≠ NoInterlace → interlace ≠ PartitionInterlace →
  (rs_previous st ≠ [] → 0 < rows (rs_image st)) →
  shaped (rs_image st) → shaped (rs_chroma_image st) →
  columns (rs_chroma_image st) ≤ columns (rs_image st) →
  rs_blob st = Some blob →
  (Z.to_nat (quantum * columns (rs_image st))
   ≤ length (rs_scanline st))%nat →
  let stream := read_ahead quantum st ++ blob in
  let luma_bytes :=
    (Z.to_nat (rows (rs_image st))
     * Z.to_nat (quantum * columns (rs_image st)))%nat in
  let chroma_bytes :=
    (Z.to_nat (rows (rs_chroma_image st))
     * Z.to_nat (quantum * columns (rs_chroma_image st)))%nat in
  ∃ s1 s2 s3,
    read_planes quantum interlace st = (Ok (), s3) ∧
    reads_plane rs_image rs_chroma_image decode_luma quantum stream
      st s1 ∧
    reads_plane rs_chroma_image rs_image decode_u quantum
      (drop luma_bytes stream) s1 s2 ∧
    reads_plane rs_chroma_image rs_image decode_v quantum
      (drop chroma_bytes (drop luma_bytes stream)) s2 s3.
Proof.
  intros Hwf Hquantum Hno Hpartition Hfirst Himage Hchroma Hnarrow Hblob
    Hscanline stream luma_bytes chroma_bytes.
  assert (0 ≤ quantum) as Hpositive by lia.
  pose proof Hchroma as (Hcolumns & _).
  destruct (read_image_rows_run quantum interlace st blob)
    as (s1 & Hrun1 & Hluma); try done.
  fold stream in Hluma.
  pose proof Hluma as (decoded1 & Hblob1 & _ & Hscanline1 & _ & _ & _
                       & Hchroma1 & _).
  simpl in Hchroma1. fold luma_bytes in Hblob1.
  destruct (read_chroma_rows_run decode_u quantum s1
              (drop luma_bytes stream))
    as (s2 & Hrun2 & Hu); rewrite ?Hchroma1, ?Hscanline1; try done.
  { intros scanline row Hrow Hlen.
    destruct (decode_u_pass quantum (columns (rs_chroma_image st))
                scanline row) as (row' & Hdecode & Hlen' & _); try done.
    by exists row'. }
  { rewrite Z2Nat.inj_mul in * by lia. nia. }
  pose proof Hu as (decoded2 & Hblob2 & _ & Hscanline2 & _ & _ & _ & _).
  destruct (reads_plane_shaped _ _ _ _ _ _ _
              ltac:(rewrite Hchroma1; exact Hchroma) Hu)
    as (Hchroma2 & Hcolumns2 & Hrows2).
  rewrite Hchroma1 in Hcolumns2, Hrows2, Hblob2.
  fold chroma_bytes in Hblob2.
  destruct (read_chroma_rows_run decode_v quantum s2
              (drop chroma_bytes (drop luma_bytes stream)))
    as (s3 & Hrun3 & Hv); rewrite ?Hcolumns2, ?Hscanline2, ?Hscanline1;
    try done.
  { intros scanline row Hrow Hlen.
    destruct (decode_v_pass quantum (columns (rs_chroma_image st))
                scanline row) as (row' & Hdecode & Hlen' & _); try done.
    by exists row'. }
  { rewrite Z2Nat.inj_mul in * by lia. nia. }
  exists s1, s2, s3. split; [|done].
  unfold read_planes.
  rewrite !(decide_False (P := interlace = PartitionInterlace)) by done.
  rewrite decide_True by done.
  rewrite bind_ret. rewrite (bind_Ok _ _ _ _ _ Hrun1).
  rewrite bind_ret. rewrite (bind_Ok _ _ _ _ _ Hrun2).
  rewrite bind_ret. exact Hrun3.
Qed.

(** A sample of a scanline that holds a window of the stream is the
    sample of the stream at the place of the window. *)
Lemma sample_at_window (quantum : Z) (stream scanline : list Z)
    (size start offset x : nat) :
  quantum = 1 ∨ quantum = 2 →
  take size (drop start stream) `prefix_of` scanline →
  start = (offset * Z.to_nat quantum)%nat →
  (S x * Z.to_nat quantum ≤ size)%nat →
  (start + size ≤ length stream)%nat →
  sample_at quantum scanline x = sample_at quantum stream (offset + x).
Proof.
  intros Hquantum [rest ->] -> Hx Hstream.
  assert (∀ i : nat, (i < size)%nat →
            (take size (drop (offset * Z.to_nat quantum) stream) ++ rest)
              !! i
            = stream !! (offset * Z.to_nat quantum + i)%nat) as Hlookup.
  { intros i Hi.
    rewrite lookup_app_l by (rewrite length_take, length_drop; lia).
    rewrite lookup_take_lt by lia. rewrite lookup_drop. reflexivity. }
  unfold sample_at, next_sample.
  replace ((offset + x) * Z.to_nat quantum)%nat
    with (offset * Z.to_nat quantum + x * Z.to_nat quantum)%nat by lia.
  destruct Hquantum as [-> | ->].
  - change (Z.to_nat 1) with 1%nat in *.
    rewrite decide_True by done. rewrite Hlookup by lia.
    by destruct (stream !! _).
  - change (Z.to_nat 2) with 2%nat in *.
    rewrite decide_False by done. rewrite !Hlookup by lia.
    rewrite Nat.add_succ_r.
    destruct (stream !! _); [|done]. simpl.
    by destruct (stream !! _).
Qed.

(** A sample of what is left of the stream is the sample of the stream
    that many samples further on. *)
Lemma sample_at_drop (quantum : Z) (stream : list Z)
    (start offset x : nat) :
  start = (offset * Z.to_nat quantum)%nat →
  sample_at quantum (drop start stream) x
  = sample_at quantum stream (offset + x).
Proof.
  intros ->. unfold sample_at, next_sample.
  replace ((offset + x) * Z.to_nat quantum)%nat
    with (offset * Z.to_nat quantum + x * Z.to_nat quantum)%nat by lia.
  rewrite !lookup_drop. case_decide.
  - by destruct (stream !! _).
  - rewrite Nat.add_succ_r. destruct (stream !! _); [|done]. simpl.
    by destruct (stream !! _).
Qed.

(** The samples of a luma plane that was read from a stream that holds
    it. *)
Lemma luma_plane_samples (quantum : Z) (st st' : ReaderState)
    (stream : list Z) :
  component_map_wf component_map →
  quantum = 1 ∨ quantum = 2 →
  shaped (rs_image st) →
  reads_plane rs_image rs_chroma_image decode_luma quantum stream
    st st' →
  let width := Z.to_nat (columns (rs_image st)) in
  let height := Z.to_nat (rows (rs_image st)) in
  (width * height * Z.to_nat quantum ≤ length stream)%nat →
  ∀ x y : nat, (x < width)%nat → (y < height)%nat →
    ∃ row,
      pixels (rs_image st') !! y = Some row ∧
      GetPixelRed row (x * GetPixelChannels)
      = sample_at quantum stream (y * width + x) ∧
      GetPixelGreen row (x * GetPixelChannels) = Some 0 ∧
      GetPixelBlue row (x * GetPixelChannels) = Some 0.
Proof.
  intros Hwf Hquantum Himage
    (decoded & _ & _ & _ & _ & _ & _ & _ & Htarget & _ & Hdecoded)
    width height Hstream x y Hx Hy.
  pose proof Himage as (Hcolumns & Hrows & Hheight & Hall).
  assert (Z.to_nat (quantum * columns (rs_image st))
          = (width * Z.to_nat quantum)%nat) as Hsize
    by (unfold width; rewrite Z2Nat.inj_mul by lia; lia).
  rewrite Hsize in Hdecoded.
  destruct (lookup_lt_is_Some_2 (pixels (rs_image st)) y)
    as [row Hrow]; [lia|].
  destruct (Hdecoded y row Hrow)
    as (scanline & row' & Hrow' & Hdecode & Hlen & Hlength & Hprefix).
  assert (width * Z.to_nat quantum ≤ length scanline)%nat as Hscanline.
  { apply prefix_length in Hprefix.
    rewrite length_take, length_drop in Hprefix. nia. }
  destruct (decode_luma_pass quantum (columns (rs_image st)) scanline row)
    as (row'' & Hdecode' & _ & Hpixels & _); try done.
  { by apply (Forall_lookup_1 _ _ _ _ Hall Hrow). }
  rewrite Hdecode in Hdecode'. injection Hdecode' as <-.
  exists row'. rewrite Htarget. simpl.
  destruct (Hpixels x Hx) as (Hred & Hgreen & Hblue).
  split_and!; try done. rewrite Hred.
  eapply sample_at_window; [done|exact Hprefix| | |]; nia.
Qed.

(** The samples of a chroma image whose U plane was read from one stream
    and whose V plane from another, each holding its plane. *)
Lemma chroma_streams_samples (quantum : Z) (st s s' st' : ReaderState)
    (u_stream v_stream : list Z) :
  component_map_wf component_map →
  quantum = 1 ∨ quantum = 2 →
  shaped (rs_chroma_image st) →
  reads_plane rs_chroma_image rs_image decode_u quantum u_stream st s →
  rs_chroma_image s' = rs_chroma_image s →
  reads_plane rs_chroma_image rs_image decode_v quantum v_stream s' st' →
  let width := Z.to_nat (columns (rs_chroma_image st)) in
  let height := Z.to_nat (rows (rs_chroma_image st)) in
  (width * height * Z.to_nat quantum ≤ length u_stream)%nat →
  (width * height * Z.to_nat quantum ≤ length v_stream)%nat →
  ∀ x y : nat, (x < width)%nat → (y < height)%nat →
    ∃ row,
      pixels (rs_chroma_image st') !! y = Some row ∧
      GetPixelRed row (x * GetPixelChannels) = Some 0 ∧
      GetPixelGreen row (x * GetPixelChannels)
      = sample_at quantum u_stream (y * width + x) ∧
      GetPixelBlue row (x * GetPixelChannels)
      = sample_at quantum v_stream (y * width + x).
Proof.
  intros Hwf Hquantum Hchroma Hu Hsame Hv width height
    Hu_stream Hv_stream x y Hx Hy.
  pose proof (reads_plane_shaped _ _ _ _ _ _ _ Hchroma Hu)
    as (Hchroma' & Hcolumns' & Hrows').
  destruct Hu as (decoded & _ & _ & _ & _ & _ & _ & _ & Htarget & _
                  & Hrows_u).
  destruct Hv as (decoded' & _ & _ & _ & _ & _ & _ & _ & Htarget' & _
                  & Hrows_v).
  rewrite Hsame, Hcolumns' in Hrows_v. rewrite Hsame in Htarget'.
  pose proof Hchroma as (Hcolumns & Hrows & Hheight & Hall).
  assert (Z.to_nat (quantum * columns (rs_chroma_image st))
          = (width * Z.to_nat quantum)%nat) as Hsize
    by (unfold width; rewrite Z2Nat.inj_mul by lia; lia).
  rewrite Hsize in *.
  destruct (lookup_lt_is_Some_2 (pixels (rs_chroma_image st)) y)
    as [row Hrow]; [lia|].
  destruct (Hrows_u y row Hrow)
    as (scanline & row' & Hrow' & Hdecode & Hlen & Hlength & Hprefix).
  assert (width * Z.to_nat quantum ≤ length scanline)%nat as Hscanline.
  { apply prefix_length in Hprefix.
    rewrite length_take, length_drop in Hprefix. nia. }
  destruct (decode_u_pass quantum (columns (rs_chroma_image st))
              scanline row)
    as (row'' & Hdecode' & _ & Hpixels & _); try done.
  { by apply (Forall_lookup_1 _ _ _ _ Hall Hrow). }
  rewrite Hdecode in Hdecode'. injection Hdecode' as <-.
  assert (pixels (rs_chroma_image s) !! y = Some row') as Hrow2
    by by rewrite Htarget.
  destruct (Hrows_v y row' Hrow2)
    as (scanline' & final & Hfinal & Hdecode_v & Hlen_v & Hlength_v
        & Hprefix_v).
  assert (width * Z.to_nat quantum ≤ length scanline')%nat as Hscanline'.
  { apply prefix_length in Hprefix_v.
    rewrite length_take, !length_drop in Hprefix_v. nia. }
  destruct (decode_v_pass quantum (columns (rs_chroma_image st))
              scanline' row')
    as (final' & Hdecode_v' & _ & Hpixels_v & Hrest_v); try done.
  { rewrite Hlen. by apply (Forall_lookup_1 _ _ _ _ Hall Hrow). }
  rewrite Hdecode_v in Hdecode_v'. injection Hdecode_v' as <-.
  exists final. rewrite Htarget'. simpl.
  destruct (Hpixels x Hx) as (Hred & Hgreen & Hblue).
  destruct Hwf as (Hr & Hg & Hb & Hrg & Hrb & Hgb).
  fold GetPixelChannels in Hr, Hg, Hb.
  split_and!.
  - done.
  - unfold GetPixelRed in *. rewrite Hrest_v; [done|].
    by rewrite component_mod.
  - unfold GetPixelGreen in *. rewrite Hrest_v by by rewrite component_mod.
    rewrite Hgreen.
    eapply sample_at_window; [done|exact Hprefix| | |]; nia.
  - rewrite (Hpixels_v x Hx).
    eapply sample_at_window; [done|exact Hprefix_v| | |]; nia.
Qed.

(** The samples of a chroma image whose U plane and V plane were read
    from a stream that holds them. *)
Lemma chroma_planes_samples (quantum : Z) (st s st' : ReaderState)
    (stream : list Z) :
  component_map_wf component_map →
  quantum = 1 ∨ quantum = 2 →
  shaped (rs_chroma_image st) →
  let width := Z.to_nat (columns (rs_chroma_image st)) in
  let height := Z.to_nat (rows (rs_chroma_image st)) in
  reads_plane rs_chroma_image rs_image decode_u quantum stream st s →
  reads_plane rs_chroma_image rs_image decode_v quantum
    (drop (height * Z.to_nat (quantum * columns (rs_chroma_image st)))
       stream) s st' →
  (2 * (width * height) * Z.to_nat quantum ≤ length stream)%nat →
  ∀ x y : nat, (x < width)%nat → (y < height)%nat →
    ∃ row,
      pixels (rs_chroma_image st') !! y = Some row ∧
      GetPixelRed row (x * GetPixelChannels) = Some 0 ∧
      GetPixelGreen row (x * GetPixelChannels)
      = sample_at quantum stream (y * width + x) ∧
      GetPixelBlue row (x * GetPixelChannels)
      = sample_at quantum stream (width * height + y * width + x).
Proof.
  intros Hwf Hquantum Hchroma width height Hu Hv Hstream x y Hx Hy.
  pose proof Hchroma as (Hcolumns & Hrows & _).
  assert (Z.to_nat (quantum * columns (rs_chroma_image st))
          = (width * Z.to_nat quantum)%nat) as Hsize
    by (unfold width; rewrite Z2Nat.inj_mul by lia; lia).
  rewrite Hsize in Hv.
  destruct (chroma_streams_samples quantum st s s st' stream _ Hwf Hquantum
              Hchroma Hu eq_refl Hv
              ltac:(fold width height; lia)
              ltac:(fold width height; rewrite length_drop; lia)
              x y Hx Hy)
    as (row & Hrow & Hred & Hgreen & Hblue).
  exists row. fold width height in Hgreen, Hblue.
  rewrite (sample_at_drop quantum stream _ (width * height)) in Hblue
    by lia.
  split_and!; try done. rewrite Hblue. f_equal. lia.
Qed.

(** X16.  What the first frame reads in the
    plane layout (any layout other than the non-interlaced and the
    partition one).  From a stream that holds the frame, read_planes takes
    [quantum * (W * H + 2 * Wc * Hc)] bytes, W by H the image and Wc by Hc
    the chroma image, and leaves the end-of-file mark as it was.  The
    stream is the Y plane, then the U plane, then the V plane, each row
    by row: pixel (x, y) of the image has sample [y * W + x] of the
    stream in red and 0 in green and blue; pixel (x, y) of the chroma
    image has 0 in red, sample [W * H + y * Wc + x] in green and sample
    [W * H + Wc * Hc + y * Wc + x] in blue. *)
Theorem read_planes_plane_layout (quantum : Z) (interlace : InterlaceType)
    (st : ReaderState) (stream : list Z) :
  component_map_wf component_map →
  quantum = 1 ∨ quantum = 2 →
  interlace ≠ NoInterlace → interlace ≠ PartitionInterlace →
  rs_previous st = [] →
  rs_blob st = Some stream →
  shaped (rs_image st) → shaped (rs_chroma_image st) →
  columns (rs_chroma_image st) ≤ columns (rs_image st) →
  (Z.to_nat (quantum * columns (rs_image st))
   ≤ length (rs_scanline st))%nat →
  let width := Z.to_nat (columns (rs_image st)) in
  let height := Z.to_nat (rows (rs_image st)) in
  let chroma_width := Z.to_nat (columns (rs_chroma_image st)) in
  let chroma_height := Z.to_nat (rows (rs_chroma_image st)) in
  let luma := (width * height)%nat in
  let chroma := (chroma_width * chroma_height)%nat in
  ((luma + 2 * chroma) * Z.to_nat quantum ≤ length stream)%nat →
  ∃ st',
    read_planes quantum interlace st = (Ok (), st') ∧
    rs_blob st'
    = Some (drop ((luma + 2 * chroma) * Z.to_nat quantum) stream) ∧
    rs_eof st' = rs_eof st ∧
    (∀ x y : nat, (x < width)%nat → (y < height)%nat →
       ∃ row,
         pixels (rs_image st') !! y = Some row ∧
         GetPixelRed row (x * GetPixelChannels)
         = sample_at quantum stream (y * width + x) ∧
         GetPixelGreen row (x * GetPixelChannels) = Some 0 ∧
         GetPixelBlue row (x * GetPixelChannels) = Some 0) ∧
    (∀ x y : nat, (x < chroma_width)%nat → (y < chroma_height)%nat →
       ∃ row,
         pixels (rs_chroma_image st') !! y = Some row ∧
         GetPixelRed row (x * GetPixelChannels) = Some 0 ∧
         GetPixelGreen row (x * GetPixelChannels)
         = sample_at quantum stream (luma + y * chroma_width + x) ∧
         GetPixelBlue row (x * GetPixelChannels)
         = sample_at quantum stream
             (luma + chroma + y * chroma_width + x)).
Proof.
  intros Hwf Hquantum Hno Hpartition Hfirst Hblob Himage Hchroma Hnarrow
    Hscanline width height chroma_width chroma_height luma chroma Hstream.
  destruct (read_planes_run quantum interlace st stream)
    as (s1 & s2 & s3 & Hrun & Hluma & Hu & Hv); try done.
  unfold read_ahead in Hluma, Hu, Hv.
  rewrite decide_True in Hluma, Hu, Hv by done.
  simpl app in Hluma, Hu, Hv.
  pose proof (luma_plane_samples quantum st s1 stream Hwf Hquantum Himage
                Hluma) as Hsamples.
  pose proof Hluma as (decoded1 & _ & _ & _ & _ & _ & _ & Hother1 & _).
  simpl in Hother1.
  assert (shaped (rs_chroma_image s1)) as Hchroma1 by by rewrite Hother1.
  pose proof Hluma as (_ & _ & Heof1 & _).
  rewrite <- Hother1 in Hv.
  pose proof (chroma_planes_samples quantum s1 s2 s3 _ Hwf Hquantum
                Hchroma1 Hu Hv) as Hsamples'.
  pose proof (reads_plane_shaped _ _ _ _ _ _ _ Hchroma1 Hu)
    as (_ & Hcolumns2 & Hrows2).
  destruct Hu as (decoded2 & _ & Heof2 & _ & _ & _ & _ & Hother2 & _).
  destruct Hv as (decoded3 & Hrest3 & Heof3 & _ & _ & _ & _ & Hother3 & _).
  simpl in Hother2, Hother3.
  rewrite Hcolumns2, Hrows2 in Hrest3, Heof3.
  rewrite Hother1 in Hrest3, Heof3, Heof2, Hsamples'.
  pose proof Himage as (Hcolumns & Hrows & _).
  pose proof Hchroma as (Hcolumns' & Hrows' & _).
  assert (Z.to_nat (quantum * columns (rs_image st))
          = (width * Z.to_nat quantum)%nat) as Hsize
    by (unfold width; rewrite Z2Nat.inj_mul by lia; lia).
  assert (Z.to_nat (quantum * columns (rs_chroma_image st))
          = (chroma_width * Z.to_nat quantum)%nat) as Hsize'
    by (unfold chroma_width; rewrite Z2Nat.inj_mul by lia; lia).
  rewrite Hsize, Hsize' in *.
  fold height in Hrest3, Heof3, Heof2, Heof1, Hsamples, Hsamples'.
  fold chroma_width chroma_height in Hrest3, Heof3, Heof2, Hsamples'.
  fold width in Hsamples.
  exists s3. split_and!.
  - done.
  - rewrite Hrest3, !drop_drop. do 2 f_equal. unfold luma, chroma. lia.
  - rewrite Heof3, Heof2, Heof1, !length_drop.
    rewrite !bool_decide_eq_false_2, !orb_false_r;
      [done|unfold luma, chroma in *; nia..].
  - intros x y Hx Hy. rewrite Hother3, Hother2.
    apply Hsamples; [|done..]. unfold luma, chroma in *. nia.
  - intros x y Hx Hy.
    destruct (Hsamples' ltac:(rewrite length_drop;
                              unfold luma, chroma in *; nia) x y Hx Hy)
      as (row & Hrow & Hred & Hgreen & Hblue).
    exists row.
    rewrite !(sample_at_drop quantum stream _ luma) in Hgreen, Hblue
      by (unfold luma; lia).
    split_and!; [done|done|..].
    + rewrite Hgreen. f_equal. lia.
    + rewrite Hblue. f_equal. unfold chroma. lia.
Qed.
End PlaneReader.

Lemma read_planes_plane_layout_witness :
  let st := FrameExamples.plane_state in
  let stream := FrameExamples.plane_stream ++ [70] in
  (component_map_wf (component_map (MagickCore := Reference.Q16)) ∧
   (1 = 1 ∨ 1 = 2) ∧
   PlaneInterlace ≠ NoInterlace ∧ PlaneInterlace ≠ PartitionInterlace ∧
   rs_previous st = [] ∧
   rs_blob st = Some stream ∧
   shaped (H := Reference.Q16) (rs_image st) ∧
   shaped (H := Reference.Q16) (rs_chroma_image st) ∧
   columns (rs_chroma_image st) ≤ columns (rs_image st) ∧
   (Z.to_nat (1 * columns (rs_image st)) ≤ length (rs_scanline st))%nat ∧
   ((2 * 2 + 2 * (1 * 1)) * Z.to_nat 1 ≤ length stream)%nat) ∧
  ∃ st',
    read_planes (H := Reference.Q16) 1 PlaneInterlace st = (Ok (), st') ∧
    rs_blob st' = Some (drop ((2 * 2 + 2 * (1 * 1)) * Z.to_nat 1) stream) ∧
    rs_eof st' = rs_eof st ∧
    (∀ x y : nat, (x < 2)%nat → (y < 2)%nat →
       ∃ row,
         pixels (rs_image st') !! y = Some row ∧
         GetPixelRed (H := Reference.Q16) row
           (x * GetPixelChannels (H := Reference.Q16))
         = sample_at (H := Reference.Q16) 1 stream (y * 2 + x) ∧
         GetPixelGreen (H := Reference.Q16) row
           (x * GetPixelChannels (H := Reference.Q16)) = Some 0 ∧
         GetPixelBlue (H := Reference.Q16) row
           (x * GetPixelChannels (H := Reference.Q16)) = Some 0) ∧
    (∀ x y : nat, (x < 1)%nat → (y < 1)%nat →
       ∃ row,
         pixels (rs_chroma_image st') !! y = Some row ∧
         GetPixelRed (H := Reference.Q16) row
           (x * GetPixelChannels (H := Reference.Q16)) = Some 0 ∧
         GetPixelGreen (H := Reference.Q16) row
           (x * GetPixelChannels (H := Reference.Q16))
         = sample_at (H := Reference.Q16) 1 stream (2 * 2 + y * 1 + x) ∧
         GetPixelBlue (H := Reference.Q16) row
           (x * GetPixelChannels (H := Reference.Q16))
         = sample_at (H := Reference.Q16) 1 stream
             (2 * 2 + 1 * 1 + y * 1 + x)).
Proof.
  intros st stream.
  assert (shaped (H := Reference.Q16) (rs_image st)) as Himage
    by (repeat split; try done; repeat constructor).
  assert (shaped (H := Reference.Q16) (rs_chroma_image st)) as Hchroma
    by (repeat split; try done; repeat constructor).
  assert (columns (rs_chroma_image st) ≤ columns (rs_image st)) as Hnarrow
    by done.
  assert (Z.to_nat (1 * columns (rs_image st))
          ≤ length (rs_scanline st))%nat as Hscanline by (simpl; lia).
  assert ((2 * 2 + 2 * (1 * 1)) * Z.to_nat 1 ≤ length stream)%nat
    as Hstream by (simpl; lia).
  split.
  - split_and!; try done; [exact Q16_component_map_wf|by left].
  - exact (read_planes_plane_layout (H := Reference.Q16) 1 PlaneInterlace
             st stream Q16_component_map_wf (or_introl eq_refl)
             ltac:(done) ltac:(done) eq_refl eq_refl Himage Hchroma
             Hnarrow Hscanline Hstream).
Defined.

(** ** The decode of a stream of one frame *)

Lemma rs_set_images_same (st : ReaderState) :
  rs_set_images (rs_previous st) (rs_image st) (rs_chroma_image st) st = st.
Proof. by destruct st. Qed.

Section FirstFrame.
Context `{MagickCore}.

(** A pixel cache as acquired has the geometry asked for. *)
Lemma fresh_pixels_shaped (image : Image) :
  0 ≤ columns image → 0 ≤ rows image →
  pixels image = fresh_pixels (columns image) (rows image) →
  shaped image.
Proof.
  intros Hcolumns Hrows Hpixels. split_and!; [done|done|..].
  - rewrite Hpixels. unfold fresh_pixels. by rewrite length_replicate.
  - rewrite Hpixels. unfold fresh_pixels. apply Forall_replicate.
    by rewrite length_replicate.
Qed.

(** Lines 203-204: the chroma image of a frame is a fresh clone of the
    chroma geometry. *)
Lemma acquire_chroma_image_run (horizontal_factor vertical_factor : Z)
    (st : ReaderState) :
  horizontal_factor = 1 ∨ horizontal_factor = 2 →
  vertical_factor = 1 ∨ vertical_factor = 2 →
  0 ≤ columns (rs_image st) < 2 ^ 64 →
  0 ≤ rows (rs_image st) < 2 ^ 64 →
  acquire_chroma_image horizontal_factor vertical_factor st
  = (Ok (),
     rs_set_images (rs_previous st) (rs_image st)
       (CloneImage (rs_image st)
          (columns (rs_image st) / horizontal_factor)
          (rows (rs_image st) / vertical_factor)) st).
Proof.
  intros Hh Hv Hcolumns Hrows. unfold acquire_chroma_image.
  unfold mbind at 1, M_bind at 1, gets at 1.
  assert (∀ extent factor, factor = 1 ∨ factor = 2 → 0 ≤ extent < 2 ^ 64 →
            size_t_div extent factor = Some (extent / factor)) as Hdiv.
  { intros extent factor Hfactor Hextent.
    unfold size_t_div, to_size_t, size_t_bits.
    assert (2 < 2 ^ 64) by done.
    rewrite (Z.mod_small factor), (Z.mod_small extent) by lia.
    by rewrite decide_False by lia. }
  rewrite !Hdiv by done. rewrite !defined_Some, !bind_ret. done.
Qed.

(** Lines 393-417: the merge of the resized chroma into the image. *)
Lemma scale_and_merge_run (st : ReaderState) (resized : Image) :
  component_map_wf component_map →
  shaped (rs_image st) →
  ResizeImage (rs_chroma_image st) (columns (rs_image st))
    (rows (rs_image st)) = Some resized →
  shaped resized →
  columns resized = columns (rs_image st) →
  rows resized = rows (rs_image st) →
  ∃ merged,
    scale_and_merge st
    = (Ok (),
       rs_set_images (rs_previous st)
         (set_colorspace YCbCrColorspace
            (set_pixels merged (rs_image st)))
         (rs_chroma_image st) st) ∧
    length merged = length (pixels (rs_image st)) ∧
    ∀ (y : nat) row, pixels (rs_image st) !! y = Some row →
      ∃ chroma_row row',
        pixels resized !! y = Some chroma_row ∧
        merged !! y = Some row' ∧
        merge_row (columns (rs_image st)) chroma_row row = Some row'.
Proof.
  intros Hwf (Hcolumns & Hrows & Hheight & Hall) Hresize
    (_ & _ & Hheight' & Hall') Hsame_columns Hsame_rows.
  unfold scale_and_merge. unfold mbind at 1, M_bind at 1, get at 1.
  rewrite Hresize.
  set (Inv := λ (y : Z) (s : ReaderState), ∃ merged : list PixelRow,
    s = rs_set_images (rs_previous st) (set_pixels merged (rs_image st))
          (rs_chroma_image st) st ∧
    length merged = length (pixels (rs_image st)) ∧
    (∀ j : nat, (Z.to_nat y ≤ j)%nat →
       merged !! j = pixels (rs_image st) !! j) ∧
    (∀ (j : nat) row, (j < Z.to_nat y)%nat →
       pixels (rs_image st) !! j = Some row →
       ∃ chroma_row row',
         pixels resized !! j = Some chroma_row ∧
         merged !! j = Some row' ∧
         merge_row (columns (rs_image st)) chroma_row row = Some row')).
  match goal with
  | |- context [for_rows ?limit ?body] =>
      destruct (for_rows_run Inv body limit st)
        as (s & Hrun & merged & -> & Hlength & _ & Hdone)
  end.
  - done.
  - intros y s (merged & -> & Hlength & Hkept & Hdone) Hy.
    destruct (lookup_lt_is_Some_2 (pixels (rs_image st)) (Z.to_nat y))
      as [row Hrow]; [lia|].
    destruct (lookup_lt_is_Some_2 (pixels resized) (Z.to_nat y))
      as [chroma_row Hchroma_row]; [lia|].
    destruct (merge_row_spec (columns (rs_image st)) chroma_row row)
      as (row' & Hmerge & _); [done|done|..].
    { by apply (Forall_lookup_1 _ _ _ _ Hall Hrow). }
    { rewrite (Forall_lookup_1 _ _ _ _ Hall' Hchroma_row).
      by rewrite Hsame_columns. }
    unfold mbind at 1, M_bind at 1, get at 1. simpl.
    rewrite Hkept, Hrow, Hchroma_row, Hmerge by done.
    eexists. split; [reflexivity|].
    exists (<[Z.to_nat y := row']> merged). split_and!.
    + done.
    + by rewrite length_insert.
    + intros j Hj. rewrite list_lookup_insert_ne by lia. apply Hkept. lia.
    + intros j row1 Hj Hrow1.
      destruct (decide (j = Z.to_nat y)) as [->|Hne].
      * rewrite Hrow in Hrow1. injection Hrow1 as <-.
        exists chroma_row, row'. split_and!; [done| |done].
        apply list_lookup_insert_eq. lia.
      * rewrite list_lookup_insert_ne by done. apply Hdone; [lia|done].
  - exists (pixels (rs_image st)).
    rewrite set_pixels_same, rs_set_images_same.
    split_and!; [done|done|done|]. intros j row Hj. lia.
  - exists merged. split_and!; [|done|].
    + rewrite (bind_Ok _ _ _ _ _ Hrun). done.
    + intros y row Hrow. apply Hdone; [|done].
      apply lookup_lt_Some in Hrow. lia.
Qed.

(** What the three plane loops take from the stream. *)
Lemma read_planes_consumed (quantum : Z) (st s1 s2 s3 : ReaderState)
    (stream : list Z) :
  0 ≤ quantum →
  shaped (rs_image st) → shaped (rs_chroma_image st) →
  let luma_bytes :=
    (Z.to_nat (rows (rs_image st))
     * Z.to_nat (quantum * columns (rs_image st)))%nat in
  let chroma_bytes :=
    (Z.to_nat (rows (rs_chroma_image st))
     * Z.to_nat (quantum * columns (rs_chroma_image st)))%nat in
  reads_plane rs_image rs_chroma_image decode_luma quantum stream st s1 →
  reads_plane rs_chroma_image rs_image decode_u quantum
    (drop luma_bytes stream) s1 s2 →
  reads_plane rs_chroma_image rs_image decode_v quantum
    (drop chroma_bytes (drop luma_bytes stream)) s2 s3 →
  let total :=
    ((Z.to_nat (columns (rs_image st)) * Z.to_nat (rows (rs_image st))
      + 2 * (Z.to_nat (columns (rs_chroma_image st))
             * Z.to_nat (rows (rs_chroma_image st))))
     * Z.to_nat quantum)%nat in
  rs_blob s3 = Some (drop total stream) ∧
  rs_eof s3 = rs_eof st || bool_decide (length stream < total)%nat ∧
  length (rs_scanline s3) = length (rs_scanline st) ∧
  rs_files s3 = rs_files st ∧
  rs_previous s3 = rs_previous st ∧
  rs_exceptions s3 = rs_exceptions st ∧
  rs_image s3 = rs_image s1 ∧
  shaped (rs_image s3) ∧
  columns (rs_image s3) = columns (rs_image st) ∧
  rows (rs_image s3) = rows (rs_image st) ∧
  depth (rs_image s3) = depth (rs_image st) ∧
  scene (rs_image s3) = scene (rs_image st) ∧
  filename (rs_image s3) = filename (rs_image st) ∧
  interlace (rs_image s3) = interlace (rs_image st) ∧
  shaped (rs_chroma_image s3) ∧
  columns (rs_chroma_image s3) = columns (rs_chroma_image st) ∧
  rows (rs_chroma_image s3) = rows (rs_chroma_image st).
Proof.
  intros Hquantum Himage Hchroma luma_bytes chroma_bytes Hluma Hu Hv total.
  pose proof (reads_plane_shaped _ _ _ _ _ _ _ Himage Hluma)
    as (Himage1 & Hcolumns1 & Hrows1).
  pose proof Hluma as (decoded1 & Hrest1 & Heof1
    & Hscanline1 & Hfiles1 & Hprevious1 & Hexceptions1 & Hother1
    & Htarget1 & _).
  simpl in Hother1.
  assert (shaped (rs_chroma_image s1)) as Hchroma1 by by rewrite Hother1.
  pose proof (reads_plane_shaped _ _ _ _ _ _ _ Hchroma1 Hu)
    as (Hchroma2 & Hcolumns2 & Hrows2).
  pose proof (reads_plane_shaped _ _ _ _ _ _ _ Hchroma2 Hv)
    as (Hchroma3 & Hcolumns3 & Hrows3).
  destruct Hu as (decoded2 & Hrest2 & Heof2
    & Hscanline2 & Hfiles2 & Hprevious2 & Hexceptions2 & Hother2 & _).
  destruct Hv as (decoded3 & Hrest3 & Heof3
    & Hscanline3 & Hfiles3 & Hprevious3 & Hexceptions3 & Hother3 & _).
  simpl in Hother2, Hother3.
  rewrite Hcolumns2, Hrows2 in Hrest3, Heof3.
  rewrite Hcolumns2 in Hcolumns3. rewrite Hrows2 in Hrows3.
  rewrite Hother1 in *.
  fold luma_bytes in Hrest1, Heof1.
  fold chroma_bytes in Hrest2, Heof2, Hrest3, Heof3.
  pose proof Himage as (Hcolumns & Hrows & _).
  pose proof Hchroma as (Hcolumns' & Hrows' & _).
  assert (luma_bytes + 2 * chroma_bytes = total)%nat as Htotal.
  { unfold luma_bytes, chroma_bytes, total.
    rewrite !Z2Nat.inj_mul by lia. lia. }
  assert (rs_image s3 = rs_image s1) as Hsame by congruence.
  split_and!; try congruence.
  - rewrite Hrest3, !drop_drop. do 2 f_equal. lia.
  - rewrite Heof3, Heof2, Heof1, !length_drop.
    destruct (rs_eof st); [done|]. simpl.
    repeat case_bool_decide; try done; lia.
  - by rewrite Hsame, Htarget1.
  - by rewrite Hsame, Htarget1.
  - by rewrite Hsame, Htarget1.
  - by rewrite Hsame, Htarget1.
Qed.

(** One frame of the plane layout: the planes, the merge, and the look
    ahead for the next frame. *)
Lemma read_frame_run (image_info : ImageInfo) (quantum : Z)
    (interlace : InterlaceType) (horizontal_factor vertical_factor : Z)
    (st : ReaderState) (blob : list Z) :
  component_map_wf component_map →
  quantum = 1 ∨ quantum = 2 →
  interlace ≠ NoInterlace → interlace ≠ PartitionInterlace →
  horizontal_factor = 1 ∨ horizontal_factor = 2 →
  vertical_factor = 1 ∨ vertical_factor = 2 →
  ping image_info = false →
  rs_eof st = false →
  rs_blob st = Some blob →
  shaped (rs_image st) →
  0 < columns (rs_image st) < 2 ^ 64 →
  0 < rows (rs_image st) < 2 ^ 64 →
  (Z.to_nat (quantum * columns (rs_image st))
   ≤ length (rs_scanline st))%nat →
  let chroma_columns := columns (rs_image st) / horizontal_factor in
  let chroma_rows := rows (rs_image st) / vertical_factor in
  (∀ chroma, shaped chroma →
     columns chroma = chroma_columns → rows chroma = chroma_rows →
     ∃ resized,
       ResizeImage chroma (columns (rs_image st)) (rows (rs_image st))
       = Some resized ∧
       shaped resized ∧
       columns resized = columns (rs_image st) ∧
       rows resized = rows (rs_image st)) →
  let stream := read_ahead quantum st ++ blob in
  let size := Z.to_nat (quantum * columns (rs_image st)) in
  let width := Z.to_nat (columns (rs_image st)) in
  let height := Z.to_nat (rows (rs_image st)) in
  let chroma_width := Z.to_nat chroma_columns in
  let chroma_height := Z.to_nat chroma_rows in
  let luma := (width * height)%nat in
  let chroma_size := (chroma_width * chroma_height)%nat in
  let total := ((luma + 2 * chroma_size) * Z.to_nat quantum)%nat in
  ∃ continue st' chroma resized merged,
    read_frame image_info quantum interlace
      horizontal_factor vertical_factor st = (Ok continue, st') ∧
    length merged = height ∧
    shaped chroma ∧
    columns chroma = chroma_columns ∧ rows chroma = chroma_rows ∧
    ResizeImage chroma (columns (rs_image st)) (rows (rs_image st))
    = Some resized ∧
    ((total ≤ length stream)%nat →
     (∀ x y : nat, (x < chroma_width)%nat → (y < chroma_height)%nat →
        ∃ row,
          pixels chroma !! y = Some row ∧
          GetPixelRed row (x * GetPixelChannels) = Some 0 ∧
          GetPixelGreen row (x * GetPixelChannels)
          = sample_at quantum stream (luma + y * chroma_width + x) ∧
          GetPixelBlue row (x * GetPixelChannels)
          = sample_at quantum stream
              (luma + chroma_size + y * chroma_width + x)) ∧
     (∀ x y : nat, (x < width)%nat → (y < height)%nat →
        ∃ row chroma_row,
          merged !! y = Some row ∧
          pixels resized !! y = Some chroma_row ∧
          GetPixelRed row (x * GetPixelChannels)
          = sample_at quantum stream (y * width + x) ∧
          GetPixelGreen row (x * GetPixelChannels)
          = GetPixelGreen chroma_row x ∧
          GetPixelBlue row (x * GetPixelChannels)
          = GetPixelBlue chroma_row x)) ∧
    rs_files st' = rs_files st ∧
    length (rs_scanline st') = length (rs_scanline st) ∧
    let image' :=
      set_colorspace YCbCrColorspace (set_pixels merged (rs_image st)) in
    if decide (length stream < total)%nat then
      continue = false ∧
      rs_previous st' = rs_previous st ∧ rs_image st' = image' ∧
      rs_exceptions st'
      = rs_exceptions st ++ [(CorruptImageError, "UnexpectedEndOfFile")]
    else
      rs_exceptions st' = rs_exceptions st ∧
      if last_scene image_info image' then
        continue = false ∧
        rs_previous st' = rs_previous st ∧ rs_image st' = image'
      else
        let rest := drop total stream in
        continue = true ∧
        rs_blob st' = Some (drop size rest) ∧
        rs_eof st' = bool_decide (length rest < size)%nat ∧
        rs_count st' = Z.of_nat (size `min` length rest) ∧
        take size rest `prefix_of` rs_scanline st' ∧
        if decide (rs_count st' ≠ 0) then
          rs_previous st' = rs_previous st ++ [image'] ∧
          rs_image st' = AcquireNextImage image_info image'
        else
          rs_previous st' = rs_previous st ∧ rs_image st' = image'.
Proof.
  intros Hwf Hquantum Hno Hpartition Hh Hv Hping Heof Hblob Himage
    Hcolumns Hrows Hscanline chroma_columns chroma_rows Hresize stream size
    width height chroma_width chroma_height luma chroma_size total.
  pose proof Himage as (_ & _ & Hheight & Hall).
  assert (0 ≤ chroma_columns ≤ columns (rs_image st)) as Hcc.
  { unfold chroma_columns.
    destruct Hh as [-> | ->]; [rewrite Z.div_1_r; lia|].
    split; [apply Z.div_pos; lia|].
    apply Z.div_le_upper_bound; lia. }
  assert (0 ≤ chroma_rows) as Hcr
    by (unfold chroma_rows; apply Z.div_pos; lia).
  set (clone := CloneImage (rs_image st) chroma_columns chroma_rows).
  set (s0 := rs_set_images (rs_previous st) (rs_image st) clone st).
  assert (acquire_chroma_image horizontal_factor vertical_factor st
          = (Ok (), s0)) as Hacquire
    by (apply acquire_chroma_image_run; [done|done|lia|lia]).
  assert (shaped clone) as Hclone
    by (apply fresh_pixels_shaped; simpl; [lia|lia|done]).
  destruct (read_planes_run quantum interlace s0 blob)
    as (s1 & s2 & s3 & Hplanes & Hluma & Hu & Hv'); try done.
  { simpl. lia. }
  { simpl. lia. }
  change (read_ahead quantum s0) with (read_ahead quantum st)
    in Hluma, Hu, Hv'.
  fold stream in Hluma, Hu, Hv'.
  destruct (read_planes_consumed quantum s0 s1 s2 s3 stream)
    as (Hrest & Heof3 & Hscanline3 & Hfiles3 & Hprevious3 & Hexceptions3
        & Hsame & Himage3 & Hcolumns3 & Hrows3 & Hdepth3 & Hscene3
        & Hfilename3 & Hinterlace3 & Hchroma3 & Hcc3 & Hcr3);
    try done; [lia|].
  simpl in Hrest, Heof3, Hscanline3, Hfiles3, Hprevious3, Hexceptions3,
    Hcolumns3, Hrows3, Hdepth3, Hscene3, Hfilename3, Hinterlace3, Hcc3,
    Hcr3.
  fold width height chroma_width chroma_height luma chroma_size total
    in Hrest, Heof3.
  rewrite Heof in Heof3. simpl in Heof3.
  destruct (Hresize (rs_chroma_image s3) Hchroma3 Hcc3 Hcr3)
    as (resized & Hresized & Hshaped & Hsame_columns & Hsame_rows).
  rewrite <- Hcolumns3, <- Hrows3 in Hresized.
  rewrite <- Hcolumns3 in Hsame_columns. rewrite <- Hrows3 in Hsame_rows.
  destruct (scale_and_merge_run s3 resized)
    as (merged & Hmerge & Hlength & Hmerged); try done.
  set (image3 := set_colorspace YCbCrColorspace
                   (set_pixels merged (rs_image s3))) in Hmerge.
  set (s4 := rs_set_images _ image3 _ s3) in Hmerge.
  set (image' := set_colorspace YCbCrColorspace
                   (set_pixels merged (rs_image st))).
  assert (image3 = image') as Himage'.
  { unfold image3, image', set_colorspace, set_pixels. simpl.
    by rewrite Hcolumns3, Hrows3, Hdepth3, Hscene3, Hfilename3,
      Hinterlace3. }
  assert (length merged = height) as Hmerged_length.
  { rewrite Hlength. destruct Himage3 as (_ & _ & -> & _).
    unfold height. by rewrite Hrows3. }
  assert ((total ≤ length stream)%nat →
     (∀ x y : nat, (x < chroma_width)%nat → (y < chroma_height)%nat →
        ∃ row,
          pixels (rs_chroma_image s3) !! y = Some row ∧
          GetPixelRed row (x * GetPixelChannels) = Some 0 ∧
          GetPixelGreen row (x * GetPixelChannels)
          = sample_at quantum stream (luma + y * chroma_width + x) ∧
          GetPixelBlue row (x * GetPixelChannels)
          = sample_at quantum stream
              (luma + chroma_size + y * chroma_width + x)) ∧
     (∀ x y : nat, (x < width)%nat → (y < height)%nat →
        ∃ row chroma_row,
          merged !! y = Some row ∧
          pixels resized !! y = Some chroma_row ∧
          GetPixelRed row (x * GetPixelChannels)
          = sample_at quantum stream (y * width + x) ∧
          GetPixelGreen row (x * GetPixelChannels)
          = GetPixelGreen chroma_row x ∧
          GetPixelBlue row (x * GetPixelChannels)
          = GetPixelBlue chroma_row x)) as Hsamples.
  { intros Hwhole. split.
    - pose proof Hluma as (decoded1 & _ & _ & _ & _ & _ & _ & Hother1 & _).
      simpl in Hother1.
      assert (shaped (rs_chroma_image s1)) as Hchroma1
        by by rewrite Hother1.
      assert (rs_chroma_image s0 = rs_chroma_image s1) as Hother1'
        by done.
      rewrite Hother1' in Hv'.
      pose proof (chroma_planes_samples quantum s1 s2 s3 _ Hwf Hquantum
                    Hchroma1 Hu Hv') as Hchroma_samples.
      rewrite Hother1 in Hchroma_samples. simpl in Hchroma_samples.
      fold chroma_width chroma_height in Hchroma_samples.
      intros x y Hx Hy.
      destruct (Hchroma_samples
                  ltac:(rewrite length_drop, Z2Nat.inj_mul by lia;
                        unfold total, luma, chroma_size, width, height
                          in *; nia) x y Hx Hy)
        as (row & Hrow & Hred & Hgreen & Hblue).
      exists row.
      rewrite !(sample_at_drop quantum stream _ luma) in Hgreen, Hblue
        by (rewrite Z2Nat.inj_mul by lia; unfold luma, width, height; lia).
      split_and!; [done|done|..].
      + rewrite Hgreen. f_equal. lia.
      + rewrite Hblue. f_equal. unfold chroma_size. lia.
    - pose proof (luma_plane_samples quantum s0 s1 stream Hwf Hquantum
                    Himage Hluma) as Hluma_samples.
      simpl in Hluma_samples. fold width height in Hluma_samples.
      intros x y Hx Hy.
      destruct (Hluma_samples
                  ltac:(unfold total, luma in *; nia) x y Hx Hy)
        as (row & Hrow & Hred & _).
      rewrite <- Hsame in Hrow.
      destruct (Hmerged y row Hrow)
        as (chroma_row & row' & Hchroma_row & Hrow' & Hmerge_row).
      destruct (merge_row_spec (columns (rs_image s3)) chroma_row row)
        as (row'' & Hmerge_row' & _ & Hpixels & Hkept); try done.
      { lia. }
      { destruct Himage3 as (_ & _ & _ & Hall3).
        by apply (Forall_lookup_1 _ _ _ _ Hall3 Hrow). }
      { destruct Hshaped as (_ & _ & _ & Hall').
        rewrite (Forall_lookup_1 _ _ _ _ Hall' Hchroma_row).
        by rewrite Hsame_columns. }
      rewrite Hmerge_row in Hmerge_row'. injection Hmerge_row' as <-.
      exists row', chroma_row.
      destruct (Hpixels x ltac:(rewrite Hcolumns3; exact Hx))
        as (_ & _ & Hgreen & Hblue).
      split_and!; try done.
      rewrite <- Hred. unfold GetPixelRed.
      destruct Hwf as (Hr & Hg & Hb & Hrg & Hrb & Hgb).
      fold GetPixelChannels in Hr, Hg, Hb.
      apply Hkept; by rewrite component_mod. }
  rewrite Hcolumns3, Hrows3 in Hresized.
  exists (if decide (length stream < total)%nat then false
          else negb (last_scene image_info image')).
  unfold read_frame. rewrite (bind_Ok _ _ _ _ _ Hacquire).
  unfold mbind at 1, M_bind at 1, gets at 1.
  rewrite Hping, andb_false_l.
  rewrite (bind_Ok _ _ _ _ _ Hplanes), (bind_Ok _ _ _ _ _ Hmerge).
  rewrite (decide_False (P := interlace = PartitionInterlace)) by done.
  rewrite bind_ret.
  unfold mbind at 1, M_bind at 1, get at 1.
  change (rs_eof s4) with (rs_eof s3). rewrite Heof3.
  change (rs_image s4) with image3. rewrite Himage'.
  destruct (decide (length stream < total)%nat) as [Hshort|Hwhole].
  - rewrite bool_decide_eq_true_2 by done.
    eexists _, (rs_chroma_image s3), resized, merged.
    split; [reflexivity|]. cbv zeta. fold image'.
    simpl.
    rewrite Hexceptions3, Hprevious3, Hfiles3, Hscanline3, Himage'.
    split_and!; done.
  - rewrite bool_decide_eq_false_2 by done.
    destruct (last_scene image_info image') eqn:Hlast.
    + eexists _, (rs_chroma_image s3), resized, merged.
      split; [reflexivity|]. cbv zeta. fold image'.
      rewrite Hlast. simpl.
      rewrite Hexceptions3, Hprevious3, Hfiles3, Hscanline3, Himage'.
      split_and!; done.
    + rewrite (decide_False (P := interlace = NoInterlace)) by done.
      destruct (ReadBlob_run (quantum * columns image') s4
                  (drop total stream))
        as (s5 & Hread & Hblob5 & Heof5 & Hcount & Hprefix & Hscanline5
            & Hfiles5 & Hprevious5 & Hexceptions5 & Himage5 & Hchroma5).
      { done. }
      { simpl. lia. }
      { simpl. rewrite Hscanline3. done. }
      rewrite (bind_Ok _ _ _ _ _ Hread).
      unfold mbind at 1, M_bind at 1, get at 1.
      change (columns image') with (columns (rs_image st))
        in Hblob5, Heof5, Hcount, Hprefix.
      fold size in Hblob5, Heof5, Hcount, Hprefix.
      change (rs_eof s4) with (rs_eof s3) in Heof5.
      rewrite Heof3, bool_decide_eq_false_2 in Heof5 by done.
      simpl in Heof5, Hscanline5, Hfiles5, Hprevious5, Hexceptions5,
        Himage5.
      destruct (decide (rs_count s5 ≠ 0)) as [Hmore|Hlast_frame].
      * unfold mbind at 1, M_bind at 1, modify at 1.
        eexists _, (rs_chroma_image s3), resized, merged.
        split; [reflexivity|]. cbv zeta. fold image'.
        rewrite Hlast. simpl.
        rewrite (decide_True (P := rs_count s5 ≠ 0)) by done.
        rewrite Hexceptions5, Hexceptions3, Hprevious5, Hprevious3,
          Hfiles5, Hfiles3, Hscanline5, Hscanline3, Himage5, Himage'.
        split_and!; done.
      * rewrite !bind_ret.
        eexists _, (rs_chroma_image s3), resized, merged.
        split; [reflexivity|]. cbv zeta. fold image'.
        rewrite Hlast. simpl.
        rewrite (decide_False (P := rs_count s5 ≠ 0)) by done.
        rewrite Hexceptions5, Hexceptions3, Hprevious5, Hprevious3,
          Hfiles5, Hfiles3, Hscanline5, Hscanline3, Himage5, Himage'.
        split_and!; done.
Qed.

(** The first frame of a stream that holds one frame at most. *)
Lemma read_first_frame (image_info : ImageInfo) (quantum : Z)
    (interlace : InterlaceType) (horizontal_factor vertical_factor : Z)
    (st : ReaderState) (stream : list Z) :
  component_map_wf component_map →
  quantum = 1 ∨ quantum = 2 →
  interlace ≠ NoInterlace → interlace ≠ PartitionInterlace →
  horizontal_factor = 1 ∨ horizontal_factor = 2 →
  vertical_factor = 1 ∨ vertical_factor = 2 →
  ping image_info = false →
  rs_previous st = [] → rs_eof st = false →
  rs_blob st = Some stream →
  shaped (rs_image st) →
  0 < columns (rs_image st) < 2 ^ 64 →
  0 < rows (rs_image st) < 2 ^ 64 →
  (Z.to_nat (quantum * columns (rs_image st))
   ≤ length (rs_scanline st))%nat →
  let chroma_columns := columns (rs_image st) / horizontal_factor in
  let chroma_rows := rows (rs_image st) / vertical_factor in
  (∀ chroma, shaped chroma →
     columns chroma = chroma_columns → rows chroma = chroma_rows →
     ∃ resized,
       ResizeImage chroma (columns (rs_image st)) (rows (rs_image st))
       = Some resized ∧
       shaped resized ∧
       columns resized = columns (rs_image st) ∧
       rows resized = rows (rs_image st)) →
  let width := Z.to_nat (columns (rs_image st)) in
  let height := Z.to_nat (rows (rs_image st)) in
  let chroma_width := Z.to_nat chroma_columns in
  let chroma_height := Z.to_nat chroma_rows in
  let luma := (width * height)%nat in
  let chroma_size := (chroma_width * chroma_height)%nat in
  let total := ((luma + 2 * chroma_size) * Z.to_nat quantum)%nat in
  (length stream ≤ total)%nat →
  ∃ continue st' chroma resized merged,
    read_frame image_info quantum interlace
      horizontal_factor vertical_factor st = (Ok continue, st') ∧
    continue && bool_decide (rs_count st' ≠ 0) = false ∧
    rs_previous st' = [] ∧
    rs_exceptions st'
    = rs_exceptions st
      ++ (if decide (length stream < total)%nat
          then [(CorruptImageError, "UnexpectedEndOfFile")] else []) ∧
    rs_image st'
    = set_colorspace YCbCrColorspace (set_pixels merged (rs_image st)) ∧
    length merged = height ∧
    shaped chroma ∧
    columns chroma = chroma_columns ∧ rows chroma = chroma_rows ∧
    ResizeImage chroma (columns (rs_image st)) (rows (rs_image st))
    = Some resized ∧
    (length stream = total →
     (∀ x y : nat, (x < chroma_width)%nat → (y < chroma_height)%nat →
        ∃ row,
          pixels chroma !! y = Some row ∧
          GetPixelRed row (x * GetPixelChannels) = Some 0 ∧
          GetPixelGreen row (x * GetPixelChannels)
          = sample_at quantum stream (luma + y * chroma_width + x) ∧
          GetPixelBlue row (x * GetPixelChannels)
          = sample_at quantum stream
              (luma + chroma_size + y * chroma_width + x)) ∧
     (∀ x y : nat, (x < width)%nat → (y < height)%nat →
        ∃ row chroma_row,
          merged !! y = Some row ∧
          pixels resized !! y = Some chroma_row ∧
          GetPixelRed row (x * GetPixelChannels)
          = sample_at quantum stream (y * width + x) ∧
          GetPixelGreen row (x * GetPixelChannels)
          = GetPixelGreen chroma_row x ∧
          GetPixelBlue row (x * GetPixelChannels)
          = GetPixelBlue chroma_row x)).
Proof.
  intros Hwf Hquantum Hno Hpartition Hh Hv Hping Hfirst Heof Hblob Himage
    Hcolumns Hrows Hscanline chroma_columns chroma_rows Hresize
    width height chroma_width chroma_height luma chroma_size total Hstream.
  destruct (read_frame_run image_info quantum interlace
              horizontal_factor vertical_factor st stream)
    as (continue & st' & chroma & resized & merged & Hrun & Hlength
        & Hchroma & Hcc & Hcr & Hresized & Hsamples & _ & _ & Hend);
    try done.
  cbv zeta in Hsamples, Hend. unfold read_ahead in Hsamples, Hend.
  rewrite decide_True in Hsamples, Hend by done.
  simpl app in Hsamples, Hend.
  fold chroma_columns chroma_rows in Hsamples, Hend.
  fold width height chroma_width chroma_height in Hsamples, Hend.
  fold luma chroma_size in Hsamples, Hend. fold total in Hsamples, Hend.
  exists continue, st', chroma, resized, merged.
  assert (continue && bool_decide (rs_count st' ≠ 0) = false ∧
          rs_previous st' = [] ∧
          rs_exceptions st'
          = rs_exceptions st
            ++ (if decide (length stream < total)%nat
                then [(CorruptImageError, "UnexpectedEndOfFile")]
                else []) ∧
          rs_image st'
          = set_colorspace YCbCrColorspace
              (set_pixels merged (rs_image st)))
    as (Hloop & Hprevious & Hexceptions & Hresult).
  { destruct (decide (length stream < total)%nat) as [Hshort|Hwhole].
    - destruct Hend as (-> & -> & -> & ->). by rewrite Hfirst.
    - destruct Hend as (-> & Hend). rewrite app_nil_r.
      destruct (last_scene image_info _).
      + destruct Hend as (-> & -> & ->). by rewrite Hfirst.
      + destruct Hend as (-> & _ & _ & Hcount & _ & Hend).
        rewrite length_drop in Hcount.
        replace (length stream - total)%nat with 0%nat in Hcount by lia.
        rewrite Nat.min_0_r in Hcount.
        rewrite decide_False in Hend by (rewrite Hcount; intros ?; done).
        destruct Hend as (-> & ->).
        rewrite Hcount, Hfirst. done. }
  split_and!; try done.
  intros Hexact. apply Hsamples. lia.
Qed.

(** Lines 175-189: the stream is opened and the offset skipped. *)
Lemma open_stream_run (offset : Z) (st : ReaderState) (file : list Z) :
  rs_files st (filename (rs_image st)) = Some file →
  offset ≤ Z.of_nat (length file) →
  ∃ st',
    (OpenBlob_read;;
     discarded ← DiscardBlobBytes offset;
     if discarded : bool then mret ()
     else modify (rs_record (CorruptImageError, "UnexpectedEndOfFile")))
      st = (Ok (), st') ∧
    rs_blob st' = Some (drop (Z.to_nat offset) file) ∧
    rs_eof st' = false ∧
    rs_scanline st' = rs_scanline st ∧
    rs_previous st' = rs_previous st ∧
    rs_image st' = rs_image st ∧
    rs_chroma_image st' = rs_chroma_image st ∧
    rs_exceptions st' = rs_exceptions st.
Proof.
  intros Hfile Hoffset.
  unfold mbind at 1, M_bind at 1, OpenBlob_read at 1.
  unfold mbind at 1, M_bind at 1, get at 1. rewrite Hfile.
  unfold modify at 1.
  unfold mbind at 1, M_bind at 1, DiscardBlobBytes at 1.
  unfold mbind at 1, M_bind at 1, get at 1. simpl.
  pose proof (length_take file (Z.to_nat offset)) as Hcount.
  rewrite bool_decide_eq_true_2 by lia.
  eexists. split; [reflexivity|]. simpl.
  rewrite bool_decide_eq_false_2 by lia.
  split_and!; try done. do 2 f_equal. lia.
Qed.

(** The decode of a stream that holds one frame at most. *)
Lemma ReadYUVImage_first_frame (frames : nat) (image_info : ImageInfo)
    (files : string → option (list Z)) (file : list Z)
    (horizontal_factor vertical_factor : Z) :
  component_map_wf component_map →
  frames ≠ 0%nat →
  0 < info_columns image_info < 2 ^ 64 →
  0 < info_rows image_info < 2 ^ 64 →
  sampling_factors (sampling_factor image_info)
  = Some (horizontal_factor, vertical_factor) →
  horizontal_factor = 1 ∨ horizontal_factor = 2 →
  vertical_factor = 1 ∨ vertical_factor = 2 →
  effective_interlace (info_interlace image_info) vertical_factor
  ≠ NoInterlace →
  effective_interlace (info_interlace image_info) vertical_factor
  ≠ PartitionInterlace →
  ping image_info = false →
  files (info_filename image_info) = Some file →
  info_offset image_info ≤ Z.of_nat (length file) →
  let chroma_columns := info_columns image_info / horizontal_factor in
  let chroma_rows := info_rows image_info / vertical_factor in
  (∀ chroma, shaped chroma →
     columns chroma = chroma_columns → rows chroma = chroma_rows →
     ∃ resized,
       ResizeImage chroma (info_columns image_info) (info_rows image_info)
       = Some resized ∧
       shaped resized ∧
       columns resized = info_columns image_info ∧
       rows resized = info_rows image_info) →
  let stream := drop (Z.to_nat (info_offset image_info)) file in
  let quantum := sample_width (info_depth image_info) in
  let width := Z.to_nat (info_columns image_info) in
  let height := Z.to_nat (info_rows image_info) in
  let chroma_width := Z.to_nat chroma_columns in
  let chroma_height := Z.to_nat chroma_rows in
  let luma := (width * height)%nat in
  let chroma_size := (chroma_width * chroma_height)%nat in
  let total := ((luma + 2 * chroma_size) * Z.to_nat quantum)%nat in
  (length stream ≤ total)%nat →
  ∃ st' chroma resized merged,
    ReadYUVImage frames image_info (reader_entry files image_info)
    = (Ok [set_colorspace YCbCrColorspace
             (set_pixels merged (AcquireImage image_info))], st') ∧
    rs_blob st' = None ∧
    rs_exceptions st'
    = (if decide (length stream < total)%nat
       then [(CorruptImageError, "UnexpectedEndOfFile")] else []) ∧
    length merged = height ∧
    shaped chroma ∧
    columns chroma = chroma_columns ∧ rows chroma = chroma_rows ∧
    ResizeImage chroma (info_columns image_info) (info_rows image_info)
    = Some resized ∧
    (length stream = total →
     (∀ x y : nat, (x < chroma_width)%nat → (y < chroma_height)%nat →
        ∃ row,
          pixels chroma !! y = Some row ∧
          GetPixelRed row (x * GetPixelChannels) = Some 0 ∧
          GetPixelGreen row (x * GetPixelChannels)
          = sample_at quantum stream (luma + y * chroma_width + x) ∧
          GetPixelBlue row (x * GetPixelChannels)
          = sample_at quantum stream
              (luma + chroma_size + y * chroma_width + x)) ∧
     (∀ x y : nat, (x < width)%nat → (y < height)%nat →
        ∃ row chroma_row,
          merged !! y = Some row ∧
          pixels resized !! y = Some chroma_row ∧
          GetPixelRed row (x * GetPixelChannels)
          = sample_at quantum stream (y * width + x) ∧
          GetPixelGreen row (x * GetPixelChannels)
          = GetPixelGreen chroma_row x ∧
          GetPixelBlue row (x * GetPixelChannels)
          = GetPixelBlue chroma_row x)).
Proof.
  intros Hwf Hframes Hcolumns Hrows Hfactors Hh Hv Hno Hpartition Hping
    Hfile Hoffset chroma_columns chroma_rows Hresize stream quantum
    width height chroma_width chroma_height luma chroma_size total Hstream.
  set (entry := reader_entry files image_info).
  set (interlace := effective_interlace (info_interlace image_info)
                      vertical_factor) in *.
  assert (quantum = 1 ∨ quantum = 2) as Hquantum
    by (unfold quantum, sample_width; case_decide; [by left|by right]).
  destruct (open_stream_run (info_offset image_info) entry file)
    as (s0 & Hopen & Hblob0 & Heof0 & Hscanline0 & Hprevious0 & Himage0
        & _ & Hexceptions0); [done|done|].
  set (scanline := replicate
         (Z.to_nat (scanline_extent interlace (info_columns image_info)
                      quantum)) fresh_byte).
  set (s1 := rs_set_scanline scanline 0 s0).
  destruct (read_first_frame image_info quantum interlace
              horizontal_factor vertical_factor s1 stream)
    as (continue & s2 & chroma & resized & merged & Hframe & Hloop
        & Hprevious2 & Hexceptions2 & Himage2 & Hlength & Hchroma & Hcc
        & Hcr & Hresized & Hsamples); try done.
  { simpl. rewrite Himage0. simpl.
    apply fresh_pixels_shaped; simpl; [lia|lia|done]. }
  { simpl. by rewrite Himage0. }
  { simpl. rewrite Himage0. simpl. lia. }
  { simpl. rewrite Himage0. simpl. unfold scanline, scanline_extent.
    rewrite decide_False by done. rewrite length_replicate. lia. }
  { simpl. rewrite Himage0. exact Hresize. }
  { simpl. rewrite Himage0. exact Hstream. }
  simpl in Hexceptions2, Himage2, Hlength, Hcc, Hcr, Hresized, Hsamples.
  rewrite Himage0 in Hexceptions2, Himage2, Hlength, Hcc, Hcr, Hresized,
    Hsamples.
  rewrite Hexceptions0 in Hexceptions2.
  simpl in Hexceptions2, Himage2, Hlength, Hcc, Hcr, Hresized, Hsamples.
  exists (rs_set_blob None (rs_eof s2) CloseBlobEvent s2),
    chroma, resized, merged.
  split_and!; try done.
  unfold ReadYUVImage. unfold mbind at 1, M_bind at 1, gets at 1.
  change (rs_image entry) with (AcquireImage image_info).
  rewrite decide_False by (simpl; lia).
  rewrite Hfactors. fold interlace.
  change (depth (AcquireImage image_info)) with (info_depth image_info).
  change (columns (AcquireImage image_info))
    with (info_columns image_info).
  fold quantum scanline.
  rewrite (decide_True (P := interlace ≠ PartitionInterlace)) by done.
  rewrite (bind_Ok _ _ _ _ _ Hopen).
  unfold mbind at 1, M_bind at 1, modify at 1. fold s1.
  destruct frames as [|fuel]; [done|]. simpl do_while.
  unfold mbind at 1, M_bind at 1.
  unfold mbind at 1, M_bind at 1. rewrite Hframe.
  unfold mbind at 1, M_bind at 1, get at 1. rewrite Hloop.
  unfold mret at 1, M_ret at 1.
  unfold mbind at 1, M_bind at 1, CloseBlob_read at 1, modify at 1.
  unfold mbind at 1, M_bind at 1, get at 1.
  unfold mret, M_ret. cbn [rs_previous rs_image rs_set_blob].
  by rewrite Hprevious2, Himage2.
Qed.

(** X17.  The decode of a stream of exactly one
    frame in the plane layout.  The image is W by H, the sampling factors
    are 1 or 2, ping is off, the stream opens, and after the offset it
    holds [quantum * (W * H + 2 * Wc * Hc)] bytes, Wc by Hc the chroma
    geometry; ResizeImage delivers images of the geometry asked for.
    Then ReadYUVImage returns one image and records no exception: the
    image is W by H and YCbCr, the blob is closed, and pixel (x, y) has
    sample [y * W + x] of the stream in red.  Its green and blue are read
    from row y of the resized chroma image at x quantums (not x pixels)
    from the start of the row; the chroma image that was resized has
    the samples of the U plane in green and those of the V plane in
    blue. *)
Theorem ReadYUVImage_one_frame (frames : nat) (image_info : ImageInfo)
    (files : string → option (list Z)) (file : list Z)
    (horizontal_factor vertical_factor : Z) :
  component_map_wf component_map →
  frames ≠ 0%nat →
  0 < info_columns image_info < 2 ^ 64 →
  0 < info_rows image_info < 2 ^ 64 →
  sampling_factors (sampling_factor image_info)
  = Some (horizontal_factor, vertical_factor) →
  horizontal_factor = 1 ∨ horizontal_factor = 2 →
  vertical_factor = 1 ∨ vertical_factor = 2 →
  effective_interlace (info_interlace image_info) vertical_factor
  ≠ NoInterlace →
  effective_interlace (info_interlace image_info) vertical_factor
  ≠ PartitionInterlace →
  ping image_info = false →
  files (info_filename image_info) = Some file →
  info_offset image_info ≤ Z.of_nat (length file) →
  let chroma_columns := info_columns image_info / horizontal_factor in
  let chroma_rows := info_rows image_info / vertical_factor in
  (∀ chroma, shaped chroma →
     columns chroma = chroma_columns → rows chroma = chroma_rows →
     ∃ resized,
       ResizeImage chroma (info_columns image_info) (info_rows image_info)
       = Some resized ∧
       shaped resized ∧
       columns resized = info_columns image_info ∧
       rows resized = info_rows image_info) →
  let stream := drop (Z.to_nat (info_offset image_info)) file in
  let quantum := sample_width (info_depth image_info) in
  let width := Z.to_nat (info_columns image_info) in
  let height := Z.to_nat (info_rows image_info) in
  let chroma_width := Z.to_nat chroma_columns in
  let chroma_height := Z.to_nat chroma_rows in
  let luma := (width * height)%nat in
  let chroma_size := (chroma_width * chroma_height)%nat in
  let total := ((luma + 2 * chroma_size) * Z.to_nat quantum)%nat in
  length stream = total →
  ∃ image st' chroma resized,
    ReadYUVImage frames image_info (reader_entry files image_info)
    = (Ok [image], st') ∧
    rs_blob st' = None ∧
    rs_exceptions st' = [] ∧
    columns image = info_columns image_info ∧
    rows image = info_rows image_info ∧
    colorspace image = YCbCrColorspace ∧
    columns chroma = chroma_columns ∧ rows chroma = chroma_rows ∧
    ResizeImage chroma (info_columns image_info) (info_rows image_info)
    = Some resized ∧
    (∀ x y : nat, (x < chroma_width)%nat → (y < chroma_height)%nat →
       ∃ row,
         pixels chroma !! y = Some row ∧
         GetPixelRed row (x * GetPixelChannels) = Some 0 ∧
         GetPixelGreen row (x * GetPixelChannels)
         = sample_at quantum stream (luma + y * chroma_width + x) ∧
         GetPixelBlue row (x * GetPixelChannels)
         = sample_at quantum stream
             (luma + chroma_size + y * chroma_width + x)) ∧
    (∀ x y : nat, (x < width)%nat → (y < height)%nat →
       ∃ row chroma_row,
         pixels image !! y = Some row ∧
         pixels resized !! y = Some chroma_row ∧
         GetPixelRed row (x * GetPixelChannels)
         = sample_at quantum stream (y * width + x) ∧
         GetPixelGreen row (x * GetPixelChannels)
         = GetPixelGreen chroma_row x ∧
         GetPixelBlue row (x * GetPixelChannels)
         = GetPixelBlue chroma_row x).
Proof.
  intros Hwf Hframes Hcolumns Hrows Hfactors Hh Hv Hno Hpartition Hping
    Hfile Hoffset chroma_columns chroma_rows Hresize stream quantum
    width height chroma_width chroma_height luma chroma_size total Hstream.
  destruct (ReadYUVImage_first_frame frames image_info files file
              horizontal_factor vertical_factor)
    as (st' & chroma & resized & merged & Hrun & Hblob & Hexceptions
        & _ & _ & Hcc & Hcr & Hresized & Hsamples); try done.
  { fold stream quantum. lia. }
  destruct (Hsamples Hstream) as [Hchroma_samples Himage_samples].
  eexists _, st', chroma, resized. split; [exact Hrun|].
  split_and!; try done.
  rewrite Hexceptions. apply decide_False. fold stream quantum. lia.
Qed.

(** X18.  The decode of a stream that ends
    before its first frame does.  Under the same conditions, when the
    stream holds fewer than [quantum * (W * H + 2 * Wc * Hc)] bytes after
    the offset, ReadYUVImage still returns one image of the declared
    geometry, YCbCr, and closes the blob; it throws nothing, and records
    the one exception CorruptImageError, UnexpectedEndOfFile. *)
Theorem ReadYUVImage_short_stream (frames : nat) (image_info : ImageInfo)
    (files : string → option (list Z)) (file : list Z)
    (horizontal_factor vertical_factor : Z) :
  component_map_wf component_map →
  frames ≠ 0%nat →
  0 < info_columns image_info < 2 ^ 64 →
  0 < info_rows image_info < 2 ^ 64 →
  sampling_factors (sampling_factor image_info)
  = Some (horizontal_factor, vertical_factor) →
  horizontal_factor = 1 ∨ horizontal_factor = 2 →
  vertical_factor = 1 ∨ vertical_factor = 2 →
  effective_interlace (info_interlace image_info) vertical_factor
  ≠ NoInterlace →
  effective_interlace (info_interlace image_info) vertical_factor
  ≠ PartitionInterlace →
  ping image_info = false →
  files (info_filename image_info) = Some file →
  info_offset image_info ≤ Z.of_nat (length file) →
  let chroma_columns := info_columns image_info / horizontal_factor in
  let chroma_rows := info_rows image_info / vertical_factor in
  (∀ chroma, shaped chroma →
     columns chroma = chroma_columns → rows chroma = chroma_rows →
     ∃ resized,
       ResizeImage chroma (info_columns image_info) (info_rows image_info)
       = Some resized ∧
       shaped resized ∧
       columns resized = info_columns image_info ∧
       rows resized = info_rows image_info) →
  let stream := drop (Z.to_nat (info_offset image_info)) file in
  let quantum := sample_width (info_depth image_info) in
  let width := Z.to_nat (info_columns image_info) in
  let height := Z.to_nat (info_rows image_info) in
  let chroma_width := Z.to_nat chroma_columns in
  let chroma_height := Z.to_nat chroma_rows in
  let luma := (width * height)%nat in
  let chroma_size := (chroma_width * chroma_height)%nat in
  let total := ((luma + 2 * chroma_size) * Z.to_nat quantum)%nat in
  (length stream < total)%nat →
  ∃ image st',
    ReadYUVImage frames image_info (reader_entry files image_info)
    = (Ok [image], st') ∧
    rs_blob st' = None ∧
    rs_exceptions st' = [(CorruptImageError, "UnexpectedEndOfFile")] ∧
    columns image = info_columns image_info ∧
    rows image = info_rows image_info ∧
    colorspace image = YCbCrColorspace.
Proof.
  intros Hwf Hframes Hcolumns Hrows Hfactors Hh Hv Hno Hpartition Hping
    Hfile Hoffset chroma_columns chroma_rows Hresize stream quantum
    width height chroma_width chroma_height luma chroma_size total Hstream.
  destruct (ReadYUVImage_first_frame frames image_info files file
              horizontal_factor vertical_factor)
    as (st' & chroma & resized & merged & Hrun & Hblob & Hexceptions
        & _); try done.
  { fold stream quantum. lia. }
  eexists _, st'. split; [exact Hrun|].
  split_and!; try done.
  rewrite Hexceptions. by apply decide_True.
Qed.
End FirstFrame.

(** The stand-in for ResizeImage of the reference build delivers the
    geometry asked for. *)
Lemma point_sample_shaped (image : Image) (new_columns new_rows : Z) :
  shaped (H := Reference.Q16) image →
  0 < columns image → 0 < rows image →
  0 < new_columns → 0 < new_rows →
  ∃ resized,
    Reference.point_sample 4 image new_columns new_rows = Some resized ∧
    shaped (H := Reference.Q16) resized ∧
    columns resized = new_columns ∧ rows resized = new_rows.
Proof.
  intros (_ & _ & Hheight & Hall) Hcolumns Hrows Hnew_columns Hnew_rows.
  unfold Reference.point_sample. rewrite decide_True by done.
  eexists. split; [reflexivity|]. split; [|done].
  split_and!; simpl; [lia|lia|by rewrite length_fmap, length_seq|].
  apply Forall_fmap, list.Forall_forall. intros y Hy%elem_of_seq. simpl.
  assert (Z.of_nat y * rows image / new_rows < rows image) as Hrow_index
    by (apply Z.div_lt_upper_bound; nia).
  assert (0 ≤ Z.of_nat y * rows image / new_rows) as Hrow_index'
    by (apply Z.div_pos; nia).
  destruct (lookup_lt_is_Some_2 (pixels image)
              (Z.to_nat (Z.of_nat y * rows image / new_rows)))
    as [source Hsource]; [lia|].
  rewrite Hsource. simpl.
  pose proof (Forall_lookup_1 _ _ _ _ Hall Hsource) as Hlength.
  change (GetPixelChannels (H := Reference.Q16)) with 4%nat in *.
  erewrite join_length_uniform; [by rewrite length_fmap, length_seq|].
  apply Forall_fmap, list.Forall_forall. intros x Hx%elem_of_seq. simpl.
  assert (Z.of_nat x * columns image / new_columns < columns image)
    by (apply Z.div_lt_upper_bound; nia).
  assert (0 ≤ Z.of_nat x * columns image / new_columns)
    by (apply Z.div_pos; nia).
  simpl in Hlength. unfold Reference.pixel_at.
  rewrite length_take, length_drop. lia.
Qed.

Lemma ReadYUVImage_one_frame_witness :
  let image_info := FrameExamples.plane_info in
  let file := FrameExamples.plane_stream in
  let files := Examples.one_file file in
  let stream := drop (Z.to_nat (info_offset image_info)) file in
  (component_map_wf (component_map (MagickCore := Reference.Q16)) ∧
   1%nat ≠ 0%nat ∧
   0 < info_columns image_info < 2 ^ 64 ∧
   0 < info_rows image_info < 2 ^ 64 ∧
   sampling_factors (H := Reference.Q16) (sampling_factor image_info)
   = Some (2, 2) ∧
   (2 = 1 ∨ 2 = 2) ∧ (2 = 1 ∨ 2 = 2) ∧
   effective_interlace (info_interlace image_info) 2 ≠ NoInterlace ∧
   effective_interlace (info_interlace image_info) 2
   ≠ PartitionInterlace ∧
   ping image_info = false ∧
   files (info_filename image_info) = Some file ∧
   info_offset image_info ≤ Z.of_nat (length file) ∧
   (∀ chroma, shaped (H := Reference.Q16) chroma →
      columns chroma = info_columns image_info / 2 →
      rows chroma = info_rows image_info / 2 →
      ∃ resized,
        ResizeImage (MagickCore := Reference.Q16) chroma
          (info_columns image_info) (info_rows image_info)
        = Some resized ∧
        shaped (H := Reference.Q16) resized ∧
        columns resized = info_columns image_info ∧
        rows resized = info_rows image_info) ∧
   length stream = ((2 * 2 + 2 * (1 * 1)) * 1)%nat) ∧
  ∃ image st' chroma resized,
    ReadYUVImage (H := Reference.Q16) 1 image_info
      (reader_entry (H := Reference.Q16) files image_info)
    = (Ok [image], st') ∧
    rs_blob st' = None ∧
    rs_exceptions st' = [] ∧
    columns image = 2 ∧ rows image = 2 ∧
    colorspace image = YCbCrColorspace ∧
    columns chroma = 1 ∧ rows chroma = 1 ∧
    ResizeImage (MagickCore := Reference.Q16) chroma 2 2 = Some resized ∧
    (∀ x y : nat, (x < 1)%nat → (y < 1)%nat →
       ∃ row,
         pixels chroma !! y = Some row ∧
         GetPixelRed (H := Reference.Q16) row
           (x * GetPixelChannels (H := Reference.Q16)) = Some 0 ∧
         GetPixelGreen (H := Reference.Q16) row
           (x * GetPixelChannels (H := Reference.Q16))
         = sample_at (H := Reference.Q16) 1 stream (2 * 2 + y * 1 + x) ∧
         GetPixelBlue (H := Reference.Q16) row
           (x * GetPixelChannels (H := Reference.Q16))
         = sample_at (H := Reference.Q16) 1 stream
             (2 * 2 + 1 * 1 + y * 1 + x)) ∧
    (∀ x y : nat, (x < 2)%nat → (y < 2)%nat →
       ∃ row chroma_row,
         pixels image !! y = Some row ∧
         pixels resized !! y = Some chroma_row ∧
         GetPixelRed (H := Reference.Q16) row
           (x * GetPixelChannels (H := Reference.Q16))
         = sample_at (H := Reference.Q16) 1 stream (y * 2 + x) ∧
         GetPixelGreen (H := Reference.Q16) row
           (x * GetPixelChannels (H := Reference.Q16))
         = GetPixelGreen (H := Reference.Q16) chroma_row x ∧
         GetPixelBlue (H := Reference.Q16) row
           (x * GetPixelChannels (H := Reference.Q16))
         = GetPixelBlue (H := Reference.Q16) chroma_row x).
Proof.
  intros image_info file files stream.
  assert (∀ chroma, shaped (H := Reference.Q16) chroma →
            columns chroma = info_columns image_info / 2 →
            rows chroma = info_rows image_info / 2 →
            ∃ resized,
              ResizeImage (MagickCore := Reference.Q16) chroma
                (info_columns image_info) (info_rows image_info)
              = Some resized ∧
              shaped (H := Reference.Q16) resized ∧
              columns resized = info_columns image_info ∧
              rows resized = info_rows image_info) as Hresize.
  { intros chroma Hchroma Hcolumns Hrows.
    apply point_sample_shaped; [done| | |done|done].
    - by rewrite Hcolumns.
    - by rewrite Hrows. }
  assert (0 < 2 < 2 ^ 64) as Htwo by done.
  split.
  - split_and!; try done; [exact Q16_component_map_wf|by right..].
  - exact (ReadYUVImage_one_frame (H := Reference.Q16) 1 image_info files
             file 2 2 Q16_component_map_wf ltac:(done) Htwo Htwo eq_refl
             (or_intror eq_refl) (or_intror eq_refl) ltac:(done)
             ltac:(done) eq_refl eq_refl ltac:(done) Hresize eq_refl).
Defined.

Lemma ReadYUVImage_short_stream_witness :
  let image_info := FrameExamples.plane_info in
  let file := take 3 FrameExamples.plane_stream in
  let files := Examples.one_file file in
  let stream := drop (Z.to_nat (info_offset image_info)) file in
  (component_map_wf (component_map (MagickCore := Reference.Q16)) ∧
   1%nat ≠ 0%nat ∧
   0 < info_columns image_info < 2 ^ 64 ∧
   0 < info_rows image_info < 2 ^ 64 ∧
   sampling_factors (H := Reference.Q16) (sampling_factor image_info)
   = Some (2, 2) ∧
   (2 = 1 ∨ 2 = 2) ∧ (2 = 1 ∨ 2 = 2) ∧
   effective_interlace (info_interlace image_info) 2 ≠ NoInterlace ∧
   effective_interlace (info_interlace image_info) 2
   ≠ PartitionInterlace ∧
   ping image_info = false ∧
   files (info_filename image_info) = Some file ∧
   info_offset image_info ≤ Z.of_nat (length file) ∧
   (∀ chroma, shaped (H := Reference.Q16) chroma →
      columns chroma = info_columns image_info / 2 →
      rows chroma = info_rows image_info / 2 →
      ∃ resized,
        ResizeImage (MagickCore := Reference.Q16) chroma
          (info_columns image_info) (info_rows image_info)
        = Some resized ∧
        shaped (H := Reference.Q16) resized ∧
        columns resized = info_columns image_info ∧
        rows resized = info_rows image_info) ∧
   (length stream < (2 * 2 + 2 * (1 * 1)) * 1)%nat) ∧
  ∃ image st',
    ReadYUVImage (H := Reference.Q16) 1 image_info
      (reader_entry (H := Reference.Q16) files image_info)
    = (Ok [image], st') ∧
    rs_blob st' = None ∧
    rs_exceptions st' = [(CorruptImageError, "UnexpectedEndOfFile")] ∧
    columns image = 2 ∧ rows image = 2 ∧
    colorspace image = YCbCrColorspace.
Proof.
  intros image_info file files stream.
  assert (∀ chroma, shaped (H := Reference.Q16) chroma →
            columns chroma = info_columns image_info / 2 →
            rows chroma = info_rows image_info / 2 →
            ∃ resized,
              ResizeImage (MagickCore := Reference.Q16) chroma
                (info_columns image_info) (info_rows image_info)
              = Some resized ∧
              shaped (H := Reference.Q16) resized ∧
              columns resized = info_columns image_info ∧
              rows resized = info_rows image_info) as Hresize.
  { intros chroma Hchroma Hcolumns Hrows.
    apply point_sample_shaped; [done| | |done|done].
    - by rewrite Hcolumns.
    - by rewrite Hrows. }
  assert (0 < 2 < 2 ^ 64) as Htwo by done.
  assert (length stream < (2 * 2 + 2 * (1 * 1)) * 1)%nat as Hshort
    by (simpl; lia).
  split.
  - split_and!; try done; [exact Q16_component_map_wf|by right..].
  - exact (ReadYUVImage_short_stream (H := Reference.Q16) 1 image_info
             files file 2 2 Q16_component_map_wf ltac:(done) Htwo Htwo
             eq_refl (or_intror eq_refl) (or_intror eq_refl) ltac:(done)
             ltac:(done) eq_refl eq_refl ltac:(done) Hresize Hshort).
Defined.

(** ** A ping of one scene *)

Section Ping.
Context `{MagickCore}.

(** X19.  A ping of one scene reads no
    pixel data.  With ping on and the scene range of image_info ending
    at the first scene, ReadYUVImage leaves its frame loop before the
    first plane (lines 210-212): it returns the one image as AcquireImage
    built it, its pixel cache unwritten, and records no exception.  In
    the partition layout no stream is opened at all; in the other
    layouts the stream is opened, the offset is skipped, and the stream is
    closed without a scanline read. *)
Theorem ReadYUVImage_ping_reads_no_pixels (frames : nat)
    (image_info : ImageInfo) (files : string → option (list Z))
    (file : list Z) (horizontal_factor vertical_factor : Z) :
  frames ≠ 0%nat →
  info_columns image_info ≠ 0 → info_rows image_info ≠ 0 →
  sampling_factors (sampling_factor image_info)
  = Some (horizontal_factor, vertical_factor) →
  to_size_t horizontal_factor ≠ 0 → to_size_t vertical_factor ≠ 0 →
  ping image_info = true →
  number_scenes image_info ≠ 0 → number_scenes image_info ≤ 1 →
  let interlace :=
    effective_interlace (info_interlace image_info) vertical_factor in
  interlace = PartitionInterlace ∨
  (files (info_filename image_info) = Some file ∧
   info_offset image_info ≤ Z.of_nat (length file)) →
  ∃ st',
    ReadYUVImage frames image_info (reader_entry files image_info)
    = (Ok [AcquireImage image_info], st') ∧
    rs_exceptions st' = [] ∧
    rs_trace st'
    = (if decide (interlace = PartitionInterlace) then []
       else [OpenBlobEvent (info_filename image_info);
             ReadBlobEvent (info_offset image_info)
               (take (Z.to_nat (info_offset image_info)) file)])
      ++ [CloseBlobEvent].
Proof.
  intros Hframes Hcolumns Hrows Hfactors Hh Hv Hping Hscenes Hone interlace
    Hstream.
  destruct frames as [|fuel]; [done|].
  unfold ReadYUVImage. unfold mbind at 1, M_bind at 1, gets at 1.
  change (rs_image (reader_entry files image_info))
    with (AcquireImage image_info).
  rewrite decide_False by (simpl; lia).
  rewrite Hfactors. fold interlace.
  assert (last_scene image_info (AcquireImage image_info) = true) as Hlast.
  { unfold last_scene. simpl.
    rewrite !bool_decide_eq_true_2 by lia. done. }
  assert (∀ st : ReaderState,
            rs_image st = AcquireImage image_info →
            read_frame image_info
              (sample_width (depth (AcquireImage image_info))) interlace
              horizontal_factor vertical_factor st
            = (Ok false,
               rs_set_images (rs_previous st) (rs_image st)
                 (CloneImage (rs_image st)
                    (to_size_t (columns (rs_image st))
                     / to_size_t horizontal_factor)
                    (to_size_t (rows (rs_image st))
                     / to_size_t vertical_factor)) st)) as Hframe.
  { intros st Himage. unfold read_frame, acquire_chroma_image.
    unfold mbind at 1, M_bind at 1.
    unfold mbind at 1, M_bind at 1, gets at 1.
    unfold size_t_div. rewrite !decide_False by done.
    rewrite !defined_Some, !bind_ret.
    unfold set_chroma_image at 1, modify at 1.
    unfold mbind at 1, M_bind at 1, gets at 1.
    cbn [rs_image rs_set_images]. rewrite Himage, Hping, Hlast. done. }
  destruct (decide (interlace = PartitionInterlace)) as [Hpartition|Hsingle].
  - rewrite decide_False by (intros Hne; by apply Hne).
    rewrite bind_ret.
    unfold mbind at 1, M_bind at 1, modify at 1.
    simpl do_while. unfold mbind at 1, M_bind at 1.
    unfold mbind at 1, M_bind at 1. rewrite Hframe by done.
    eexists. split; [reflexivity|]. done.
  - destruct Hstream as [?|[Hfile Hoffset]]; [done|].
    rewrite decide_True by done.
    unfold mbind at 1, M_bind at 1.
    unfold mbind at 1, M_bind at 1, OpenBlob_read at 1.
    unfold mbind at 1, M_bind at 1, get at 1.
    change (rs_files (reader_entry files image_info)
              (filename (rs_image (reader_entry files image_info))))
      with (files (info_filename image_info)).
    rewrite Hfile. unfold modify at 1.
    unfold mbind at 1, M_bind at 1, DiscardBlobBytes at 1.
    unfold mbind at 1, M_bind at 1, get at 1.
    cbn [rs_blob rs_set_blob].
    unfold mbind at 1, M_bind at 1, modify at 1.
    unfold mret at 1, M_ret at 1.
    pose proof (length_take file (Z.to_nat (info_offset image_info)))
      as Hcount.
    rewrite bool_decide_eq_true_2 by lia. unfold mret at 1, M_ret at 1.
    unfold mbind at 1, M_bind at 1, modify at 1.
    simpl do_while. unfold mbind at 1, M_bind at 1.
    unfold mbind at 1, M_bind at 1. rewrite Hframe by done.
    eexists. split; [reflexivity|]. done.
Qed.
End Ping.

Lemma ReadYUVImage_ping_reads_no_pixels_witness :
  let image_info := FrameExamples.ping_info in
  let file := FrameExamples.plane_stream in
  let files := Examples.one_file file in
  (1%nat ≠ 0%nat ∧
   info_columns image_info ≠ 0 ∧ info_rows image_info ≠ 0 ∧
   sampling_factors (H := Reference.Q16) (sampling_factor image_info)
   = Some (2, 2) ∧
   to_size_t 2 ≠ 0 ∧ to_size_t 2 ≠ 0 ∧
   ping image_info = true ∧
   number_scenes image_info ≠ 0 ∧ number_scenes image_info ≤ 1 ∧
   (effective_interlace (info_interlace image_info) 2 = PartitionInterlace ∨
    (files (info_filename image_info) = Some file ∧
     info_offset image_info ≤ Z.of_nat (length file)))) ∧
  ∃ st',
    ReadYUVImage (H := Reference.Q16) 1 image_info
      (reader_entry (H := Reference.Q16) files image_info)
    = (Ok [AcquireImage (H := Reference.Q16) image_info], st') ∧
    rs_exceptions st' = [] ∧
    rs_trace st'
    = (if decide (effective_interlace (info_interlace image_info) 2
                  = PartitionInterlace) then []
       else [OpenBlobEvent (info_filename image_info);
             ReadBlobEvent (info_offset image_info)
               (take (Z.to_nat (info_offset image_info)) file)])
      ++ [CloseBlobEvent].
Proof.
  intros image_info file files.
  assert (files (info_filename image_info) = Some file ∧
          info_offset image_info ≤ Z.of_nat (length file)) as Hstream
    by (split; [reflexivity|simpl; lia]).
  split.
  - split_and!; try done. by right.
  - exact (ReadYUVImage_ping_reads_no_pixels (H := Reference.Q16) 1
             image_info files file 2 2 ltac:(done) ltac:(done) ltac:(done)
             eq_refl ltac:(done) ltac:(done) eq_refl ltac:(done)
             ltac:(done) (or_intror Hstream)).
Defined.

(** ** The decode of a stream of several frames *)

Section Frames.
Context `{MagickCore}.

(** The frame loop over a stream of whole frames: one image for every
    frame. *)
Lemma frames_run (image_info : ImageInfo) (quantum : Z)
    (interlace : InterlaceType) (horizontal_factor vertical_factor : Z)
    (stream : list Z) (count : nat) (extent : nat) :
  component_map_wf component_map →
  quantum = 1 ∨ quantum = 2 →
  interlace ≠ NoInterlace → interlace ≠ PartitionInterlace →
  horizontal_factor = 1 ∨ horizontal_factor = 2 →
  vertical_factor = 1 ∨ vertical_factor = 2 →
  ping image_info = false →
  number_scenes image_info = 0 →
  0 < info_columns image_info < 2 ^ 64 →
  0 < info_rows image_info < 2 ^ 64 →
  let chroma_columns := info_columns image_info / horizontal_factor in
  let chroma_rows := info_rows image_info / vertical_factor in
  (∀ chroma, shaped chroma →
     columns chroma = chroma_columns → rows chroma = chroma_rows →
     ∃ resized,
       ResizeImage chroma (info_columns image_info) (info_rows image_info)
       = Some resized ∧
       shaped resized ∧
       columns resized = info_columns image_info ∧
       rows resized = info_rows image_info) →
  let size := Z.to_nat (quantum * info_columns image_info) in
  let width := Z.to_nat (info_columns image_info) in
  let height := Z.to_nat (info_rows image_info) in
  let samples :=
    (width * height
     + 2 * (Z.to_nat chroma_columns * Z.to_nat chroma_rows))%nat in
  let total := (samples * Z.to_nat quantum)%nat in
  length stream = (count * total)%nat →
  let decoded (i : nat) (image : Image) :=
    columns image = info_columns image_info ∧
    rows image = info_rows image_info ∧
    colorspace image = YCbCrColorspace ∧
    scene image = info_scene image_info + Z.of_nat i ∧
    ∀ x y : nat, (x < width)%nat → (y < height)%nat →
      ∃ row,
        pixels image !! y = Some row ∧
        GetPixelRed row (x * GetPixelChannels)
        = sample_at quantum stream (i * samples + y * width + x) in
  ∀ (fuel j : nat) (st : ReaderState) (blob : list Z),
    (j < count)%nat → (count - j ≤ fuel)%nat →
    rs_eof st = false →
    rs_blob st = Some blob →
    read_ahead quantum st ++ blob = drop (j * total) stream →
    length (rs_previous st) = j →
    (∀ i image, rs_previous st !! i = Some image → decoded i image) →
    columns (rs_image st) = info_columns image_info →
    rows (rs_image st) = info_rows image_info →
    scene (rs_image st) = info_scene image_info + Z.of_nat j →
    pixels (rs_image st)
    = fresh_pixels (info_columns image_info) (info_rows image_info) →
    length (rs_scanline st) = extent →
    (size ≤ extent)%nat →
    rs_exceptions st = [] →
    ∃ st',
      do_while fuel
        (read_frame image_info quantum interlace
           horizontal_factor vertical_factor)
        (λ st, bool_decide (rs_count st ≠ 0)) st = (Ok (), st') ∧
      rs_exceptions st' = [] ∧
      length (rs_previous st' ++ [rs_image st']) = count ∧
      ∀ i image,
        (rs_previous st' ++ [rs_image st']) !! i = Some image →
        decoded i image.
Proof.
  intros Hwf Hquantum Hno Hpartition Hh Hv Hping Hscenes Hcolumns Hrows
    chroma_columns chroma_rows Hresize size width height samples total
    Hstream decoded fuel.
  assert (0 < size ≤ total)%nat as Hsize.
  { unfold size, total, samples, width, height.
    rewrite Z2Nat.inj_mul by lia. nia. }
  induction fuel as [|fuel IH];
    intros j st blob Hj Hfuel Heof Hblob Hahead Hprevious Hdecoded
      Hcolumns' Hrows' Hscene Hpixels Hextent Hscanline Hexceptions;
    [lia|].
  assert (shaped (rs_image st)) as Himage.
  { apply fresh_pixels_shaped; rewrite ?Hcolumns', ?Hrows'; [lia|lia|done]. }
  destruct (read_frame_run image_info quantum interlace
              horizontal_factor vertical_factor st blob)
    as (continue & st' & chroma & resized & merged & Hrun & Hlength
        & _ & _ & _ & _ & Hsamples & _ & Hextent' & Hend);
    rewrite ?Hcolumns', ?Hrows', ?Hextent; try done.
  cbv zeta in Hsamples, Hend.
  rewrite Hahead, Hcolumns', Hrows' in Hsamples, Hend.
  fold chroma_columns chroma_rows width height in Hsamples, Hend.
  fold samples in Hsamples, Hend. fold total size in Hsamples, Hend.
  set (image' := set_colorspace YCbCrColorspace
                   (set_pixels merged (rs_image st))) in *.
  assert (length (drop (j * total) stream) = ((count - j) * total)%nat)
    as Hleft by (rewrite length_drop, Hstream; nia).
  rewrite decide_False in Hend by (rewrite Hleft; nia).
  destruct Hend as (Hexceptions' & Hend).
  assert (last_scene image_info image' = false) as Hlast.
  { unfold last_scene. rewrite Hscenes.
    by rewrite bool_decide_eq_false_2 by (intros Hne; by apply Hne). }
  rewrite Hlast in Hend.
  destruct Hend as (-> & Hblob' & Heof' & Hcount & Hprefix & Hend).
  set (rest := drop (S j * total) stream).
  assert (drop total (drop (j * total) stream) = rest) as Hrest
    by (unfold rest; rewrite drop_drop; f_equal; lia).
  rewrite Hrest in Hblob', Heof', Hcount, Hprefix.
  assert (length rest = ((count - S j) * total)%nat) as Hleft'
    by (unfold rest; rewrite length_drop, Hstream; nia).
  assert (decoded j image') as Hdecoded'.
  { unfold decoded. split_and!; try done.
    intros x y Hx Hy.
    destruct Hsamples as [_ Hluma]; [rewrite Hleft; nia|].
    destruct (Hluma x y Hx Hy) as (row & _ & Hrow & _ & Hred & _).
    exists row. split; [done|]. rewrite Hred.
    rewrite (sample_at_drop quantum stream _ (j * samples))
      by (unfold total; lia).
    f_equal. lia. }
  assert (∀ i image,
            (rs_previous st ++ [image']) !! i = Some image →
            decoded i image) as Hall.
  { intros i image Himage'.
    apply lookup_app_Some in Himage' as [Hold|[Hi Hnew]].
    - by apply Hdecoded.
    - apply list_lookup_singleton_Some in Hnew as [Hi' <-].
      replace i with j by lia. done. }
  simpl do_while. unfold mbind at 1, M_bind at 1. rewrite Hrun.
  unfold mbind at 1, M_bind at 1, get at 1.
  destruct (decide (S j = count)) as [Hdone|Hmore].
  - rewrite Hleft' in Hcount.
    replace ((count - S j) * total)%nat with 0%nat in Hcount by nia.
    rewrite Nat.min_0_r in Hcount.
    rewrite decide_False in Hend by (rewrite Hcount; intros ?; done).
    destruct Hend as (Hprevious' & Himage').
    rewrite Hcount. simpl.
    exists st'. split; [done|].
    rewrite Hexceptions', Hprevious', Himage'.
    split_and!; [done| |done].
    rewrite length_app, Hprevious. simpl. lia.
  - assert (total ≤ length rest)%nat as Hframe
      by (rewrite Hleft'; nia).
    rewrite Nat.min_l in Hcount by lia.
    rewrite decide_True in Hend by lia.
    destruct Hend as (Hprevious' & Himage').
    rewrite bool_decide_eq_true_2 by lia. simpl.
    rewrite bool_decide_eq_false_2 in Heof' by lia.
    assert (rs_previous st' ≠ []) as Hnext
      by (rewrite Hprevious'; by destruct (rs_previous st)).
    apply (IH (S j) st' (drop size rest));
      rewrite ?Himage'; try done.
    + lia.
    + lia.
    + unfold read_ahead. rewrite decide_False by done.
      rewrite Himage'. simpl. fold size.
      destruct Hprefix as [tail ->].
      rewrite take_app_length' by (rewrite length_take; lia).
      apply take_drop.
    + rewrite Hprevious', length_app, Hprevious. simpl. lia.
    + by rewrite Hprevious'.
    + simpl. rewrite Hscene. lia.
    + congruence.
    + congruence.
Qed.

(** X22.  The decode of a stream of several frames
    in the plane layout.  The image is W by H, the sampling factors are 1
    or 2, ping is off, no scene range is asked for, the stream opens, and
    after the offset it holds exactly [count] frames of
    [quantum * (W * H + 2 * Wc * Hc)] bytes each, one at least;
    ResizeImage delivers images of the geometry asked for, and the frame
    loop is given [count] turns or more.  Then ReadYUVImage returns
    [count] images and records no exception.  Image i is W by H and
    YCbCr, its scene is the first scene plus i, and its pixel (x, y) has
    in red sample [i * (W * H + 2 * Wc * Hc) + y * W + x] of the stream:
    the scanline each frame reads ahead to find out whether more data
    follows is the first luma scanline of the next frame, which decodes
    it from the buffer without reading it again. *)
Theorem ReadYUVImage_frames (frames count : nat) (image_info : ImageInfo)
    (files : string → option (list Z)) (file : list Z)
    (horizontal_factor vertical_factor : Z) :
  component_map_wf component_map →
  (0 < count ≤ frames)%nat →
  0 < info_columns image_info < 2 ^ 64 →
  0 < info_rows image_info < 2 ^ 64 →
  sampling_factors (sampling_factor image_info)
  = Some (horizontal_factor, vertical_factor) →
  horizontal_factor = 1 ∨ horizontal_factor = 2 →
  vertical_factor = 1 ∨ vertical_factor = 2 →
  effective_interlace (info_interlace image_info) vertical_factor
  ≠ NoInterlace →
  effective_interlace (info_interlace image_info) vertical_factor
  ≠ PartitionInterlace →
  ping image_info = false →
  number_scenes image_info = 0 →
  files (info_filename image_info) = Some file →
  info_offset image_info ≤ Z.of_nat (length file) →
  let chroma_columns := info_columns image_info / horizontal_factor in
  let chroma_rows := info_rows image_info / vertical_factor in
  (∀ chroma, shaped chroma →
     columns chroma = chroma_columns → rows chroma = chroma_rows →
     ∃ resized,
       ResizeImage chroma (info_columns image_info) (info_rows image_info)
       = Some resized ∧
       shaped resized ∧
       columns resized = info_columns image_info ∧
       rows resized = info_rows image_info) →
  let stream := drop (Z.to_nat (info_offset image_info)) file in
  let quantum := sample_width (info_depth image_info) in
  let width := Z.to_nat (info_columns image_info) in
  let height := Z.to_nat (info_rows image_info) in
  let samples :=
    (width * height
     + 2 * (Z.to_nat chroma_columns * Z.to_nat chroma_rows))%nat in
  length stream = (count * (samples * Z.to_nat quantum))%nat →
  ∃ images st',
    ReadYUVImage frames image_info (reader_entry files image_info)
    = (Ok images, st') ∧
    length images = count ∧
    rs_exceptions st' = [] ∧
    rs_blob st' = None ∧
    ∀ (i : nat) image, images !! i = Some image →
      columns image = info_columns image_info ∧
      rows image = info_rows image_info ∧
      colorspace image = YCbCrColorspace ∧
      scene image = info_scene image_info + Z.of_nat i ∧
      ∀ x y : nat, (x < width)%nat → (y < height)%nat →
        ∃ row,
          pixels image !! y = Some row ∧
          GetPixelRed row (x * GetPixelChannels)
          = sample_at quantum stream (i * samples + y * width + x).
Proof.
  intros Hwf Hframes Hcolumns Hrows Hfactors Hh Hv Hno Hpartition Hping
    Hscenes Hfile Hoffset chroma_columns chroma_rows Hresize stream quantum
    width height samples Hstream.
  set (entry := reader_entry files image_info).
  set (interlace := effective_interlace (info_interlace image_info)
                      vertical_factor) in *.
  assert (quantum = 1 ∨ quantum = 2) as Hquantum
    by (unfold quantum, sample_width; case_decide; [by left|by right]).
  destruct (open_stream_run (info_offset image_info) entry file)
    as (s0 & Hopen & Hblob0 & Heof0 & Hscanline0 & Hprevious0 & Himage0
        & _ & Hexceptions0); [done|done|].
  set (scanline := replicate
         (Z.to_nat (scanline_extent interlace (info_columns image_info)
                      quantum)) fresh_byte).
  set (s1 := rs_set_scanline scanline 0 s0).
  destruct (frames_run image_info quantum interlace horizontal_factor
              vertical_factor stream count (length scanline) Hwf Hquantum
              Hno Hpartition Hh Hv Hping Hscenes Hcolumns Hrows Hresize
              Hstream frames 0%nat s1 stream)
    as (s2 & Hloop & Hexceptions2 & Hlength & Hdecoded); try done.
  - lia.
  - lia.
  - unfold read_ahead. simpl. by rewrite Hprevious0.
  - simpl. by rewrite Hprevious0.
  - simpl. rewrite Hprevious0. intros i image Hnone. done.
  - simpl. by rewrite Himage0.
  - simpl. by rewrite Himage0.
  - simpl. rewrite Himage0. simpl. lia.
  - simpl. by rewrite Himage0.
  - unfold scanline, scanline_extent.
    rewrite decide_False by done. rewrite length_replicate. lia.
  - exists (rs_previous s2 ++ [rs_image s2]),
      (rs_set_blob None (rs_eof s2) CloseBlobEvent s2).
    split_and!; try done.
    unfold ReadYUVImage. unfold mbind at 1, M_bind at 1, gets at 1.
    change (rs_image entry) with (AcquireImage image_info).
    rewrite decide_False by (simpl; lia).
    rewrite Hfactors. fold interlace.
    change (depth (AcquireImage image_info)) with (info_depth image_info).
    change (columns (AcquireImage image_info))
      with (info_columns image_info).
    fold quantum scanline.
    rewrite (decide_True (P := interlace ≠ PartitionInterlace)) by done.
    rewrite (bind_Ok _ _ _ _ _ Hopen).
    unfold mbind at 1, M_bind at 1, modify at 1. fold s1.
    rewrite (bind_Ok _ _ _ _ _ Hloop).
    unfold mbind at 1, M_bind at 1, CloseBlob_read at 1, modify at 1.
    unfold mbind at 1, M_bind at 1, get at 1. done.
Qed.
End Frames.

Lemma ReadYUVImage_frames_witness :
  let image_info := FrameExamples.plane_info in
  let file := FrameExamples.plane_stream ++ [11; 21; 31; 41; 51; 61] in
  let files := Examples.one_file file in
  let stream := drop (Z.to_nat (info_offset image_info)) file in
  (component_map_wf (component_map (MagickCore := Reference.Q16)) ∧
   (0 < 2 ≤ 3)%nat ∧
   0 < info_columns image_info < 2 ^ 64 ∧
   0 < info_rows image_info < 2 ^ 64 ∧
   sampling_factors (H := Reference.Q16) (sampling_factor image_info)
   = Some (2, 2) ∧
   (2 = 1 ∨ 2 = 2) ∧ (2 = 1 ∨ 2 = 2) ∧
   effective_interlace (info_interlace image_info) 2 ≠ NoInterlace ∧
   effective_interlace (info_interlace image_info) 2
   ≠ PartitionInterlace ∧
   ping image_info = false ∧
   number_scenes image_info = 0 ∧
   files (info_filename image_info) = Some file ∧
   info_offset image_info ≤ Z.of_nat (length file) ∧
   (∀ chroma, shaped (H := Reference.Q16) chroma →
      columns chroma = info_columns image_info / 2 →
      rows chroma = info_rows image_info / 2 →
      ∃ resized,
        ResizeImage (MagickCore := Reference.Q16) chroma
          (info_columns image_info) (info_rows image_info)
        = Some resized ∧
        shaped (H := Reference.Q16) resized ∧
        columns resized = info_columns image_info ∧
        rows resized = info_rows image_info) ∧
   length stream = (2 * ((2 * 2 + 2 * (1 * 1)) * 1))%nat) ∧
  ∃ images st',
    ReadYUVImage (H := Reference.Q16) 3 image_info
      (reader_entry (H := Reference.Q16) files image_info)
    = (Ok images, st') ∧
    length images = 2%nat ∧
    rs_exceptions st' = [] ∧
    rs_blob st' = None ∧
    ∀ (i : nat) image, images !! i = Some image →
      columns image = 2 ∧ rows image = 2 ∧
      colorspace image = YCbCrColorspace ∧
      scene image = 0 + Z.of_nat i ∧
      ∀ x y : nat, (x < 2)%nat → (y < 2)%nat →
        ∃ row,
          pixels image !! y = Some row ∧
          GetPixelRed (H := Reference.Q16) row
            (x * GetPixelChannels (H := Reference.Q16))
          = sample_at (H := Reference.Q16) 1 stream
              (i * (2 * 2 + 2 * (1 * 1)) + y * 2 + x).
Proof.
  intros image_info file files stream.
  assert (∀ chroma, shaped (H := Reference.Q16) chroma →
            columns chroma = info_columns image_info / 2 →
            rows chroma = info_rows image_info / 2 →
            ∃ resized,
              ResizeImage (MagickCore := Reference.Q16) chroma
                (info_columns image_info) (info_rows image_info)
              = Some resized ∧
              shaped (H := Reference.Q16) resized ∧
              columns resized = info_columns image_info ∧
              rows resized = info_rows image_info) as Hresize.
  { intros chroma Hchroma Hcolumns Hrows.
    apply point_sample_shaped; [done| | |done|done].
    - by rewrite Hcolumns.
    - by rewrite Hrows. }
  assert (0 < 2 < 2 ^ 64) as Htwo by done.
  assert (0 < 2 ≤ 3)%nat as Hframes by lia.
  split.
  - split_and!; try done; [exact Q16_component_map_wf|lia|lia|by right..].
  - exact (ReadYUVImage_frames (H := Reference.Q16) 3 2 image_info files
             file 2 2 Q16_component_map_wf Hframes Htwo Htwo eq_refl
             (or_intror eq_refl) (or_intror eq_refl) ltac:(done)
             ltac:(done) eq_refl eq_refl eq_refl ltac:(done) Hresize
             eq_refl).
Defined.

(** ** The planes of the partition layout *)

Section PartitionReader.
Context `{MagickCore}.

(** AppendImageFormat on the file name of the image, then OpenBlob on a
    stream that is there. *)
Lemma open_partition_run (format : string) (st : ReaderState)
    (bytes : list Z) :
  rs_files st (AppendImageFormat format (filename (rs_image st)))
  = Some bytes →
  ∃ st',
    open_partition format st = (Ok (), st') ∧
    rs_blob st' = Some bytes ∧
    rs_eof st' = false ∧
    rs_image st'
    = set_filename (AppendImageFormat format (filename (rs_image st)))
        (rs_image st) ∧
    rs_chroma_image st' = rs_chroma_image st ∧
    rs_scanline st' = rs_scanline st ∧
    rs_files st' = rs_files st ∧
    rs_previous st' = rs_previous st ∧
    rs_exceptions st' = rs_exceptions st.
Proof.
  intros Hfile. unfold open_partition.
  unfold mbind at 1, M_bind at 1, set_image at 1, modify at 1.
  unfold OpenBlob_read. unfold mbind at 1, M_bind at 1, get at 1.
  cbn [rs_files rs_image rs_set_images filename set_filename].
  rewrite Hfile. eexists. split; [reflexivity|]. done.
Qed.

(** AppendImageFormat on the file name of the image, then OpenBlob on a
    stream that is not there. *)
Lemma open_partition_fails (format : string) (st : ReaderState) :
  rs_files st (AppendImageFormat format (filename (rs_image st))) = None →
  (open_partition format st).1 = OpenFailed.
Proof.
  intros Hfile. unfold open_partition.
  unfold mbind at 1, M_bind at 1, set_image at 1, modify at 1.
  unfold OpenBlob_read. unfold mbind at 1, M_bind at 1, get at 1.
  cbn [rs_files rs_image rs_set_images filename set_filename].
  by rewrite Hfile.
Qed.

(** A step that ends by the early return ends the computation. *)
Lemma bind_OpenFailed {St A B : Type} (m : M St A) (f : A → M St B)
    (st : St) :
  (m st).1 = OpenFailed → ((m ≫= f) st).1 = OpenFailed.
Proof.
  unfold mbind, M_bind. by destruct (m st) as [[] ?].
Qed.

Lemma bind_Ok_fst {St A B : Type} (m : M St A) (f : A → M St B)
    (st st' : St) (a : A) :
  m st = (Ok a, st') → ((m ≫= f) st).1 = (f a st').1.
Proof. intros Hm. by rewrite (bind_Ok _ _ _ _ _ Hm). Qed.

(** The planes of the first frame in the partition layout, stream by
    stream. *)
Lemma read_planes_partition_run (quantum : Z) (st : ReaderState) :
  component_map_wf component_map →
  quantum = 1 ∨ quantum = 2 →
  rs_previous st = [] →
  shaped (rs_image st) → shaped (rs_chroma_image st) →
  columns (rs_chroma_image st) ≤ columns (rs_image st) →
  (Z.to_nat (quantum * columns (rs_image st))
   ≤ length (rs_scanline st))%nat →
  let y_name := AppendImageFormat "Y" (filename (rs_image st)) in
  let u_name := AppendImageFormat "U" y_name in
  let v_name := AppendImageFormat "V" u_name in
  match rs_files st y_name, rs_files st u_name, rs_files st v_name with
  | Some y_stream, Some u_stream, Some v_stream =>
      ∃ s_y s1 s_u s2 s_v s3,
        read_planes quantum PartitionInterlace st = (Ok (), s3) ∧
        rs_image s_y = set_filename y_name (rs_image st) ∧
        reads_plane rs_image rs_chroma_image decode_luma quantum y_stream
          s_y s1 ∧
        rs_chroma_image s_u = rs_chroma_image st ∧
        reads_plane rs_chroma_image rs_image decode_u quantum u_stream
          s_u s2 ∧
        rs_eof s_v = false ∧
        rs_chroma_image s_v = rs_chroma_image s2 ∧
        reads_plane rs_chroma_image rs_image decode_v quantum v_stream
          s_v s3 ∧
        rs_image s3 = set_filename v_name (rs_image s1)
  | _, _, _ => (read_planes quantum PartitionInterlace st).1 = OpenFailed
  end.
Proof.
  intros Hwf Hquantum Hfirst Himage Hchroma Hnarrow Hscanline
    y_name u_name v_name.
  assert (0 ≤ quantum) as Hpositive by lia.
  pose proof Himage as (Hcolumns & _).
  pose proof Hchroma as (Hcolumns' & _).
  assert (∀ sample,
            sample = decode_u ∨ sample = decode_v →
            ∀ scanline row,
              length row = (Z.to_nat (columns (rs_chroma_image st))
                            * GetPixelChannels)%nat →
              (Z.to_nat (columns (rs_chroma_image st)) * Z.to_nat quantum
               ≤ length scanline)%nat →
              ∃ row',
                decode_plane_row sample quantum
                  (columns (rs_chroma_image st)) scanline row = Some row' ∧
                length row' = length row) as Hsample.
  { intros sample [-> | ->] scanline row Hrow Hlen.
    - destruct (decode_u_pass quantum (columns (rs_chroma_image st))
                  scanline row) as (row' & Hdecode & Hlen' & _); try done.
      by exists row'.
    - destruct (decode_v_pass quantum (columns (rs_chroma_image st))
                  scanline row) as (row' & Hdecode & Hlen' & _); try done.
      by exists row'. }
  assert (Z.to_nat (quantum * columns (rs_chroma_image st))
          ≤ length (rs_scanline st))%nat as Hscanline'
    by (rewrite Z2Nat.inj_mul in * by lia; nia).
  unfold read_planes.
  rewrite !(decide_True (P := PartitionInterlace = PartitionInterlace))
    by done.
  rewrite (decide_True (P := PartitionInterlace ≠ NoInterlace)) by done.
  destruct (rs_files st y_name) as [y_stream|] eqn:Hy_file.
  2: { assert ((open_partition "Y" st).1 = OpenFailed) as Hfail
         by by apply open_partition_fails.
       destruct (rs_files st u_name), (rs_files st v_name);
         by apply bind_OpenFailed. }
  destruct (open_partition_run "Y" st y_stream Hy_file)
    as (s_y & Hopen_y & Hblob_y & Heof_y & Himage_y & Hchroma_y
        & Hscanline_y & Hfiles_y & Hprevious_y & _).
  destruct (read_image_rows_run quantum PartitionInterlace s_y y_stream)
    as (s1 & Hrun1 & Hluma); try done.
  { intros Hnext. by rewrite Hprevious_y, Hfirst in Hnext. }
  { rewrite Himage_y. exact Himage. }
  { by rewrite Himage_y, Hscanline_y. }
  unfold read_ahead in Hluma.
  rewrite decide_True in Hluma by congruence. simpl app in Hluma.
  pose proof Hluma as (decoded1 & _ & _ & Hscanline1 & Hfiles1
                       & Hprevious1 & _ & Hother1 & Htarget1 & _).
  simpl in Hother1.
  set (s1c := rs_set_blob None (rs_eof s1) CloseBlobEvent s1).
  assert (rs_files s1c (AppendImageFormat "U" (filename (rs_image s1c)))
          = rs_files st u_name) as Hu_name.
  { simpl. rewrite Hfiles1, Hfiles_y, Htarget1, Himage_y. done. }
  destruct (rs_files st u_name) as [u_stream|] eqn:Hu_file.
  2: { assert ((open_partition "U" s1c).1 = OpenFailed) as Hfail
         by by apply open_partition_fails.
       assert (((open_partition "Y";;
                 read_image_rows quantum PartitionInterlace;;
                 (CloseBlob_read;; open_partition "U");;
                 read_chroma_rows decode_u quantum;;
                 (CloseBlob_read;; open_partition "V");;
                 read_chroma_rows decode_v quantum) st).1 = OpenFailed);
         [|by destruct (rs_files st v_name)].
       rewrite (bind_Ok _ _ _ _ _ Hopen_y), (bind_Ok _ _ _ _ _ Hrun1).
       apply bind_OpenFailed.
       unfold mbind at 1, M_bind at 1, CloseBlob_read at 1, modify at 1.
       done. }
  destruct (open_partition_run "U" s1c u_stream Hu_name)
    as (s_u & Hopen_u & Hblob_u & Heof_u & Himage_u & Hchroma_u
        & Hscanline_u & Hfiles_u & Hprevious_u & _).
  simpl in Himage_u, Hchroma_u, Hscanline_u, Hfiles_u, Hprevious_u.
  assert (rs_chroma_image s_u = rs_chroma_image st) as Hsame_u
    by congruence.
  destruct (read_chroma_rows_run decode_u quantum s_u u_stream)
    as (s2 & Hrun2 & Hu); rewrite ?Hsame_u; try done.
  { apply Hsample. by left. }
  { rewrite Hscanline_u, Hscanline1, Hscanline_y. done. }
  pose proof Hu as (decoded2 & _ & _ & Hscanline2 & Hfiles2
                    & Hprevious2 & _ & Hother2 & Htarget2 & _).
  simpl in Hother2.
  pose proof (reads_plane_shaped _ _ _ _ _ _ _
                ltac:(rewrite Hsame_u; exact Hchroma) Hu)
    as (Hchroma2 & Hcolumns2 & Hrows2).
  rewrite Hsame_u in Hcolumns2, Hrows2.
  set (s2c := rs_set_blob None (rs_eof s2) CloseBlobEvent s2).
  assert (rs_files s2c (AppendImageFormat "V" (filename (rs_image s2c)))
          = rs_files st v_name) as Hv_name.
  { simpl. rewrite Hfiles2, Hfiles_u, Hfiles1, Hfiles_y, Hother2, Himage_u.
    simpl. rewrite Htarget1, Himage_y. done. }
  destruct (rs_files st v_name) as [v_stream|] eqn:Hv_file.
  2: { assert ((open_partition "V" s2c).1 = OpenFailed) as Hfail
         by by apply open_partition_fails.
       rewrite (bind_Ok _ _ _ _ _ Hopen_y), (bind_Ok _ _ _ _ _ Hrun1).
       assert ((CloseBlob_read;; open_partition "U") s1 = (Ok (), s_u))
         as Hreopen_u by exact Hopen_u.
       rewrite (bind_Ok _ _ _ _ _ Hreopen_u), (bind_Ok _ _ _ _ _ Hrun2).
       apply bind_OpenFailed.
       unfold mbind at 1, M_bind at 1, CloseBlob_read at 1, modify at 1.
       done. }
  destruct (open_partition_run "V" s2c v_stream Hv_name)
    as (s_v & Hopen_v & Hblob_v & Heof_v & Himage_v & Hchroma_v
        & Hscanline_v & Hfiles_v & Hprevious_v & _).
  simpl in Himage_v, Hchroma_v, Hscanline_v, Hfiles_v, Hprevious_v.
  destruct (read_chroma_rows_run decode_v quantum s_v v_stream)
    as (s3 & Hrun3 & Hv); rewrite ?Hchroma_v, ?Hcolumns2; try done.
  { apply Hsample. by right. }
  { rewrite Hscanline_v, Hscanline2, Hscanline_u, Hscanline1, Hscanline_y.
    done. }
  pose proof Hv as (decoded3 & _ & _ & _ & _ & _ & _ & Hother3 & _).
  simpl in Hother3.
  exists s_y, s1, s_u, s2, s_v, s3. split_and!; try done.
  - rewrite (bind_Ok _ _ _ _ _ Hopen_y), (bind_Ok _ _ _ _ _ Hrun1).
    assert ((CloseBlob_read;; open_partition "U") s1 = (Ok (), s_u))
      as Hreopen_u by exact Hopen_u.
    rewrite (bind_Ok _ _ _ _ _ Hreopen_u), (bind_Ok _ _ _ _ _ Hrun2).
    assert ((CloseBlob_read;; open_partition "V") s2 = (Ok (), s_v))
      as Hreopen_v by exact Hopen_v.
    rewrite (bind_Ok _ _ _ _ _ Hreopen_v). exact Hrun3.
  - rewrite Hother3, Himage_v, Hother2, Himage_u.
    unfold set_filename. simpl. rewrite Htarget1, Himage_y. done.
Qed.

(** X20.  What the first frame reads in the
    partition layout.  The Y plane is read from the stream named by
    AppendImageFormat of Y on the file name of the image, the U plane from
    the stream named by AppendImageFormat of U on the name the first call
    left, and the V plane from the stream named by AppendImageFormat of V
    on the name the second call left.  When the three
    streams open and hold their planes, read_planes ends normally, the
    image is left with the third name, the blob open on what the V stream
    holds after its plane, and pixel (x, y) of the image has sample
    [y * W + x] of the Y stream in red and 0 in green and blue, pixel
    (x, y) of the chroma image 0 in red, sample [y * Wc + x] of the U
    stream in green and the same sample of the V stream in blue. *)
Theorem read_planes_partition_layout (quantum : Z) (st : ReaderState)
    (y_stream u_stream v_stream : list Z) :
  component_map_wf component_map →
  quantum = 1 ∨ quantum = 2 →
  rs_previous st = [] →
  shaped (rs_image st) → shaped (rs_chroma_image st) →
  columns (rs_chroma_image st) ≤ columns (rs_image st) →
  (Z.to_nat (quantum * columns (rs_image st))
   ≤ length (rs_scanline st))%nat →
  let y_name := AppendImageFormat "Y" (filename (rs_image st)) in
  let u_name := AppendImageFormat "U" y_name in
  let v_name := AppendImageFormat "V" u_name in
  rs_files st y_name = Some y_stream →
  rs_files st u_name = Some u_stream →
  rs_files st v_name = Some v_stream →
  let width := Z.to_nat (columns (rs_image st)) in
  let height := Z.to_nat (rows (rs_image st)) in
  let chroma_width := Z.to_nat (columns (rs_chroma_image st)) in
  let chroma_height := Z.to_nat (rows (rs_chroma_image st)) in
  (width * height * Z.to_nat quantum ≤ length y_stream)%nat →
  (chroma_width * chroma_height * Z.to_nat quantum
   ≤ length u_stream)%nat →
  (chroma_width * chroma_height * Z.to_nat quantum
   ≤ length v_stream)%nat →
  ∃ st',
    read_planes quantum PartitionInterlace st = (Ok (), st') ∧
    filename (rs_image st') = v_name ∧
    rs_blob st'
    = Some (drop (chroma_width * chroma_height * Z.to_nat quantum)
              v_stream) ∧
    rs_eof st' = false ∧
    (∀ x y : nat, (x < width)%nat → (y < height)%nat →
       ∃ row,
         pixels (rs_image st') !! y = Some row ∧
         GetPixelRed row (x * GetPixelChannels)
         = sample_at quantum y_stream (y * width + x) ∧
         GetPixelGreen row (x * GetPixelChannels) = Some 0 ∧
         GetPixelBlue row (x * GetPixelChannels) = Some 0) ∧
    (∀ x y : nat, (x < chroma_width)%nat → (y < chroma_height)%nat →
       ∃ row,
         pixels (rs_chroma_image st') !! y = Some row ∧
         GetPixelRed row (x * GetPixelChannels) = Some 0 ∧
         GetPixelGreen row (x * GetPixelChannels)
         = sample_at quantum u_stream (y * chroma_width + x) ∧
         GetPixelBlue row (x * GetPixelChannels)
         = sample_at quantum v_stream (y * chroma_width + x)).
Proof.
  intros Hwf Hquantum Hfirst Himage Hchroma Hnarrow Hscanline
    y_name u_name v_name Hy_file Hu_file Hv_file
    width height chroma_width chroma_height Hy_stream Hu_stream Hv_stream.
  pose proof (read_planes_partition_run quantum st Hwf Hquantum Hfirst
                Himage Hchroma Hnarrow Hscanline) as Hrun.
  cbv zeta in Hrun. fold y_name u_name v_name in Hrun.
  rewrite Hy_file, Hu_file, Hv_file in Hrun.
  destruct Hrun as (s_y & s1 & s_u & s2 & s_v & s3 & Hrun
    & Himage_y & Hluma & Hchroma_u & Hu & Heof_v
    & Hchroma_v & Hv & Himage3).
  assert (shaped (rs_image s_y)) as Himage_y'
    by (rewrite Himage_y; exact Himage).
  pose proof (luma_plane_samples quantum s_y s1 y_stream Hwf Hquantum
                Himage_y' Hluma) as Hluma_samples.
  rewrite Himage_y in Hluma_samples. simpl in Hluma_samples.
  assert (shaped (rs_chroma_image s_u)) as Hchroma_u'
    by by rewrite Hchroma_u.
  pose proof (chroma_streams_samples quantum s_u s2 s_v s3 u_stream
                v_stream Hwf Hquantum Hchroma_u' Hu Hchroma_v Hv)
    as Hchroma_samples.
  rewrite Hchroma_u in Hchroma_samples. simpl in Hchroma_samples.
  pose proof (reads_plane_shaped _ _ _ _ _ _ _ Hchroma_u' Hu)
    as (_ & Hcolumns2 & Hrows2).
  destruct Hv as (decoded & Hrest & Heof & _).
  rewrite Hchroma_v, Hcolumns2, Hrows2, Hchroma_u in Hrest, Heof.
  pose proof Hchroma as (Hcolumns' & Hrows' & _).
  rewrite Z2Nat.inj_mul in Hrest, Heof by lia.
  fold chroma_width chroma_height in Hrest, Heof.
  exists s3. split_and!.
  - done.
  - by rewrite Himage3.
  - rewrite Hrest. do 2 f_equal. lia.
  - rewrite Heof, Heof_v. apply bool_decide_eq_false_2. lia.
  - intros x y Hx Hy. rewrite Himage3. simpl.
    by apply Hluma_samples.
  - intros x y Hx Hy. by apply Hchroma_samples.
Qed.

(** X21.  A stream of the partition layout
    that does not open.  When the Y stream, the U stream or the V stream,
    named as the reader names them, is not there, the frame ends by the
    early return after the failed OpenBlob: read_planes neither throws
    nor ends normally. *)
Theorem read_planes_partition_missing (quantum : Z) (st : ReaderState) :
  component_map_wf component_map →
  quantum = 1 ∨ quantum = 2 →
  rs_previous st = [] →
  shaped (rs_image st) → shaped (rs_chroma_image st) →
  columns (rs_chroma_image st) ≤ columns (rs_image st) →
  (Z.to_nat (quantum * columns (rs_image st))
   ≤ length (rs_scanline st))%nat →
  let y_name := AppendImageFormat "Y" (filename (rs_image st)) in
  let u_name := AppendImageFormat "U" y_name in
  let v_name := AppendImageFormat "V" u_name in
  rs_files st y_name = None ∨ rs_files st u_name = None ∨
  rs_files st v_name = None →
  (read_planes quantum PartitionInterlace st).1 = OpenFailed.
Proof.
  intros Hwf Hquantum Hfirst Himage Hchroma Hnarrow Hscanline
    y_name u_name v_name Hmissing.
  pose proof (read_planes_partition_run quantum st Hwf Hquantum Hfirst
                Himage Hchroma Hnarrow Hscanline) as Hrun.
  cbv zeta in Hrun. fold y_name u_name v_name in Hrun.
  destruct (rs_files st y_name), (rs_files st u_name),
    (rs_files st v_name); try done.
  by destruct Hmissing as [?|[?|?]].
Qed.
End PartitionReader.

Lemma read_planes_partition_layout_witness :
  let st := FrameExamples.partition_state in
  (component_map_wf (component_map (MagickCore := Reference.Q16)) ∧
   (1 = 1 ∨ 1 = 2) ∧
   rs_previous st = [] ∧
   shaped (H := Reference.Q16) (rs_image st) ∧
   shaped (H := Reference.Q16) (rs_chroma_image st) ∧
   columns (rs_chroma_image st) ≤ columns (rs_image st) ∧
   (Z.to_nat (1 * columns (rs_image st)) ≤ length (rs_scanline st))%nat ∧
   rs_files st "frame.yuvY" = Some [10; 20; 30; 40] ∧
   rs_files st "frame.yuvYU" = Some [50] ∧
   rs_files st "frame.yuvYUV" = Some [60] ∧
   (2 * 2 * Z.to_nat 1 ≤ length [10; 20; 30; 40])%nat ∧
   (1 * 1 * Z.to_nat 1 ≤ length [50])%nat ∧
   (1 * 1 * Z.to_nat 1 ≤ length [60])%nat) ∧
  ∃ st',
    read_planes (H := Reference.Q16) 1 PartitionInterlace st
    = (Ok (), st') ∧
    filename (rs_image st') = "frame.yuvYUV" ∧
    rs_blob st' = Some (drop (1 * 1 * Z.to_nat 1) [60]) ∧
    rs_eof st' = false ∧
    (∀ x y : nat, (x < 2)%nat → (y < 2)%nat →
       ∃ row,
         pixels (rs_image st') !! y = Some row ∧
         GetPixelRed (H := Reference.Q16) row
           (x * GetPixelChannels (H := Reference.Q16))
         = sample_at (H := Reference.Q16) 1 [10; 20; 30; 40] (y * 2 + x) ∧
         GetPixelGreen (H := Reference.Q16) row
           (x * GetPixelChannels (H := Reference.Q16)) = Some 0 ∧
         GetPixelBlue (H := Reference.Q16) row
           (x * GetPixelChannels (H := Reference.Q16)) = Some 0) ∧
    (∀ x y : nat, (x < 1)%nat → (y < 1)%nat →
       ∃ row,
         pixels (rs_chroma_image st') !! y = Some row ∧
         GetPixelRed (H := Reference.Q16) row
           (x * GetPixelChannels (H := Reference.Q16)) = Some 0 ∧
         GetPixelGreen (H := Reference.Q16) row
           (x * GetPixelChannels (H := Reference.Q16))
         = sample_at (H := Reference.Q16) 1 [50] (y * 1 + x) ∧
         GetPixelBlue (H := Reference.Q16) row
           (x * GetPixelChannels (H := Reference.Q16))
         = sample_at (H := Reference.Q16) 1 [60] (y * 1 + x)).
Proof.
  intros st.
  assert (shaped (H := Reference.Q16) (rs_image st)) as Himage
    by (repeat split; try done; repeat constructor).
  assert (shaped (H := Reference.Q16) (rs_chroma_image st)) as Hchroma
    by (repeat split; try done; repeat constructor).
  assert (columns (rs_chroma_image st) ≤ columns (rs_image st)) as Hnarrow
    by done.
  assert (Z.to_nat (1 * columns (rs_image st))
          ≤ length (rs_scanline st))%nat as Hscanline by (simpl; lia).
  assert (2 * 2 * Z.to_nat 1 ≤ length [10; 20; 30; 40])%nat as Hy
    by (simpl; lia).
  assert (1 * 1 * Z.to_nat 1 ≤ length [50])%nat as Hu by (simpl; lia).
  assert (1 * 1 * Z.to_nat 1 ≤ length [60])%nat as Hv by (simpl; lia).
  split.
  - split_and!; try done; [exact Q16_component_map_wf|by left].
  - exact (read_planes_partition_layout (H := Reference.Q16) 1 st
             [10; 20; 30; 40] [50] [60] Q16_component_map_wf
             (or_introl eq_refl) eq_refl Himage Hchroma Hnarrow Hscanline
             eq_refl eq_refl eq_refl Hy Hu Hv).
Defined.

Lemma read_planes_partition_missing_witness :
  let st := FrameExamples.plane_state in
  (component_map_wf (component_map (MagickCore := Reference.Q16)) ∧
   (1 = 1 ∨ 1 = 2) ∧
   rs_previous st = [] ∧
   shaped (H := Reference.Q16) (rs_image st) ∧
   shaped (H := Reference.Q16) (rs_chroma_image st) ∧
   columns (rs_chroma_image st) ≤ columns (rs_image st) ∧
   (Z.to_nat (1 * columns (rs_image st)) ≤ length (rs_scanline st))%nat ∧
   (rs_files st "frame.yuvY" = None ∨ rs_files st "frame.yuvYU" = None ∨
    rs_files st "frame.yuvYUV" = None)) ∧
  (read_planes (H := Reference.Q16) 1 PartitionInterlace st).1
  = OpenFailed.
Proof.
  intros st.
  assert (shaped (H := Reference.Q16) (rs_image st)) as Himage
    by (repeat split; try done; repeat constructor).
  assert (shaped (H := Reference.Q16) (rs_chroma_image st)) as Hchroma
    by (repeat split; try done; repeat constructor).
  assert (columns (rs_chroma_image st) ≤ columns (rs_image st)) as Hnarrow
    by done.
  assert (Z.to_nat (1 * columns (rs_image st))
          ≤ length (rs_scanline st))%nat as Hscanline by (simpl; lia).
  split.
  - split_and!; try done; [exact Q16_component_map_wf|by left|by left].
  - exact (read_planes_partition_missing (H := Reference.Q16) 1 st
             Q16_component_map_wf (or_introl eq_refl) eq_refl Himage
             Hchroma Hnarrow Hscanline (or_introl eq_refl)).
Defined.

(** ** The luma of a non-interlaced scanline *)

Section NonInterlacedLuma.
Context `{MagickCore}.

(** The non-interlaced inner loop over a scanline of [pairs] pairs of
    pixels (lines 240-280). *)
Lemma decode_noninterlaced_row_spec (quantum pairs chroma_columns : Z)
    (scanline : list Z) (row chroma_row : PixelRow) :
  component_map_wf component_map →
  quantum = 1 ∨ quantum = 2 →
  0 ≤ pairs ≤ chroma_columns →
  length row = (Z.to_nat (2 * pairs) * GetPixelChannels)%nat →
  length chroma_row = (Z.to_nat chroma_columns * GetPixelChannels)%nat →
  (4 * Z.to_nat pairs * Z.to_nat quantum ≤ length scanline)%nat →
  ∃ row' chroma_row',
    decode_noninterlaced_row quantum (2 * pairs) scanline row chroma_row
    = Some (row', chroma_row') ∧
    length row' = length row ∧
    length chroma_row' = length chroma_row ∧
    (∀ x : nat, (x < Z.to_nat (2 * pairs))%nat →
       GetPixelRed row' (x * GetPixelChannels)
       = sample_at quantum scanline (2 * x + 1) ∧
       GetPixelGreen row' (x * GetPixelChannels) = Some 0 ∧
       GetPixelBlue row' (x * GetPixelChannels) = Some 0) ∧
    (∀ i : nat,
       (i mod GetPixelChannels)%nat ≠ RedPixelComponent component_map →
       (i mod GetPixelChannels)%nat ≠ GreenPixelComponent component_map →
       (i mod GetPixelChannels)%nat ≠ BluePixelComponent component_map →
       row' !! i = row !! i).
Proof.
  intros (Hr & Hg & Hb & Hrg & Hrb & Hgb) Hquantum Hpairs Hrow Hchroma
    Hscanline.
  fold GetPixelChannels in Hr, Hg, Hb.
  unfold decode_noninterlaced_row, for_loop.
  edestruct (for_fuel_total
    (λ x c, ∃ k : nat, x = 2 * Z.of_nat k ∧ (k ≤ Z.to_nat pairs)%nat ∧
       dc_p c = (4 * k * Z.to_nat quantum)%nat ∧
       dc_q c = (2 * k * GetPixelChannels)%nat ∧
       dc_chroma_pixels c = k ∧
       length (dc_row c) = length row ∧
       length (dc_chroma_row c) = length chroma_row ∧
       (∀ j : nat, (j < 2 * k)%nat →
          GetPixelRed (dc_row c) (j * GetPixelChannels)
            = sample_at quantum scanline (2 * j + 1) ∧
          GetPixelGreen (dc_row c) (j * GetPixelChannels) = Some 0 ∧
          GetPixelBlue (dc_row c) (j * GetPixelChannels) = Some 0) ∧
       (∀ i : nat,
          (i mod GetPixelChannels)%nat ≠ RedPixelComponent component_map →
          (i mod GetPixelChannels)%nat ≠ GreenPixelComponent component_map →
          (i mod GetPixelChannels)%nat ≠ BluePixelComponent component_map →
          dc_row c !! i = row !! i))
    (λ _, decode_pair quantum scanline) (2 * pairs) 2)
    as (x' & c' & -> & Hx' & k & Hk' & Hk & _ & _ & _ & Hlen & Hlen'
        & Hdone & Hrest);
    [lia| | |lia|].
  - intros x c (k & -> & Hk & Hp & Hq & Hcp & Hlen & Hlen' & Hdone & Hrest)
      Hx.
    destruct (sample_at_in_range quantum scanline (4 * k))
      as (u & Hu & _); [done|nia|].
    destruct (sample_at_in_range quantum scanline (S (4 * k)))
      as (y0 & Hy0 & Hs0); [done|nia|].
    destruct (sample_at_in_range quantum scanline (S (S (4 * k))))
      as (v & Hv & _); [done|nia|].
    destruct (sample_at_in_range quantum scanline (S (S (S (4 * k)))))
      as (y1 & Hy1 & Hs1); [done|nia|].
    unfold decode_pair, SetPixelRed, SetPixelGreen, SetPixelBlue.
    rewrite Hp, Hq, Hcp.
    assert (k + GetPixelChannels ≤ length (dc_chroma_row c))%nat
      by (rewrite Hlen', Hchroma; nia).
    assert (2 * k * GetPixelChannels + 2 * GetPixelChannels
            ≤ length (dc_row c))%nat
      by (rewrite Hlen, Hrow; nia).
    remember (4 * k * Z.to_nat quantum)%nat as p0 eqn:Hp0.
    remember (S (4 * k) * Z.to_nat quantum)%nat as p1 eqn:Hp1.
    remember (S (S (4 * k)) * Z.to_nat quantum)%nat as p2 eqn:Hp2.
    remember (S (S (S (4 * k))) * Z.to_nat quantum)%nat as p3 eqn:Hp3.
    remember (S (S (S (S (4 * k)))) * Z.to_nat quantum)%nat as p4 eqn:Hp4.
    remember (2 * k * GetPixelChannels)%nat as q0 eqn:Hq0.
    stores. rewrite Hu. simpl. stores. rewrite Hy0. simpl. stores.
    rewrite Hv. simpl. stores. rewrite Hy1. simpl. stores.
    eexists. split; [done|]. exists (S k). simpl. subst p0 p1 p2 p3 p4 q0.
    split_and!; [lia|lia|lia|lia|done|by rewrite !length_insert
                |by rewrite !length_insert| |].
    + intros j Hj. unfold GetPixelRed, GetPixelGreen, GetPixelBlue.
      destruct (decide (j = (2 * k)%nat)) as [->|Hne];
        [|destruct (decide (j = S (2 * k))) as [->|Hne']].
      * slots. split_and!; [|done|done].
        rewrite <- Hs0. f_equal. lia.
      * replace (S (2 * k) * GetPixelChannels)%nat
          with (2 * k * GetPixelChannels + GetPixelChannels)%nat by lia.
        slots. split_and!; [|done|done].
        rewrite <- Hs1. f_equal. lia.
      * replace (2 * k * GetPixelChannels + GetPixelChannels)%nat
          with (S (2 * k) * GetPixelChannels)%nat by lia.
        rewrite !list_lookup_insert_ne by (apply pixel_slot_ne; done).
        apply Hdone. lia.
    + intros i Hir Hig Hib.
      replace (2 * k * GetPixelChannels + GetPixelChannels)%nat
        with (S (2 * k) * GetPixelChannels)%nat by lia.
      rewrite !list_lookup_insert_ne by (symmetry; by apply slot_mod_ne).
      by apply Hrest.
  - exists 0%nat. simpl. split_and!; try done; try lia.
  - simpl. exists (dc_row c'), (dc_chroma_row c').
    split_and!; [done|done|done| |done].
    intros x Hx. apply Hdone. lia.
Qed.

(** X23.  The luma of a non-interlaced
    scanline.  For a row of an even number of pixels, a chroma row of at
    least half as many, and a scanline that holds the four samples of
    every pair of pixels, the non-interlaced decoder succeeds and keeps
    the lengths of both rows; pixel x of the row has sample [2 * x + 1]
    of the scanline in red, the scanline being U Y0 V Y1 pair by pair,
    and 0 in green and blue; the quantums of the row that are no red,
    green or blue sample are kept. *)
Theorem decode_noninterlaced_row_luma (quantum pairs chroma_columns : Z)
    (scanline : list Z) (row chroma_row : PixelRow) :
  component_map_wf component_map →
  quantum = 1 ∨ quantum = 2 →
  0 ≤ pairs ≤ chroma_columns →
  length row = (Z.to_nat (2 * pairs) * GetPixelChannels)%nat →
  length chroma_row = (Z.to_nat chroma_columns * GetPixelChannels)%nat →
  (4 * Z.to_nat pairs * Z.to_nat quantum ≤ length scanline)%nat →
  ∃ row' chroma_row',
    decode_noninterlaced_row quantum (2 * pairs) scanline row chroma_row
    = Some (row', chroma_row') ∧
    length row' = length row ∧
    length chroma_row' = length chroma_row ∧
    (∀ x : nat, (x < Z.to_nat (2 * pairs))%nat →
       GetPixelRed row' (x * GetPixelChannels)
       = sample_at quantum scanline (2 * x + 1) ∧
       GetPixelGreen row' (x * GetPixelChannels) = Some 0 ∧
       GetPixelBlue row' (x * GetPixelChannels) = Some 0) ∧
    (∀ i : nat,
       (i mod GetPixelChannels)%nat ≠ RedPixelComponent component_map →
       (i mod GetPixelChannels)%nat ≠ GreenPixelComponent component_map →
       (i mod GetPixelChannels)%nat ≠ BluePixelComponent component_map →
       row' !! i = row !! i).
Proof. apply decode_noninterlaced_row_spec. Qed.

(** X24.  What the first frame reads in
    the non-interlaced layout.  The image has an even number W of columns
    and H rows, the chroma image at least W / 2 columns and H rows, and
    the stream holds the [2 * quantum * W * H] bytes of the frame.  Then
    read_planes ends normally, takes exactly those bytes from the blob, a
    scanline of [2 * quantum * W] bytes for every row, and leaves the
    end-of-file mark as it was; pixel (x, y) of the image has sample
    [y * 2 * W + 2 * x + 1] of the stream in red and 0 in green and blue.
    No chroma plane follows the rows. *)
Theorem read_planes_noninterlaced_layout (quantum pairs : Z)
    (st : ReaderState) (stream : list Z) :
  component_map_wf component_map →
  quantum = 1 ∨ quantum = 2 →
  rs_previous st = [] →
  rs_blob st = Some stream →
  shaped (rs_image st) → shaped (rs_chroma_image st) →
  columns (rs_image st) = 2 * pairs →
  pairs ≤ columns (rs_chroma_image st) →
  rows (rs_image st) ≤ rows (rs_chroma_image st) →
  (Z.to_nat (2 * quantum * columns (rs_image st))
   ≤ length (rs_scanline st))%nat →
  let width := Z.to_nat (columns (rs_image st)) in
  let height := Z.to_nat (rows (rs_image st)) in
  (2 * width * height * Z.to_nat quantum ≤ length stream)%nat →
  ∃ st',
    read_planes quantum NoInterlace st = (Ok (), st') ∧
    rs_blob st'
    = Some (drop (2 * width * height * Z.to_nat quantum) stream) ∧
    rs_eof st' = rs_eof st ∧
    (∀ x y : nat, (x < width)%nat → (y < height)%nat →
       ∃ row,
         pixels (rs_image st') !! y = Some row ∧
         GetPixelRed row (x * GetPixelChannels)
         = sample_at quantum stream (y * (2 * width) + (2 * x + 1)) ∧
         GetPixelGreen row (x * GetPixelChannels) = Some 0 ∧
         GetPixelBlue row (x * GetPixelChannels) = Some 0).
Proof.
  intros Hwf Hquantum Hfirst Hblob Himage Hchroma Heven Hpairs Hrows'
    Hscanline width height Hstream.
  pose proof Himage as (Hcolumns & Hrows & Hheight & Hall).
  pose proof Hchroma as (Hcc & Hcr & Hcheight & Hcall).
  set (size := (2 * width * Z.to_nat quantum)%nat).
  assert (Z.to_nat (2 * quantum * columns (rs_image st)) = size) as Hsize
    by (unfold size, width; rewrite !Z2Nat.inj_mul by lia; lia).
  unfold read_planes.
  rewrite !(decide_False (P := NoInterlace = PartitionInterlace)) by done.
  rewrite (decide_False (P := NoInterlace ≠ NoInterlace))
    by (intros Hne; by apply Hne).
  rewrite bind_ret. unfold read_image_rows.
  unfold mbind at 1, M_bind at 1.
  unfold mbind at 1, M_bind at 1, get at 1.
  set (Inv := λ (y : Z) (s : ReaderState), ∃ decoded marked,
    rs_blob s = Some (drop (Z.to_nat y * size) stream) ∧
    rs_eof s = rs_eof st ∧
    length (rs_scanline s) = length (rs_scanline st) ∧
    rs_previous s = [] ∧
    rs_image s = set_pixels decoded (rs_image st) ∧
    length decoded = length (pixels (rs_image st)) ∧
    (∀ j : nat, (Z.to_nat y ≤ j)%nat →
       decoded !! j = pixels (rs_image st) !! j) ∧
    rs_chroma_image s = set_pixels marked (rs_chroma_image st) ∧
    length marked = length (pixels (rs_chroma_image st)) ∧
    Forall (λ row, length row
                   = (Z.to_nat (columns (rs_chroma_image st))
                      * GetPixelChannels)%nat) marked ∧
    (∀ x j : nat, (x < width)%nat → (j < Z.to_nat y)%nat →
       ∃ row,
         decoded !! j = Some row ∧
         GetPixelRed row (x * GetPixelChannels)
         = sample_at quantum stream (j * (2 * width) + (2 * x + 1)) ∧
         GetPixelGreen row (x * GetPixelChannels) = Some 0 ∧
         GetPixelBlue row (x * GetPixelChannels) = Some 0)).
  match goal with
  | |- context [for_rows ?limit ?body] =>
      destruct (for_rows_run Inv body limit st)
        as (s & Hrun & decoded & marked & Hrest & Heof & _ & _ & Htarget
            & _ & _ & _ & _ & _ & Hdone)
  end.
  - done.
  - intros y s (decoded & marked & Hrest & Heof & Hlength & Hprevious
                & Htarget & Hdecoded & Hkept & Hother & Hmarked & Hshapes
                & Hdone) Hy.
    rewrite (decide_True (P := NoInterlace = NoInterlace)) by done.
    destruct (ReadBlob_run (2 * quantum * columns (rs_image st)) s
                (drop (Z.to_nat y * size) stream))
      as (s' & Hread & Hrest' & Heof' & _ & Hprefix & Hlength' & _
          & Hprevious' & _ & Himage' & Hchroma'); [done|lia|lia|].
    rewrite Hsize in Hrest', Heof', Hprefix.
    destruct (lookup_lt_is_Some_2 (pixels (rs_image st)) (Z.to_nat y))
      as [row Hrow]; [lia|].
    destruct (lookup_lt_is_Some_2 marked (Z.to_nat y))
      as [chroma_row Hchroma_row]; [lia|].
    assert (size ≤ length (rs_scanline s'))%nat as Hroom by lia.
    destruct (decode_noninterlaced_row_spec quantum pairs
                (columns (rs_chroma_image st)) (rs_scanline s') row
                chroma_row)
      as (row' & chroma_row' & Hdecode & Hlen & Hlen' & Hpixels & _);
      try done.
    { lia. }
    { rewrite <- Heven. by apply (Forall_lookup_1 _ _ _ _ Hall Hrow). }
    { by apply (Forall_lookup_1 _ _ _ _ Hshapes Hchroma_row). }
    { unfold size, width in Hroom. rewrite Heven in Hroom.
      rewrite Z2Nat.inj_mul in Hroom by lia. lia. }
    unfold mbind at 1, M_bind at 1, gets at 1.
    unfold mbind at 1, M_bind at 1, read_scanline at 1.
    unfold mbind at 1, M_bind at 1, get at 1.
    rewrite decide_True by (by right).
    rewrite Htarget. cbn [columns set_pixels]. rewrite Hread.
    unfold mbind at 1, M_bind at 1, get at 1.
    rewrite Himage', Hchroma', Htarget, Hother.
    cbn [pixels columns set_pixels].
    rewrite Hkept, Hrow, Hchroma_row by done.
    rewrite Heven, Hdecode. rewrite defined_Some, bind_ret.
    eexists. split; [reflexivity|].
    exists (<[Z.to_nat y := row']> decoded),
      (<[Z.to_nat y := chroma_row']> marked).
    replace (Z.to_nat (y + 1)) with (S (Z.to_nat y)) by lia.
    cbn [rs_blob rs_eof rs_scanline rs_previous rs_image rs_chroma_image
         rs_set_images].
    rewrite Himage', Hchroma', Htarget, Hother.
    split_and!.
    + rewrite Hrest', drop_drop. do 2 f_equal. lia.
    + rewrite Heof', Heof, length_drop.
      rewrite bool_decide_eq_false_2, orb_false_r; [done|].
      unfold size, height in *. nia.
    + congruence.
    + congruence.
    + done.
    + by rewrite length_insert.
    + intros j Hj. rewrite list_lookup_insert_ne by lia. apply Hkept. lia.
    + done.
    + by rewrite length_insert.
    + apply Forall_insert; [done|].
      rewrite Hlen'. by apply (Forall_lookup_1 _ _ _ _ Hshapes Hchroma_row).
    + intros x j Hx Hj.
      destruct (decide (j = Z.to_nat y)) as [->|Hne].
      * exists row'.
        rewrite list_lookup_insert_eq by lia.
        destruct (Hpixels x) as (Hred & Hgreen & Hblue).
        { rewrite <- Heven. exact Hx. }
        split_and!; try done. rewrite Hred.
        eapply sample_at_window; [done|exact Hprefix| | |].
        -- unfold size. lia.
        -- unfold size. nia.
        -- unfold size, height in *. nia.
      * rewrite list_lookup_insert_ne by done. apply Hdone; [done|lia].
  - exists (pixels (rs_image st)), (pixels (rs_chroma_image st)).
    rewrite !set_pixels_same. split_and!; try done.
    intros x j Hx Hj. simpl in Hj. lia.
  - exists s. split_and!.
    + rewrite Hrun. done.
    + rewrite Hrest. do 2 f_equal. unfold size, height. lia.
    + done.
    + intros x y Hx Hy. rewrite Htarget. simpl.
      apply Hdone; [done|]. unfold height in Hy. lia.
Qed.
End NonInterlacedLuma.

Lemma decode_noninterlaced_row_luma_witness :
  let scanline := [10; 20; 30; 40] in
  let row := [0; 0; 0; 0; 0; 0; 0; 0] in
  let chroma_row := [0; 0; 0; 0] in
  (component_map_wf (component_map (MagickCore := Reference.Q16)) ∧
   (1 = 1 ∨ 1 = 2) ∧
   0 ≤ 1 ≤ 1 ∧
   length row
   = (Z.to_nat (2 * 1) * GetPixelChannels (H := Reference.Q16))%nat ∧
   length chroma_row
   = (Z.to_nat 1 * GetPixelChannels (H := Reference.Q16))%nat ∧
   (4 * Z.to_nat 1 * Z.to_nat 1 ≤ length scanline)%nat) ∧
  ∃ row' chroma_row',
    decode_noninterlaced_row (H := Reference.Q16) 1 (2 * 1) scanline
      row chroma_row = Some (row', chroma_row') ∧
    length row' = length row ∧
    length chroma_row' = length chroma_row ∧
    (∀ x : nat, (x < Z.to_nat (2 * 1))%nat →
       GetPixelRed (H := Reference.Q16) row'
         (x * GetPixelChannels (H := Reference.Q16))
       = sample_at (H := Reference.Q16) 1 scanline (2 * x + 1) ∧
       GetPixelGreen (H := Reference.Q16) row'
         (x * GetPixelChannels (H := Reference.Q16)) = Some 0 ∧
       GetPixelBlue (H := Reference.Q16) row'
         (x * GetPixelChannels (H := Reference.Q16)) = Some 0) ∧
    (∀ i : nat,
       (i mod GetPixelChannels (H := Reference.Q16))%nat
       ≠ RedPixelComponent (component_map (MagickCore := Reference.Q16)) →
       (i mod GetPixelChannels (H := Reference.Q16))%nat
       ≠ GreenPixelComponent
           (component_map (MagickCore := Reference.Q16)) →
       (i mod GetPixelChannels (H := Reference.Q16))%nat
       ≠ BluePixelComponent (component_map (MagickCore := Reference.Q16)) →
       row' !! i = row !! i).
Proof.
  intros scanline row chroma_row.
  assert (0 ≤ 1 ≤ 1) as Hpairs by lia.
  assert (4 * Z.to_nat 1 * Z.to_nat 1 ≤ length scanline)%nat as Hscanline
    by (simpl; lia).
  split.
  - split_and!; try done; [exact Q16_component_map_wf|by left].
  - exact (decode_noninterlaced_row_luma (H := Reference.Q16) 1 1 1
             scanline row chroma_row Q16_component_map_wf
             (or_introl eq_refl) Hpairs eq_refl eq_refl Hscanline).
Defined.

Lemma read_planes_noninterlaced_layout_witness :
  let st := FrameExamples.row_state in
  let stream := [10; 20; 30; 40; 50; 60; 70; 80] in
  (component_map_wf (component_map (MagickCore := Reference.Q16)) ∧
   (1 = 1 ∨ 1 = 2) ∧
   rs_previous st = [] ∧
   rs_blob st = Some stream ∧
   shaped (H := Reference.Q16) (rs_image st) ∧
   shaped (H := Reference.Q16) (rs_chroma_image st) ∧
   columns (rs_image st) = 2 * 1 ∧
   1 ≤ columns (rs_chroma_image st) ∧
   rows (rs_image st) ≤ rows (rs_chroma_image st) ∧
   (Z.to_nat (2 * 1 * columns (rs_image st))
    ≤ length (rs_scanline st))%nat ∧
   (2 * 2 * 2 * Z.to_nat 1 ≤ length stream)%nat) ∧
  ∃ st',
    read_planes (H := Reference.Q16) 1 NoInterlace st = (Ok (), st') ∧
    rs_blob st' = Some (drop (2 * 2 * 2 * Z.to_nat 1) stream) ∧
    rs_eof st' = rs_eof st ∧
    (∀ x y : nat, (x < 2)%nat → (y < 2)%nat →
       ∃ row,
         pixels (rs_image st') !! y = Some row ∧
         GetPixelRed (H := Reference.Q16) row
           (x * GetPixelChannels (H := Reference.Q16))
         = sample_at (H := Reference.Q16) 1 stream
             (y * (2 * 2) + (2 * x + 1)) ∧
         GetPixelGreen (H := Reference.Q16) row
           (x * GetPixelChannels (H := Reference.Q16)) = Some 0 ∧
         GetPixelBlue (H := Reference.Q16) row
           (x * GetPixelChannels (H := Reference.Q16)) = Some 0).
Proof.
  intros st stream.
  assert (shaped (H := Reference.Q16) (rs_image st)) as Himage
    by (repeat split; try done; repeat constructor).
  assert (shaped (H := Reference.Q16) (rs_chroma_image st)) as Hchroma
    by (repeat split; try done; repeat constructor).
  assert (1 ≤ columns (rs_chroma_image st)) as Hpairs by done.
  assert (rows (rs_image st) ≤ rows (rs_chroma_image st)) as Hrows by done.
  assert (Z.to_nat (2 * 1 * columns (rs_image st))
          ≤ length (rs_scanline st))%nat as Hscanline by (simpl; lia).
  assert (2 * 2 * 2 * Z.to_nat 1 ≤ length stream)%nat as Hstream
    by (simpl; lia).
  split.
  - split_and!; try done; [exact Q16_component_map_wf|by left].
  - exact (read_planes_noninterlaced_layout (H := Reference.Q16) 1 1 st
             stream Q16_component_map_wf (or_introl eq_refl) eq_refl
             eq_refl Himage Hchroma eq_refl Hpairs Hrows Hscanline
             Hstream).
Defined.
